(** * Raven fleet manager: a shallow embedding of the fleet core

    The development follows the TypeScript sources of the fleet core:

    - [src/fleet/ssh-transport.ts]  (module [Transport])
    - [src/fleet/host-keys.ts]      (module [HostKeys])
    - [src/fleet/types.ts], [src/fleet/store.ts]   (module [Store])
    - [src/fleet/bootstrap/plan-builder.ts]        (module [PlanBuilder])
    - [src/fleet/bootstrap/executor.ts]            (module [Executor])
    - [src/commands/fleet/status.ts]               (modules [Diagnostics],
                                                     [StatusCommand])
    - [src/fleet/bootstrap/preflight.ts]           (module [Preflight])
    - [src/fleet/bootstrap/index.ts]               (module [Bootstrap])
    - [src/commands/fleet/add.ts], [rm.ts], [ping.ts]
                              (modules [AddCommand], [RmCommand], [PingCommand])

    JavaScript strings are lists of UTF-16 code units; the asynchronous
    functions run sequentially in a state-and-exception monad over a
    [world] that holds the two files of the fleet directory, the child
    processes spawned so far, the clock and the supply of random UUIDs.
    The first part of the file holds the definitions, the second part the
    lemmas and theorems. *)

From Stdlib Require Import List NArith ZArith Bool String Ascii Lia.
Import ListNotations.

Set Implicit Arguments.

(* ===================================================================== *)
(** * Part I: definitions                                                 *)
(* ===================================================================== *)

(** ** JavaScript strings *)

Module JsString.

(** A UTF-16 code unit, and a string: a list of code units. *)
Abbreviation char := N (only parsing).
Abbreviation jsstring := (list N) (only parsing).

(** An ASCII literal as a JavaScript string. *)
Definition js (s : string) : jsstring :=
  map N_of_ascii (list_ascii_of_string s).

Fixpoint str_eqb (a b : jsstring) : bool :=
  match a, b with
  | [], [] => true
  | x :: a', y :: b' => (x =? y)%N && str_eqb a' b'
  | _, _ => false
  end.

(** [!s] on a string: true exactly on the empty string. *)
Definition is_empty (s : jsstring) : bool :=
  match s with [] => true | _ => false end.

(** ECMAScript WhiteSpace and LineTerminator code points: the class
    [\s] of regular expressions and the characters [trim] strips. *)
Definition is_ws (c : char) : bool :=
  ((9 <=? c) && (c <=? 13) || (c =? 32) || (c =? 160) || (c =? 5760)
   || (8192 <=? c) && (c <=? 8202) || (c =? 8232) || (c =? 8233)
   || (c =? 8239) || (c =? 8287) || (c =? 12288) || (c =? 65279))%N.

(** LineTerminator: what [.] does not match. *)
Definition is_line_terminator (c : char) : bool :=
  ((c =? 10) || (c =? 13) || (c =? 8232) || (c =? 8233))%N.

Definition is_digit (c : char) : bool := ((48 <=? c) && (c <=? 57))%N.
Definition is_upper (c : char) : bool := ((65 <=? c) && (c <=? 90))%N.
Definition is_lower (c : char) : bool := ((97 <=? c) && (c <=? 122))%N.
Definition is_ascii (c : char) : bool := (c <? 128)%N.

Fixpoint dropWhile (p : char -> bool) (s : jsstring) : jsstring :=
  match s with
  | [] => []
  | c :: r => if p c then dropWhile p r else s
  end.

Definition trimStart (s : jsstring) : jsstring := dropWhile is_ws s.
Definition trimEnd (s : jsstring) : jsstring := rev (dropWhile is_ws (rev s)).

(** [String.prototype.trim]. *)
Definition trim (s : jsstring) : jsstring := trimEnd (trimStart s).

(** [s.startsWith(p)]. *)
Fixpoint startsWith (p s : jsstring) : bool :=
  match p, s with
  | [], _ => true
  | x :: p', y :: s' => (x =? y)%N && startsWith p' s'
  | _ :: _, [] => false
  end.

(** [s.includes(p)]. *)
Fixpoint includes (p s : jsstring) : bool :=
  startsWith p s || match s with [] => false | _ :: r => includes p r end.

(** [s.split(sep)] for a one-character separator: the current piece is
    accumulated in [cur]. *)
Fixpoint split_char_from (sep : char) (cur s : jsstring) : list jsstring :=
  match s with
  | [] => [cur]
  | c :: r => if (c =? sep)%N then cur :: split_char_from sep [] r
              else split_char_from sep (cur ++ [c]) r
  end.

Definition split_char (sep : char) (s : jsstring) : list jsstring :=
  split_char_from sep [] s.

(** [s.split(/\s+/)]: a maximal run of white space separates two pieces;
    [inws] records that the previous character belonged to a run. *)
Fixpoint split_ws_from (cur : jsstring) (inws : bool) (s : jsstring)
  : list jsstring :=
  match s with
  | [] => [cur]
  | c :: r =>
      if is_ws c
      then if inws then split_ws_from cur true r
           else cur :: split_ws_from [] true r
      else split_ws_from (cur ++ [c]) false r
  end.

Definition split_ws (s : jsstring) : list jsstring := split_ws_from [] false s.

(** [parts.join(sep)]. *)
Fixpoint join (sep : jsstring) (parts : list jsstring) : jsstring :=
  match parts with
  | [] => []
  | [p] => p
  | p :: rest => p ++ sep ++ join sep rest
  end.

Definition lower_ascii (c : char) : char := if is_upper c then (c + 32)%N else c.

(** Decimal digits of a natural number, most significant first; [fuel]
    bounds the number of digits. *)
Fixpoint digits_fuel (fuel : nat) (n : N) : jsstring :=
  match fuel with
  | O => []
  | S f => if (n <? 10)%N then [(48 + n)%N]
           else digits_fuel f (n / 10)%N ++ [(48 + n mod 10)%N]
  end.

Definition digits (n : N) : jsstring := digits_fuel (S (N.to_nat (N.log2 n))) n.

(** *** Numbers

    A Number that holds an integer is written as the integer it holds,
    and [2^1024] stands for [Infinity].  Every integer below [2^53] in
    absolute value is a Number; above, the Numbers are the integers with
    53 significant bits. *)

(** The Number nearest to a natural number: the number itself below
    [2^53], else its 53 leading bits rounded to nearest, ties to the even
    significand; a result of [2^1024] or more is [Infinity]. *)
Definition to_double (n : N) : N :=
  if (2 ^ 53 <=? n)%N then
    let e := (N.size n - 53)%N in
    let q := N.shiftr n e in
    let r := (n - N.shiftl q e)%N in
    let half := N.shiftl 1 (e - 1) in
    let q' := if (half <? r)%N || ((r =? half)%N && N.odd q) then (q + 1)%N else q in
    let v := N.shiftl q' e in
    if (2 ^ 1024 <=? v)%N then (2 ^ 1024)%N else v
  else n.

(** The shortest decimal that reads back as the Number [v]: the digits
    [s] and the power of ten [j] with [s * 10^j] nearest to [v] among the
    decimals of that length, ties to the even [s].  The search goes from
    the largest power of ten down; at [j = 0] the Number itself is
    found. *)
Fixpoint shortest_from (v : N) (j : nat) : N * nat :=
  let p := (10 ^ N.of_nat j)%N in
  let lo := (v / p)%N in
  let hi := (lo + 1)%N in
  let lo_ok := (0 <? lo)%N && (to_double (lo * p) =? v)%N in
  let hi_ok := (to_double (hi * p) =? v)%N in
  let found :=
    if lo_ok && hi_ok then
      let below := (v - lo * p)%N in
      let above := (hi * p - v)%N in
      if (below <? above)%N then Some lo
      else if (above <? below)%N then Some hi
      else if N.even lo then Some lo else Some hi
    else if lo_ok then Some lo
    else if hi_ok then Some hi
    else None in
  match found, j with
  | Some s, _ => (s, j)
  | None, S j' => shortest_from v j'
  | None, O => (v, O)
  end.

(** [Number::toString] on a finite Number of [2^53] or more: the digits
    followed by zeros up to 21 digits, the exponent form from [1e+21]
    on. *)
Definition show_large (v : N) : jsstring :=
  let '(s, j) := shortest_from v (List.length (digits v)) in
  let d := digits s in
  let n := (List.length d + j)%nat in
  if (n <=? 21)%nat then d ++ List.repeat 48%N j
  else
    match d with
    | [] => []
    | c :: rest =>
        (c :: match rest with [] => [] | _ => 46%N :: rest end)
          ++ js "e+" ++ digits (N.of_nat (n - 1))
    end.

(** [String(n)] / [`${n}`] on a natural number: its decimal digits below
    [2^53], where every integer is a Number. *)
Definition show_N (n : N) : jsstring :=
  if (2 ^ 53 <=? n)%N then
    let v := to_double n in
    if (2 ^ 1024 =? v)%N then js "Infinity" else show_large v
  else digits n.

(** [String(z)] / [`${z}`] on an integer. *)
Definition show (z : Z) : jsstring :=
  match z with
  | Zneg p => 45%N :: show_N (Npos p)
  | _ => show_N (Z.to_N z)
  end.

(** [Number.parseInt(d, 10)] on a string of decimal digits: the Number
    nearest to the integer that the digits denote.  (Beyond 20 significant
    digits ECMAScript lets an implementation replace the further digits by
    zeros before it rounds; the rounding of the integer itself is taken
    here.) *)
Definition parseInt (d : jsstring) : Z :=
  Z.of_N (to_double (fold_left (fun acc c => (10 * acc + (c - 48))%N) d 0%N)).

End JsString.
Import JsString.

(** ** JSON values *)

Module Json.

(** A number of the JavaScript runtime, as far as the fleet code looks at
    it: an integer, a finite double with a fractional part (of which only
    [Math.floor] is kept), or one of the two infinities that [JSON.parse]
    produces on overflow. *)
Inductive number :=
| Int (z : Z)
| Frac (floor : Z)
| Infinite (negative : bool).

(** The result of [JSON.parse]; an object is the list of its members and
    a member is looked up by its key. *)
#[local] Unset Elimination Schemes.
Inductive json :=
| JNull
| JBool (b : bool)
| JNum (n : number)
| JStr (s : jsstring)
| JArr (items : list json)
| JObj (members : list (jsstring * json)).
#[local] Set Elimination Schemes.

(** [obj[key]]: [None] is [undefined]. *)
Fixpoint member (key : jsstring) (members : list (jsstring * json)) : option json :=
  match members with
  | [] => None
  | (k, v) :: rest => if str_eqb k key then Some v else member key rest
  end.

End Json.
Import Json.

(** ** The JavaScript runtime and the libraries outside the repository *)

(** What the code takes from the runtime and from the zod library and what
    the development does not define itself. *)
Class Runtime := {
  (** [String.prototype.toLowerCase] on a string with a code unit outside
      ASCII (on ASCII strings see [toLowerCase]). *)
  unicode_lower : jsstring -> jsstring;
  (** zod's [z.string().uuid()] check. *)
  is_uuid : jsstring -> bool;
  (** zod's [z.string().datetime()] check. *)
  is_datetime : jsstring -> bool;
  (** [new Date(ms).toISOString()]. *)
  toISOString : Z -> jsstring;
  (** [JSON.parse]: [None] when it raises a SyntaxError. *)
  JSON_parse : jsstring -> option json
}.

(** [String.prototype.toLowerCase]. *)
Definition toLowerCase `{Runtime} (s : jsstring) : jsstring :=
  if forallb is_ascii s then map lower_ascii s else unicode_lower s.

(** ** The world: files, child processes, clock *)

Module World.

(** The text of [nodes.json], kept as what [JSON.parse] makes of it
    ([None]: the text is not JSON).  [JSON.stringify] followed by
    [JSON.parse] gives back the value that was written, members whose
    value is [undefined] left out. *)
Inductive json_file :=
| JsonAbsent
| JsonUnreadable
| JsonText (parsed : option json).

(** The [known_hosts] file. *)
Inductive text_file :=
| TextAbsent
| TextUnreadable
| Text (content : jsstring).

(** [spawn(file, args, ...)]. *)
Record spawn_call := { spawn_file : jsstring; spawn_args : list jsstring }.

(** What a spawned child does, as the parent observes it. *)
Inductive child_outcome :=
(** the ['exit'] event arrives before the timer fires *)
| Exits (out err : jsstring) (exitCode : option Z) (signal : option jsstring)
        (elapsed : Z)
(** the child is still running when the timer fires *)
| Hangs (out err : jsstring)
(** the ['error'] event arrives (the child could not be spawned) *)
| Fails (out err : jsstring) (message : jsstring) (elapsed : Z).

Record world := {
  nodes_file : json_file;
  known_hosts_file : text_file;
  (** child processes spawned so far, oldest first *)
  spawned : list spawn_call;
  (** behaviour of the n-th child process *)
  children : nat -> child_outcome;
  (** [Date.now()], milliseconds *)
  clock : Z;
  (** [crypto.randomUUID()]: the values it returns and how many were taken *)
  uuids : nat -> jsstring;
  uuids_taken : nat;
  (** calls made to the caller's [onProgress]: step id and status *)
  progress : list (jsstring * jsstring)
}.

Definition set_nodes_file (f : json_file) (w : world) : world :=
  {| nodes_file := f; known_hosts_file := known_hosts_file w;
     spawned := spawned w; children := children w; clock := clock w;
     uuids := uuids w; uuids_taken := uuids_taken w; progress := progress w |}.

Definition set_known_hosts_file (f : text_file) (w : world) : world :=
  {| nodes_file := nodes_file w; known_hosts_file := f;
     spawned := spawned w; children := children w; clock := clock w;
     uuids := uuids w; uuids_taken := uuids_taken w; progress := progress w |}.

Definition record_spawn (c : spawn_call) (dt : Z) (w : world) : world :=
  {| nodes_file := nodes_file w; known_hosts_file := known_hosts_file w;
     spawned := spawned w ++ [c]; children := children w;
     clock := (clock w + dt)%Z;
     uuids := uuids w; uuids_taken := uuids_taken w; progress := progress w |}.

Definition take_uuid (w : world) : world :=
  {| nodes_file := nodes_file w; known_hosts_file := known_hosts_file w;
     spawned := spawned w; children := children w; clock := clock w;
     uuids := uuids w; uuids_taken := S (uuids_taken w); progress := progress w |}.

Definition record_progress (call : jsstring * jsstring) (w : world) : world :=
  {| nodes_file := nodes_file w; known_hosts_file := known_hosts_file w;
     spawned := spawned w; children := children w; clock := clock w;
     uuids := uuids w; uuids_taken := uuids_taken w;
     progress := progress w ++ [call] |}.

(** A settled promise: fulfilled with a value or rejected with an
    [Error] (its message). *)
Inductive outcome (A : Type) :=
| Return (a : A)
| Throw (message : jsstring).
Arguments Return {A} a.
Arguments Throw {A} message.

Definition M (A : Type) := world -> outcome A * world.

Definition ret {A} (a : A) : M A := fun w => (Return a, w).
Definition throw {A} (message : jsstring) : M A := fun w => (Throw message, w).
Definition bind {A B} (m : M A) (k : A -> M B) : M B :=
  fun w => match m w with
           | (Return a, w') => k a w'
           | (Throw e, w') => (Throw e, w')
           end.
(** [try { m } catch (err) { handler(err.message) }]. *)
Definition try_catch {A} (m : M A) (handler : jsstring -> M A) : M A :=
  fun w => match m w with
           | (Return a, w') => (Return a, w')
           | (Throw e, w') => handler e w'
           end.

Definition Date_now : M Z := fun w => (Return (clock w), w).

Definition randomUUID : M jsstring :=
  fun w => (Return (uuids w (uuids_taken w)), take_uuid w).

Definition time_waited (c : child_outcome) (timeoutMs : Z) : Z :=
  match c with
  | Exits _ _ _ _ elapsed => elapsed
  | Hangs _ _ => timeoutMs
  | Fails _ _ _ elapsed => elapsed
  end.

(** [spawn(file, args)] followed by the wait for the child: the call is
    recorded, the child's behaviour is read off the world, and the clock
    moves by the time the wait took ([timeoutMs] when the timer fires). *)
Definition spawn_and_wait (file : jsstring) (args : list jsstring) (timeoutMs : Z)
  : M child_outcome :=
  fun w =>
    let c := children w (List.length (spawned w)) in
    (Return c,
     record_spawn {| spawn_file := file; spawn_args := args |}
                  (time_waited c timeoutMs) w).

Definition read_nodes_file : M json_file := fun w => (Return (nodes_file w), w).
Definition write_nodes_file (f : json_file) : M unit :=
  fun w => (Return tt, set_nodes_file f w).
Definition read_known_hosts_file : M text_file :=
  fun w => (Return (known_hosts_file w), w).
Definition write_known_hosts_file (f : text_file) : M unit :=
  fun w => (Return tt, set_known_hosts_file f w).
Definition notify_progress (step_id status : jsstring) : M unit :=
  fun w => (Return tt, record_progress (step_id, status) w).

End World.
Import World.

Notation "x <- m ;; k" := (bind m (fun x => k))
  (at level 61, m at next level, right associativity).
Notation "m ;;; k" := (bind m (fun _ => k))
  (at level 61, right associativity).

(** ** src/fleet/ssh-transport.ts *)

Module Transport.

Record SshExecResult := {
  stdout : jsstring;
  stderr : jsstring;
  exitCode : option Z;
  signal : option jsstring;
  timedOut : bool
}.

Inductive StrictHostKeyChecking := CheckYes | CheckNo | CheckAcceptNew.

Definition strict_mode_string (m : StrictHostKeyChecking) : jsstring :=
  match m with
  | CheckYes => js "yes"
  | CheckNo => js "no"
  | CheckAcceptNew => js "accept-new"
  end.

Record SshExecOptions := {
  host : jsstring;
  port : Z;
  user : jsstring;
  command : jsstring;
  timeoutMs : Z;
  knownHostsPath : jsstring;
  strictHostKeyChecking : StrictHostKeyChecking
}.

Definition sshExec (opts : SshExecOptions) : M SshExecResult :=
  if startsWith (js "-") (host opts) then
    ret {| stdout := []; stderr := js "Host cannot start with '-' (security)";
           exitCode := Some 1%Z; signal := None; timedOut := false |}
  else
    let userHost := user opts ++ js "@" ++ host opts in
    let args :=
      [ js "-o"; js "BatchMode=yes";
        js "-o"; js "ConnectTimeout=5";
        js "-o"; js "StrictHostKeyChecking=" ++ strict_mode_string (strictHostKeyChecking opts);
        js "-o"; js "UserKnownHostsFile=" ++ knownHostsPath opts;
        js "-o"; js "ServerAliveInterval=15";
        js "-o"; js "ServerAliveCountMax=3";
        js "-p"; show (port opts);
        js "--"; userHost; command opts ] in
    child <- spawn_and_wait (js "/usr/bin/ssh") args (timeoutMs opts) ;;
    match child with
    | Exits out err code sig _ =>
        ret {| stdout := out; stderr := err; exitCode := code; signal := sig;
               timedOut := false |}
    | Hangs out err =>
        (* the timer sets [timedOut] and kills the child; its ['exit']
           event then reports the signal *)
        ret {| stdout := out; stderr := err; exitCode := None;
               signal := Some (js "SIGKILL"); timedOut := true |}
    | Fails out _ message _ =>
        ret {| stdout := out; stderr := js "SSH error: " ++ message;
               exitCode := Some 1%Z; signal := None; timedOut := false |}
    end.

Record KeyscanResult := {
  output : jsstring;
  scanExitCode : option Z;
  error : option jsstring
}.

(** [stderr.trim() || undefined]. *)
Definition nonempty_or_undefined (s : jsstring) : option jsstring :=
  if is_empty s then None else Some s.

Definition sshKeyscan (host : jsstring) (port : Z) (timeoutMs : Z) : M KeyscanResult :=
  if startsWith (js "-") host then
    ret {| output := []; scanExitCode := Some 1%Z;
           error := Some (js "Host cannot start with '-' (security)") |}
  else
    let args := [ js "-T"; js "5"; js "-p"; show port; host ] in
    child <- spawn_and_wait (js "/usr/bin/ssh-keyscan") args timeoutMs ;;
    match child with
    | Exits out err code _ _ =>
        ret {| output := out; scanExitCode := code;
               error := nonempty_or_undefined (trim err) |}
    | Hangs out _ =>
        ret {| output := out; scanExitCode := None;
               error := Some (js "ssh-keyscan timed out") |}
    | Fails out _ message _ =>
        ret {| output := out; scanExitCode := Some 1%Z;
               error := Some (js "ssh-keyscan error: " ++ message) |}
    end.

End Transport.

(** ** src/fleet/host-keys.ts *)

Module HostKeys.

Record HostKeyEntry := {
  host : jsstring;
  port : Z;
  keyType : jsstring;
  key : jsstring
}.

Definition formatHostEntry (host : jsstring) (port : Z) : jsstring :=
  if (port =? 22)%Z then host
  else js "[" ++ host ++ js "]:" ++ show port.

Fixpoint takeWhile (p : char -> bool) (s : jsstring) : jsstring :=
  match s with
  | [] => []
  | c :: r => if p c then c :: takeWhile p r else []
  end.

Definition not_close_bracket (c : char) : bool := negb (c =? 93)%N.

(** [entry.match(/^\[([^\]]+)\]:(\d+)$/)]: the two groups.  The first
    group cannot hold a closing bracket, so it is the longest run without
    one after the opening bracket. *)
Definition bracketMatch (entry : jsstring) : option (jsstring * jsstring) :=
  match entry with
  | open :: rest =>
      let h := takeWhile not_close_bracket rest in
      match dropWhile not_close_bracket rest with
      | close :: colon :: d =>
          if (open =? 91)%N && (close =? 93)%N && (colon =? 58)%N
             && negb (is_empty h) && negb (is_empty d) && forallb is_digit d
          then Some (h, d) else None
      | _ => None
      end
  | [] => None
  end.

Definition parseHostEntry (entry : jsstring) : jsstring * Z :=
  match bracketMatch entry with
  | Some (h, d) => (h, parseInt d)
  | None => (entry, 22%Z)
  end.

(** The body of the loop of [parseKnownHosts] on one line: [None] where
    the loop continues without pushing an entry. *)
Definition parseLine (line : jsstring) : option HostKeyEntry :=
  let trimmed := trim line in
  if is_empty trimmed || startsWith (js "#") trimmed then None
  else
    let parts := split_ws trimmed in
    if (List.length parts <? 3)%nat then None
    else
      let hostEntry := nth 0 parts [] in
      let keyType := nth 1 parts [] in
      let key := nth 2 parts [] in
      if is_empty hostEntry || is_empty keyType || is_empty key then None
      else
        let '(host, port) := parseHostEntry hostEntry in
        Some {| host := host; port := port; keyType := keyType; key := key |}.

Definition parseKnownHosts (content : jsstring) : list HostKeyEntry :=
  flat_map (fun line => match parseLine line with
                        | Some e => [e]
                        | None => []
                        end)
           (split_char 10%N content).

Definition formatLine (entry : HostKeyEntry) : jsstring :=
  formatHostEntry (host entry) (port entry) ++ js " " ++ keyType entry
    ++ js " " ++ key entry.

Definition formatKnownHosts (entries : list HostKeyEntry) : jsstring :=
  join (js "
") (map formatLine entries) ++ js "
".

Definition loadKnownHosts : M (list HostKeyEntry) :=
  f <- read_known_hosts_file ;;
  match f with
  | Text content => ret (parseKnownHosts content)
  | TextAbsent => ret []                       (* ENOENT *)
  | TextUnreadable => throw (js "EACCES")      (* any other error is rethrown *)
  end.

(** The temporary file and the rename make the write atomic: the file
    changes in one step. *)
Definition saveKnownHosts (entries : list HostKeyEntry) : M unit :=
  write_known_hosts_file (Text (formatKnownHosts entries)).

(** [e.host === entry.host && e.port === entry.port && e.keyType === entry.keyType]. *)
Definition same_tuple (entry e : HostKeyEntry) : bool :=
  str_eqb (host e) (host entry) && (port e =? port entry)%Z
  && str_eqb (keyType e) (keyType entry).

Definition pinHostKey (entry : HostKeyEntry) : M unit :=
  entries <- loadKnownHosts ;;
  let filtered := filter (fun e => negb (same_tuple entry e)) entries in
  saveKnownHosts (filtered ++ [entry]).

(** The body of the loop of [parseKeyscanOutput] on one line: the host
    field of the line is not looked at. *)
Definition parseKeyscanLine (host : jsstring) (port : Z) (line : jsstring)
  : option HostKeyEntry :=
  let trimmed := trim line in
  if is_empty trimmed || startsWith (js "#") trimmed then None
  else
    let parts := split_ws trimmed in
    if (List.length parts <? 3)%nat then None
    else
      let keyType := nth 1 parts [] in
      let key := nth 2 parts [] in
      if is_empty keyType || is_empty key then None
      else Some {| host := host; port := port; keyType := keyType; key := key |}.

Definition parseKeyscanOutput (output host : jsstring) (port : Z)
  : list HostKeyEntry :=
  flat_map (fun line => match parseKeyscanLine host port line with
                        | Some e => [e]
                        | None => []
                        end)
           (split_char 10%N output).

(** [e.host === host && e.port === port]. *)
Definition same_host (h : jsstring) (p : Z) (e : HostKeyEntry) : bool :=
  str_eqb (host e) h && (port e =? p)%Z.

Definition is_ed25519 (e : HostKeyEntry) : bool :=
  str_eqb (keyType e) (js "ssh-ed25519").

Definition is_rsa (e : HostKeyEntry) : bool :=
  str_eqb (keyType e) (js "ssh-rsa").

Definition getHostKey (h : jsstring) (p : Z) : M (option HostKeyEntry) :=
  entries <- loadKnownHosts ;;
  let matches := filter (same_host h p) entries in
  if (List.length matches =? 0)%nat then ret None
  else
    match find is_ed25519 matches with
    | Some ed25519 => ret (Some ed25519)
    | None =>
        match find is_rsa matches with
        | Some rsa => ret (Some rsa)
        | None => ret (nth_error matches 0)        (* matches[0] ?? null *)
        end
    end.

Definition removeHostKey (h : jsstring) (p : Z) : M bool :=
  entries <- loadKnownHosts ;;
  let filtered := filter (fun e => negb (same_host h p e)) entries in
  if (List.length filtered =? List.length entries)%nat then ret false
  else saveKnownHosts filtered ;;; ret true.


End HostKeys.

(** ** src/fleet/types.ts and src/fleet/store.ts *)

Module Store.

Inductive FleetOs := Darwin | Linux | OsUnknown.
Inductive FleetArch := X64 | Arm64 | ArchUnknown.
Inductive ServiceStatus := Running | Stopped | StatusUnknown.

Record Installed := { version : jsstring; installedAt : jsstring }.

Record FleetNode := {
  id : jsstring;
  name : jsstring;
  host : jsstring;
  port : Z;
  user : jsstring;
  trusted : bool;
  hostKey : option jsstring;
  tags : list jsstring;
  os : option FleetOs;
  arch : option FleetArch;
  installed : option Installed;
  lastSeen : option jsstring;
  serviceStatus : option ServiceStatus
}.

Record FleetStore := { schemaVersion : Z; nodes : list FleetNode }.

(** [Omit<FleetNode, "id">]; [trusted] and [tags] are options because
    [addNode] applies [??] to them. *)
Record AddNodeInput := {
  add_name : jsstring;
  add_host : jsstring;
  add_port : Z;
  add_user : jsstring;
  add_trusted : option bool;
  add_hostKey : option jsstring;
  add_tags : option (list jsstring);
  add_os : option FleetOs;
  add_arch : option FleetArch;
  add_installed : option Installed;
  add_lastSeen : option jsstring;
  add_serviceStatus : option ServiceStatus
}.

(** [Partial<Omit<FleetNode, "id" | "name">>]: [None] is [undefined]. *)
Record UpdateNodeInput := {
  upd_host : option jsstring;
  upd_port : option Z;
  upd_user : option jsstring;
  upd_trusted : option bool;
  upd_hostKey : option jsstring;
  upd_tags : option (list jsstring);
  upd_os : option FleetOs;
  upd_arch : option FleetArch;
  upd_installed : option Installed;
  upd_lastSeen : option jsstring;
  upd_serviceStatus : option ServiceStatus
}.

Definition createEmptyFleetStore : FleetStore :=
  {| schemaVersion := 1; nodes := [] |}.

(** [nodeNameRegex = /^[a-zA-Z0-9_-]+$/]. *)
Definition is_name_char (c : char) : bool :=
  is_lower c || is_upper c || is_digit c || (c =? 95)%N || (c =? 45)%N.

Definition nodeNameRegex_test (s : jsstring) : bool :=
  negb (is_empty s) && forallb is_name_char s.

(** *** What [JSON.stringify] writes *)

Definition os_string (o : FleetOs) : jsstring :=
  match o with Darwin => js "darwin" | Linux => js "linux" | OsUnknown => js "unknown" end.
Definition arch_string (a : FleetArch) : jsstring :=
  match a with X64 => js "x64" | Arm64 => js "arm64" | ArchUnknown => js "unknown" end.
Definition status_string (s : ServiceStatus) : jsstring :=
  match s with
  | Running => js "running" | Stopped => js "stopped" | StatusUnknown => js "unknown"
  end.

(** A member whose value is [undefined] is not written. *)
Definition opt_member {A} (key : jsstring) (to_json : A -> json) (v : option A)
  : list (jsstring * json) :=
  match v with
  | Some a => [(key, to_json a)]
  | None => []
  end.

Definition installed_to_json (i : Installed) : json :=
  JObj [(js "version", JStr (version i)); (js "installedAt", JStr (installedAt i))].

Definition node_members (n : FleetNode) : list (jsstring * json) :=
  [(js "id", JStr (id n));
   (js "name", JStr (name n));
   (js "host", JStr (host n));
   (js "port", JNum (Int (port n)));
   (js "user", JStr (user n));
   (js "trusted", JBool (trusted n))]
  ++ opt_member (js "hostKey") JStr (hostKey n)
  ++ [(js "tags", JArr (map JStr (tags n)))]
  ++ opt_member (js "os") (fun o => JStr (os_string o)) (os n)
  ++ opt_member (js "arch") (fun a => JStr (arch_string a)) (arch n)
  ++ opt_member (js "installed") installed_to_json (installed n)
  ++ opt_member (js "lastSeen") JStr (lastSeen n)
  ++ opt_member (js "serviceStatus") (fun s => JStr (status_string s))
                (serviceStatus n).

Definition node_to_json (n : FleetNode) : json := JObj (node_members n).

Definition store_to_json (s : FleetStore) : json :=
  JObj [(js "schemaVersion", JNum (Int (schemaVersion s)));
        (js "nodes", JArr (map node_to_json (nodes s)))].

(** *** The zod schemas *)

Definition obind {A B} (o : option A) (k : A -> option B) : option B :=
  match o with Some a => k a | None => None end.

Local Notation "x <-? o ;; k" := (obind o (fun x => k))
  (at level 61, o at next level, right associativity).

(** [z.string()] followed by a check. *)
Definition z_string (check : jsstring -> bool) (j : json) : option jsstring :=
  match j with
  | JStr s => if check s then Some s else None
  | _ => None
  end.

Definition z_boolean (j : json) : option bool :=
  match j with JBool b => Some b | _ => None end.

(** [z.number().int().min(1).max(65535)]. *)
Definition z_port (j : json) : option Z :=
  match j with
  | JNum (Int z) => if (1 <=? z)%Z && (z <=? 65535)%Z then Some z else None
  | _ => None
  end.

Fixpoint z_array {A} (item : json -> option A) (items : list json) : option (list A) :=
  match items with
  | [] => Some []
  | j :: rest =>
      a <-? item j ;;
      more <-? z_array item rest ;;
      Some (a :: more)
  end.

(** [schema.optional()] on an object member. *)
Definition z_optional {A} (schema : json -> option A) (v : option json)
  : option (option A) :=
  match v with
  | None => Some None
  | Some j => a <-? schema j ;; Some (Some a)
  end.

(** [schema.default(d)] on an object member. *)
Definition z_default {A} (schema : json -> option A) (d : A) (v : option json)
  : option A :=
  match v with
  | None => Some d
  | Some j => schema j
  end.

(** A required object member. *)
Definition z_required {A} (schema : json -> option A) (v : option json) : option A :=
  match v with
  | None => None
  | Some j => schema j
  end.

Definition FleetOsSchema (j : json) : option FleetOs :=
  match j with
  | JStr s => if str_eqb s (js "darwin") then Some Darwin
              else if str_eqb s (js "linux") then Some Linux
              else if str_eqb s (js "unknown") then Some OsUnknown
              else None
  | _ => None
  end.

Definition FleetArchSchema (j : json) : option FleetArch :=
  match j with
  | JStr s => if str_eqb s (js "x64") then Some X64
              else if str_eqb s (js "arm64") then Some Arm64
              else if str_eqb s (js "unknown") then Some ArchUnknown
              else None
  | _ => None
  end.

Definition ServiceStatusSchema (j : json) : option ServiceStatus :=
  match j with
  | JStr s => if str_eqb s (js "running") then Some Running
              else if str_eqb s (js "stopped") then Some Stopped
              else if str_eqb s (js "unknown") then Some StatusUnknown
              else None
  | _ => None
  end.

Definition min_length (n : nat) (s : jsstring) : bool := (n <=? List.length s)%nat.
Definition max_length (n : nat) (s : jsstring) : bool := (List.length s <=? n)%nat.

Section WithRuntime.
Context `{RT : Runtime}.

Definition InstalledSchema (j : json) : option Installed :=
  match j with
  | JObj m =>
      v <-? z_required (z_string (fun _ => true)) (member (js "version") m) ;;
      t <-? z_required (z_string is_datetime) (member (js "installedAt") m) ;;
      Some {| version := v; installedAt := t |}
  | _ => None
  end.

Definition FleetNodeSchema (j : json) : option FleetNode :=
  match j with
  | JObj m =>
      id <-? z_required (z_string is_uuid) (member (js "id") m) ;;
      name <-? z_required
                 (z_string (fun s => min_length 1 s && max_length 100 s
                                     && nodeNameRegex_test s))
                 (member (js "name") m) ;;
      host <-? z_required
                 (z_string (fun h => min_length 1 h && negb (startsWith (js "-") h)))
                 (member (js "host") m) ;;
      port <-? z_default z_port 22%Z (member (js "port") m) ;;
      user <-? z_required (z_string (min_length 1)) (member (js "user") m) ;;
      trusted <-? z_default z_boolean false (member (js "trusted") m) ;;
      hostKey <-? z_optional (z_string (fun _ => true)) (member (js "hostKey") m) ;;
      tags <-? z_default
                 (fun j => match j with
                           | JArr items => z_array (z_string (fun _ => true)) items
                           | _ => None
                           end)
                 [] (member (js "tags") m) ;;
      os <-? z_optional FleetOsSchema (member (js "os") m) ;;
      arch <-? z_optional FleetArchSchema (member (js "arch") m) ;;
      installed <-? z_optional InstalledSchema (member (js "installed") m) ;;
      lastSeen <-? z_optional (z_string is_datetime) (member (js "lastSeen") m) ;;
      serviceStatus <-? z_optional ServiceStatusSchema (member (js "serviceStatus") m) ;;
      Some {| id := id; name := name; host := host; port := port; user := user;
              trusted := trusted; hostKey := hostKey; tags := tags; os := os;
              arch := arch; installed := installed; lastSeen := lastSeen;
              serviceStatus := serviceStatus |}
  | _ => None
  end.

(** [FleetStoreSchema.safeParse(value)]: [None] when [success] is false,
    otherwise [parsed.data]. *)
Definition FleetStoreSchema_safeParse (value : json) : option FleetStore :=
  match value with
  | JObj m =>
      v <-? z_required (fun j => match j with
                                 | JNum (Int 1) => Some 1%Z      (* z.literal(1) *)
                                 | _ => None
                                 end)
                       (member (js "schemaVersion") m) ;;
      ns <-? z_default (fun j => match j with
                                 | JArr items => z_array FleetNodeSchema items
                                 | _ => None
                                 end)
                       [] (member (js "nodes") m) ;;
      Some {| schemaVersion := v; nodes := ns |}
  | _ => None
  end.

(** *** store.ts *)

(** [JSON.parse] gave [null] on the text ["null"] too, so [parsed == null]
    covers both the syntax error and the literal; every read error gives
    the fallback. *)
Definition readJsonFile (fallback : json) : M json :=
  f <- read_nodes_file ;;
  match f with
  | JsonText (Some JNull) => ret fallback
  | JsonText (Some parsed) => ret parsed
  | JsonText None => ret fallback
  | JsonAbsent => ret fallback
  | JsonUnreadable => ret fallback
  end.

(** Temporary file, then rename: the file changes in one step. *)
Definition writeJsonFile (value : json) : M unit :=
  write_nodes_file (JsonText (Some value)).

Definition ensureJsonFile (fallback : json) : M unit :=
  f <- read_nodes_file ;;
  match f with
  | JsonAbsent => writeJsonFile fallback
  | _ => ret tt
  end.

(** The lock is taken and released around [fn]; no other process writes
    in this world, so taking it succeeds. *)
Definition withFileLock {A} (fallback : json) (fn : M A) : M A :=
  ensureJsonFile fallback ;;; fn.

Definition normalizeNodeName (name : jsstring) : jsstring :=
  toLowerCase (trim name).

Definition validateNodeName (name : jsstring) : M unit :=
  if is_empty name || is_empty (trim name) then
    throw (js "Node name cannot be empty")
  else if negb (nodeNameRegex_test name) then
    throw (js "Node name must contain only letters, numbers, hyphens, and underscores")
  else if (100 <? List.length name)%nat then
    throw (js "Node name must be at most 100 characters")
  else ret tt.

Definition validateHost (host : jsstring) : M unit :=
  if is_empty host || is_empty (trim host) then
    throw (js "Host cannot be empty")
  else if startsWith (js "-") host then
    throw (js "Host cannot start with '-' (security)")
  else ret tt.

(** Ports are integers in this model, so [Number.isInteger] holds. *)
Definition Number_isInteger (port : Z) : bool := true.

Definition validatePort (port : Z) : M unit :=
  if negb (Number_isInteger port) || (port <? 1)%Z || (65535 <? port)%Z then
    throw (js "Port must be an integer between 1 and 65535")
  else ret tt.

(** The store read under the lock by the three writers. *)
Definition readStore : M FleetStore :=
  value <- readJsonFile (store_to_json createEmptyFleetStore) ;;
  match FleetStoreSchema_safeParse value with
  | Some data => ret data
  | None => ret createEmptyFleetStore
  end.

Definition loadFleetStore : M FleetStore :=
  value <- readJsonFile (store_to_json createEmptyFleetStore) ;;
  match FleetStoreSchema_safeParse value with
  | None => ret createEmptyFleetStore
  | Some data => ret data
  end.

Definition saveFleetStore (store : FleetStore) : M unit :=
  writeJsonFile (store_to_json store).

Definition same_name (normalizedName : jsstring) (n : FleetNode) : bool :=
  str_eqb (normalizeNodeName (name n)) normalizedName.

Definition option_default {A} (o : option A) (d : A) : A :=
  match o with Some a => a | None => d end.

Definition addNode (input : AddNodeInput) : M FleetNode :=
  validateNodeName (add_name input) ;;;
  validateHost (add_host input) ;;;
  validatePort (add_port input) ;;;
  if is_empty (add_user input) || is_empty (trim (add_user input)) then
    throw (js "User cannot be empty")
  else
    withFileLock (store_to_json createEmptyFleetStore) (
      store <- readStore ;;
      let normalizedName := normalizeNodeName (add_name input) in
      match find (same_name normalizedName) (nodes store) with
      | Some _ =>
          throw (js "Node with name '" ++ add_name input ++ js "' already exists")
      | None =>
          uuid <- randomUUID ;;
          let node :=
            {| id := uuid;
               name := trim (add_name input);
               host := trim (add_host input);
               port := add_port input;
               user := trim (add_user input);
               trusted := option_default (add_trusted input) false;
               hostKey := add_hostKey input;
               tags := option_default (add_tags input) [];
               os := None;
               arch := None;
               installed := add_installed input;
               lastSeen := add_lastSeen input;
               serviceStatus := None |} in
          writeJsonFile (store_to_json
                           {| schemaVersion := schemaVersion store;
                              nodes := nodes store ++ [node] |}) ;;;
          ret node
      end).

Definition listNodes : M (list FleetNode) :=
  store <- loadFleetStore ;;
  ret (nodes store).

Definition getNode (name : jsstring) : M (option FleetNode) :=
  store <- loadFleetStore ;;
  let normalizedName := normalizeNodeName name in
  ret (find (same_name normalizedName) (nodes store)).

(** [nodes.findIndex(pred)]: [None] is [-1]. *)
Fixpoint findIndex {A} (pred : A -> bool) (l : list A) : option nat :=
  match l with
  | [] => None
  | a :: rest => if pred a then Some O
                 else match findIndex pred rest with
                      | Some i => Some (S i)
                      | None => None
                      end
  end.

(** [nodes[index] = v] for an index inside the array. *)
Fixpoint set_nth {A} (l : list A) (index : nat) (v : A) : list A :=
  match l, index with
  | [], _ => []
  | _ :: rest, O => v :: rest
  | a :: rest, S i => a :: set_nth rest i v
  end.

(** [nodes.splice(index, 1)]. *)
Fixpoint remove_nth {A} (l : list A) (index : nat) : list A :=
  match l, index with
  | [], _ => []
  | _ :: rest, O => rest
  | a :: rest, S i => a :: remove_nth rest i
  end.

Definition removeNode (name : jsstring) : M bool :=
  withFileLock (store_to_json createEmptyFleetStore) (
    store <- readStore ;;
    let normalizedName := normalizeNodeName name in
    match findIndex (same_name normalizedName) (nodes store) with
    | None => ret false
    | Some index =>
        writeJsonFile (store_to_json
                         {| schemaVersion := schemaVersion store;
                            nodes := remove_nth (nodes store) index |}) ;;;
        ret true
    end).

(** The object spread of [updateNode]: eight members are merged; [os],
    [arch] and [serviceStatus] are not among them. *)
Definition merge (existing : FleetNode) (updates : UpdateNodeInput) : FleetNode :=
  {| id := id existing;
     name := name existing;
     host := match upd_host updates with
             | Some h => trim h | None => host existing end;
     port := match upd_port updates with
             | Some p => p | None => port existing end;
     user := match upd_user updates with
             | Some u => trim u | None => user existing end;
     trusted := match upd_trusted updates with
                | Some t => t | None => trusted existing end;
     hostKey := match upd_hostKey updates with
                | Some k => Some k | None => hostKey existing end;
     tags := match upd_tags updates with
             | Some t => t | None => tags existing end;
     os := os existing;
     arch := arch existing;
     installed := match upd_installed updates with
                  | Some i => Some i | None => installed existing end;
     lastSeen := match upd_lastSeen updates with
                 | Some t => Some t | None => lastSeen existing end;
     serviceStatus := serviceStatus existing |}.

Definition updateNode (name : jsstring) (updates : UpdateNodeInput)
  : M (option FleetNode) :=
  match upd_host updates with Some h => validateHost h | None => ret tt end ;;;
  match upd_port updates with Some p => validatePort p | None => ret tt end ;;;
  match upd_user updates with
  | Some u => if is_empty u || is_empty (trim u)
              then throw (js "User cannot be empty") else ret tt
  | None => ret tt
  end ;;;
  withFileLock (store_to_json createEmptyFleetStore) (
    store <- readStore ;;
    let normalizedName := normalizeNodeName name in
    match findIndex (same_name normalizedName) (nodes store) with
    | None => ret None
    | Some index =>
        match nth_error (nodes store) index with
        | None => ret None
        | Some existing =>
            let updated := merge existing updates in
            writeJsonFile (store_to_json
                             {| schemaVersion := schemaVersion store;
                                nodes := set_nth (nodes store) index updated |}) ;;;
            ret (Some updated)
        end
    end).

End WithRuntime.

End Store.

(** ** src/fleet/bootstrap/types.ts and src/fleet/bootstrap/plan-builder.ts *)

Module PlanBuilder.

Record NodeInfo := {
  os : Store.FleetOs;
  arch : Store.FleetArch;
  homeDir : jsstring;
  hasNode : bool;
  nodeVersion : option jsstring;
  hasNpm : bool;
  hasRaven : bool;
  ravenVersion : option jsstring;
  hasService : bool;
  serviceRunning : bool
}.

Inductive BootstrapStepStatus :=
| Pending | StepRunning | Success | Skipped | Failed.

Record BootstrapStep := {
  id : jsstring;
  description : jsstring;
  commands : list jsstring;
  skippable : bool;
  skipIf : option (NodeInfo -> bool);
  errorHint : option jsstring
}.

Record BootstrapPlan := {
  node : Store.FleetNode;
  nodeInfo : NodeInfo;
  steps : list BootstrapStep;
  targetVersion : jsstring;
  force : bool
}.

(** The double quote. *)
Definition dq : jsstring := [34%N].

(** [info.ravenVersion === version]. *)
Definition version_is (v : option jsstring) (version : jsstring) : bool :=
  match v with
  | Some r => str_eqb r version
  | None => false
  end.

Definition is_latest (version : jsstring) : bool := str_eqb version (js "latest").

Definition installCmd (version : jsstring) : jsstring :=
  if is_latest version then js "npm install -g raven"
  else js "npm install -g raven@" ++ version.

Definition install_raven_step (version : jsstring) (force : bool) : BootstrapStep :=
  {| id := js "install-raven";
     description := js "Install raven"
                    ++ (if negb (is_latest version)
                        then js " (" ++ version ++ js ")" else []);
     commands := [installCmd version];
     skippable := negb force;
     skipIf := Some (fun info =>
                 negb force && hasRaven info
                 && (is_latest version || version_is (ravenVersion info) version));
     errorHint := Some (js "Raven installation failed. Check npm configuration and network connectivity.") |}.

Definition create_config_dir_step : BootstrapStep :=
  {| id := js "create-config-dir";
     description := js "Create configuration directory";
     commands := [js "mkdir -p ~/.openclaw"; js "chmod 700 ~/.openclaw"];
     skippable := false;
     skipIf := None;
     errorHint := None |}.

Definition buildMacOSSteps (nodeInfo : NodeInfo) (version : jsstring) (force : bool)
  : list BootstrapStep :=
  [ {| id := js "install-node";
       description := js "Install Node.js via Homebrew";
       commands :=
         [ js "which brew > /dev/null 2>&1 || /bin/bash -c " ++ dq ++ js "$(curl -fsSL https://raw.githubusercontent.com/Homebrew/install/HEAD/install.sh)"  ++ dq;
           js "brew install node" ];
       skippable := true;
       skipIf := Some (fun info => hasNode info);
       errorHint := Some (js "Node.js installation failed. Please install Node.js manually: brew install node") |};
    install_raven_step version force;
    create_config_dir_step;
    {| id := js "install-service";
       description := js "Install launchd service";
       commands :=
         [ js "mkdir -p ~/Library/LaunchAgents";
           js "cat > ~/Library/LaunchAgents/ai.raven.gateway.plist << 'PLIST_EOF'
<?xml version=" ++ dq ++ js "1.0" ++ dq ++ js " encoding=" ++ dq ++ js "UTF-8" ++ dq ++ js "?>
<!DOCTYPE plist PUBLIC " ++ dq ++ js "-//Apple//DTD PLIST 1.0//EN" ++ dq ++ js " " ++ dq ++ js "http://www.apple.com/DTDs/PropertyList-1.0.dtd" ++ dq ++ js ">
<plist version=" ++ dq ++ js "1.0" ++ dq ++ js ">
<dict>
    <key>Label</key>
    <string>ai.raven.gateway</string>
    <key>ProgramArguments</key>
    <array>
        <string>/usr/local/bin/raven</string>
        <string>gateway</string>
        <string>start</string>
    </array>
    <key>RunAtLoad</key>
    <true/>
    <key>KeepAlive</key>
    <true/>
    <key>StandardOutPath</key>
    <string>/tmp/raven-gateway.stdout.log</string>
    <key>StandardErrorPath</key>
    <string>/tmp/raven-gateway.stderr.log</string>
    <key>EnvironmentVariables</key>
    <dict>
        <key>PATH</key>
        <string>/usr/local/bin:/usr/bin:/bin:/usr/sbin:/sbin</string>
    </dict>
</dict>
</plist>
PLIST_EOF" ];
       skippable := negb force;
       skipIf := Some (fun info => negb force && hasService info);
       errorHint := Some (js "Failed to install launchd service. Check ~/Library/LaunchAgents permissions.") |};
    {| id := js "start-service";
       description := js "Start raven gateway service";
       commands :=
         [ js "launchctl unload ~/Library/LaunchAgents/ai.raven.gateway.plist 2>/dev/null || true";
           js "launchctl load ~/Library/LaunchAgents/ai.raven.gateway.plist" ];
       skippable := false;
       skipIf := None;
       errorHint := Some (js "Failed to start the service. Check launchctl logs.") |};
    {| id := js "verify-service";
       description := js "Verify service is running";
       commands :=
         [ js "sleep 2";
           js "launchctl list | grep -q ai.raven.gateway || (echo 'Service not found in launchctl list' && exit 1)";
           js "raven gateway status --json --timeout 5000 || (echo 'Gateway not responding' && exit 1)" ];
       skippable := false;
       skipIf := None;
       errorHint := Some (js "Service verification failed. Check /tmp/raven-gateway.stderr.log for details.") |} ].

Definition buildLinuxSteps (nodeInfo : NodeInfo) (version : jsstring) (force : bool)
  : list BootstrapStep :=
  [ {| id := js "install-node";
       description := js "Install Node.js";
       commands :=
         [ js "if command -v apt-get &> /dev/null; then
        curl -fsSL https://deb.nodesource.com/setup_20.x | sudo -E bash -
        sudo apt-get install -y nodejs
      elif command -v yum &> /dev/null; then
        curl -fsSL https://rpm.nodesource.com/setup_20.x | sudo bash -
        sudo yum install -y nodejs
      elif command -v dnf &> /dev/null; then
        curl -fsSL https://rpm.nodesource.com/setup_20.x | sudo bash -
        sudo dnf install -y nodejs
      else
        echo " ++ dq ++ js "Unsupported package manager" ++ dq ++ js " && exit 1
      fi" ];
       skippable := true;
       skipIf := Some (fun info => hasNode info);
       errorHint := Some (js "Node.js installation failed. Please install Node.js manually.") |};
    install_raven_step version force;
    create_config_dir_step;
    {| id := js "install-service";
       description := js "Install systemd user service";
       commands :=
         [ js "mkdir -p ~/.config/systemd/user";
           js "cat > ~/.config/systemd/user/raven-gateway.service << 'SERVICE_EOF'
[Unit]
Description=Raven Gateway Service
After=network.target

[Service]
Type=simple
ExecStart=/usr/bin/raven gateway start
Restart=always
RestartSec=5
Environment=PATH=/usr/local/bin:/usr/bin:/bin

[Install]
WantedBy=default.target
SERVICE_EOF";
           js "systemctl --user daemon-reload";
           js "systemctl --user enable raven-gateway" ];
       skippable := negb force;
       skipIf := Some (fun info => negb force && hasService info);
       errorHint := Some (js "Failed to install systemd service. Check ~/.config/systemd/user permissions.") |};
    {| id := js "start-service";
       description := js "Start raven gateway service";
       commands := [ js "systemctl --user restart raven-gateway" ];
       skippable := false;
       skipIf := None;
       errorHint := Some (js "Failed to start the service. Check journalctl --user -u raven-gateway for details.") |};
    {| id := js "verify-service";
       description := js "Verify service is running";
       commands :=
         [ js "sleep 2";
           js "systemctl --user is-active raven-gateway";
           js "raven gateway status --json --timeout 5000 || (echo 'Gateway not responding' && exit 1)" ];
       skippable := false;
       skipIf := None;
       errorHint := Some (js "Service verification failed. Check journalctl --user -u raven-gateway for details.") |} ].

Record PlanOptions := { opt_version : option jsstring; opt_force : option bool }.

Definition buildBootstrapPlan (node : Store.FleetNode) (nodeInfo : NodeInfo)
                              (options : PlanOptions) : outcome BootstrapPlan :=
  let version := match opt_version options with Some v => v | None => js "latest" end in
  let force := match opt_force options with Some f => f | None => false end in
  match os nodeInfo with
  | Store.Darwin =>
      Return {| node := node; nodeInfo := nodeInfo;
                steps := buildMacOSSteps nodeInfo version force;
                targetVersion := version; force := force |}
  | Store.Linux =>
      Return {| node := node; nodeInfo := nodeInfo;
                steps := buildLinuxSteps nodeInfo version force;
                targetVersion := version; force := force |}
  | Store.OsUnknown =>
      Throw (js "Unsupported operating system: " ++ Store.os_string (os nodeInfo))
  end.

End PlanBuilder.

(** ** src/fleet/bootstrap/executor.ts *)

Module Executor.
Import PlanBuilder.

Record BootstrapStepResult := {
  step : BootstrapStep;
  status : BootstrapStepStatus;
  stdout : jsstring;
  stderr : jsstring;
  error : option jsstring;
  durationMs : Z
}.

Record BootstrapResult := {
  node : Store.FleetNode;
  success : bool;
  stepResults : list BootstrapStepResult;
  installedVersion : option jsstring;
  totalDurationMs : Z;
  resultError : option jsstring
}.

(** The options of [executeBootstrapPlan].  [onProgress] tells whether
    the caller passes a callback: the callback must not throw, and the
    calls made to it are recorded in the world.  [env] is represented by
    the path of the known_hosts file that [resolveKnownHostsPath] derives
    from it. *)
Record ExecuteOptions := {
  dryRun : option bool;
  commandTimeoutMs : option Z;
  onProgress : bool;
  knownHostsPath : jsstring
}.

Definition status_name (s : BootstrapStepStatus) : jsstring :=
  match s with
  | Pending => js "pending"
  | StepRunning => js "running"
  | Success => js "success"
  | Skipped => js "skipped"
  | Failed => js "failed"
  end.

Definition is_failed (s : BootstrapStepStatus) : bool :=
  match s with Failed => true | _ => false end.

(** [options.onProgress?.(step, status)]. *)
Definition call_onProgress (options : ExecuteOptions) (step : BootstrapStep)
                           (s : BootstrapStepStatus) : M unit :=
  if onProgress options then notify_progress (id step) (status_name s) else ret tt.

(** [`${result.exitCode}`]. *)
Definition show_exitCode (c : option Z) : jsstring :=
  match c with Some z => show z | None => js "null" end.

(** [a || b] on an optional string: [b] when [a] is undefined or empty. *)
Definition or_else (a : option jsstring) (b : jsstring) : jsstring :=
  match a with
  | Some s => if is_empty s then b else s
  | None => b
  end.

Definition exited_zero (c : option Z) : bool :=
  match c with Some z => (z =? 0)%Z | None => false end.

(** The loop of [executeStep] over the commands still to run, with the
    output gathered so far. *)
Fixpoint run_commands (node : Store.FleetNode) (step : BootstrapStep)
                      (knownHostsPath : jsstring) (timeoutMs : Z) (startTime : Z)
                      (commands : list jsstring) (stdout stderr : jsstring)
  : M BootstrapStepResult :=
  match commands with
  | [] =>
      now <- Date_now ;;
      ret {| step := step; status := Success; stdout := stdout; stderr := stderr;
             error := None; durationMs := (now - startTime)%Z |}
  | command :: rest =>
      let opts :=
        {| Transport.host := Store.host node;
           Transport.port := Store.port node;
           Transport.user := Store.user node;
           Transport.command := command;
           Transport.timeoutMs := timeoutMs;
           Transport.knownHostsPath := knownHostsPath;
           Transport.strictHostKeyChecking :=
             if Store.trusted node then Transport.CheckYes
             else Transport.CheckAcceptNew |} in
      result <- Transport.sshExec opts ;;
      let stdout := stdout ++ Transport.stdout result in
      let stderr := stderr ++ Transport.stderr result in
      if negb (exited_zero (Transport.exitCode result)) || Transport.timedOut result
      then
        now <- Date_now ;;
        ret {| step := step; status := Failed; stdout := stdout; stderr := stderr;
               error := Some (if Transport.timedOut result
                              then js "Command timed out"
                              else or_else (errorHint step)
                                     (js "Command failed with exit code "
                                      ++ show_exitCode (Transport.exitCode result)));
               durationMs := (now - startTime)%Z |}
      else run_commands node step knownHostsPath timeoutMs startTime rest stdout stderr
  end.

Definition executeStep (node : Store.FleetNode) (step : BootstrapStep)
                       (knownHostsPath : jsstring) (timeoutMs : Z)
  : M BootstrapStepResult :=
  startTime <- Date_now ;;
  run_commands node step knownHostsPath timeoutMs startTime (commands step) [] [].

(** [step.skipIf?.(plan.nodeInfo) ?? false]. *)
Definition shouldSkip (step : BootstrapStep) (info : NodeInfo) : bool :=
  match skipIf step with
  | Some f => f info
  | None => false
  end.

(** The loop of [executeBootstrapPlan] over the steps still to run:
    [inl] when the loop runs to its end, with the step results, [inr]
    for the result returned from inside the loop. *)
Fixpoint run_steps (plan : BootstrapPlan) (options : ExecuteOptions)
                   (dryRun : bool) (commandTimeoutMs : Z) (startTime : Z)
                   (todo : list BootstrapStep)
                   (stepResults : list BootstrapStepResult)
  : M (list BootstrapStepResult + BootstrapResult) :=
  match todo with
  | [] => ret (inl stepResults)
  | step :: rest =>
      if shouldSkip step (PlanBuilder.nodeInfo plan) then
        call_onProgress options step Skipped ;;;
        run_steps plan options dryRun commandTimeoutMs startTime rest
          (stepResults ++ [{| step := step; status := Skipped; stdout := [];
                              stderr := []; error := None; durationMs := 0 |}])
      else
        call_onProgress options step StepRunning ;;;
        if dryRun then
          let stepResults :=
            stepResults ++ [{| step := step; status := Success;
                               stdout := js "[DRY RUN] Commands not executed";
                               stderr := []; error := None; durationMs := 0 |}] in
          call_onProgress options step Success ;;;
          run_steps plan options dryRun commandTimeoutMs startTime rest stepResults
        else
          result <- executeStep (PlanBuilder.node plan) step
                                (knownHostsPath options) commandTimeoutMs ;;
          let stepResults := stepResults ++ [result] in
          call_onProgress options step (status result) ;;;
          if is_failed (status result) then
            now <- Date_now ;;
            ret (inr {| node := PlanBuilder.node plan; success := false;
                        stepResults := stepResults; installedVersion := None;
                        totalDurationMs := (now - startTime)%Z;
                        resultError := error result |})
          else
            run_steps plan options dryRun commandTimeoutMs startTime rest stepResults
  end.

Section WithRuntime.
Context `{RT : Runtime}.

Definition executeBootstrapPlan (plan : BootstrapPlan) (options : ExecuteOptions)
  : M BootstrapResult :=
  startTime <- Date_now ;;
  let dryRun := match dryRun options with Some d => d | None => false end in
  let commandTimeoutMs :=
    match commandTimeoutMs options with Some t => t | None => 120000%Z end in
  looped <- run_steps plan options dryRun commandTimeoutMs startTime
                      (steps plan) [] ;;
  match looped with
  | inr aborted => ret aborted
  | inl stepResults =>
      t <- Date_now ;;
      let now := toISOString t in
      (if negb dryRun then
         Store.updateNode (Store.name (PlanBuilder.node plan))
           {| Store.upd_host := None; Store.upd_port := None;
              Store.upd_user := None; Store.upd_trusted := None;
              Store.upd_hostKey := None; Store.upd_tags := None;
              Store.upd_os := Some (os (nodeInfo plan));
              Store.upd_arch := Some (arch (nodeInfo plan));
              Store.upd_installed :=
                Some {| Store.version := targetVersion plan;
                        Store.installedAt := now |};
              Store.upd_lastSeen := Some now;
              Store.upd_serviceStatus := Some Store.Running |} ;;; ret tt
       else ret tt) ;;;
      finish <- Date_now ;;
      ret {| node := PlanBuilder.node plan; success := true;
             stepResults := stepResults;
             installedVersion := Some (targetVersion plan);
             totalDurationMs := (finish - startTime)%Z;
             resultError := None |}
  end.

End WithRuntime.

End Executor.

(** ** src/commands/fleet/status.ts *)

Module Diagnostics.

Record NodeDiagnostics := {
  name : jsstring;
  host : jsstring;
  online : bool;
  serviceRunning : bool;
  serviceStatus : Store.ServiceStatus;
  version : option jsstring;
  uptime : option jsstring;
  lastSeen : option jsstring;
  error : option jsstring;
  latencyMs : option Z
}.

Definition dq : jsstring := [34%N].

(** [/(\d+\.\d+\.\d+|[a-f0-9]{7,40})/i], first alternative, tried at the
    start of [s]: a digit run cannot give back a digit to the dot that
    follows, so each run is the longest one. *)
Definition match_semver (s : jsstring) : option jsstring :=
  let d1 := HostKeys.takeWhile is_digit s in
  match dropWhile is_digit s with
  | 46%N :: s2 =>
      let d2 := HostKeys.takeWhile is_digit s2 in
      match dropWhile is_digit s2 with
      | 46%N :: s3 =>
          let d3 := HostKeys.takeWhile is_digit s3 in
          if negb (is_empty d1) && negb (is_empty d2) && negb (is_empty d3)
          then Some (d1 ++ [46%N] ++ d2 ++ [46%N] ++ d3)
          else None
      | _ => None
      end
  | _ => None
  end.

(** [[a-f0-9]] under the [i] flag. *)
Definition is_hex (c : char) : bool :=
  is_digit c || ((97 <=? c) && (c <=? 102))%N || ((65 <=? c) && (c <=? 70))%N.

(** Second alternative at the start of [s]: up to 40 characters, at
    least 7. *)
Definition match_sha (s : jsstring) : option jsstring :=
  let run := firstn 40 (HostKeys.takeWhile is_hex s) in
  if (7 <=? List.length run)%nat then Some run else None.

(** The leftmost match; at one position the first alternative wins. *)
Fixpoint search_version (s : jsstring) : option jsstring :=
  match match_semver s with
  | Some m => Some m
  | None =>
      match match_sha s with
      | Some m => Some m
      | None => match s with
                | [] => None
                | _ :: rest => search_version rest
                end
      end
  end.

Definition parseVersion (output : jsstring) : option jsstring :=
  search_version (trim output).

(** [formatUptimeMs] on a finite number of milliseconds whose floor is
    [ms]; the divisions are those of the integers. *)
Definition formatUptimeMs_finite (ms : Z) : jsstring :=
  let seconds := (ms / 1000)%Z in
  let minutes := (seconds / 60)%Z in
  let hours := (minutes / 60)%Z in
  let days := (hours / 24)%Z in
  if (0 <? days)%Z then show days ++ js "d " ++ show (Z.rem hours 24) ++ js "h"
  else if (0 <? hours)%Z then show hours ++ js "h " ++ show (Z.rem minutes 60) ++ js "m"
  else if (0 <? minutes)%Z then show minutes ++ js "m " ++ show (Z.rem seconds 60) ++ js "s"
  else show seconds ++ js "s".

Definition formatUptimeMs (ms : number) : jsstring :=
  match ms with
  | Int z => formatUptimeMs_finite z
  | Frac floor => formatUptimeMs_finite floor
  | Infinite false => js "Infinityd NaNh"
  | Infinite true => js "-Infinitys"
  end.

(** [output.match(/LABEL(.+)/)]: group 1 of the leftmost match, the
    longest run without a line terminator after the label. *)
Fixpoint match_after (label : jsstring) (s : jsstring) : option jsstring :=
  let here :=
    if startsWith label s then
      let rest := skipn (List.length label) s in
      let run := HostKeys.takeWhile (fun c => negb (is_line_terminator c)) rest in
      if is_empty run then None else Some run
    else None in
  match here with
  | Some m => Some m
  | None => match s with
            | [] => None
            | _ :: r => match_after label r
            end
  end.

(** [output.match(/SERVICE:(running|stopped)/)]: group 1. *)
Fixpoint match_service (s : jsstring) : option Store.ServiceStatus :=
  if startsWith (js "SERVICE:running") s then Some Store.Running
  else if startsWith (js "SERVICE:stopped") s then Some Store.Stopped
  else match s with
       | [] => None
       | _ :: r => match_service r
       end.

Definition diagCommand : jsstring :=
  js "
    echo " ++ dq ++ js "DIAG_START" ++ dq ++ js "
    # Get version
    if command -v raven &> /dev/null; then
      echo " ++ dq ++ js "VERSION:$(raven --version 2>/dev/null | head -1)" ++ dq ++ js "
    else
      echo " ++ dq ++ js "VERSION:NOT_FOUND" ++ dq ++ js "
    fi
    # Check service status
    if [ " ++ dq ++ js "$(uname)" ++ dq ++ js " = " ++ dq ++ js "Darwin" ++ dq ++ js " ]; then
      # macOS - check launchd
      if launchctl list 2>/dev/null | grep -q " ++ dq ++ js "ai.raven.gateway" ++ dq ++ js "; then
        echo " ++ dq ++ js "SERVICE:running" ++ dq ++ js "
      else
        echo " ++ dq ++ js "SERVICE:stopped" ++ dq ++ js "
      fi
    else
      # Linux - check systemd
      if systemctl --user is-active raven-gateway &>/dev/null; then
        echo " ++ dq ++ js "SERVICE:running" ++ dq ++ js "
      else
        echo " ++ dq ++ js "SERVICE:stopped" ++ dq ++ js "
      fi
    fi
    # Try to get gateway status
    echo " ++ dq ++ js "STATUS_JSON:$(raven gateway status --json --timeout 3000 2>/dev/null || echo '{}')" ++ dq ++ js "
    echo " ++ dq ++ js "DIAG_END" ++ dq ++ js "
  ".

Section WithRuntime.
Context `{RT : Runtime}.

(** A member access on [null] raises and is caught; on any other value
    that is not an object with an [uptime] member it gives [undefined]. *)
Definition parseUptime (statusJson : jsstring) : option jsstring :=
  match JSON_parse statusJson with
  | Some (JObj m) =>
      match member (js "uptime") m with
      | Some (JStr s) => Some s
      | Some (JNum n) => Some (formatUptimeMs n)
      | _ => None
      end
  | _ => None
  end.

Definition offline (node : Store.FleetNode) (error : jsstring) (latencyMs : option Z)
  : NodeDiagnostics :=
  {| name := Store.name node; host := Store.host node; online := false;
     serviceRunning := false; serviceStatus := Store.StatusUnknown;
     version := None; uptime := None; lastSeen := Store.lastSeen node;
     error := Some error; latencyMs := latencyMs |}.

Definition is_running (s : Store.ServiceStatus) : bool :=
  match s with Store.Running => true | _ => false end.

Definition runNodeDiagnostics (node : Store.FleetNode) (timeoutMs : Z)
                              (knownHostsPath : jsstring) : M NodeDiagnostics :=
  startTime <- Date_now ;;
  try_catch (
    result <- Transport.sshExec
                {| Transport.host := Store.host node;
                   Transport.port := Store.port node;
                   Transport.user := Store.user node;
                   Transport.command := diagCommand;
                   Transport.timeoutMs := timeoutMs;
                   Transport.knownHostsPath := knownHostsPath;
                   Transport.strictHostKeyChecking :=
                     if Store.trusted node then Transport.CheckYes
                     else Transport.CheckAcceptNew |} ;;
    finish <- Date_now ;;
    let latencyMs := (finish - startTime)%Z in
    if Transport.timedOut result then
      ret (offline node (js "Connection timed out") None)
    else if negb (Executor.exited_zero (Transport.exitCode result))
            && negb (includes (js "DIAG_START") (Transport.stdout result)) then
      ret (offline node
             (Executor.or_else (Some (Transport.stderr result))
                (js "SSH exit code: "
                 ++ Executor.show_exitCode (Transport.exitCode result)))
             (Some latencyMs))
    else
      let output := Transport.stdout result in
      let version :=
        match match_after (js "VERSION:") output with
        | Some m =>
            if negb (str_eqb m (js "NOT_FOUND")) then
              match parseVersion m with
              | Some v => Some v
              | None => Some (trim m)
              end
            else None
        | None => None
        end in
      let serviceStatus :=
        match match_service output with
        | Some s => s
        | None => Store.StatusUnknown
        end in
      let uptime :=
        match match_after (js "STATUS_JSON:") output with
        | Some m => parseUptime m
        | None => None
        end in
      t <- Date_now ;;
      let now := toISOString t in
      ret {| name := Store.name node; host := Store.host node; online := true;
             serviceRunning := is_running serviceStatus;
             serviceStatus := serviceStatus;
             version := version; uptime := uptime; lastSeen := Some now;
             error := None; latencyMs := Some latencyMs |})
    (fun message => ret (offline node message None)).

End WithRuntime.

End Diagnostics.

(** ** src/fleet/bootstrap/preflight.ts *)

Module Preflight.
Import PlanBuilder.

Record PreflightResult := {
  success : bool;
  nodeInfo : option NodeInfo;
  error : option jsstring
}.

(** The options of [gatherNodeInfo]; [env] is represented by the path of
    the known_hosts file that [resolveKnownHostsPath] derives from it. *)
Record PreflightOptions := {
  timeoutMs : option Z;
  knownHostsPath : jsstring
}.

(** [output.trim().match(/^v?(\d+\.\d+\.\d+)/)]: group 1.  When the
    version does not follow the letter, the match is tried again without
    the letter. *)
Definition parseNodeVersion (output : jsstring) : option jsstring :=
  let s := trim output in
  match s with
  | 118%N :: rest =>
      match Diagnostics.match_semver rest with
      | Some m => Some m
      | None => Diagnostics.match_semver s
      end
  | _ => Diagnostics.match_semver s
  end.

Definition parseRavenVersion (output : jsstring) : option jsstring :=
  Diagnostics.search_version (trim output).

Definition runPreflightCommand (node : Store.FleetNode) (command : jsstring)
                               (timeoutMs : Z) (knownHostsPath : jsstring)
  : M Transport.SshExecResult :=
  Transport.sshExec
    {| Transport.host := Store.host node;
       Transport.port := Store.port node;
       Transport.user := Store.user node;
       Transport.command := command;
       Transport.timeoutMs := timeoutMs;
       Transport.knownHostsPath := knownHostsPath;
       Transport.strictHostKeyChecking :=
         if Store.trusted node then Transport.CheckYes
         else Transport.CheckAcceptNew |}.

Definition failed (message : jsstring) : PreflightResult :=
  {| success := false; nodeInfo := None; error := Some message |}.

(** [!result.stdout.includes("NOT_FOUND") && result.exitCode === 0]. *)
Definition found (result : Transport.SshExecResult) : bool :=
  negb (includes (js "NOT_FOUND") (Transport.stdout result))
  && Executor.exited_zero (Transport.exitCode result).

Definition dq : jsstring := [34%N].

Section WithRuntime.
Context `{RT : Runtime}.

Definition parseOs (uname : jsstring) : Store.FleetOs :=
  let lower := trim (toLowerCase uname) in
  if includes (js "darwin") lower then Store.Darwin
  else if includes (js "linux") lower then Store.Linux
  else Store.OsUnknown.

Definition parseArch (unameM : jsstring) : Store.FleetArch :=
  let lower := trim (toLowerCase unameM) in
  if str_eqb lower (js "x86_64") || str_eqb lower (js "amd64") then Store.X64
  else if str_eqb lower (js "arm64") || str_eqb lower (js "aarch64") then Store.Arm64
  else Store.ArchUnknown.

(** The service check of [gatherNodeInfo]: [hasService] and
    [serviceRunning]. *)
Definition checkService (node : Store.FleetNode) (os : Store.FleetOs)
                        (timeoutMs : Z) (knownHostsPath : jsstring)
  : M (bool * bool) :=
  match os with
  | Store.Darwin =>
      launchctlResult <-
        runPreflightCommand node
          (js "launchctl list 2>/dev/null | grep -q " ++ dq ++ js "ai.raven.gateway" ++ dq ++ js " && echo " ++ dq ++ js "FOUND" ++ dq ++ js " || echo " ++ dq ++ js "NOT_FOUND" ++ dq)
          timeoutMs knownHostsPath ;;
      let hasService := includes (js "FOUND") (Transport.stdout launchctlResult) in
      if hasService then
        statusResult <-
          runPreflightCommand node
            (js "launchctl list ai.raven.gateway 2>/dev/null | grep -q " ++ dq ++ js "PID" ++ dq ++ js " && echo " ++ dq ++ js "RUNNING" ++ dq ++ js " || echo " ++ dq ++ js "STOPPED" ++ dq)
            timeoutMs knownHostsPath ;;
        ret (hasService, includes (js "RUNNING") (Transport.stdout statusResult))
      else ret (hasService, false)
  | Store.Linux =>
      systemctlResult <-
        runPreflightCommand node
          (js "systemctl --user is-enabled raven-gateway 2>/dev/null && echo " ++ dq ++ js "FOUND" ++ dq ++ js " || echo " ++ dq ++ js "NOT_FOUND" ++ dq)
          timeoutMs knownHostsPath ;;
      let hasService :=
        includes (js "enabled") (Transport.stdout systemctlResult)
        || includes (js "disabled") (Transport.stdout systemctlResult) in
      if hasService then
        statusResult <-
          runPreflightCommand node
            (js "systemctl --user is-active raven-gateway 2>/dev/null")
            timeoutMs knownHostsPath ;;
        ret (hasService,
             str_eqb (trim (Transport.stdout statusResult)) (js "active"))
      else ret (hasService, false)
  | Store.OsUnknown => ret (false, false)
  end.

Definition gatherNodeInfo (node : Store.FleetNode) (options : PreflightOptions)
  : M PreflightResult :=
  let timeoutMs := match timeoutMs options with Some t => t | None => 30000%Z end in
  let knownHostsPath := knownHostsPath options in
  unameResult <-
    runPreflightCommand node (js "uname -s && uname -m && echo $HOME")
      timeoutMs knownHostsPath ;;
  if negb (Executor.exited_zero (Transport.exitCode unameResult)) then
    ret (failed (js "Failed to gather system info: "
                 ++ Executor.or_else (Some (Transport.stderr unameResult))
                                     (Transport.stdout unameResult)))
  else
    let lines := split_char 10%N (trim (Transport.stdout unameResult)) in
    let os := parseOs (nth 0 lines []) in
    let arch := parseArch (nth 1 lines []) in
    let homeDir := trim (nth 2 lines []) in
    if is_empty homeDir then
      ret (failed (js "Failed to determine home directory"))
    else
      nodeResult <-
        runPreflightCommand node (js "node --version 2>/dev/null || echo 'NOT_FOUND'")
          timeoutMs knownHostsPath ;;
      let hasNode := found nodeResult in
      let nodeVersion :=
        if hasNode then parseNodeVersion (Transport.stdout nodeResult) else None in
      npmResult <-
        runPreflightCommand node (js "npm --version 2>/dev/null || echo 'NOT_FOUND'")
          timeoutMs knownHostsPath ;;
      let hasNpm := found npmResult in
      ravenResult <-
        runPreflightCommand node (js "raven --version 2>/dev/null || echo 'NOT_FOUND'")
          timeoutMs knownHostsPath ;;
      let hasRaven := found ravenResult in
      let ravenVersion :=
        if hasRaven then parseRavenVersion (Transport.stdout ravenResult) else None in
      service <- checkService node os timeoutMs knownHostsPath ;;
      ret {| success := true;
             nodeInfo :=
               Some {| os := os; arch := arch; homeDir := homeDir;
                       hasNode := hasNode; nodeVersion := nodeVersion;
                       hasNpm := hasNpm;
                       hasRaven := hasRaven; ravenVersion := ravenVersion;
                       hasService := fst service;
                       serviceRunning := snd service |};
             error := None |}.

End WithRuntime.

End Preflight.

(** ** src/fleet/bootstrap/index.ts *)

Module Bootstrap.

(** [BootstrapOptions]; [onProgress] and [knownHostsPath] as in
    [Executor.ExecuteOptions]. *)
Record BootstrapOptions := {
  node : Store.FleetNode;
  version : option jsstring;
  force : option bool;
  dryRun : option bool;
  commandTimeoutMs : option Z;
  onProgress : bool;
  knownHostsPath : jsstring
}.

(** A synchronous call that returns or throws. *)
Definition settle {A} (o : outcome A) : M A := fun w => (o, w).

Definition stopped (node : Store.FleetNode) (startTime : Z) (message : jsstring)
  : M Executor.BootstrapResult :=
  now <- Date_now ;;
  ret {| Executor.node := node; Executor.success := false;
         Executor.stepResults := []; Executor.installedVersion := None;
         Executor.totalDurationMs := (now - startTime)%Z;
         Executor.resultError := Some message |}.

Section WithRuntime.
Context `{RT : Runtime}.

Definition bootstrap (options : BootstrapOptions) : M Executor.BootstrapResult :=
  let version := match version options with Some v => v | None => js "latest" end in
  let force := match force options with Some f => f | None => false end in
  let dryRun := match dryRun options with Some d => d | None => false end in
  let commandTimeoutMs :=
    match commandTimeoutMs options with Some t => t | None => 120000%Z end in
  startTime <- Date_now ;;
  preflightResult <-
    Preflight.gatherNodeInfo (node options)
      {| Preflight.timeoutMs := Some 30000%Z;
         Preflight.knownHostsPath := knownHostsPath options |} ;;
  match Preflight.success preflightResult, Preflight.nodeInfo preflightResult with
  | true, Some nodeInfo =>
      match PlanBuilder.os nodeInfo with
      | Store.OsUnknown =>
          stopped (node options) startTime
            (js "Unsupported operating system. Only macOS and Linux are supported.")
      | _ =>
          plan <- settle (PlanBuilder.buildBootstrapPlan (node options) nodeInfo
                            {| PlanBuilder.opt_version := Some version;
                               PlanBuilder.opt_force := Some force |}) ;;
          Executor.executeBootstrapPlan plan
            {| Executor.dryRun := Some dryRun;
               Executor.commandTimeoutMs := Some commandTimeoutMs;
               Executor.onProgress := onProgress options;
               Executor.knownHostsPath := knownHostsPath options |}
      end
  | _, _ =>
      stopped (node options) startTime
        (Executor.or_else (Preflight.error preflightResult)
                          (js "Failed to gather node information"))
  end.

End WithRuntime.

End Bootstrap.

(** ** The command line: src/commands/fleet *)

Module Cli.

(** A call made to the [RuntimeEnv] that a command receives.  [LogJson v]
    is [runtime.log(JSON.stringify(v, null, 2))]: the text is kept as the
    value it prints. *)
Inductive runtime_call :=
| Log (message : jsstring)
| LogJson (value : json)
| Error (message : jsstring)
| Exit (code : Z).

(** A command runs in the world and on a runtime whose methods return
    normally; the calls made to the runtime are recorded, oldest first. *)
Record session := { world_of : world; calls : list runtime_call }.

Definition C (A : Type) := session -> outcome A * session.

Definition cret {A} (a : A) : C A := fun s => (Return a, s).
Definition cbind {A B} (m : C A) (k : A -> C B) : C B :=
  fun s => match m s with
           | (Return a, s') => k a s'
           | (Throw e, s') => (Throw e, s')
           end.
(** [try { m } catch (err) { handler(err.message) }]. *)
Definition ctry {A} (m : C A) (handler : jsstring -> C A) : C A :=
  fun s => match m s with
           | (Return a, s') => (Return a, s')
           | (Throw e, s') => handler e s'
           end.

(** An asynchronous function of the fleet core, awaited by a command. *)
Definition await {A} (m : M A) : C A :=
  fun s => match m (world_of s) with
           | (r, w') => (r, {| world_of := w'; calls := calls s |})
           end.

Definition call (c : runtime_call) : C unit :=
  fun s => (Return tt, {| world_of := world_of s; calls := calls s ++ [c] |}).

Definition log (message : jsstring) : C unit := call (Log message).
Definition log_json (value : json) : C unit := call (LogJson value).
Definition error (message : jsstring) : C unit := call (Error message).
Definition exit (code : Z) : C unit := call (Exit code).

(** [Number.parseInt(s, 10)]: leading white space is skipped, a sign is
    read, and the longest run of decimal digits that follows is the
    number; [None] is [NaN].  The number is the Number nearest to the
    integer that the digits denote, with [2^1024] for [Infinity]. *)
Definition Number_parseInt (s : jsstring) : option Z :=
  let t := trimStart s in
  let negative := match t with 45%N :: _ => true | _ => false end in
  let unsigned :=
    match t with
    | 45%N :: r => r
    | 43%N :: r => r
    | _ => t
    end in
  let d := HostKeys.takeWhile is_digit unsigned in
  if is_empty d then None
  else Some (if negative then (- parseInt d)%Z else parseInt d).

(** [Number.isFinite]: [NaN] is not finite, and a Number is finite when
    it is below 2^1024 - 2^970 in absolute value, the bound from which
    an integer rounds to [Infinity]. *)
Definition Number_isFinite (n : option Z) : bool :=
  match n with
  | Some z => (Z.abs z <? 2 ^ 1024 - 2 ^ 970)%Z
  | None => false
  end.

(** [n < bound] on a number: false on [NaN]. *)
Definition less_than (n : option Z) (bound : Z) : bool :=
  match n with Some z => (z <? bound)%Z | None => false end.

(** [n > bound] on a number: false on [NaN]. *)
Definition greater_than (n : option Z) (bound : Z) : bool :=
  match n with Some z => (bound <? z)%Z | None => false end.

(** [s.padEnd(n)]: spaces are appended up to the length [n]. *)
Definition padEnd (n : nat) (s : jsstring) : jsstring :=
  s ++ List.repeat 32%N (n - List.length s).

(** [null] for an absent value. *)
Definition nullable {A} (to_json : A -> json) (v : option A) : json :=
  match v with Some a => to_json a | None => JNull end.

Definition js_int (z : Z) : json := JNum (Int z).

End Cli.

Notation "x <~ m ;; k" := (Cli.cbind m (fun x => k))
  (at level 61, m at next level, right associativity).
Notation "m ;;~ k" := (Cli.cbind m (fun _ => k))
  (at level 61, right associativity).

(** *** src/commands/fleet/add.ts *)

Module AddCommand.
Import Cli.

Record FleetAddOptions := {
  host : jsstring;
  user : jsstring;
  port : jsstring;
  tags : option jsstring;
  json : bool
}.

(** [opts.tags.split(",").map((t) => t.trim()).filter(Boolean)], or the
    empty list when [opts.tags] is undefined or empty. *)
Definition parseTags (tags : option jsstring) : list jsstring :=
  match tags with
  | Some s =>
      if is_empty s then []
      else filter (fun t => negb (is_empty t)) (map trim (split_char 44%N s))
  | None => []
  end.

Section WithRuntime.
Context `{RT : Runtime}.

Definition fleetAddCommand (name : jsstring) (opts : FleetAddOptions) : C unit :=
  let port := Number_parseInt (port opts) in
  if negb (Number_isFinite port) || less_than port 1 || greater_than port 65535 then
    error (js "Invalid port number") ;;~
    exit 1
  else
    let port := match port with Some p => p | None => 0%Z end in
    let tags := parseTags (tags opts) in
    ctry (
      node <~ await (Store.addNode
                       {| Store.add_name := name;
                          Store.add_host := host opts;
                          Store.add_port := port;
                          Store.add_user := user opts;
                          Store.add_trusted := Some false;
                          Store.add_hostKey := None;
                          Store.add_tags := Some tags;
                          Store.add_os := None;
                          Store.add_arch := None;
                          Store.add_installed := None;
                          Store.add_lastSeen := None;
                          Store.add_serviceStatus := None |}) ;;
      if json opts then log_json (Store.node_to_json node)
      else
        log (js "Added node: " ++ Store.name node ++ js " (" ++ Store.user node
             ++ js "@" ++ Store.host node ++ js ":" ++ show (Store.port node)
             ++ js ")") ;;~
        if (0 <? List.length tags)%nat
        then log (js "  tags: " ++ join (js ", ") tags)
        else cret tt)
      (fun message =>
         error (js "Failed to add node: " ++ message) ;;~
         exit 1).

End WithRuntime.

End AddCommand.

(** *** src/commands/fleet/rm.ts *)

Module RmCommand.
Import Cli.

Record FleetRmOptions := { force : bool; json : bool }.

Section WithRuntime.
Context `{RT : Runtime}.

Definition fleetRmCommand (name : jsstring) (opts : FleetRmOptions) : C unit :=
  ctry (
    node <~ await (Store.getNode name) ;;
    match node with
    | None =>
        error (js "Node not found: " ++ name) ;;~
        exit 1
    | Some _ =>
        if negb (force opts) then
          error (js "Use --force to confirm removal of node '" ++ name ++ js "'") ;;~
          exit 1
        else
          removed <~ await (Store.removeNode name) ;;
          if negb removed then
            error (js "Failed to remove node: " ++ name) ;;~
            exit 1
          else if json opts then
            log_json (JObj [(js "removed", JStr name); (js "success", JBool true)])
          else
            log (js "Removed node: " ++ name)
    end)
    (fun message =>
       error (js "Failed to remove node: " ++ message) ;;~
       exit 1).

End WithRuntime.

End RmCommand.

(** *** src/commands/fleet/ping.ts *)

Module PingCommand.
Import Cli.

Record FleetPingOptions := {
  timeout : jsstring;
  trustHostKeyChange : bool;
  json : bool
}.

Inductive HostKeyStatus := KeyPinned | KeyNew | KeyChanged | KeyVerified.

Definition hostKeyStatus_string (s : HostKeyStatus) : jsstring :=
  match s with
  | KeyPinned => js "pinned"
  | KeyNew => js "new"
  | KeyChanged => js "changed"
  | KeyVerified => js "verified"
  end.

Definition outputError (json : bool) (name message : jsstring) : C unit :=
  if json then
    log_json (JObj [(js "name", JStr name);
                    (js "reachable", JBool false);
                    (js "exitCode", JNull);
                    (js "stdout", JStr []);
                    (js "stderr", JStr []);
                    (js "timedOut", JBool false);
                    (js "hostKeyStatus", JStr (js "pinned"));
                    (js "error", JStr message)])
  else error (name ++ js ": " ++ message).

(** [for (const key of keys) { await pinHostKey(key); }]. *)
Fixpoint pinAll (keys : list HostKeys.HostKeyEntry) : C unit :=
  match keys with
  | [] => cret tt
  | key :: rest => await (HostKeys.pinHostKey key) ;;~ pinAll rest
  end.

(** [keyscanResult.exitCode !== 0 || !keyscanResult.output.trim()]. *)
Definition scan_failed (r : Transport.KeyscanResult) : bool :=
  negb (Executor.exited_zero (Transport.scanExitCode r))
  || is_empty (trim (Transport.output r)).

(** [k.keyType === existingKey.keyType && k.key === existingKey.key]. *)
Definition same_key (existingKey k : HostKeys.HostKeyEntry) : bool :=
  str_eqb (HostKeys.keyType k) (HostKeys.keyType existingKey)
  && str_eqb (HostKeys.key k) (HostKeys.key existingKey).

(** Step 2 of [fleetPingCommand], the check of the host key: [None] where
    the command returns from inside the step. *)
Definition checkHostKey (name : jsstring) (opts : FleetPingOptions)
                        (node : Store.FleetNode) (timeoutMs : Z)
  : C (option HostKeyStatus) :=
  existingKey <~ await (HostKeys.getHostKey (Store.host node) (Store.port node)) ;;
  match existingKey with
  | None =>
      log (js "Scanning host key for " ++ Store.host node ++ js ":"
           ++ show (Store.port node) ++ js "...") ;;~
      keyscanResult <~ await (Transport.sshKeyscan (Store.host node)
                                (Store.port node) timeoutMs) ;;
      if scan_failed keyscanResult then
        outputError (json opts) name
          (js "Failed to scan host key: "
           ++ Executor.or_else (Transport.error keyscanResult)
                               (js "no keys returned")) ;;~
        exit 1 ;;~
        cret None
      else
        let keys := HostKeys.parseKeyscanOutput (Transport.output keyscanResult)
                      (Store.host node) (Store.port node) in
        if (List.length keys =? 0)%nat then
          outputError (json opts) name (js "No host keys found") ;;~
          exit 1 ;;~
          cret None
        else
          pinAll keys ;;~
          log (js "Pinned " ++ show (Z.of_nat (List.length keys))
               ++ js " host key(s) for " ++ Store.host node) ;;~
          cret (Some KeyNew)
  | Some existingKey =>
      keyscanResult <~ await (Transport.sshKeyscan (Store.host node)
                                (Store.port node) timeoutMs) ;;
      if scan_failed keyscanResult then cret (Some KeyPinned)
      else
        let currentKeys :=
          HostKeys.parseKeyscanOutput (Transport.output keyscanResult)
            (Store.host node) (Store.port node) in
        match find (same_key existingKey) currentKeys with
        | Some _ => cret (Some KeyVerified)
        | None =>
            if negb (trustHostKeyChange opts) then
              outputError (json opts) name
                (js "Host key changed for " ++ Store.host node ++ js ":"
                 ++ show (Store.port node)
                 ++ js "! Use --trust-host-key-change to accept the new key.") ;;~
              exit 1 ;;~
              cret None
            else
              pinAll currentKeys ;;~
              log (js "Re-pinned host key for " ++ Store.host node
                   ++ js " (key changed)") ;;~
              cret (Some KeyChanged)
        end
  end.

Definition only_lastSeen (now : jsstring) : Store.UpdateNodeInput :=
  {| Store.upd_host := None; Store.upd_port := None; Store.upd_user := None;
     Store.upd_trusted := None; Store.upd_hostKey := None; Store.upd_tags := None;
     Store.upd_os := None; Store.upd_arch := None; Store.upd_installed := None;
     Store.upd_lastSeen := Some now; Store.upd_serviceStatus := None |}.

Section WithRuntime.
Context `{RT : Runtime}.

(** [knownHostsPath] is the path that [resolveKnownHostsPath()] gives. *)
Definition fleetPingCommand (name : jsstring) (opts : FleetPingOptions)
                            (knownHostsPath : jsstring) : C unit :=
  let timeoutMs := Number_parseInt (timeout opts) in
  if negb (Number_isFinite timeoutMs) || less_than timeoutMs 1000 then
    error (js "Timeout must be at least 1000ms") ;;~
    exit 1
  else
    let timeoutMs := match timeoutMs with Some t => t | None => 0%Z end in
    ctry (
      found <~ await (Store.getNode name) ;;
      match found with
      | None =>
          outputError (json opts) name (js "Node not found") ;;~
          exit 1
      | Some node =>
          checked <~ checkHostKey name opts node timeoutMs ;;
          match checked with
          | None => cret tt
          | Some hostKeyStatus =>
              result <~ await (Transport.sshExec
                                 {| Transport.host := Store.host node;
                                    Transport.port := Store.port node;
                                    Transport.user := Store.user node;
                                    Transport.command := js "echo pong && uname -a";
                                    Transport.timeoutMs := timeoutMs;
                                    Transport.knownHostsPath := knownHostsPath;
                                    Transport.strictHostKeyChecking :=
                                      Transport.CheckYes |}) ;;
              let reachable := Executor.exited_zero (Transport.exitCode result) in
              (if reachable then
                 t <~ await Date_now ;;
                 await (Store.updateNode name (only_lastSeen (toISOString t))) ;;~
                 cret tt
               else cret tt) ;;~
              if json opts then
                log_json
                  (JObj [(js "name", JStr name);
                         (js "reachable", JBool reachable);
                         (js "exitCode", nullable js_int (Transport.exitCode result));
                         (js "stdout", JStr (trim (Transport.stdout result)));
                         (js "stderr", JStr (trim (Transport.stderr result)));
                         (js "timedOut", JBool (Transport.timedOut result));
                         (js "hostKeyStatus",
                          JStr (hostKeyStatus_string hostKeyStatus))])
              else if reachable then
                let lines := split_char 10%N (trim (Transport.stdout result)) in
                let pong := Executor.or_else (Some (nth 0 lines [])) (js "pong") in
                let uname := nth 1 lines [] in
                log (name ++ js ": " ++ pong) ;;~
                (if negb (is_empty uname) then log (js "  " ++ uname) else cret tt) ;;~
                log (js "  host key: " ++ hostKeyStatus_string hostKeyStatus)
              else
                error (name ++ js ": failed (exit "
                       ++ Executor.show_exitCode (Transport.exitCode result)
                       ++ js ")") ;;~
                (if Transport.timedOut result then error (js "  timed out")
                 else cret tt) ;;~
                (if negb (is_empty (trim (Transport.stderr result)))
                 then error (js "  " ++ trim (Transport.stderr result))
                 else cret tt) ;;~
                exit 1
          end
      end)
      (fun message =>
         outputError (json opts) name message ;;~
         exit 1).

End WithRuntime.

End PingCommand.

(** *** src/commands/fleet/status.ts: the command *)

Module StatusCommand.
Import Cli.

Record FleetStatusOptions := { json : bool; timeout : jsstring }.

Definition diagnostics_to_json (d : Diagnostics.NodeDiagnostics) : Json.json :=
  JObj [(js "name", JStr (Diagnostics.name d));
        (js "host", JStr (Diagnostics.host d));
        (js "online", JBool (Diagnostics.online d));
        (js "serviceRunning", JBool (Diagnostics.serviceRunning d));
        (js "serviceStatus", JStr (Store.status_string (Diagnostics.serviceStatus d)));
        (js "version", nullable JStr (Diagnostics.version d));
        (js "uptime", nullable JStr (Diagnostics.uptime d));
        (js "lastSeen", nullable JStr (Diagnostics.lastSeen d));
        (js "error", nullable JStr (Diagnostics.error d));
        (js "latencyMs", nullable js_int (Diagnostics.latencyMs d))].

Definition formatStatusRow (name status service version uptime latency : jsstring)
  : jsstring :=
  join (js " ")
       [padEnd 16 name; padEnd 12 status; padEnd 10 service; padEnd 16 version;
        padEnd 12 uptime; padEnd 10 latency].

(** The update that the command hands to [updateNode] for a node that
    answered. *)
Definition seen_update (d : Diagnostics.NodeDiagnostics) : Store.UpdateNodeInput :=
  {| Store.upd_host := None; Store.upd_port := None; Store.upd_user := None;
     Store.upd_trusted := None; Store.upd_hostKey := None; Store.upd_tags := None;
     Store.upd_os := None; Store.upd_arch := None; Store.upd_installed := None;
     Store.upd_lastSeen := Diagnostics.lastSeen d;
     Store.upd_serviceStatus := Some (Diagnostics.serviceStatus d) |}.

(** [a || b] on a string. *)
Definition nonempty_or (a b : jsstring) : jsstring :=
  if is_empty a then b else a.

(** One row of the table, and the error line under it. *)
Definition printRow (diag : Diagnostics.NodeDiagnostics) : C unit :=
  let status := if Diagnostics.online diag
                then [10003%N] ++ js " online" else [10007%N] ++ js " offline" in
  let service := if Diagnostics.serviceRunning diag then js "running"
                 else Store.status_string (Diagnostics.serviceStatus diag) in
  let version := match Diagnostics.version diag with Some v => v | None => js "-" end in
  let uptime := match Diagnostics.uptime diag with Some u => u | None => js "-" end in
  let latency := match Diagnostics.latencyMs diag with
                 | Some l => show l ++ js "ms"
                 | None => js "-"
                 end in
  log (formatStatusRow (Diagnostics.name diag) status service version uptime latency) ;;~
  match Diagnostics.error diag with
  | Some e =>
      if negb (is_empty e) && negb (Diagnostics.online diag)
      then log (js "    Error: " ++ e)
      else cret tt
  | None => cret tt
  end.

Fixpoint printRows (results : list Diagnostics.NodeDiagnostics) : C unit :=
  match results with
  | [] => cret tt
  | diag :: rest => printRow diag ;;~ printRows rest
  end.

Section WithRuntime.
Context `{RT : Runtime}.

(** The loop of [fleetStatusCommand] over the nodes still to check, with
    the results gathered so far. *)
Fixpoint checkNodes (opts : FleetStatusOptions) (timeoutMs : Z)
                    (knownHostsPath : jsstring)
                    (nodes : list Store.FleetNode)
                    (results : list Diagnostics.NodeDiagnostics)
  : C (list Diagnostics.NodeDiagnostics) :=
  match nodes with
  | [] => cret results
  | node :: rest =>
      (if negb (json opts)
       then log (js "Checking " ++ Store.name node ++ js "...")
       else cret tt) ;;~
      diag <~ await (Diagnostics.runNodeDiagnostics node timeoutMs knownHostsPath) ;;
      let results := results ++ [diag] in
      (if Diagnostics.online diag then
         await (Store.updateNode (Store.name node) (seen_update diag)) ;;~ cret tt
       else cret tt) ;;~
      checkNodes opts timeoutMs knownHostsPath rest results
  end.

(** [name] is [None] when the argument is left out; [knownHostsPath] is
    the path that [resolveKnownHostsPath()] gives. *)
Definition fleetStatusCommand (name : option jsstring) (opts : FleetStatusOptions)
                              (knownHostsPath : jsstring) : C unit :=
  let timeoutMs := Number_parseInt (timeout opts) in
  if negb (Number_isFinite timeoutMs) || less_than timeoutMs 1000 then
    error (js "Timeout must be at least 1000ms") ;;~
    exit 1
  else
    let timeoutMs := match timeoutMs with Some t => t | None => 0%Z end in
    ctry (
      (* [inl]: the nodes to check; [inr]: the command has returned *)
      selected <~
        match name with
        | Some (c :: n) =>
            let name := c :: n in
            found <~ await (Store.getNode name) ;;
            match found with
            | None =>
                (if json opts
                 then log_json (JObj [(js "error", JStr (js "Node not found: " ++ name))])
                 else error (js "Node not found: " ++ name)) ;;~
                exit 1 ;;~
                cret (inr tt)
            | Some node => cret (inl [node])
            end
        | _ =>
            nodes <~ await Store.listNodes ;;
            cret (inl nodes)
        end ;;
      match selected with
      | inr _ => cret tt
      | inl nodes =>
          if (List.length nodes =? 0)%nat then
            if json opts then log_json (JObj [(js "nodes", JArr [])])
            else
              log (js "No fleet nodes configured.") ;;~
              log (js "Use 'raven fleet add' to add a node.")
          else
            results <~ checkNodes opts timeoutMs knownHostsPath nodes [] ;;
            if json opts then
              log_json (JObj [(js "nodes", JArr (map diagnostics_to_json results))])
            else
              log [] ;;~
              log (formatStatusRow (js "NAME") (js "STATUS") (js "SERVICE")
                     (js "VERSION") (js "UPTIME") (js "LATENCY")) ;;~
              log (List.repeat 45%N 85) ;;~
              printRows results ;;~
              let onlineCount := List.length (filter Diagnostics.online results) in
              let runningCount :=
                List.length (filter Diagnostics.serviceRunning results) in
              let total := show (Z.of_nat (List.length results)) in
              log [] ;;~
              log (js "Summary: " ++ show (Z.of_nat onlineCount) ++ js "/" ++ total
                   ++ js " online, " ++ show (Z.of_nat runningCount) ++ js "/" ++ total
                   ++ js " running")
      end)
      (fun message =>
         (if json opts
          then log_json (JObj [(js "error", JStr message)])
          else error (js "Failed to get status: " ++ message)) ;;~
         exit 1).

End WithRuntime.

End StatusCommand.

(** ** Vocabulary of the statements *)

(** The step of a plan with a given identifier. *)
Definition find_step (step_id : jsstring) (steps : list PlanBuilder.BootstrapStep)
  : option PlanBuilder.BootstrapStep :=
  find (fun s => str_eqb (PlanBuilder.id s) step_id) steps.

(** A fact sheet of a macOS machine on which raven 1.2.3 is installed. *)
Definition sample_info : PlanBuilder.NodeInfo :=
  {| PlanBuilder.os := Store.Darwin; PlanBuilder.arch := Store.Arm64;
     PlanBuilder.homeDir := js "/Users/admin";
     PlanBuilder.hasNode := true; PlanBuilder.nodeVersion := Some (js "v20.1.0");
     PlanBuilder.hasNpm := true;
     PlanBuilder.hasRaven := true; PlanBuilder.ravenVersion := Some (js "1.2.3");
     PlanBuilder.hasService := false; PlanBuilder.serviceRunning := false |}.

Definition sample_node (name : jsstring) : Store.FleetNode :=
  {| Store.id := js "0b7e5c7e-7d0b-4d0e-9f43-3f1c5a6b7c8d";
     Store.name := name; Store.host := js "192.168.1.100"; Store.port := 22;
     Store.user := js "admin"; Store.trusted := true; Store.hostKey := None;
     Store.tags := []; Store.os := None; Store.arch := None;
     Store.installed := None; Store.lastSeen := None;
     Store.serviceStatus := None |}.

(** A runtime on which the definitions can be run: identifiers of 36
    characters count as UUIDs, timestamps are the 24 characters
    [1970-01-01T00:00:00.000Z] with the milliseconds of the clock in
    place of [000], and [JSON.parse] knows the empty object. *)
#[local] Instance sample_runtime : Runtime := {|
  unicode_lower := fun s => s;
  is_uuid := fun s => (List.length s =? 36)%nat;
  is_datetime := fun s => (List.length s =? 24)%nat;
  toISOString := fun t =>
    js "1970-01-01T00:00:00." ++ skipn 1 (digits (Z.to_N (1000 + Z.modulo t 1000))) ++ js "Z";
  JSON_parse := fun s => if str_eqb s (js "{}") then Some (JObj []) else None
|}.

(** The inventory that the store functions see in a file: the fallback
    when the file cannot be read, is not JSON or holds [null]; the empty
    store when the schema rejects the value. *)
Definition inventory_of `{Runtime} (f : json_file) : Store.FleetStore :=
  match f with
  | JsonText (Some JNull) => Store.createEmptyFleetStore
  | JsonText (Some v) =>
      match Store.FleetStoreSchema_safeParse v with
      | Some data => data
      | None => Store.createEmptyFleetStore
      end
  | _ => Store.createEmptyFleetStore
  end.

(** An inventory file that is not JSON, or that the schema rejects. *)
Definition rejected_file `{Runtime} (f : json_file) : Prop :=
  f = JsonText None
  \/ exists v, f = JsonText (Some v) /\ Store.FleetStoreSchema_safeParse v = None.

(** An inventory file whose [schemaVersion] member is not the number 1. *)
Definition version_mismatch (f : json_file) : Prop :=
  exists m, f = JsonText (Some (JObj m))
            /\ member (js "schemaVersion") m <> Some (JNum (Int 1)).

(** A world with an empty fleet directory in which every child exits with
    the given outcome. *)
Definition world_with (nodes : json_file) (child : nat -> child_outcome) : world :=
  {| nodes_file := nodes; known_hosts_file := TextAbsent; spawned := [];
     children := child; clock := 0;
     uuids := fun n => js "00000000-0000-4000-8000-0000000000" ++ skipn 1 (digits (100 + N.of_nat n));
     uuids_taken := 0; progress := [] |}.

(** An inventory file written by a later format revision. *)
Definition version2_world : world :=
  world_with (JsonText (Some (JObj [(js "schemaVersion", JNum (Int 2));
                                    (js "nodes", JArr [])])))
             (fun _ => Hangs [] []).

(** The world after [ensureJsonFile]: a missing inventory file is created
    with the empty store. *)
Definition ensured (w : world) : world :=
  match nodes_file w with
  | JsonAbsent =>
      set_nodes_file
        (JsonText (Some (Store.store_to_json Store.createEmptyFleetStore))) w
  | _ => w
  end.

(** The inventory file that holds the given nodes. *)
Definition inventory_file (nodes : list Store.FleetNode) : json_file :=
  JsonText (Some (Store.store_to_json
                    {| Store.schemaVersion := 1; Store.nodes := nodes |})).

Definition no_update : Store.UpdateNodeInput :=
  {| Store.upd_host := None; Store.upd_port := None; Store.upd_user := None;
     Store.upd_trusted := None; Store.upd_hostKey := None; Store.upd_tags := None;
     Store.upd_os := None; Store.upd_arch := None; Store.upd_installed := None;
     Store.upd_lastSeen := None; Store.upd_serviceStatus := None |}.

(** An inventory of two nodes. *)
Definition two_node_world : world :=
  world_with (inventory_file [sample_node (js "edge-1"); sample_node (js "edge-2")])
             (fun _ => Hangs [] []).

(** A partial update that moves a node to port 2222 and marks it untrusted. *)
Definition port_update : Store.UpdateNodeInput :=
  {| Store.upd_host := None; Store.upd_port := Some 2222%Z; Store.upd_user := None;
     Store.upd_trusted := Some false; Store.upd_hostKey := None;
     Store.upd_tags := None; Store.upd_os := None; Store.upd_arch := None;
     Store.upd_installed := None; Store.upd_lastSeen := None;
     Store.upd_serviceStatus := None |}.

(** The effective [dryRun] of the options: [options.dryRun ?? false]. *)
Definition effective_dryRun (options : Executor.ExecuteOptions) : bool :=
  match Executor.dryRun options with Some d => d | None => false end.

(** The number of commands that the steps of a list send when each of
    them succeeds: the commands of the steps that are not skipped. *)
Definition commands_run (info : PlanBuilder.NodeInfo)
                        (steps : list PlanBuilder.BootstrapStep) : nat :=
  list_sum (map (fun s => if Executor.shouldSkip s info then O
                          else List.length (PlanBuilder.commands s)) steps).

(** A step result that lets the plan go on. *)
Definition went_through (sr : Executor.BootstrapStepResult) : Prop :=
  Executor.status sr = PlanBuilder.Success \/ Executor.status sr = PlanBuilder.Skipped.

Definition real_run : Executor.ExecuteOptions :=
  {| Executor.dryRun := Some false; Executor.commandTimeoutMs := None;
     Executor.onProgress := true;
     Executor.knownHostsPath := js "/home/op/.openclaw/fleet/known_hosts" |}.

(** The plan that brings the node ["edge-1"] of [sample_info] to raven 2.0.0. *)
Definition edge1_plan : PlanBuilder.BootstrapPlan :=
  {| PlanBuilder.node := sample_node (js "edge-1");
     PlanBuilder.nodeInfo := sample_info;
     PlanBuilder.steps := PlanBuilder.buildMacOSSteps sample_info (js "2.0.0") false;
     PlanBuilder.targetVersion := js "2.0.0";
     PlanBuilder.force := false |}.

(** The inventory holds ["edge-1"]; every remote command succeeds after
    one second. *)
Definition edge1_world : world :=
  world_with (inventory_file [sample_node (js "edge-1")])
             (fun _ => Exits (js "ok") [] (Some 0%Z) None 1000).

(** The same inventory; the first remote command never finishes. *)
Definition edge1_stuck_world : world :=
  world_with (inventory_file [sample_node (js "edge-1")])
             (fun _ => Hangs [] []).

(** The same inventory; every remote command exits with code 1. *)
Definition edge1_failing_world : world :=
  world_with (inventory_file [sample_node (js "edge-1")])
             (fun _ => Exits [] (js "npm ERR!") (Some 1%Z) None 1000).

(** What the command line hands to [addNode]. *)
Definition cli_input (name host : jsstring) : Store.AddNodeInput :=
  {| Store.add_name := name; Store.add_host := host; Store.add_port := 22;
     Store.add_user := js "admin"; Store.add_trusted := Some false;
     Store.add_hostKey := None; Store.add_tags := Some [];
     Store.add_os := None; Store.add_arch := None; Store.add_installed := None;
     Store.add_lastSeen := None; Store.add_serviceStatus := None |}.

(** A fleet directory without an inventory file. *)
Definition fresh_world : world := world_with JsonAbsent (fun _ => Hangs [] []).

(** The world after [m]. *)
Definition after {A} (m : M A) (w : world) : world := snd (m w).

(** What the executor hands to [updateNode] at the end of the run of
    [edge1_plan] in [edge1_world]: the run takes ten seconds. *)
Definition edge1_recorded : Store.UpdateNodeInput :=
  {| Store.upd_host := None; Store.upd_port := None; Store.upd_user := None;
     Store.upd_trusted := None; Store.upd_hostKey := None; Store.upd_tags := None;
     Store.upd_os := Some Store.Darwin; Store.upd_arch := Some Store.Arm64;
     Store.upd_installed :=
       Some {| Store.version := js "2.0.0";
               Store.installedAt := js "1970-01-01T00:00:00.000Z" |};
     Store.upd_lastSeen := Some (js "1970-01-01T00:00:00.000Z");
     Store.upd_serviceStatus := Some Store.Running |}.

(** The transport call of [runNodeDiagnostics]. *)
Definition probe_call (node : Store.FleetNode) (timeoutMs : Z) (path : jsstring)
  : M Transport.SshExecResult :=
  Transport.sshExec
    {| Transport.host := Store.host node;
       Transport.port := Store.port node;
       Transport.user := Store.user node;
       Transport.command := Diagnostics.diagCommand;
       Transport.timeoutMs := timeoutMs;
       Transport.knownHostsPath := path;
       Transport.strictHostKeyChecking :=
         if Store.trusted node then Transport.CheckYes
         else Transport.CheckAcceptNew |}.

(** The output of the probe on a machine without raven. *)
Definition not_found_output : jsstring :=
  js "DIAG_START
VERSION:NOT_FOUND
SERVICE:stopped
STATUS_JSON:{}
DIAG_END".

(** A world whose next child prints [not_found_output] and exits with 0. *)
Definition not_found_world : world :=
  world_with (inventory_file [sample_node (js "edge-1")])
             (fun _ => Exits not_found_output [] (Some 0%Z) None 250).

(** *** Known hosts *)

(** A string without white space. *)
Definition no_ws (s : jsstring) : bool := forallb (fun c => negb (is_ws c)) s.

(** A non-empty string without white space: a field of a known_hosts line. *)
Definition is_token (s : jsstring) : bool := negb (is_empty s) && no_ws s.

(** The first field of the line that [formatKnownHosts] writes for an entry. *)
Definition rendered_host (e : HostKeys.HostKeyEntry) : jsstring :=
  HostKeys.formatHostEntry (HostKeys.host e) (HostKeys.port e).

(** An entry whose three fields are tokens and whose first field reads back
    as its host and port. *)
Definition canonical (e : HostKeys.HostKeyEntry) : Prop :=
  is_token (HostKeys.keyType e) = true
  /\ is_token (HostKeys.key e) = true
  /\ is_token (rendered_host e) = true
  /\ HostKeys.parseHostEntry (rendered_host e) = (HostKeys.host e, HostKeys.port e).

(** A port below [2^53]: such a number is printed with its decimal
    digits, and [Number.parseInt] reads it back from them. *)
Definition safe_port (p : Z) : Prop := (2 ^ 53 > p)%Z.

(** Entries whose ports are below [2^53]. *)
Definition safe_ports (entries : list HostKeys.HostKeyEntry) : Prop :=
  Forall (fun e => safe_port (HostKeys.port e)) entries.

(** The line of the entry begins with ['#']: it reads as a comment. *)
Definition hash_host (e : HostKeys.HostKeyEntry) : bool :=
  startsWith (js "#") (rendered_host e).

(** An entry that the known_hosts format represents: written alone and
    read back, it is itself. *)
Definition representable (e : HostKeys.HostKeyEntry) : Prop :=
  HostKeys.parseKnownHosts (HostKeys.formatKnownHosts [e]) = [e].


Definition has_newline (s : jsstring) : bool := existsb (fun c => (c =? 10)%N) s.

(** The entries that [parseLine] gives for a line. *)
Definition line_entries (line : jsstring) : list HostKeys.HostKeyEntry :=
  match HostKeys.parseLine line with
  | Some e => [e]
  | None => []
  end.

(** One step of [parseInt]: the digit [c] is appended to the number [acc]. *)
Definition horner (acc : N) (c : char) : N := (10 * acc + (c - 48))%N.

(** The entries pinned in a known_hosts file. *)
Definition pinned (f : text_file) : list HostKeys.HostKeyEntry :=
  match f with
  | Text content => HostKeys.parseKnownHosts content
  | _ => []
  end.




(** A known_hosts file with a comment, an RSA key of that host and a key
    of another host. *)
Definition sample_known_hosts : jsstring :=
  js "# fleet hosts
[fe80::1]:2222 ssh-rsa AAAAB3Nz

example.org ssh-ed25519 AAAAC3Aa
".

Definition known_hosts_world : world :=
  set_known_hosts_file (Text sample_known_hosts) fresh_world.




(** A line whose bracket port is [10^21], the least integer that JavaScript
    prints in exponent form. *)
Definition large_port_line : jsstring :=
  js "[h]:1000000000000000000000 ssh-rsa AAAA".


(** *** Inventory records *)

(** The checks of [FleetNodeSchema] on a record. *)
Definition valid_node `{Runtime} (n : Store.FleetNode) : bool :=
  is_uuid (Store.id n)
  && (Store.min_length 1 (Store.name n) && Store.max_length 100 (Store.name n)
      && Store.nodeNameRegex_test (Store.name n))
  && (Store.min_length 1 (Store.host n) && negb (startsWith (js "-") (Store.host n)))
  && ((1 <=? Store.port n)%Z && (Store.port n <=? 65535)%Z)
  && Store.min_length 1 (Store.user n)
  && match Store.installed n with
     | Some i => is_datetime (Store.installedAt i)
     | None => true
     end
  && match Store.lastSeen n with
     | Some t => is_datetime t
     | None => true
     end.

(** Two names that differ in the case of their letters only. *)
Definition case_variant (a b : jsstring) : Prop :=
  map lower_ascii a = map lower_ascii b.

(** The input of [addNode] under another name. *)
Definition renamed (input : Store.AddNodeInput) (name : jsstring) : Store.AddNodeInput :=
  {| Store.add_name := name; Store.add_host := Store.add_host input;
     Store.add_port := Store.add_port input; Store.add_user := Store.add_user input;
     Store.add_trusted := Store.add_trusted input;
     Store.add_hostKey := Store.add_hostKey input;
     Store.add_tags := Store.add_tags input; Store.add_os := Store.add_os input;
     Store.add_arch := Store.add_arch input;
     Store.add_installed := Store.add_installed input;
     Store.add_lastSeen := Store.add_lastSeen input;
     Store.add_serviceStatus := Store.add_serviceStatus input |}.

(** The checks that [addNode] makes before it takes the lock. *)
Definition accepts (input : Store.AddNodeInput) : bool :=
  negb (is_empty (Store.add_name input) || is_empty (trim (Store.add_name input)))
  && Store.nodeNameRegex_test (Store.add_name input)
  && negb (100 <? List.length (Store.add_name input))%nat
  && negb (is_empty (Store.add_host input) || is_empty (trim (Store.add_host input)))
  && negb (startsWith (js "-") (Store.add_host input))
  && negb ((Store.add_port input <? 1)%Z || (65535 <? Store.add_port input)%Z)
  && negb (is_empty (Store.add_user input) || is_empty (trim (Store.add_user input))).

(** The record that [addNode] creates for an input and a fresh UUID. *)
Definition new_node (input : Store.AddNodeInput) (uuid : jsstring) : Store.FleetNode :=
  {| Store.id := uuid;
     Store.name := trim (Store.add_name input);
     Store.host := trim (Store.add_host input);
     Store.port := Store.add_port input;
     Store.user := trim (Store.add_user input);
     Store.trusted := Store.option_default (Store.add_trusted input) false;
     Store.hostKey := Store.add_hostKey input;
     Store.tags := Store.option_default (Store.add_tags input) [];
     Store.os := None;
     Store.arch := None;
     Store.installed := Store.add_installed input;
     Store.lastSeen := Store.add_lastSeen input;
     Store.serviceStatus := None |}.

(** The partial update that the executor hands to [updateNode] at the end
    of a successful run that ends at the time [now]. *)
Definition executor_update (plan : PlanBuilder.BootstrapPlan) (now : jsstring)
  : Store.UpdateNodeInput :=
  {| Store.upd_host := None; Store.upd_port := None; Store.upd_user := None;
     Store.upd_trusted := None; Store.upd_hostKey := None; Store.upd_tags := None;
     Store.upd_os := Some (PlanBuilder.os (PlanBuilder.nodeInfo plan));
     Store.upd_arch := Some (PlanBuilder.arch (PlanBuilder.nodeInfo plan));
     Store.upd_installed :=
       Some {| Store.version := PlanBuilder.targetVersion plan;
               Store.installedAt := now |};
     Store.upd_lastSeen := Some now;
     Store.upd_serviceStatus := Some Store.Running |}.

(** [options.commandTimeoutMs ?? 120_000]. *)
Definition effective_timeout (options : Executor.ExecuteOptions) : Z :=
  match Executor.commandTimeoutMs options with Some t => t | None => 120000%Z end.

(** *** The inventory *)

(** The inventory that the store functions see in a world. *)
Definition inventory `{Runtime} (w : world) : list Store.FleetNode :=
  Store.nodes (inventory_of (nodes_file w)).

(** The messages of the checks that [addNode] makes before it takes the
    lock. *)
Definition addNode_rejections : list jsstring :=
  [ js "Node name cannot be empty";
    js "Node name must contain only letters, numbers, hyphens, and underscores";
    js "Node name must be at most 100 characters";
    js "Host cannot be empty";
    js "Host cannot start with '-' (security)";
    js "Port must be an integer between 1 and 65535";
    js "User cannot be empty" ].

(** The message of the first check that fails, for checks listed in the
    order in which they are made, each with whether the input fails it and
    the message thrown then. *)
Definition first_failure (checks : list (bool * jsstring)) : option jsstring :=
  match find fst checks with
  | Some c => Some (snd c)
  | None => None
  end.

(** The checks of [addNode], in its order: [validateNodeName] (blank,
    pattern, length), [validateHost] (blank, leading dash), [validatePort]
    and the check of the user. *)
Definition addNode_checks (input : Store.AddNodeInput) : list (bool * jsstring) :=
  [ (is_empty (Store.add_name input) || is_empty (trim (Store.add_name input)),
     js "Node name cannot be empty");
    (negb (Store.nodeNameRegex_test (Store.add_name input)),
     js "Node name must contain only letters, numbers, hyphens, and underscores");
    ((100 <? List.length (Store.add_name input))%nat,
     js "Node name must be at most 100 characters");
    (is_empty (Store.add_host input) || is_empty (trim (Store.add_host input)),
     js "Host cannot be empty");
    (startsWith (js "-") (Store.add_host input),
     js "Host cannot start with '-' (security)");
    ((Store.add_port input <? 1)%Z || (65535 <? Store.add_port input)%Z,
     js "Port must be an integer between 1 and 65535");
    (is_empty (Store.add_user input) || is_empty (trim (Store.add_user input)),
     js "User cannot be empty") ].

(** The checks that [updateNode] makes before it takes the lock. *)
Definition update_accepts (updates : Store.UpdateNodeInput) : bool :=
  match Store.upd_host updates with
  | Some h => negb (is_empty h || is_empty (trim h)) && negb (startsWith (js "-") h)
  | None => true
  end
  && match Store.upd_port updates with
     | Some p => negb ((p <? 1)%Z || (65535 <? p)%Z)
     | None => true
     end
  && match Store.upd_user updates with
     | Some u => negb (is_empty u || is_empty (trim u))
     | None => true
     end.

Definition updateNode_rejections : list jsstring :=
  [ js "Host cannot be empty";
    js "Host cannot start with '-' (security)";
    js "Port must be an integer between 1 and 65535";
    js "User cannot be empty" ].

(** The checks of [updateNode], in its order; a field that the update does
    not provide is not checked. *)
Definition updateNode_checks (updates : Store.UpdateNodeInput)
    : list (bool * jsstring) :=
  [ (match Store.upd_host updates with
     | Some h => is_empty h || is_empty (trim h)
     | None => false
     end, js "Host cannot be empty");
    (match Store.upd_host updates with
     | Some h => startsWith (js "-") h
     | None => false
     end, js "Host cannot start with '-' (security)");
    (match Store.upd_port updates with
     | Some p => (p <? 1)%Z || (65535 <? p)%Z
     | None => false
     end, js "Port must be an integer between 1 and 65535");
    (match Store.upd_user updates with
     | Some u => is_empty u || is_empty (trim u)
     | None => false
     end, js "User cannot be empty") ].

(** The name under which the store compares a record. *)
Definition key_of `{Runtime} (n : Store.FleetNode) : jsstring :=
  Store.normalizeNodeName (Store.name n).

(** No two records have the same name up to case. *)
Definition unique_names `{Runtime} (nodes : list Store.FleetNode) : Prop :=
  NoDup (map key_of nodes).

(** An input of [addNode] that fails the check of the name. *)
Definition spaced_name_input : Store.AddNodeInput :=
  cli_input (js "edge 1") (js "10.0.0.1").

(** The store with the two nodes of [two_node_world]. *)
Definition two_node_store : Store.FleetStore :=
  {| Store.schemaVersion := 1;
     Store.nodes := [sample_node (js "edge-1"); sample_node (js "edge-2")] |}.

(** *** The executor *)

(** The calls that a dry run makes to [onProgress] for a step. *)
Definition dry_progress (info : PlanBuilder.NodeInfo) (step : PlanBuilder.BootstrapStep)
  : list (jsstring * jsstring) :=
  if Executor.shouldSkip step info
  then [(PlanBuilder.id step, js "skipped")]
  else [(PlanBuilder.id step, js "running"); (PlanBuilder.id step, js "success")].

(** The result that a dry run records for a step. *)
Definition dry_result (info : PlanBuilder.NodeInfo) (step : PlanBuilder.BootstrapStep)
  : Executor.BootstrapStepResult :=
  {| Executor.step := step;
     Executor.status := if Executor.shouldSkip step info
                        then PlanBuilder.Skipped else PlanBuilder.Success;
     Executor.stdout := if Executor.shouldSkip step info
                        then [] else js "[DRY RUN] Commands not executed";
     Executor.stderr := []; Executor.error := None; Executor.durationMs := 0 |}.

Definition dry_run : Executor.ExecuteOptions :=
  {| Executor.dryRun := Some true; Executor.commandTimeoutMs := None;
     Executor.onProgress := true;
     Executor.knownHostsPath := js "/home/op/.openclaw/fleet/known_hosts" |}.

(** A command that some step of a list runs. *)
Definition command_of (steps : list PlanBuilder.BootstrapStep) (c : jsstring) : Prop :=
  exists step, In step steps /\ In c (PlanBuilder.commands step).

(** A child that exits with the code 0 before the timer fires. *)
Definition child_ok (c : child_outcome) : bool :=
  match c with
  | Exits _ _ (Some 0%Z) _ _ => true
  | _ => false
  end.

(** The remote command of an ssh call: its last argument. *)
Definition sent_command (c : spawn_call) : jsstring := last (spawn_args c) [].

(** The n-th child spawned after the world [w]. *)
Definition next_child (w : world) (n : nat) : child_outcome :=
  children w (List.length (spawned w) + n).

(** The output and the error output that the parent reads from a child. *)
Definition child_stdout (c : child_outcome) : jsstring :=
  match c with
  | Exits out _ _ _ _ => out
  | Hangs out _ => out
  | Fails out _ _ _ => out
  end.

(** *** Versions *)

(** A non-empty string of decimal digits. *)
Definition is_number (d : jsstring) : bool := negb (is_empty d) && forallb is_digit d.

(** A string of white space. *)
Definition blank (s : jsstring) : bool := forallb is_ws s.

(** The text [major.minor.patch]. *)
Definition semver (major minor patch : jsstring) : jsstring :=
  major ++ js "." ++ minor ++ js "." ++ patch.

(** *** Plans *)

(** The identifiers of the steps of a plan, in plan order. *)
Definition plan_step_ids : list jsstring :=
  [ js "install-node"; js "install-raven"; js "create-config-dir";
    js "install-service"; js "start-service"; js "verify-service" ].

(** [options.version ?? "latest"] and [options.force ?? false]. *)
Definition effective_version (options : PlanBuilder.PlanOptions) : jsstring :=
  match PlanBuilder.opt_version options with Some v => v | None => js "latest" end.

Definition effective_force (options : PlanBuilder.PlanOptions) : bool :=
  match PlanBuilder.opt_force options with Some f => f | None => false end.

(** *** Host keys *)

(** An entry under another host and port. *)
Definition rehost (h : jsstring) (p : Z) (e : HostKeys.HostKeyEntry)
  : HostKeys.HostKeyEntry :=
  {| HostKeys.host := h; HostKeys.port := p;
     HostKeys.keyType := HostKeys.keyType e; HostKeys.key := HostKeys.key e |}.

(** The algorithm and the key of an entry. *)
Definition key_material (e : HostKeys.HostKeyEntry) : jsstring * jsstring :=
  (HostKeys.keyType e, HostKeys.key e).

(** The entries of a known_hosts file for a host and port. *)
Definition keys_of (h : jsstring) (p : Z) (f : text_file) : list HostKeys.HostKeyEntry :=
  filter (HostKeys.same_host h p) (pinned f).

(** An RSA key and an ECDSA key of the host of [sample_key]. *)
Definition sample_rsa_key : HostKeys.HostKeyEntry :=
  {| HostKeys.host := js "fe80::1"; HostKeys.port := 2222;
     HostKeys.keyType := js "ssh-rsa"; HostKeys.key := js "AAAAB3Nz" |}.

(** [e] is the first entry of [keys] with the algorithm [t]. *)
Definition first_of_type (t : jsstring) (keys : list HostKeys.HostKeyEntry)
                         (e : HostKeys.HostKeyEntry) : Prop :=
  exists before after,
    keys = before ++ e :: after
    /\ HostKeys.keyType e = t
    /\ Forall (fun x => HostKeys.keyType x <> t) before.

(** The key that [getHostKey] picks among the entries of a host: the
    first ed25519 key, else the first RSA key, else the first entry. *)
Definition preferred (matches : list HostKeys.HostKeyEntry)
  : option HostKeys.HostKeyEntry :=
  match find HostKeys.is_ed25519 matches with
  | Some e => Some e
  | None =>
      match find HostKeys.is_rsa matches with
      | Some e => Some e
      | None => nth_error matches 0
      end
  end.

(** *** Preflight *)

(** The remote commands of the preflight. *)
Definition preflight_probes : list jsstring :=
  [ js "uname -s && uname -m && echo $HOME";
    js "node --version 2>/dev/null || echo 'NOT_FOUND'";
    js "npm --version 2>/dev/null || echo 'NOT_FOUND'";
    js "raven --version 2>/dev/null || echo 'NOT_FOUND'";
    js "launchctl list 2>/dev/null | grep -q " ++ Preflight.dq ++ js "ai.raven.gateway" ++ Preflight.dq ++ js " && echo " ++ Preflight.dq ++ js "FOUND" ++ Preflight.dq ++ js " || echo " ++ Preflight.dq ++ js "NOT_FOUND" ++ Preflight.dq;
    js "launchctl list ai.raven.gateway 2>/dev/null | grep -q " ++ Preflight.dq ++ js "PID" ++ Preflight.dq ++ js " && echo " ++ Preflight.dq ++ js "RUNNING" ++ Preflight.dq ++ js " || echo " ++ Preflight.dq ++ js "STOPPED" ++ Preflight.dq;
    js "systemctl --user is-enabled raven-gateway 2>/dev/null && echo " ++ Preflight.dq ++ js "FOUND" ++ Preflight.dq ++ js " || echo " ++ Preflight.dq ++ js "NOT_FOUND" ++ Preflight.dq;
    js "systemctl --user is-active raven-gateway 2>/dev/null" ].

(** The options with which [bootstrap] calls [gatherNodeInfo]. *)
Definition bootstrap_preflight (options : Bootstrap.BootstrapOptions)
  : Preflight.PreflightOptions :=
  {| Preflight.timeoutMs := Some 30000%Z;
     Preflight.knownHostsPath := Bootstrap.knownHostsPath options |}.

(** The result with which [bootstrap] stops before a plan is built. *)
Definition bootstrap_stopped (options : Bootstrap.BootstrapOptions) (total : Z)
                             (message : jsstring) : Executor.BootstrapResult :=
  {| Executor.node := Bootstrap.node options; Executor.success := false;
     Executor.stepResults := []; Executor.installedVersion := None;
     Executor.totalDurationMs := total; Executor.resultError := Some message |}.

(** [options.version ?? "latest"] of [bootstrap]. *)
Definition bootstrap_version (options : Bootstrap.BootstrapOptions) : jsstring :=
  match Bootstrap.version options with Some v => v | None => js "latest" end.

(** A step result of a dry run: skipped, or success with the dry-run
    notice as output. *)
Definition dry_outcome (sr : Executor.BootstrapStepResult) : Prop :=
  Executor.status sr = PlanBuilder.Skipped
  \/ (Executor.status sr = PlanBuilder.Success
      /\ Executor.stdout sr = js "[DRY RUN] Commands not executed").

(** The identifiers of the steps of a list of step results. *)
Definition result_ids (results : list Executor.BootstrapStepResult) : list jsstring :=
  map (fun sr => PlanBuilder.id (Executor.step sr)) results.

(** [options.dryRun ?? false] of [bootstrap]. *)
Definition bootstrap_dryRun (options : Bootstrap.BootstrapOptions) : bool :=
  match Bootstrap.dryRun options with Some d => d | None => false end.

(** A macOS machine without raven and without the service: the children
    are the probes of the preflight in their order. *)
Definition darwin_probe (n : nat) : child_outcome :=
  match n with
  | 0%nat => Exits (js "Darwin
arm64
/Users/admin
") [] (Some 0%Z) None 40
  | 1%nat => Exits (js "v20.10.0
") [] (Some 0%Z) None 40
  | 2%nat => Exits (js "10.2.3
") [] (Some 0%Z) None 40
  | 3%nat => Exits (js "NOT_FOUND
") [] (Some 0%Z) None 40
  | 4%nat => Exits (js "NOT_FOUND
") [] (Some 0%Z) None 40
  | 5%nat => Exits (js "STOPPED
") [] (Some 0%Z) None 40
  | _ => Hangs [] []
  end.

Definition darwin_world : world :=
  world_with (inventory_file [sample_node (js "edge-1")]) darwin_probe.

Definition default_preflight : Preflight.PreflightOptions :=
  {| Preflight.timeoutMs := None;
     Preflight.knownHostsPath := js "/home/op/.openclaw/fleet/known_hosts" |}.

(** A node record whose host begins with ['-']. *)
Definition dash_node : Store.FleetNode :=
  {| Store.id := js "0b7e5c7e-7d0b-4d0e-9f43-3f1c5a6b7c8d";
     Store.name := js "edge-1"; Store.host := js "-oProxyCommand=evil";
     Store.port := 22; Store.user := js "admin"; Store.trusted := true;
     Store.hostKey := None; Store.tags := []; Store.os := None; Store.arch := None;
     Store.installed := None; Store.lastSeen := None; Store.serviceStatus := None |}.

Definition bootstrap_of (node : Store.FleetNode) (dryRun : bool)
  : Bootstrap.BootstrapOptions :=
  {| Bootstrap.node := node; Bootstrap.version := None; Bootstrap.force := None;
     Bootstrap.dryRun := Some dryRun; Bootstrap.commandTimeoutMs := None;
     Bootstrap.onProgress := true;
     Bootstrap.knownHostsPath := js "/home/op/.openclaw/fleet/known_hosts" |}.

(** *** Commands *)

(** The port that [fleetAddCommand] reads from its option: the number
    that [Number.parseInt] gives, when it lies between 1 and 65535. *)
Definition read_port (text : jsstring) : option Z :=
  match Cli.Number_parseInt text with
  | Some p => if (1 <=? p)%Z && (p <=? 65535)%Z then Some p else None
  | None => None
  end.

(** The timeout that the commands [status] and [ping] read from their
    option: the number that [Number.parseInt] gives, when it is finite and
    at least 1000. *)
Definition read_timeout (text : jsstring) : option Z :=
  match Cli.Number_parseInt text with
  | Some t => if Cli.Number_isFinite (Some t) && (1000 <=? t)%Z then Some t else None
  | None => None
  end.

(** What [fleetAddCommand] prints for the node that it has added. *)
Definition add_report (opts : AddCommand.FleetAddOptions) (node : Store.FleetNode)
  : list Cli.runtime_call :=
  if AddCommand.json opts then [Cli.LogJson (Store.node_to_json node)]
  else
    Cli.Log (js "Added node: " ++ Store.name node ++ js " (" ++ Store.user node
             ++ js "@" ++ Store.host node ++ js ":" ++ show (Store.port node)
             ++ js ")")
    :: match AddCommand.parseTags (AddCommand.tags opts) with
       | [] => []
       | tags => [Cli.Log (js "  tags: " ++ join (js ", ") tags)]
       end.

(** A session in a world, with the calls made to the runtime so far. *)
Definition session_in (w : world) (calls : list Cli.runtime_call) : Cli.session :=
  {| Cli.world_of := w; Cli.calls := calls |}.

(** What [outputError] prints: a JSON document in JSON mode, else one
    line on the error stream. *)
Definition ping_error (json : bool) (name message : jsstring) : Cli.runtime_call :=
  if json then
    Cli.LogJson (JObj [(js "name", JStr name);
                       (js "reachable", JBool false);
                       (js "exitCode", JNull);
                       (js "stdout", JStr []);
                       (js "stderr", JStr []);
                       (js "timedOut", JBool false);
                       (js "hostKeyStatus", JStr (js "pinned"));
                       (js "error", JStr message)])
  else Cli.Error (name ++ js ": " ++ message).

(** The inventory with the node ["edge-1"], a known_hosts file with an
    ed25519 key of its host, and a host that now presents another key. *)
Definition rekeyed_world : world :=
  set_known_hosts_file
    (Text (js "192.168.1.100 ssh-ed25519 AAAAC3Nz
"))
    (world_with (inventory_file [sample_node (js "edge-1")])
       (fun _ => Exits (js "192.168.1.100 ssh-ed25519 AAAAC3Zz
") [] (Some 0%Z) None 40)).

Definition ping_options (trust : bool) : PingCommand.FleetPingOptions :=
  {| PingCommand.timeout := js "10000"; PingCommand.trustHostKeyChange := trust;
     PingCommand.json := false |}.

(** The nodes that [fleetStatusCommand] checks: the node of the given
    name, or every node when the name is left out or empty; [None] when
    no node bears the name. *)
Definition status_selection `{Runtime} (name : option jsstring)
                            (nodes : list Store.FleetNode)
  : option (list Store.FleetNode) :=
  match name with
  | Some (c :: n) =>
      match find (Store.same_name (Store.normalizeNodeName (c :: n))) nodes with
      | Some node => Some [node]
      | None => None
      end
  | _ => Some nodes
  end.

(** The text of an optional name. *)
Definition name_text (name : option jsstring) : jsstring :=
  match name with Some n => n | None => [] end.

Definition status_options (json : bool) : StatusCommand.FleetStatusOptions :=
  {| StatusCommand.json := json; StatusCommand.timeout := js "10000" |}.

(* ===================================================================== *)
(** * Part II: lemmas and theorems                                        *)
(* ===================================================================== *)

Unset Implicit Arguments.

(** ** Transport: hosts that look like an option *)

Lemma startsWith_dash (host : jsstring) :
  startsWith (js "-") host = true <-> exists rest, host = 45%N :: rest.
Proof.
  split.
  - destruct host as [|c rest]; [discriminate|].
    change (startsWith (js "-") (c :: rest)) with ((45 =? c)%N && true).
    rewrite andb_true_r. intros E. apply N.eqb_eq in E. subst c. now exists rest.
  - intros [rest ->]. reflexivity.
Qed.

(** C1. A call of [sshExec] or of [sshKeyscan] whose host begins with ['-']
    returns the synthetic failure and leaves the world as it was: no child
    process is spawned.  For [sshExec] the result has exit code 1, an empty
    stdout, [timedOut = false] and the message of the rejection in
    stderr. *)
Theorem transport_rejects_dash_host (host : jsstring)
    (Hdash : startsWith (js "-") host = true) :
  (forall opts w,
      Transport.host opts = host ->
      Transport.sshExec opts w
      = (Return {| Transport.stdout := [];
                   Transport.stderr := js "Host cannot start with '-' (security)";
                   Transport.exitCode := Some 1%Z;
                   Transport.signal := None;
                   Transport.timedOut := false |}, w)
      /\ spawned (snd (Transport.sshExec opts w)) = spawned w)
  /\ (forall port timeoutMs w,
         Transport.sshKeyscan host port timeoutMs w
         = (Return {| Transport.output := [];
                      Transport.scanExitCode := Some 1%Z;
                      Transport.error :=
                        Some (js "Host cannot start with '-' (security)") |}, w)
         /\ spawned (snd (Transport.sshKeyscan host port timeoutMs w)) = spawned w).
Proof.
  split.
  - intros opts w E. unfold Transport.sshExec. rewrite E, Hdash. split; reflexivity.
  - intros port timeoutMs w. unfold Transport.sshKeyscan. rewrite Hdash.
    split; reflexivity.
Qed.

(** The host of the specification's example. *)
Lemma transport_rejects_dash_host_witness :
  startsWith (js "-") (js "-oProxyCommand=evil") = true
  /\ forall user command w,
      Transport.sshExec
        {| Transport.host := js "-oProxyCommand=evil"; Transport.port := 22;
           Transport.user := user; Transport.command := command;
           Transport.timeoutMs := 1000;
           Transport.knownHostsPath := js "/tmp/known_hosts";
           Transport.strictHostKeyChecking := Transport.CheckYes |} w
      = (Return {| Transport.stdout := [];
                   Transport.stderr := js "Host cannot start with '-' (security)";
                   Transport.exitCode := Some 1%Z;
                   Transport.signal := None;
                   Transport.timedOut := false |}, w).
Proof.
  split; [reflexivity|].
  intros user command w.
  apply (proj1 (transport_rejects_dash_host (js "-oProxyCommand=evil") eq_refl)).
  reflexivity.
Defined.

(** A host that does not begin with ['-'] does reach [spawn]: the guard is
    what keeps the process from being created. *)
Lemma sshExec_spawns_otherwise opts w :
  startsWith (js "-") (Transport.host opts) = false ->
  List.length (spawned (snd (Transport.sshExec opts w))) = S (List.length (spawned w)).
Proof.
  intros E. unfold Transport.sshExec. rewrite E.
  unfold bind, spawn_and_wait.
  destruct (children w (List.length (spawned w))); simpl;
    rewrite length_app; simpl; lia.
Qed.

(** ** Decimal numbers *)

Lemma parseInt_horner d : parseInt d = Z.of_N (to_double (fold_left horner d 0%N)).
Proof. reflexivity. Qed.

(** An integer below [2^53] is a Number. *)
Lemma to_double_small n : (n < 2 ^ 53)%N -> to_double n = n.
Proof. intros H. unfold to_double. apply N.leb_gt in H. now rewrite H. Qed.

Lemma digits_fuel_spec fuel n :
  (n < 2 ^ N.of_nat fuel)%N -> fuel <> O ->
  digits_fuel fuel n <> []
  /\ forallb is_digit (digits_fuel fuel n) = true
  /\ fold_left horner (digits_fuel fuel n) 0%N = n.
Proof.
  revert n. induction fuel as [|fuel IH]; intros n Hn Hfuel; [congruence|].
  cbn [digits_fuel]. destruct (n <? 10)%N eqn:Hsmall.
  - apply N.ltb_lt in Hsmall. repeat split.
    + discriminate.
    + cbn [forallb]. rewrite andb_true_r. unfold is_digit.
      apply andb_true_iff. split; apply N.leb_le; lia.
    + cbn [fold_left]. unfold horner. lia.
  - apply N.ltb_ge in Hsmall.
    rewrite Nat2N.inj_succ, N.pow_succ_r' in Hn.
    assert (Hfuel' : fuel <> O).
    { intros ->. simpl in Hn. lia. }
    assert (Hdiv : (n / 10 < 2 ^ N.of_nat fuel)%N).
    { apply N.Div0.div_lt_upper_bound. lia. }
    destruct (IH (n / 10)%N Hdiv Hfuel') as (Hne & Hdig & Hval).
    repeat split.
    + intros E. apply app_eq_nil in E as [_ E]. discriminate.
    + rewrite forallb_app, Hdig. cbn [forallb andb]. rewrite andb_true_r.
      unfold is_digit.
      pose proof (N.mod_upper_bound n 10 ltac:(lia)) as Hmod.
      revert Hmod. generalize (n mod 10)%N. intros m Hmod.
      apply andb_true_iff. split; apply N.leb_le; lia.
    + rewrite fold_left_app, Hval. cbn [fold_left]. unfold horner.
      pose proof (N.div_mod n 10 ltac:(lia)) as Hmod.
      pose proof (N.mod_upper_bound n 10 ltac:(lia)) as Hlt.
      revert Hmod Hlt. generalize (n mod 10)%N (n / 10)%N. intros m q Hmod Hlt.
      lia.
Qed.

Lemma digits_spec n :
  digits n <> []
  /\ forallb is_digit (digits n) = true
  /\ fold_left horner (digits n) 0%N = n.
Proof.
  unfold digits. apply digits_fuel_spec; [|discriminate].
  rewrite Nat2N.inj_succ, N2Nat.id.
  destruct n as [|p]; [reflexivity|].
  apply N.log2_spec. lia.
Qed.

(** Below [2^53] a number is printed with its decimal digits, which read
    back as the number. *)
Lemma show_spec z :
  (0 <= z < 2 ^ 53)%Z ->
  show z <> [] /\ forallb is_digit (show z) = true /\ parseInt (show z) = z.
Proof.
  intros Hz.
  assert (Hsmall : (Z.to_N z < 2 ^ 53)%N).
  { change (2 ^ 53)%N with (Z.to_N (2 ^ 53)). apply Z2N.inj_lt; lia. }
  assert (Hshow : show z = digits (Z.to_N z)).
  { unfold show, show_N. apply N.leb_gt in Hsmall.
    destruct z; [now rewrite Hsmall|now rewrite Hsmall|lia]. }
  rewrite Hshow. destruct (digits_spec (Z.to_N z)) as (Hne & Hdig & Hval).
  repeat split; auto.
  rewrite parseInt_horner, Hval, (to_double_small _ Hsmall). apply Z2N.id. lia.
Qed.

Lemma parseInt_nonneg d : (0 <= parseInt d)%Z.
Proof. unfold parseInt. apply N2Z.is_nonneg. Qed.

(** ** White space, trimming and splitting *)

Lemma no_ws_app a b : no_ws (a ++ b) = no_ws a && no_ws b.
Proof. apply forallb_app. Qed.

Lemma no_ws_cons c s : no_ws (c :: s) = negb (is_ws c) && no_ws s.
Proof. reflexivity. Qed.

Lemma is_token_first t :
  is_token t = true -> exists c r, t = c :: r /\ is_ws c = false /\ no_ws r = true.
Proof.
  unfold is_token. destruct t as [|c r]; [discriminate|]. simpl.
  intros E. apply andb_true_iff in E as [Hc Hr]. exists c, r.
  repeat split; auto. now apply negb_true_iff.
Qed.

Lemma is_token_last t :
  is_token t = true -> exists a z, t = a ++ [z] /\ is_ws z = false /\ no_ws a = true.
Proof.
  unfold is_token. intros E. apply andb_true_iff in E as [Hne Hws].
  destruct (exists_last (l := t)) as (a & z & ->).
  { intros ->. discriminate. }
  rewrite no_ws_app, no_ws_cons in Hws.
  apply andb_true_iff in Hws as [Ha Hz]. apply andb_true_iff in Hz as [Hz _].
  exists a, z. repeat split; auto. now apply negb_true_iff.
Qed.

Lemma is_token_no_ws t : is_token t = true -> no_ws t = true.
Proof. unfold is_token. intros E. now apply andb_true_iff in E. Qed.

Lemma is_token_nonempty t : is_token t = true -> t <> [].
Proof. destruct t; [discriminate|discriminate]. Qed.

(** A string that begins and ends with a character that is not white
    space is its own trim. *)
Lemma trim_fixed c r a z :
  c :: r = a ++ [z] -> is_ws c = false -> is_ws z = false ->
  trim (c :: r) = c :: r.
Proof.
  intros E Hc Hz. unfold trim, trimStart, trimEnd. cbn [dropWhile]. rewrite Hc.
  rewrite E, rev_app_distr. cbn [rev app dropWhile]. rewrite Hz.
  change (z :: rev a) with (rev [z] ++ rev a).
  now rewrite <- rev_app_distr, rev_involutive.
Qed.

(** Every piece of [split(/\s+/)] is free of white space. *)
Lemma split_ws_from_no_ws cur inws s :
  no_ws cur = true ->
  Forall (fun p => no_ws p = true) (split_ws_from cur inws s).
Proof.
  revert cur inws. induction s as [|c s IH]; intros cur inws Hcur; simpl.
  - constructor; [exact Hcur|constructor].
  - destruct (is_ws c) eqn:Hc.
    + destruct inws; [now apply IH|]. constructor; [exact Hcur|]. now apply IH.
    + apply IH. rewrite no_ws_app, Hcur. simpl. now rewrite Hc.
Qed.

Lemma split_ws_from_token cur t r :
  no_ws t = true ->
  split_ws_from cur false (t ++ r) = split_ws_from (cur ++ t) false r.
Proof.
  revert cur. induction t as [|c t IH]; intros cur Ht.
  - now rewrite app_nil_r.
  - rewrite no_ws_cons in Ht. apply andb_true_iff in Ht as [Hc Ht].
    apply negb_true_iff in Hc. simpl. rewrite Hc.
    rewrite IH by exact Ht. now rewrite <- app_assoc.
Qed.

Lemma split_ws_from_after_space cur t r :
  is_token t = true ->
  split_ws_from cur true (t ++ r) = split_ws_from (cur ++ t) false r.
Proof.
  intros Ht. destruct (is_token_first t Ht) as (c & t' & -> & Hc & Ht').
  simpl. rewrite Hc. rewrite split_ws_from_token by exact Ht'.
  now rewrite <- app_assoc.
Qed.

(** Three tokens separated by single spaces split into the three tokens. *)
Lemma split_ws_three a b c :
  is_token a = true -> is_token b = true -> is_token c = true ->
  split_ws (a ++ js " " ++ b ++ js " " ++ c) = [a; b; c].
Proof.
  intros Ha Hb Hc. unfold split_ws.
  rewrite split_ws_from_token by now apply is_token_no_ws.
  change (js " " ++ b ++ js " " ++ c) with (32%N :: b ++ 32%N :: c).
  cbn [split_ws_from app]. change (is_ws 32%N) with true. cbv iota.
  rewrite split_ws_from_after_space by exact Hb.
  cbn [split_ws_from app]. change (is_ws 32%N) with true. cbv iota.
  rewrite <- (app_nil_r c) at 1.
  rewrite split_ws_from_after_space by exact Hc. reflexivity.
Qed.

(** ** Lines *)

Lemma split_char_from_sep sep cur a b :
  existsb (fun c => (c =? sep)%N) a = false ->
  split_char_from sep cur (a ++ sep :: b) = (cur ++ a) :: split_char_from sep [] b.
Proof.
  revert cur. induction a as [|c a IH]; intros cur Ha; simpl.
  - now rewrite N.eqb_refl, app_nil_r.
  - simpl in Ha. apply orb_false_iff in Ha as [Hc Ha]. rewrite Hc.
    rewrite IH by exact Ha. now rewrite <- app_assoc.
Qed.


(** The entries of a text whose first line is [line] are the entries of
    that line followed by those of the rest. *)
Lemma parseKnownHosts_first_line line rest :
  has_newline line = false ->
  HostKeys.parseKnownHosts (line ++ 10%N :: rest)
  = line_entries line ++ HostKeys.parseKnownHosts rest.
Proof.
  intros Hline. unfold HostKeys.parseKnownHosts, split_char.
  rewrite split_char_from_sep by exact Hline. reflexivity.
Qed.


Lemma formatKnownHosts_cons e es :
  HostKeys.formatKnownHosts (e :: es)
  = HostKeys.formatLine e ++ 10%N ::
      match es with
      | [] => []
      | _ => HostKeys.formatKnownHosts es
      end.
Proof.
  unfold HostKeys.formatKnownHosts. destruct es as [|e2 es].
  - reflexivity.
  - change (map HostKeys.formatLine (e :: e2 :: es))
      with (HostKeys.formatLine e :: map HostKeys.formatLine (e2 :: es)).
    remember (map HostKeys.formatLine (e2 :: es)) as ls eqn:Els.
    destruct ls as [|l ls]; [discriminate|].
    cbn [join]. now rewrite <- !app_assoc.
Qed.

(** Reading back what [formatKnownHosts] wrote goes line by line. *)
Lemma parse_format_lines es :
  Forall (fun e => has_newline (HostKeys.formatLine e) = false) es ->
  HostKeys.parseKnownHosts (HostKeys.formatKnownHosts es)
  = flat_map (fun e => line_entries (HostKeys.formatLine e)) es.
Proof.
  induction es as [|e es IH]; intros Hes; [reflexivity|].
  inversion Hes as [|? ? He Hes']; subst.
  rewrite formatKnownHosts_cons, parseKnownHosts_first_line by exact He.
  cbn [flat_map]. f_equal.
  destruct es as [|e2 es]; [reflexivity|]. now apply IH.
Qed.

(** ** Plan builder: the skip rule of the install-raven step *)

Lemma str_eqb_refl (s : jsstring) : str_eqb s s = true.
Proof. induction s as [|c s IH]; simpl; [reflexivity|]. now rewrite N.eqb_refl. Qed.

Lemma str_eqb_eq (a b : jsstring) : str_eqb a b = true <-> a = b.
Proof.
  split; [|intros ->; apply str_eqb_refl].
  revert b. induction a as [|x a IH]; intros [|y b]; simpl; try discriminate; auto.
  intros E. apply andb_true_iff in E as [E1 E2]. apply N.eqb_eq in E1.
  f_equal; auto.
Qed.

(** Both builders put the same install-raven step in second place. *)
Lemma install_raven_step_found node info version force plan :
  PlanBuilder.buildBootstrapPlan node info
    {| PlanBuilder.opt_version := Some version; PlanBuilder.opt_force := Some force |}
  = Return plan ->
  find_step (js "install-raven") (PlanBuilder.steps plan)
  = Some (PlanBuilder.install_raven_step version force)
  /\ PlanBuilder.targetVersion plan = version
  /\ PlanBuilder.nodeInfo plan = info.
Proof.
  unfold PlanBuilder.buildBootstrapPlan. simpl.
  destruct (PlanBuilder.os info); intros E; inversion E; subst; clear E;
    repeat split; reflexivity.
Qed.

(** C7. In a plan built for a supported OS from a fact sheet [info]:
    when [info] reports raven 1.2.3 and the target version is 1.2.3, the
    install-raven step is skippable and its predicate holds on [info] with
    [force = false], and is not skippable with a predicate that fails on
    the same [info] with [force = true]; when the target version is
    ["latest"], the predicate holds on a fact sheet exactly when it reports
    raven installed and [force] is false. *)
Theorem install_raven_skip_rule (node : Store.FleetNode) (info : PlanBuilder.NodeInfo)
    (Hos : PlanBuilder.os info <> Store.OsUnknown) :
  (PlanBuilder.hasRaven info = true ->
   PlanBuilder.ravenVersion info = Some (js "1.2.3") ->
   forall force, exists plan step p,
     PlanBuilder.buildBootstrapPlan node info
       {| PlanBuilder.opt_version := Some (js "1.2.3");
          PlanBuilder.opt_force := Some force |} = Return plan
     /\ find_step (js "install-raven") (PlanBuilder.steps plan) = Some step
     /\ PlanBuilder.skippable step = negb force
     /\ PlanBuilder.skipIf step = Some p
     /\ p info = negb force)
  /\ (forall force, exists plan step p,
        PlanBuilder.buildBootstrapPlan node info
          {| PlanBuilder.opt_version := Some (js "latest");
             PlanBuilder.opt_force := Some force |} = Return plan
        /\ find_step (js "install-raven") (PlanBuilder.steps plan) = Some step
        /\ PlanBuilder.skipIf step = Some p
        /\ forall info', p info' = true
                         <-> (PlanBuilder.hasRaven info' = true /\ force = false)).
Proof.
  assert (Hbuild : forall version force, exists plan,
             PlanBuilder.buildBootstrapPlan node info
               {| PlanBuilder.opt_version := Some version;
                  PlanBuilder.opt_force := Some force |} = Return plan).
  { intros version force. unfold PlanBuilder.buildBootstrapPlan. simpl.
    destruct (PlanBuilder.os info); try congruence; eexists; reflexivity. }
  split.
  - intros Hraven Hversion force.
    destruct (Hbuild (js "1.2.3") force) as [plan Hplan].
    destruct (install_raven_step_found _ _ _ _ _ Hplan) as (Hfind & _ & _).
    exists plan, (PlanBuilder.install_raven_step (js "1.2.3") force).
    eexists. repeat split; try eassumption; try reflexivity.
    simpl. rewrite Hraven, Hversion. now destruct force.
  - intros force.
    destruct (Hbuild (js "latest") force) as [plan Hplan].
    destruct (install_raven_step_found _ _ _ _ _ Hplan) as (Hfind & _ & _).
    exists plan, (PlanBuilder.install_raven_step (js "latest") force).
    eexists. repeat split; try eassumption; try reflexivity.
    + simpl in H. destruct (PlanBuilder.hasRaven info'); [reflexivity|].
      destruct force; discriminate.
    + simpl in H. destruct force; [discriminate|reflexivity].
    + intros [-> ->]. reflexivity.
Qed.

Lemma install_raven_skip_rule_witness :
  PlanBuilder.os sample_info <> Store.OsUnknown
  /\ exists plan step p,
      PlanBuilder.buildBootstrapPlan (sample_node (js "test-node")) sample_info
        {| PlanBuilder.opt_version := Some (js "1.2.3");
           PlanBuilder.opt_force := Some false |} = Return plan
      /\ find_step (js "install-raven") (PlanBuilder.steps plan) = Some step
      /\ PlanBuilder.skippable step = true
      /\ PlanBuilder.skipIf step = Some p
      /\ p sample_info = true.
Proof.
  assert (Hos : PlanBuilder.os sample_info <> Store.OsUnknown) by discriminate.
  split; [exact Hos|].
  exact (proj1 (install_raven_skip_rule (sample_node (js "test-node")) sample_info Hos)
               eq_refl eq_refl false).
Defined.

(** ** The monad *)

Lemma bind_eq {A B} (m : M A) (k : A -> M B) w a w1 :
  m w = (Return a, w1) -> bind m k w = k a w1.
Proof. unfold bind. now intros ->. Qed.

(** A check that only looks at its argument: it returns [tt] or throws,
    and the world stays as it is. *)
Definition pure_check (m : M unit) : Prop :=
  forall w, m w = (Return tt, w) \/ exists e, m w = (Throw e, w).

Lemma pure_check_ret : pure_check (ret tt).
Proof. intros w. now left. Qed.

Lemma pure_check_throw e : pure_check (throw e).
Proof. intros w. right. now exists e. Qed.

Lemma pure_check_if (b : bool) m1 m2 :
  pure_check m1 -> pure_check m2 -> pure_check (if b then m1 else m2).
Proof. now destruct b. Qed.

Create HintDb checks.
#[local] Hint Resolve pure_check_ret pure_check_throw pure_check_if : checks.

Lemma validateNodeName_check name : pure_check (Store.validateNodeName name).
Proof. unfold Store.validateNodeName. auto 10 with checks. Qed.

Lemma validateHost_check host : pure_check (Store.validateHost host).
Proof. unfold Store.validateHost. auto 10 with checks. Qed.

Lemma validatePort_check port : pure_check (Store.validatePort port).
Proof. unfold Store.validatePort. auto 10 with checks. Qed.

#[local] Hint Resolve validateNodeName_check validateHost_check validatePort_check
  : checks.

Lemma bind_check {B} (m : M unit) (k : M B) w b w' :
  pure_check m ->
  bind m (fun _ => k) w = (Return b, w') ->
  m w = (Return tt, w) /\ k w = (Return b, w').
Proof.
  intros Hm E. unfold bind in E. destruct (Hm w) as [R|[e R]]; rewrite R in E.
  - now split.
  - discriminate.
Qed.

(** ** Inventory store: reading *)

Section StoreFacts.
Context `{RT : Runtime}.

Lemma safeParse_empty :
  Store.FleetStoreSchema_safeParse (Store.store_to_json Store.createEmptyFleetStore)
  = Some Store.createEmptyFleetStore.
Proof. reflexivity. Qed.

Lemma loadFleetStore_eq w :
  Store.loadFleetStore w = (Return (inventory_of (nodes_file w)), w).
Proof.
  unfold Store.loadFleetStore, Store.readJsonFile, bind, read_nodes_file, inventory_of.
  destruct (nodes_file w) as [| |[v|]]; try reflexivity.
  destruct v; unfold ret; simpl;
    try match goal with
        | |- context [match ?x with Some _ => _ | None => _ end] => now destruct x
        end; reflexivity.
Qed.

Lemma readStore_eq w :
  Store.readStore w = (Return (inventory_of (nodes_file w)), w).
Proof.
  unfold Store.readStore, Store.readJsonFile, bind, read_nodes_file, inventory_of.
  destruct (nodes_file w) as [| |[v|]]; try reflexivity.
  destruct v; unfold ret; simpl;
    try match goal with
        | |- context [match ?x with Some _ => _ | None => _ end] => now destruct x
        end; reflexivity.
Qed.

(** [loadFleetStore] never raises. *)
Lemma loadFleetStore_returns w :
  exists store, Store.loadFleetStore w = (Return store, w).
Proof. eexists. apply loadFleetStore_eq. Qed.

Lemma version_mismatch_rejected f :
  version_mismatch f -> rejected_file f.
Proof.
  intros (m & -> & Hm). right. exists (JObj m). split; [reflexivity|].
  unfold Store.FleetStoreSchema_safeParse, Store.obind, Store.z_required.
  destruct (member (js "schemaVersion") m) as [j|]; [|reflexivity].
  destruct j as [ | | n | | | ]; try reflexivity.
  destruct n as [z| | ]; try reflexivity.
  destruct z as [|p|p]; try reflexivity.
  destruct p; try reflexivity. congruence.
Qed.

Lemma rejected_inventory f :
  rejected_file f -> inventory_of f = Store.createEmptyFleetStore.
Proof.
  intros [->|(v & -> & Hv)]; [reflexivity|].
  unfold inventory_of. rewrite Hv. now destruct v.
Qed.

End StoreFacts.

(** C9. When the inventory file is not valid JSON, or holds a value that
    the versioned schema rejects, in particular one whose [schemaVersion]
    is not 1, [loadFleetStore] returns the empty inventory
    [{schemaVersion: 1, nodes: []}]; it returns, it does not raise. *)
Theorem loadFleetStore_corrupt_is_empty `{RT : Runtime} (w : world)
    (Hbad : rejected_file (nodes_file w) \/ version_mismatch (nodes_file w)) :
  Store.loadFleetStore w
  = (Return {| Store.schemaVersion := 1; Store.nodes := [] |}, w).
Proof.
  rewrite loadFleetStore_eq. f_equal. f_equal.
  apply rejected_inventory.
  destruct Hbad as [H|H]; [exact H|]. now apply version_mismatch_rejected.
Qed.

(** A file of schema version 2. *)
Lemma loadFleetStore_corrupt_is_empty_witness :
  (rejected_file (nodes_file version2_world)
   \/ version_mismatch (nodes_file version2_world))
  /\ Store.loadFleetStore version2_world
     = (Return {| Store.schemaVersion := 1; Store.nodes := [] |}, version2_world).
Proof.
  assert (H : rejected_file (nodes_file version2_world)
              \/ version_mismatch (nodes_file version2_world)).
  { right. eexists. split; [reflexivity|]. simpl. discriminate. }
  split; [exact H|].
  exact (loadFleetStore_corrupt_is_empty version2_world H).
Defined.

(** ** Inventory store: the read under the lock *)

Section StoreLock.
Context `{RT : Runtime}.

Lemma inventory_of_ensured w :
  inventory_of (nodes_file (ensured w)) = inventory_of (nodes_file w).
Proof.
  unfold ensured. destruct (nodes_file w) eqn:E; rewrite ?E; reflexivity.
Qed.

Lemma ensureJsonFile_eq w :
  Store.ensureJsonFile (Store.store_to_json Store.createEmptyFleetStore) w
  = (Return tt, ensured w).
Proof.
  unfold Store.ensureJsonFile, bind, read_nodes_file, ensured.
  destruct (nodes_file w); reflexivity.
Qed.

(** Under the lock the writers see the inventory that [loadFleetStore]
    returns. *)
Lemma locked_read {A} (k : Store.FleetStore -> M A) w :
  Store.withFileLock (Store.store_to_json Store.createEmptyFleetStore)
    (bind Store.readStore k) w
  = k (inventory_of (nodes_file w)) (ensured w).
Proof.
  unfold Store.withFileLock.
  rewrite (bind_eq _ _ _ _ _ (ensureJsonFile_eq w)).
  rewrite (bind_eq _ _ _ _ _ (readStore_eq (ensured w))).
  now rewrite inventory_of_ensured.
Qed.

Lemma findIndex_Some {A} (p : A -> bool) l i :
  Store.findIndex p l = Some i ->
  exists a, nth_error l i = Some a /\ p a = true
            /\ forall j b, (j < i)%nat -> nth_error l j = Some b -> p b = false.
Proof.
  revert i. induction l as [|x l IH]; intros i; simpl; [discriminate|].
  destruct (p x) eqn:Px.
  - intros E; inversion E; subst. exists x. repeat split; auto. intros; lia.
  - destruct (Store.findIndex p l) as [k|]; [|discriminate].
    intros E; inversion E; subst. destruct (IH k eq_refl) as (a & Ha & Pa & Hlt).
    exists a. repeat split; auto.
    intros [|j] b Hj Hb; simpl in Hb.
    + now inversion Hb; subst.
    + apply (Hlt j); [lia|exact Hb].
Qed.

Lemma findIndex_find {A} (p : A -> bool) l :
  find p l = match Store.findIndex p l with
             | Some i => nth_error l i
             | None => None
             end.
Proof.
  induction l as [|x l IH]; simpl; [reflexivity|].
  destruct (p x); [reflexivity|]. rewrite IH.
  now destruct (Store.findIndex p l).
Qed.

Lemma set_nth_length {A} (l : list A) i v :
  List.length (Store.set_nth l i v) = List.length l.
Proof.
  revert i. induction l as [|x l IH]; intros [|i]; simpl; auto.
Qed.

Lemma set_nth_same {A} (l : list A) i v a :
  nth_error l i = Some a -> nth_error (Store.set_nth l i v) i = Some v.
Proof.
  revert i. induction l as [|x l IH]; intros [|i]; simpl; try discriminate; auto.
Qed.

Lemma set_nth_other {A} (l : list A) i v j :
  j <> i -> nth_error (Store.set_nth l i v) j = nth_error l j.
Proof.
  revert i j. induction l as [|x l IH]; intros [|i] [|j] N; simpl; auto;
    try congruence.
Qed.

(** What [updateNode] does once its three checks have passed. *)
Lemma updateNode_checked name updates w :
  Store.withFileLock (Store.store_to_json Store.createEmptyFleetStore)
    (bind Store.readStore (fun store =>
       match Store.findIndex (Store.same_name (Store.normalizeNodeName name))
                             (Store.nodes store) with
       | None => ret None
       | Some index =>
           match nth_error (Store.nodes store) index with
           | None => ret None
           | Some existing =>
               bind (Store.writeJsonFile
                       (Store.store_to_json
                          {| Store.schemaVersion := Store.schemaVersion store;
                             Store.nodes :=
                               Store.set_nth (Store.nodes store) index
                                 (Store.merge existing updates) |}))
                    (fun _ => ret (Some (Store.merge existing updates)))
           end
       end)) w
  = let store := inventory_of (nodes_file w) in
    match Store.findIndex (Store.same_name (Store.normalizeNodeName name))
                          (Store.nodes store) with
    | None => (Return None, ensured w)
    | Some index =>
        match nth_error (Store.nodes store) index with
        | None => (Return None, ensured w)
        | Some existing =>
            (Return (Some (Store.merge existing updates)),
             set_nodes_file
               (JsonText (Some (Store.store_to_json
                  {| Store.schemaVersion := Store.schemaVersion store;
                     Store.nodes := Store.set_nth (Store.nodes store) index
                                      (Store.merge existing updates) |})))
               (ensured w))
        end
    end.
Proof.
  rewrite locked_read. cbv zeta.
  destruct (Store.findIndex _ _) as [index|]; [|reflexivity].
  destruct (nth_error _ index) as [existing|]; reflexivity.
Qed.

End StoreLock.

(** C10. When [updateNode] accepts a partial update and returns the
    updated record, that record is the merge of the stored record of that
    name with the update: it keeps the stored [id] and [name], every member
    that the update leaves [undefined] keeps its stored value, and the
    inventory that is written has the updated record at the index of the
    stored one and every other node as it was. *)
Theorem updateNode_frame `{RT : Runtime} (name : jsstring)
    (updates : Store.UpdateNodeInput) (w w' : world) (updated : Store.FleetNode)
    (Hrun : Store.updateNode name updates w = (Return (Some updated), w')) :
  exists store index existing written,
    Store.loadFleetStore w = (Return store, w)
    /\ Store.findIndex (Store.same_name (Store.normalizeNodeName name))
                       (Store.nodes store) = Some index
    /\ nth_error (Store.nodes store) index = Some existing
    /\ updated = Store.merge existing updates
    /\ Store.id updated = Store.id existing
    /\ Store.name updated = Store.name existing
    /\ (Store.upd_host updates = None -> Store.host updated = Store.host existing)
    /\ (Store.upd_port updates = None -> Store.port updated = Store.port existing)
    /\ (Store.upd_user updates = None -> Store.user updated = Store.user existing)
    /\ (Store.upd_trusted updates = None ->
        Store.trusted updated = Store.trusted existing)
    /\ (Store.upd_hostKey updates = None ->
        Store.hostKey updated = Store.hostKey existing)
    /\ (Store.upd_tags updates = None -> Store.tags updated = Store.tags existing)
    /\ (Store.upd_os updates = None -> Store.os updated = Store.os existing)
    /\ (Store.upd_arch updates = None -> Store.arch updated = Store.arch existing)
    /\ (Store.upd_installed updates = None ->
        Store.installed updated = Store.installed existing)
    /\ (Store.upd_lastSeen updates = None ->
        Store.lastSeen updated = Store.lastSeen existing)
    /\ (Store.upd_serviceStatus updates = None ->
        Store.serviceStatus updated = Store.serviceStatus existing)
    /\ nodes_file w'
       = JsonText (Some (Store.store_to_json
                           {| Store.schemaVersion := Store.schemaVersion store;
                              Store.nodes := written |}))
    /\ List.length written = List.length (Store.nodes store)
    /\ nth_error written index = Some updated
    /\ forall j, j <> index -> nth_error written j = nth_error (Store.nodes store) j.
Proof.
  unfold Store.updateNode in Hrun.
  apply bind_check in Hrun as [_ Hrun];
    [|destruct (Store.upd_host updates); auto with checks].
  apply bind_check in Hrun as [_ Hrun];
    [|destruct (Store.upd_port updates); auto with checks].
  apply bind_check in Hrun as [_ Hrun];
    [|destruct (Store.upd_user updates); auto with checks].
  rewrite updateNode_checked in Hrun. cbv zeta in Hrun.
  destruct (Store.findIndex _ _) as [index|] eqn:Hidx; [|discriminate].
  destruct (nth_error _ index) as [existing|] eqn:Hnth; [|discriminate].
  inversion Hrun; subst; clear Hrun.
  exists (inventory_of (nodes_file w)), index, existing,
         (Store.set_nth (Store.nodes (inventory_of (nodes_file w))) index
                        (Store.merge existing updates)).
  split; [apply loadFleetStore_eq|].
  repeat match goal with |- _ /\ _ => split end;
    try reflexivity; try assumption;
    try (intros E; cbn; now rewrite E);
    [apply set_nth_length | eapply set_nth_same; eassumption
    | intros j Hj; now apply set_nth_other].
Qed.

Lemma updateNode_frame_witness :
  exists existing written,
    nth_error (Store.nodes (inventory_of (nodes_file two_node_world))) 1
    = Some existing
    /\ Store.name existing = js "edge-2"
    /\ nth_error written 0 = Some (sample_node (js "edge-1"))
    /\ nth_error written 1
       = Some (Store.merge (sample_node (js "edge-2")) port_update).
Proof.
  assert (Hrun : Store.updateNode (js "EDGE-2") port_update two_node_world
                 = (Return (Some (Store.merge (sample_node (js "edge-2")) port_update)),
                    snd (Store.updateNode (js "EDGE-2") port_update two_node_world)))
    by (vm_compute; reflexivity).
  destruct (updateNode_frame (js "EDGE-2") port_update two_node_world
              (snd (Store.updateNode (js "EDGE-2") port_update two_node_world))
              (Store.merge (sample_node (js "edge-2")) port_update) Hrun)
    as (store & index & existing & written & Hload & Hidx & Hnth & _ & _ & _
        & _ & _ & _ & _ & _ & _ & _ & _ & _ & _ & _ & _ & _ & Hat & Hothers).
  rewrite loadFleetStore_eq in Hload. inversion Hload; subst store; clear Hload.
  assert (index = 1%nat) by (vm_compute in Hidx; congruence). subst index.
  exists existing, written. split; [exact Hnth|].
  split; [vm_compute in Hnth; inversion Hnth; reflexivity|].
  split; [|exact Hat].
  rewrite (Hothers 0%nat) by discriminate. reflexivity.
Defined.

(** ** Executor *)

Lemma sshExec_returns opts w :
  exists r w', Transport.sshExec opts w = (Return r, w')
               /\ nodes_file w' = nodes_file w.
Proof.
  unfold Transport.sshExec.
  destruct (startsWith (js "-") (Transport.host opts)).
  - now exists {| Transport.stdout := [];
                  Transport.stderr := js "Host cannot start with '-' (security)";
                  Transport.exitCode := Some 1%Z; Transport.signal := None;
                  Transport.timedOut := false |}, w.
  - unfold bind, spawn_and_wait.
    destruct (children w (List.length (spawned w))); eexists; eexists;
      (split; [reflexivity|reflexivity]).
Qed.

(** A timer that fires on a spawned child gives the timed-out result. *)
Lemma sshExec_hangs opts w out err :
  startsWith (js "-") (Transport.host opts) = false ->
  children w (List.length (spawned w)) = Hangs out err ->
  exists w', Transport.sshExec opts w
             = (Return {| Transport.stdout := out; Transport.stderr := err;
                          Transport.exitCode := None;
                          Transport.signal := Some (js "SIGKILL");
                          Transport.timedOut := true |}, w')
             /\ nodes_file w' = nodes_file w.
Proof.
  intros Hhost Hchild. unfold Transport.sshExec. rewrite Hhost.
  unfold bind, spawn_and_wait. rewrite Hchild. eexists. split; reflexivity.
Qed.

Lemma run_commands_spec node step path timeoutMs startTime commands out err w :
  exists sr w',
    Executor.run_commands node step path timeoutMs startTime commands out err w
    = (Return sr, w')
    /\ nodes_file w' = nodes_file w
    /\ Executor.step sr = step
    /\ (Executor.status sr = PlanBuilder.Success
        \/ Executor.status sr = PlanBuilder.Failed).
Proof.
  revert out err w. induction commands as [|command rest IH]; intros out err w.
  - simpl. eexists; eexists. split; [reflexivity|]. simpl. auto.
  - simpl.
    match goal with
    | |- context [Transport.sshExec ?o] =>
        destruct (sshExec_returns o w) as (r & w1 & Hr & Hfile)
    end.
    rewrite (bind_eq _ _ _ _ _ Hr).
    destruct (negb (Executor.exited_zero (Transport.exitCode r))
              || Transport.timedOut r).
    + eexists; eexists. split; [reflexivity|]. simpl. auto.
    + destruct (IH (out ++ Transport.stdout r) (err ++ Transport.stderr r) w1)
        as (sr & w2 & Hsr & Hfile2 & Hstep & Hstatus).
      exists sr, w2. rewrite Hsr. repeat split; auto. congruence.
Qed.

Lemma executeStep_spec node step path timeoutMs w :
  exists sr w',
    Executor.executeStep node step path timeoutMs w = (Return sr, w')
    /\ nodes_file w' = nodes_file w
    /\ Executor.step sr = step
    /\ (Executor.status sr = PlanBuilder.Success
        \/ Executor.status sr = PlanBuilder.Failed).
Proof.
  unfold Executor.executeStep, bind, Date_now. apply run_commands_spec.
Qed.

Lemma executeStep_timeout node step path timeoutMs w command more out err :
  PlanBuilder.commands step = command :: more ->
  startsWith (js "-") (Store.host node) = false ->
  children w (List.length (spawned w)) = Hangs out err ->
  exists sr w',
    Executor.executeStep node step path timeoutMs w = (Return sr, w')
    /\ nodes_file w' = nodes_file w
    /\ Executor.step sr = step
    /\ Executor.status sr = PlanBuilder.Failed
    /\ Executor.error sr = Some (js "Command timed out").
Proof.
  intros Hcommands Hhost Hchild.
  unfold Executor.executeStep, bind at 1, Date_now. rewrite Hcommands. simpl.
  match goal with
  | |- context [Transport.sshExec ?o] =>
      destruct (sshExec_hangs o w out err Hhost Hchild) as (w1 & Hr & Hfile)
  end.
  rewrite (bind_eq _ _ _ _ _ Hr). simpl.
  eexists; eexists. split; [reflexivity|]. simpl. auto.
Qed.

Lemma call_onProgress_spec options step s w :
  exists w', Executor.call_onProgress options step s w = (Return tt, w')
             /\ nodes_file w' = nodes_file w
             /\ spawned w' = spawned w
             /\ children w' = children w.
Proof.
  unfold Executor.call_onProgress. destruct (Executor.onProgress options).
  - eexists. split; [reflexivity|]. auto.
  - exists w. auto.
Qed.

(** The loop of the executor: it runs to its end with one result per
    step, none of them failed, or it returns at the first failed step with
    the results up to that step. *)
Lemma run_steps_spec plan options timeoutMs startTime todo done_ w :
  exists looped w',
    Executor.run_steps plan options false timeoutMs startTime todo done_ w
    = (Return looped, w')
    /\ nodes_file w' = nodes_file w
    /\ match looped with
       | inl results =>
           exists more, results = done_ ++ more
                        /\ Forall went_through more
                        /\ map Executor.step more = todo
       | inr r =>
           Executor.success r = false
           /\ Executor.installedVersion r = None
           /\ exists more failed later,
               Executor.stepResults r = done_ ++ more ++ [failed]
               /\ Forall went_through more
               /\ Executor.status failed = PlanBuilder.Failed
               /\ todo = map Executor.step more ++ Executor.step failed :: later
       end.
Proof.
  revert done_ w. induction todo as [|step rest IH]; intros done_ w.
  - exists (inl done_), w. split; [reflexivity|]. split; [reflexivity|].
    exists []. rewrite app_nil_r. auto.
  - simpl. destruct (Executor.shouldSkip step (PlanBuilder.nodeInfo plan)).
    + destruct (call_onProgress_spec options step PlanBuilder.Skipped w)
        as (w1 & Hp & Hfile & _).
      rewrite (bind_eq _ _ _ _ _ Hp).
      match goal with
      | |- context [Executor.run_steps _ _ _ _ _ _ ?acc w1] =>
          destruct (IH acc w1) as (looped & w2 & Hrun & Hfile2 & Hlooped)
      end.
      exists looped, w2. split; [exact Hrun|]. split; [congruence|].
      destruct looped as [results|r].
      * destruct Hlooped as (more & -> & Hmore & Hmap).
        eexists (_ :: more). rewrite <- app_assoc. split; [reflexivity|].
        split; [constructor; [right; reflexivity|exact Hmore]|].
        simpl. now rewrite Hmap.
      * destruct Hlooped as (Hs & Hv & more & failed & later & Hres & Hmore & Hst & Htodo).
        split; [exact Hs|]. split; [exact Hv|].
        eexists (_ :: more), failed, later. rewrite Hres, <- app_assoc.
        split; [reflexivity|].
        split; [constructor; [right; reflexivity|exact Hmore]|].
        split; [exact Hst|]. simpl. now rewrite Htodo.
    + destruct (call_onProgress_spec options step PlanBuilder.StepRunning w)
        as (w1 & Hp & Hfile & _).
      rewrite (bind_eq _ _ _ _ _ Hp).
      destruct (executeStep_spec (PlanBuilder.node plan) step
                  (Executor.knownHostsPath options) timeoutMs w1)
        as (sr & w2 & Hsr & Hfile2 & Hstep & Hstatus).
      rewrite (bind_eq _ _ _ _ _ Hsr).
      destruct (call_onProgress_spec options step (Executor.status sr) w2)
        as (w3 & Hp3 & Hfile3 & _).
      rewrite (bind_eq _ _ _ _ _ Hp3).
      destruct Hstatus as [Hok|Hfailed].
      * rewrite Hok. simpl.
        destruct (IH (done_ ++ [sr]) w3) as (looped & w4 & Hrun & Hfile4 & Hlooped).
        exists looped, w4. split; [exact Hrun|]. split; [congruence|].
        destruct looped as [results|r].
        -- destruct Hlooped as (more & -> & Hmore & Hmap).
           exists (sr :: more). rewrite <- app_assoc. split; [reflexivity|].
           split; [constructor; [left; exact Hok|exact Hmore]|].
           simpl. now rewrite Hmap, Hstep.
        -- destruct Hlooped as (Hs & Hv & more & failed & later & Hres & Hmore & Hst & Htodo).
           split; [exact Hs|]. split; [exact Hv|].
           exists (sr :: more), failed, later. rewrite Hres, <- app_assoc.
           split; [reflexivity|].
           split; [constructor; [left; exact Hok|exact Hmore]|].
           split; [exact Hst|]. simpl. now rewrite Htodo, Hstep.
      * rewrite Hfailed. simpl. unfold bind, Date_now, ret.
        eexists; eexists. split; [reflexivity|]. split; [congruence|].
        simpl. split; [reflexivity|]. split; [reflexivity|].
        exists [], sr, rest. simpl. rewrite Hstep. auto.
Qed.

(** The update of the executor passes the three checks of [updateNode]:
    it carries no host, port or user. *)
Lemma updateNode_returns `{RT : Runtime} name updates w :
  Store.upd_host updates = None -> Store.upd_port updates = None ->
  Store.upd_user updates = None ->
  exists r w', Store.updateNode name updates w = (Return r, w').
Proof.
  intros Hh Hp Hu. unfold Store.updateNode. rewrite Hh, Hp, Hu.
  unfold bind at 1 2 3, ret at 1 2 3.
  rewrite updateNode_checked. cbv zeta.
  destruct (Store.findIndex _ _) as [index|]; [|eexists; eexists; reflexivity].
  destruct (nth_error _ index); eexists; eexists; reflexivity.
Qed.

(** One transport call to a host that does not begin with ['-']: one ssh
    process, whose behaviour decides the result. *)
Lemma sshExec_one_child opts w :
  startsWith (js "-") (Transport.host opts) = false ->
  exists r call dt,
    Transport.sshExec opts w = (Return r, record_spawn call dt w)
    /\ spawn_file call = js "/usr/bin/ssh"
    /\ sent_command call = Transport.command opts
    /\ Transport.stdout r = child_stdout (next_child w 0)
    /\ negb (Executor.exited_zero (Transport.exitCode r)) || Transport.timedOut r
       = negb (child_ok (next_child w 0)).
Proof.
  intros Hhost. unfold Transport.sshExec. rewrite Hhost.
  unfold bind, spawn_and_wait, next_child. rewrite Nat.add_0_r.
  destruct (children w (List.length (spawned w))) as [out err code sig el|out err|out err m el].
  - eexists. eexists. eexists. split; [reflexivity|]. repeat split.
    cbn [Transport.exitCode Transport.timedOut child_ok]. rewrite orb_false_r.
    destruct code as [[|p|p]|]; reflexivity.
  - eexists. eexists. eexists. split; [reflexivity|]. repeat split.
  - eexists. eexists. eexists. split; [reflexivity|]. repeat split.
Qed.

Lemma next_child_after_spawn call dt w i :
  next_child (record_spawn call dt w) i = next_child w (S i).
Proof.
  unfold next_child. cbn [spawned children record_spawn].
  rewrite length_app. cbn [List.length]. f_equal. lia.
Qed.

Lemma run_commands_sends node step path timeoutMs startTime commands out err w :
  startsWith (js "-") (Store.host node) = false ->
  exists sr w' calls rest,
    Executor.run_commands node step path timeoutMs startTime commands out err w
    = (Return sr, w')
    /\ spawned w' = spawned w ++ calls
    /\ Forall (fun c => spawn_file c = js "/usr/bin/ssh") calls
    /\ commands = map sent_command calls ++ rest
    /\ Executor.stdout sr
       = out ++ List.concat (map (fun i => child_stdout (next_child w i))
                            (seq 0 (List.length calls)))
    /\ (forall i, (S i < List.length calls)%nat -> child_ok (next_child w i) = true)
    /\ ((Executor.status sr = PlanBuilder.Success /\ rest = []
         /\ forall i, (i < List.length calls)%nat -> child_ok (next_child w i) = true)
        \/ (Executor.status sr = PlanBuilder.Failed
            /\ exists i, List.length calls = S i
                         /\ child_ok (next_child w i) = false))
    /\ nodes_file w' = nodes_file w
    /\ known_hosts_file w' = known_hosts_file w.
Proof.
  intros Hhost. revert out err w.
  induction commands as [|command more IH]; intros out err w.
  - cbn [Executor.run_commands]. unfold bind, Date_now, ret.
    eexists. exists w, [], []. cbn [List.length seq map List.concat app].
    rewrite !app_nil_r.
    split; [reflexivity|]. split; [reflexivity|]. split; [constructor|].
    split; [reflexivity|]. split; [reflexivity|].
    split; [intros i Hi; inversion Hi|].
    split; [left; repeat split; intros i Hi; inversion Hi|].
    split; reflexivity.
  - cbn [Executor.run_commands].
    match goal with
    | |- context [Transport.sshExec ?o] =>
        destruct (sshExec_one_child o w Hhost)
          as (r & call & dt & Hexec & Hfile & Hsent & Hout & Hfail)
    end.
    rewrite (bind_eq _ _ _ _ _ Hexec). rewrite Hfail.
    destruct (child_ok (next_child w 0)) eqn:Hok; cbn [negb].
    + destruct (IH (out ++ Transport.stdout r) (err ++ Transport.stderr r)
                   (record_spawn call dt w))
        as (sr & w' & calls & rest & Hrun & Hsp & Hssh & Hcmds & Hstd & Hbefore
            & Hend & Hn & Hk).
      exists sr, w', (call :: calls), rest. rewrite Hrun.
      split; [reflexivity|].
      split; [rewrite Hsp; cbn [spawned record_spawn]; now rewrite <- app_assoc|].
      split; [now constructor|].
      split; [cbn [map app]; rewrite Hsent; cbn [Transport.command]; now rewrite Hcmds|].
      split.
      { rewrite Hstd, Hout, <- app_assoc. f_equal. cbn [List.length seq map List.concat].
        f_equal. rewrite <- seq_shift, map_map. f_equal.
        apply map_ext. intros i. now rewrite next_child_after_spawn. }
      split.
      { intros [|i] Hi; [exact Hok|]. rewrite <- (next_child_after_spawn call dt).
        apply Hbefore. cbn [List.length] in Hi. lia. }
      split; [|split; assumption].
      destruct Hend as [(Hs & Hr & Hall)|(Hs & i & Hlen & Hbad)].
      * left. repeat split; auto. intros [|i] Hi; [exact Hok|].
        rewrite <- (next_child_after_spawn call dt). apply Hall. cbn [List.length] in Hi. lia.
      * right. split; [exact Hs|]. exists (S i). cbn [List.length]. rewrite Hlen.
        split; [reflexivity|]. now rewrite <- (next_child_after_spawn call dt).
    + unfold bind, Date_now, ret. eexists. eexists. exists [call], more.
      split; [reflexivity|]. cbn [spawned record_spawn Executor.stdout Executor.status
                                  List.length seq map List.concat app nodes_file
                                  known_hosts_file].
      rewrite app_nil_r, Hout, Hsent. cbn [Transport.command].
      repeat split; auto.
      * intros i Hi. lia.
      * right. split; [reflexivity|]. now exists O.
Qed.

(** The commands of a step leave the behaviour of the children to come
    as it is. *)
Lemma run_commands_children node step path timeoutMs startTime commands out err w :
  children (snd (Executor.run_commands node step path timeoutMs startTime
                   commands out err w)) = children w.
Proof.
  revert out err w. induction commands as [|command more IH]; intros out err w.
  - reflexivity.
  - cbn [Executor.run_commands]. unfold bind at 1.
    assert (Hexec : exists r w1, Transport.sshExec
                      {| Transport.host := Store.host node;
                         Transport.port := Store.port node;
                         Transport.user := Store.user node;
                         Transport.command := command;
                         Transport.timeoutMs := timeoutMs;
                         Transport.knownHostsPath := path;
                         Transport.strictHostKeyChecking :=
                           if Store.trusted node then Transport.CheckYes
                           else Transport.CheckAcceptNew |} w = (Return r, w1)
                      /\ children w1 = children w).
    { unfold Transport.sshExec. cbn [Transport.host].
      destruct (startsWith (js "-") (Store.host node)).
      - eexists. exists w. split; reflexivity.
      - unfold bind, spawn_and_wait.
        destruct (children w (List.length (spawned w)));
          eexists; eexists; split; reflexivity. }
    destruct Hexec as (r & w1 & Hexec & Hc). rewrite Hexec.
    destruct (negb (Executor.exited_zero (Transport.exitCode r))
              || Transport.timedOut r).
    + unfold bind, Date_now, ret. cbn [snd]. exact Hc.
    + rewrite IH. exact Hc.
Qed.

(** The children to come after some processes were spawned. *)
Lemma next_child_after w w' calls i :
  spawned w' = spawned w ++ calls -> children w' = children w ->
  next_child w' i = next_child w (List.length calls + i).
Proof.
  intros Hsp Hc. unfold next_child. rewrite Hsp, Hc, length_app.
  f_equal. lia.
Qed.

(** A step all of whose commands exit with 0 succeeds, one process per
    command. *)
Lemma run_commands_all_ok node step path timeoutMs startTime commands out err w :
  startsWith (js "-") (Store.host node) = false ->
  (forall i, (i < List.length commands)%nat -> child_ok (next_child w i) = true) ->
  exists sr w' calls,
    Executor.run_commands node step path timeoutMs startTime commands out err w
    = (Return sr, w')
    /\ Executor.step sr = step
    /\ Executor.status sr = PlanBuilder.Success
    /\ spawned w' = spawned w ++ calls
    /\ List.length calls = List.length commands
    /\ children w' = children w
    /\ nodes_file w' = nodes_file w.
Proof.
  intros Hhost Hok.
  destruct (run_commands_sends node step path timeoutMs startTime commands out err w
              Hhost)
    as (sr & w' & calls & rest & Hrun & Hsp & _ & Hcmds & _ & _ & Hend & Hn & _).
  destruct (run_commands_spec node step path timeoutMs startTime commands out err w)
    as (sr0 & w0 & Hrun0 & _ & Hstep & _).
  rewrite Hrun in Hrun0. injection Hrun0 as <- <-.
  pose proof (run_commands_children node step path timeoutMs startTime commands
                out err w) as Hc.
  rewrite Hrun in Hc. cbn [snd] in Hc.
  assert (Hlen : List.length commands = (List.length calls + List.length rest)%nat)
    by (rewrite Hcmds, length_app, length_map; reflexivity).
  exists sr, w', calls. split; [exact Hrun|]. split; [exact Hstep|].
  destruct Hend as [(Hs & -> & _)|(_ & i & Hi & Hbad)].
  - cbn [List.length] in Hlen. repeat split; auto. lia.
  - rewrite Hok in Hbad by lia. discriminate.
Qed.

(** A step fails at its first command that does not exit with 0 before
    the timer fires; the commands after it are not sent. *)
Lemma run_commands_fails_at node step path timeoutMs startTime commands out err w j :
  startsWith (js "-") (Store.host node) = false ->
  (j < List.length commands)%nat ->
  (forall i, (i < j)%nat -> child_ok (next_child w i) = true) ->
  child_ok (next_child w j) = false ->
  exists sr w' calls,
    Executor.run_commands node step path timeoutMs startTime commands out err w
    = (Return sr, w')
    /\ Executor.step sr = step
    /\ Executor.status sr = PlanBuilder.Failed
    /\ spawned w' = spawned w ++ calls
    /\ List.length calls = S j
    /\ nodes_file w' = nodes_file w.
Proof.
  intros Hhost Hj Hok Hbad.
  destruct (run_commands_sends node step path timeoutMs startTime commands out err w
              Hhost)
    as (sr & w' & calls & rest & Hrun & Hsp & _ & Hcmds & _ & Hbefore & Hend & Hn & _).
  destruct (run_commands_spec node step path timeoutMs startTime commands out err w)
    as (sr0 & w0 & Hrun0 & _ & Hstep & _).
  rewrite Hrun in Hrun0. injection Hrun0 as <- <-.
  assert (Hlen : List.length commands = (List.length calls + List.length rest)%nat)
    by (rewrite Hcmds, length_app, length_map; reflexivity).
  exists sr, w', calls. split; [exact Hrun|]. split; [exact Hstep|].
  destruct Hend as [(_ & -> & Hall)|(Hs & i & Hi & Hbadi)].
  - cbn [List.length] in Hlen. rewrite Hall in Hbad by lia. discriminate.
  - assert (i = j).
    { destruct (Nat.lt_trichotomy i j) as [Hlt|[Heq|Hgt]]; [|exact Heq|].
      - rewrite Hok in Hbadi by exact Hlt. discriminate.
      - rewrite Hbefore in Hbad by lia. discriminate. }
    subst i. repeat split; auto.
Qed.

(** The loop stops at the first step that is not skipped and one of whose
    commands does not exit with 0 before the timer fires: the steps before
    it have their results, the step has the last result, and nothing is
    sent after the command that failed. *)
Lemma run_steps_fails_at plan options timeoutMs startTime passed step later j :
  startsWith (js "-") (Store.host (PlanBuilder.node plan)) = false ->
  Executor.shouldSkip step (PlanBuilder.nodeInfo plan) = false ->
  (j < List.length (PlanBuilder.commands step))%nat ->
  forall done_ w,
    (forall i, (i < commands_run (PlanBuilder.nodeInfo plan) passed + j)%nat ->
               child_ok (next_child w i) = true) ->
    child_ok (next_child w (commands_run (PlanBuilder.nodeInfo plan) passed + j))
    = false ->
    exists r w' before failed,
      Executor.run_steps plan options false timeoutMs startTime
        (passed ++ step :: later) done_ w = (Return (inr r), w')
      /\ Executor.stepResults r = done_ ++ before ++ [failed]
      /\ map Executor.step before = passed
      /\ Forall went_through before
      /\ Executor.step failed = step
      /\ Executor.status failed = PlanBuilder.Failed
      /\ Executor.success r = false
      /\ Executor.installedVersion r = None
      /\ Executor.resultError r = Executor.error failed
      /\ nodes_file w' = nodes_file w
      /\ children w' = children w
      /\ List.length (spawned w')
         = (List.length (spawned w)
            + commands_run (PlanBuilder.nodeInfo plan) passed + j + 1)%nat.
Proof.
  intros Hhost Hskip Hj.
  induction passed as [|s passed IH]; intros done_ w Hok Hbad.
  - cbn [app Executor.run_steps]. rewrite Hskip.
    unfold commands_run in Hok, Hbad. cbn [map list_sum fold_right Nat.add] in Hok, Hbad.
    destruct (call_onProgress_spec options step PlanBuilder.StepRunning w)
      as (w0 & Hp & Hn0 & Hsp0 & Hc0).
    rewrite (bind_eq _ _ _ _ _ Hp).
    assert (Hnext : forall i, next_child w0 i = next_child w i)
      by (intros i; unfold next_child; now rewrite Hsp0, Hc0).
    destruct (run_commands_fails_at (PlanBuilder.node plan) step
                (Executor.knownHostsPath options) timeoutMs (clock w0)
                (PlanBuilder.commands step) [] [] w0 j Hhost Hj)
      as (sr & w1 & calls & Hrun & Hstep & Hstatus & Hsp1 & Hlen & Hn1).
    { intros i Hi. rewrite Hnext. now apply Hok. }
    { now rewrite Hnext. }
    assert (Hexec : Executor.executeStep (PlanBuilder.node plan) step
                      (Executor.knownHostsPath options) timeoutMs w0
                    = (Return sr, w1)) by exact Hrun.
    rewrite (bind_eq _ _ _ _ _ Hexec).
    pose proof (run_commands_children (PlanBuilder.node plan) step
                  (Executor.knownHostsPath options) timeoutMs (clock w0)
                  (PlanBuilder.commands step) [] [] w0) as Hc1.
    rewrite Hrun in Hc1. cbn [snd] in Hc1.
    destruct (call_onProgress_spec options step (Executor.status sr) w1)
      as (w2 & Hp2 & Hn2 & Hsp2 & Hc2).
    rewrite (bind_eq _ _ _ _ _ Hp2). rewrite Hstatus. cbn [Executor.is_failed].
    unfold bind, Date_now, ret. eexists. exists w2, [], sr.
    split; [reflexivity|].
    cbn [Executor.stepResults Executor.success Executor.installedVersion
         Executor.resultError map app].
    repeat split; auto; try congruence.
    rewrite Hsp2, Hsp1, length_app, Hsp0, Hlen.
    unfold commands_run. cbn [map list_sum fold_right]. lia.
  - cbn [app Executor.run_steps].
    assert (Hrun_s : commands_run (PlanBuilder.nodeInfo plan) (s :: passed)
                     = ((if Executor.shouldSkip s (PlanBuilder.nodeInfo plan) then O
                         else List.length (PlanBuilder.commands s))
                        + commands_run (PlanBuilder.nodeInfo plan) passed)%nat)
      by reflexivity.
    rewrite Hrun_s in Hok, Hbad.
    destruct (Executor.shouldSkip s (PlanBuilder.nodeInfo plan)) eqn:Hs.
    + destruct (call_onProgress_spec options s PlanBuilder.Skipped w)
        as (w0 & Hp & Hn0 & Hsp0 & Hc0).
      rewrite (bind_eq _ _ _ _ _ Hp).
      assert (Hnext : forall i, next_child w0 i = next_child w i)
        by (intros i; unfold next_child; now rewrite Hsp0, Hc0).
      match goal with
      | |- context [Executor.run_steps _ _ _ _ _ _ ?acc w0] =>
          destruct (IH acc w0)
            as (r & w' & before & failed & Hrun & Hres & Hmap & Hwent & Hstep
                & Hstatus & Hsucc & Hver & Herr & Hn & Hc & Hlen)
      end.
      { intros i Hi. rewrite Hnext. apply Hok. cbn [Nat.add]. exact Hi. }
      { rewrite Hnext. exact Hbad. }
      exists r, w'. eexists (_ :: before). exists failed.
      split; [exact Hrun|]. rewrite Hres, <- app_assoc.
      split; [reflexivity|]. cbn [map Executor.step].
      split; [now rewrite Hmap|].
      split; [constructor; [right; reflexivity|exact Hwent]|].
      repeat split; auto; try congruence.
      rewrite Hlen, Hsp0. cbn [Nat.add]. lia.
    + destruct (call_onProgress_spec options s PlanBuilder.StepRunning w)
        as (w0 & Hp & Hn0 & Hsp0 & Hc0).
      rewrite (bind_eq _ _ _ _ _ Hp).
      assert (Hnext : forall i, next_child w0 i = next_child w i)
        by (intros i; unfold next_child; now rewrite Hsp0, Hc0).
      destruct (run_commands_all_ok (PlanBuilder.node plan) s
                  (Executor.knownHostsPath options) timeoutMs (clock w0)
                  (PlanBuilder.commands s) [] [] w0 Hhost)
        as (sr & w1 & calls & Hrun1 & Hstep1 & Hstatus1 & Hsp1 & Hlen1 & Hc1 & Hn1).
      { intros i Hi. rewrite Hnext. apply Hok. lia. }
      assert (Hexec : Executor.executeStep (PlanBuilder.node plan) s
                        (Executor.knownHostsPath options) timeoutMs w0
                      = (Return sr, w1)) by exact Hrun1.
      rewrite (bind_eq _ _ _ _ _ Hexec).
      destruct (call_onProgress_spec options s (Executor.status sr) w1)
        as (w2 & Hp2 & Hn2 & Hsp2 & Hc2).
      rewrite (bind_eq _ _ _ _ _ Hp2). rewrite Hstatus1. cbn [Executor.is_failed].
      assert (Hnext2 : forall i, next_child w2 i
                                 = next_child w (List.length (PlanBuilder.commands s) + i)).
      { intros i. rewrite <- Hlen1, <- Hnext.
        apply next_child_after; [now rewrite Hsp2|congruence]. }
      destruct (IH (done_ ++ [sr]) w2)
        as (r & w' & before & failed & Hrun & Hres & Hmap & Hwent & Hstep
            & Hstatus & Hsucc & Hver & Herr & Hn & Hc & Hlen).
      { intros i Hi. rewrite Hnext2. apply Hok. lia. }
      { rewrite Hnext2. rewrite Nat.add_assoc. exact Hbad. }
      exists r, w', (sr :: before), failed.
      split; [exact Hrun|]. rewrite Hres, <- app_assoc.
      split; [reflexivity|]. cbn [map].
      split; [now rewrite Hmap, Hstep1|].
      split; [constructor; [left; exact Hstatus1|exact Hwent]|].
      repeat split; auto; try congruence.
      rewrite Hlen, Hsp2, Hsp1, length_app, Hsp0, Hlen1. lia.
Qed.

Lemma run_steps_first_times_out plan options timeoutMs startTime first rest w
      command more out err :
  Executor.shouldSkip first (PlanBuilder.nodeInfo plan) = false ->
  PlanBuilder.commands first = command :: more ->
  startsWith (js "-") (Store.host (PlanBuilder.node plan)) = false ->
  children w (List.length (spawned w)) = Hangs out err ->
  exists r sr w',
    Executor.run_steps plan options false timeoutMs startTime (first :: rest) [] w
    = (Return (inr r), w')
    /\ Executor.stepResults r = [sr]
    /\ Executor.step sr = first
    /\ Executor.status sr = PlanBuilder.Failed
    /\ Executor.error sr = Some (js "Command timed out").
Proof.
  intros Hskip Hcommands Hhost Hchild. simpl. rewrite Hskip.
  destruct (call_onProgress_spec options first PlanBuilder.StepRunning w)
    as (w1 & Hp & _ & Hspawned & Hchildren).
  rewrite (bind_eq _ _ _ _ _ Hp).
  assert (Hchild1 : children w1 (List.length (spawned w1)) = Hangs out err)
    by now rewrite Hspawned, Hchildren.
  destruct (executeStep_timeout (PlanBuilder.node plan) first
              (Executor.knownHostsPath options) timeoutMs w1 command more out err
              Hcommands Hhost Hchild1)
    as (sr & w2 & Hsr & _ & Hstep & Hstatus & Herror).
  rewrite (bind_eq _ _ _ _ _ Hsr).
  destruct (call_onProgress_spec options first (Executor.status sr) w2)
    as (w3 & Hp3 & _).
  rewrite (bind_eq _ _ _ _ _ Hp3). rewrite Hstatus. simpl.
  unfold bind, Date_now, ret. eexists; exists sr; eexists.
  split; [reflexivity|]. simpl. auto.
Qed.

(** C2. In a run that is not a dry run, [executeBootstrapPlan] returns a
    result.  When the host does not begin with ['-'] and, in plan order,
    the commands of the steps that are not skipped exit with code 0 up to
    a command that does not (its process exits with another code, is
    killed at the timeout or cannot be started), the run stops at the step
    of that command: [success] is false, there is no installed version,
    the step results are those of the steps before it, which went through
    (success or skipped), followed by the result of that step with status
    [failed], whose error is the error of the run; the later steps have no
    result, no process is spawned after the one that failed, and the
    inventory file is as it was.  Whenever a step of the result failed,
    [success] is false, the failed step is the last step result, the
    results before it went through, the later steps of the plan have no
    result, and the inventory file is as it was.  In particular, when the
    first step is not skipped and the timer fires on its first command,
    the result holds one step result, whose status is [failed]. *)
Theorem executeBootstrapPlan_fail_fast `{RT : Runtime}
    (plan : PlanBuilder.BootstrapPlan) (options : Executor.ExecuteOptions)
    (w : world) (Hreal : effective_dryRun options = false) :
  exists r w',
    Executor.executeBootstrapPlan plan options w = (Return r, w')
    /\ (forall passed step later j,
           PlanBuilder.steps plan = passed ++ step :: later ->
           startsWith (js "-") (Store.host (PlanBuilder.node plan)) = false ->
           Executor.shouldSkip step (PlanBuilder.nodeInfo plan) = false ->
           (j < List.length (PlanBuilder.commands step))%nat ->
           (forall i, (i < commands_run (PlanBuilder.nodeInfo plan) passed + j)%nat ->
                      child_ok (next_child w i) = true) ->
           child_ok (next_child w (commands_run (PlanBuilder.nodeInfo plan) passed + j))
           = false ->
           Executor.success r = false
           /\ Executor.installedVersion r = None
           /\ nodes_file w' = nodes_file w
           /\ List.length (spawned w')
              = (List.length (spawned w)
                 + commands_run (PlanBuilder.nodeInfo plan) passed + j + 1)%nat
           /\ exists before failed,
               Executor.stepResults r = before ++ [failed]
               /\ map Executor.step before = passed
               /\ Forall went_through before
               /\ Executor.step failed = step
               /\ Executor.status failed = PlanBuilder.Failed
               /\ Executor.resultError r = Executor.error failed)
    /\ ((exists sr, In sr (Executor.stepResults r)
                    /\ Executor.status sr = PlanBuilder.Failed) ->
        Executor.success r = false
        /\ nodes_file w' = nodes_file w
        /\ exists before failed later,
            Executor.stepResults r = before ++ [failed]
            /\ Executor.status failed = PlanBuilder.Failed
            /\ Forall went_through before
            /\ PlanBuilder.steps plan
               = map Executor.step before ++ Executor.step failed :: later)
    /\ (forall first rest command more out err,
           PlanBuilder.steps plan = first :: rest ->
           Executor.shouldSkip first (PlanBuilder.nodeInfo plan) = false ->
           PlanBuilder.commands first = command :: more ->
           startsWith (js "-") (Store.host (PlanBuilder.node plan)) = false ->
           children w (List.length (spawned w)) = Hangs out err ->
           Executor.success r = false
           /\ nodes_file w' = nodes_file w
           /\ exists sr, Executor.stepResults r = [sr]
                         /\ Executor.step sr = first
                         /\ Executor.status sr = PlanBuilder.Failed
                         /\ Executor.error sr = Some (js "Command timed out")).
Proof.
  unfold effective_dryRun in Hreal.
  unfold Executor.executeBootstrapPlan. unfold bind at 1, Date_now at 1.
  rewrite Hreal.
  set (timeoutMs := match Executor.commandTimeoutMs options with
                    | Some t => t | None => 120000%Z end).
  destruct (run_steps_spec plan options timeoutMs (clock w)
              (PlanBuilder.steps plan) [] w)
    as (looped & w1 & Hrun & Hfile & Hlooped).
  rewrite (bind_eq _ _ _ _ _ Hrun).
  destruct looped as [results|r].
  - (* the loop ran to its end: no step failed *)
    destruct Hlooped as (more & Hres & Hmore & Hmap). simpl in Hres. subst results.
    unfold bind at 1, Date_now at 1. simpl negb. cbv iota.
    match goal with
    | |- context [Store.updateNode ?n ?u] =>
        destruct (updateNode_returns n u w1 eq_refl eq_refl eq_refl)
          as (u' & w2 & Hu)
    end.
    unfold bind at 1 2. rewrite Hu. unfold ret at 1, Date_now, bind, ret.
    eexists; eexists. split; [reflexivity|]. simpl. split; [|split].
    + intros passed step later j Hsteps Hhost Hskip Hj Hok Hbad.
      exfalso. rewrite Hsteps in Hrun.
      destruct (run_steps_fails_at plan options timeoutMs (clock w) passed step later j
                  Hhost Hskip Hj [] w Hok Hbad)
        as (r0 & w0 & before & failed & Hrun0 & _).
      rewrite Hrun0 in Hrun. discriminate.
    + intros (sr & Hin & Hfailed). exfalso.
      rewrite Forall_forall in Hmore. destruct (Hmore sr Hin) as [H|H];
        rewrite H in Hfailed; discriminate.
    + intros first rest command more' out err Hsteps Hskip Hcommands Hhost Hchild.
      exfalso. rewrite Hsteps in Hrun.
      destruct (run_steps_first_times_out plan options timeoutMs (clock w)
                  first rest w command more' out err Hskip Hcommands Hhost Hchild)
        as (r0 & sr0 & w0 & Hrun0 & _).
      rewrite Hrun0 in Hrun. discriminate.
  - destruct Hlooped as (Hs & Hv & more & failed & later & Hres & Hmore & Hst & Htodo).
    simpl in Hres. exists r, w1. split; [reflexivity|]. split; [|split].
    + intros passed step later' j Hsteps Hhost Hskip Hj Hok Hbad.
      rewrite Hsteps in Hrun.
      destruct (run_steps_fails_at plan options timeoutMs (clock w) passed step later' j
                  Hhost Hskip Hj [] w Hok Hbad)
        as (r0 & w0 & before & failed0 & Hrun0 & Hres0 & Hmap0 & Hwent0 & Hstep0
            & Hstatus0 & Hsucc0 & Hver0 & Herr0 & Hn0 & _ & Hlen0).
      rewrite Hrun0 in Hrun. inversion Hrun; subst r0 w0; clear Hrun.
      split; [exact Hsucc0|]. split; [exact Hver0|]. split; [exact Hn0|].
      split; [exact Hlen0|]. exists before, failed0. cbn [app] in Hres0.
      repeat split; assumption.
    + intros _. repeat split; auto. exists more, failed, later. auto.
    + intros first rest command more' out err Hsteps Hskip Hcommands Hhost Hchild.
      rewrite Hsteps in Hrun.
      destruct (run_steps_first_times_out plan options timeoutMs (clock w)
                  first rest w command more' out err Hskip Hcommands Hhost Hchild)
        as (r0 & sr0 & w0 & Hrun0 & Hone & Hstep0 & Hstatus0 & Herror0).
      rewrite Hrun0 in Hrun. inversion Hrun; subst r0 w0; clear Hrun.
      repeat split; auto. exists sr0. auto.
Qed.

(** The plan of ["edge-1"] in a world whose first remote command hangs,
    and in a world whose remote commands exit with code 1: the install-node
    step is skipped and the install-raven step fails on its first command,
    after which nothing is sent. *)
Lemma executeBootstrapPlan_fail_fast_witness :
  effective_dryRun real_run = false
  /\ (exists r w',
        Executor.executeBootstrapPlan edge1_plan real_run edge1_stuck_world
        = (Return r, w')
        /\ Executor.success r = false
        /\ map Executor.status (Executor.stepResults r)
           = [PlanBuilder.Skipped; PlanBuilder.Failed]
        /\ nodes_file w' = nodes_file edge1_stuck_world)
  /\ exists r w' before failed,
      Executor.executeBootstrapPlan edge1_plan real_run edge1_failing_world
      = (Return r, w')
      /\ Executor.success r = false
      /\ Executor.stepResults r = before ++ [failed]
      /\ map (fun sr => PlanBuilder.id (Executor.step sr)) before = [js "install-node"]
      /\ PlanBuilder.id (Executor.step failed) = js "install-raven"
      /\ Executor.status failed = PlanBuilder.Failed
      /\ List.length (spawned w') = 1%nat
      /\ nodes_file w' = nodes_file edge1_failing_world.
Proof.
  split; [reflexivity|]. split.
  - destruct (executeBootstrapPlan_fail_fast edge1_plan real_run edge1_stuck_world
                eq_refl) as (r & w' & Hrun & _ & Hgeneral & _).
    exists r, w'. split; [exact Hrun|].
    assert (Hr : fst (Executor.executeBootstrapPlan edge1_plan real_run
                        edge1_stuck_world) = Return r) by now rewrite Hrun.
    vm_compute in Hr. inversion Hr; subst r; clear Hr.
    split; [reflexivity|]. split; [reflexivity|].
    apply Hgeneral. eexists. split; [right; left; reflexivity|reflexivity].
  - destruct (executeBootstrapPlan_fail_fast edge1_plan real_run edge1_failing_world
                eq_refl) as (r & w' & Hrun & Hstops & _).
    destruct (Hstops (firstn 1 (PlanBuilder.steps edge1_plan))
                (PlanBuilder.install_raven_step (js "2.0.0") false)
                (skipn 2 (PlanBuilder.steps edge1_plan)) 0%nat
                eq_refl eq_refl eq_refl (Nat.lt_0_succ 0)
                (fun i Hi => match Nat.nlt_0_r i Hi with end) eq_refl)
      as (Hsucc & _ & Hn & Hlen & before & failed & Hres & Hmap & _ & Hstep & Hstatus & _).
    exists r, w', before, failed. split; [exact Hrun|]. split; [exact Hsucc|].
    split; [exact Hres|].
    split; [rewrite <- (map_map Executor.step PlanBuilder.id), Hmap; reflexivity|].
    split; [now rewrite Hstep|]. split; [exact Hstatus|].
    split; [exact Hlen|exact Hn].
Defined.

(** A run whose loop reaches its end makes one call of [updateNode], for
    the name of the node, with the OS and architecture of the fact sheet,
    the installation record, the timestamp and the status ["running"], and
    returns [success = true] with the target version. *)
Lemma executeBootstrapPlan_success `{RT : Runtime} plan options w results w1 :
  effective_dryRun options = false ->
  Executor.run_steps plan options false (effective_timeout options) (clock w)
    (PlanBuilder.steps plan) [] w = (Return (inl results), w1) ->
  exists updated w2,
    Store.updateNode (Store.name (PlanBuilder.node plan))
      (executor_update plan (toISOString (clock w1))) w1 = (Return updated, w2)
    /\ Executor.executeBootstrapPlan plan options w
       = (Return {| Executor.node := PlanBuilder.node plan;
                    Executor.success := true;
                    Executor.stepResults := results;
                    Executor.installedVersion := Some (PlanBuilder.targetVersion plan);
                    Executor.totalDurationMs := (clock w2 - clock w)%Z;
                    Executor.resultError := None |}, w2).
Proof.
  intros Hreal Hrun. unfold effective_dryRun in Hreal.
  destruct (updateNode_returns (Store.name (PlanBuilder.node plan))
              (executor_update plan (toISOString (clock w1))) w1
              eq_refl eq_refl eq_refl) as (updated & w2 & Hupdate).
  exists updated, w2. split; [exact Hupdate|].
  unfold Executor.executeBootstrapPlan. unfold bind at 1, Date_now at 1.
  rewrite Hreal. fold (effective_timeout options).
  rewrite (bind_eq _ _ _ _ _ Hrun).
  unfold bind at 1, Date_now at 1. cbn [negb].
  fold (executor_update plan (toISOString (clock w1))).
  unfold bind at 1 2. rewrite Hupdate. reflexivity.
Qed.

(** The merge of [updateNode] never changes [os], [arch] and
    [serviceStatus], whatever the update carries. *)
Lemma merge_ignores_detected existing updates :
  Store.os (Store.merge existing updates) = Store.os existing
  /\ Store.arch (Store.merge existing updates) = Store.arch existing
  /\ Store.serviceStatus (Store.merge existing updates)
     = Store.serviceStatus existing.
Proof. repeat split. Qed.

Lemma getNode_eq `{RT : Runtime} name w :
  Store.getNode name w
  = (Return (find (Store.same_name (Store.normalizeNodeName name))
                  (Store.nodes (inventory_of (nodes_file w)))), w).
Proof.
  unfold Store.getNode. now rewrite (bind_eq _ _ _ _ _ (loadFleetStore_eq w)).
Qed.

Lemma listNodes_eq `{RT : Runtime} w :
  Store.listNodes w = (Return (Store.nodes (inventory_of (nodes_file w))), w).
Proof.
  unfold Store.listNodes. now rewrite (bind_eq _ _ _ _ _ (loadFleetStore_eq w)).
Qed.

(** The run of the plan of ["edge-1"] in [edge1_world], computed. *)
Lemma edge1_run_computed :
  match Executor.executeBootstrapPlan edge1_plan real_run edge1_world with
  | (Return r, w') =>
      Executor.success r = true
      /\ map Executor.status (Executor.stepResults r)
         = [PlanBuilder.Skipped; PlanBuilder.Success; PlanBuilder.Success;
            PlanBuilder.Success; PlanBuilder.Success; PlanBuilder.Success]
      /\ Executor.installedVersion r = Some (js "2.0.0")
      /\ fst (Store.getNode (js "edge-1") w')
         = Return (Some (Store.merge (sample_node (js "edge-1")) edge1_recorded))
  | (Throw _, _) => False
  end.
Proof. vm_compute. repeat split. Qed.

(** C3, on the code.  A fully successful run for the node ["edge-1"] with
    target version 2.0.0 returns [success = true] with the installed
    version, and the stored record has the installation record and the
    last-contact timestamp; its [os], [arch] and [serviceStatus] are still
    undefined, although the executor passes them to [updateNode]. *)
Theorem executeBootstrapPlan_success_loses_status :
  exists r w' stored stamp,
    Executor.executeBootstrapPlan edge1_plan real_run edge1_world = (Return r, w')
    /\ Executor.success r = true
    /\ Forall went_through (Executor.stepResults r)
    /\ Executor.installedVersion r = Some (js "2.0.0")
    /\ Store.getNode (js "edge-1") w' = (Return (Some stored), w')
    /\ Store.installed stored
       = Some {| Store.version := js "2.0.0"; Store.installedAt := stamp |}
    /\ Store.lastSeen stored = Some stamp
    /\ Store.os stored = None
    /\ Store.arch stored = None
    /\ Store.serviceStatus stored = None.
Proof.
  pose proof edge1_run_computed as H.
  destruct (Executor.executeBootstrapPlan edge1_plan real_run edge1_world)
    as [[r|e] w']; [|contradiction].
  destruct H as (Hsuccess & Hstatus & Hversion & Hget).
  exists r, w', (Store.merge (sample_node (js "edge-1")) edge1_recorded),
         (js "1970-01-01T00:00:00.000Z").
  split; [reflexivity|]. split; [exact Hsuccess|].
  split.
  { assert (Hall : forall l : list Executor.BootstrapStepResult,
               forallb (fun s => match s with
                                 | PlanBuilder.Success | PlanBuilder.Skipped => true
                                 | _ => false
                                 end) (map Executor.status l) = true ->
               Forall went_through l).
    { induction l as [|sr l IH]; simpl; [constructor|].
      intros E. apply andb_true_iff in E as [E1 E2]. constructor; [|auto].
      unfold went_through. destruct (Executor.status sr); auto; discriminate. }
    apply Hall. now rewrite Hstatus. }
  split; [exact Hversion|].
  split.
  { rewrite getNode_eq in Hget |- *. simpl in Hget. now inversion Hget. }
  repeat split.
Qed.

(** ** Inventory store: a host that is trimmed after it is checked *)

Lemma dash_host_computed :
  match Store.addNode (cli_input (js "n1") (js " -x")) fresh_world with
  | (Return node, w1) =>
      Store.name node = js "n1"
      /\ Store.host node = js "-x"
      /\ inventory_of (nodes_file w1) = Store.createEmptyFleetStore
      /\ match Store.addNode (cli_input (js "N1") (js "10.0.0.2")) w1 with
         | (Return second, w2) =>
             Store.name second = js "N1"
             /\ Store.nodes (inventory_of (nodes_file w2)) = [second]
         | (Throw _, _) => False
         end
  | (Throw _, _) => False
  end.
Proof. vm_compute. repeat split. Qed.

(** C6, on the code.  [addNode] checks the host before it trims it: the
    host [" -x"] passes [validateHost] and is stored as ["-x"], which the
    node schema rejects.  From then on the inventory file reads as the
    empty inventory: [getNode] does not find the node under any spelling of
    its name, and a second [addNode] whose name differs in case only
    succeeds instead of failing with the duplicate-name error. *)
Theorem addNode_dash_host_breaks_lookup :
  exists node w1,
    Store.addNode (cli_input (js "n1") (js " -x")) fresh_world = (Return node, w1)
    /\ Store.name node = js "n1"
    /\ Store.host node = js "-x"
    /\ (forall name, Store.getNode name w1 = (Return None, w1))
    /\ Store.listNodes w1 = (Return [], w1)
    /\ exists second w2,
        Store.addNode (cli_input (js "N1") (js "10.0.0.2")) w1 = (Return second, w2)
        /\ Store.name second = js "N1"
        /\ Store.listNodes w2 = (Return [second], w2).
Proof.
  pose proof dash_host_computed as H.
  destruct (Store.addNode (cli_input (js "n1") (js " -x")) fresh_world)
    as [[node|e] w1]; [|contradiction].
  destruct H as (Hname & Hhost & Hinv & H).
  exists node, w1. split; [reflexivity|]. split; [exact Hname|].
  split; [exact Hhost|].
  split; [intros name; rewrite getNode_eq, Hinv; reflexivity|].
  split; [rewrite listNodes_eq, Hinv; reflexivity|].
  destruct (Store.addNode (cli_input (js "N1") (js "10.0.0.2")) w1)
    as [[second|e] w2]; [|contradiction].
  destruct H as (Hname2 & Hnodes).
  exists second, w2. split; [reflexivity|]. split; [exact Hname2|].
  now rewrite listNodes_eq, Hnodes.
Qed.

(** ** Inventory store: what is written is read back *)

Section SchemaFacts.
Context `{RT : Runtime}.

Lemma z_required_string check v s :
  Store.z_required (Store.z_string check) v = Some s -> check s = true.
Proof.
  destruct v as [[ | | | s' | | ]|]; simpl; try discriminate.
  destruct (check s') eqn:E; [|discriminate]. intros H. now inversion H; subst.
Qed.

Lemma z_optional_string check v s :
  Store.z_optional (Store.z_string check) v = Some (Some s) -> check s = true.
Proof.
  destruct v as [[ | | | s' | | ]|]; simpl; try discriminate.
  destruct (check s') eqn:E; [|discriminate]. intros H. now inversion H; subst.
Qed.

Lemma z_default_port v p :
  Store.z_default Store.z_port 22%Z v = Some p ->
  ((1 <=? p)%Z && (p <=? 65535)%Z) = true.
Proof.
  destruct v as [[ | | [z| | ] | | | ]|]; simpl; try discriminate.
  - destruct ((1 <=? z)%Z && (z <=? 65535)%Z) eqn:E; [|discriminate].
    intros H. now inversion H; subst.
  - intros H. now inversion H; subst.
Qed.

Lemma z_optional_installed v i :
  Store.z_optional Store.InstalledSchema v = Some (Some i) ->
  is_datetime (Store.installedAt i) = true.
Proof.
  destruct v as [j|]; simpl; [|discriminate].
  destruct j as [ | | | | |m]; simpl; try discriminate.
  destruct (Store.z_required (Store.z_string (fun _ => true))
              (member (js "version") m)) as [v|]; simpl; [|discriminate].
  destruct (Store.z_required (Store.z_string is_datetime)
              (member (js "installedAt") m)) as [t|] eqn:Ht; simpl; [|discriminate].
  intros H. inversion H; subst. simpl. exact (z_required_string _ _ _ Ht).
Qed.

(** A record that [FleetNodeSchema] gives passes its checks. *)
Lemma FleetNodeSchema_valid j n :
  Store.FleetNodeSchema j = Some n -> valid_node n = true.
Proof.
  unfold Store.FleetNodeSchema. destruct j as [ | | | | |m]; try discriminate.
  repeat match goal with
         | |- Store.obind ?o _ = Some _ -> _ =>
             let E := fresh "E" in
             destruct o eqn:E; [cbn [Store.obind]|discriminate]
         end.
  intros H. inversion H; subst n; clear H. unfold valid_node.
  cbn [Store.id Store.name Store.host Store.port Store.user Store.installed
       Store.lastSeen].
  repeat match goal with
         | H : Store.z_required (Store.z_string _) _ = Some _ |- _ =>
             apply z_required_string in H; cbv beta in H; rewrite H; clear H
         | H : Store.z_default Store.z_port _ _ = Some _ |- _ =>
             apply z_default_port in H; rewrite H; clear H
         end.
  cbn [andb].
  apply andb_true_iff. split.
  - match goal with
    | H : Store.z_optional Store.InstalledSchema _ = Some ?o |- _ =>
        destruct o; [exact (z_optional_installed _ _ H)|reflexivity]
    end.
  - match goal with
    | H : Store.z_optional (Store.z_string is_datetime) _ = Some ?o |- _ =>
        destruct o; [exact (z_optional_string _ _ _ H)|reflexivity]
    end.
Qed.

Lemma z_array_strings tags :
  Store.z_array (Store.z_string (fun _ => true)) (map JStr tags) = Some tags.
Proof.
  induction tags as [|t tags IH]; [reflexivity|]. cbn. now rewrite IH.
Qed.

Lemma FleetOsSchema_string o : Store.FleetOsSchema (JStr (Store.os_string o)) = Some o.
Proof. now destruct o. Qed.

Lemma FleetArchSchema_string a :
  Store.FleetArchSchema (JStr (Store.arch_string a)) = Some a.
Proof. now destruct a. Qed.

Lemma ServiceStatusSchema_string s :
  Store.ServiceStatusSchema (JStr (Store.status_string s)) = Some s.
Proof. now destruct s. Qed.

(** The members of the object written for a record. *)
Lemma node_members_lookup n :
  let m := Store.node_members n in
  member (js "id") m = Some (JStr (Store.id n))
  /\ member (js "name") m = Some (JStr (Store.name n))
  /\ member (js "host") m = Some (JStr (Store.host n))
  /\ member (js "port") m = Some (JNum (Int (Store.port n)))
  /\ member (js "user") m = Some (JStr (Store.user n))
  /\ member (js "trusted") m = Some (JBool (Store.trusted n))
  /\ member (js "hostKey") m = option_map JStr (Store.hostKey n)
  /\ member (js "tags") m = Some (JArr (map JStr (Store.tags n)))
  /\ member (js "os") m = option_map (fun o => JStr (Store.os_string o)) (Store.os n)
  /\ member (js "arch") m
     = option_map (fun a => JStr (Store.arch_string a)) (Store.arch n)
  /\ member (js "installed") m
     = option_map Store.installed_to_json (Store.installed n)
  /\ member (js "lastSeen") m = option_map JStr (Store.lastSeen n)
  /\ member (js "serviceStatus") m
     = option_map (fun s => JStr (Store.status_string s)) (Store.serviceStatus n).
Proof.
  destruct n as [id name host port user trusted hostKey tags os arch installed
                 lastSeen serviceStatus].
  destruct hostKey, os, arch, installed, lastSeen, serviceStatus;
    repeat split.
Qed.

Lemma InstalledSchema_written i :
  is_datetime (Store.installedAt i) = true ->
  Store.InstalledSchema (Store.installed_to_json i) = Some i.
Proof.
  destruct i as [v t]. cbn [Store.installedAt]. intros Ht.
  unfold Store.InstalledSchema, Store.installed_to_json.
  cbn [Store.version Store.installedAt].
  assert (Hv : member (js "version")
                 [(js "version", JStr v); (js "installedAt", JStr t)]
               = Some (JStr v)) by reflexivity.
  assert (Hi : member (js "installedAt")
                 [(js "version", JStr v); (js "installedAt", JStr t)]
               = Some (JStr t)) by reflexivity.
  rewrite Hv, Hi. cbn [Store.z_required Store.z_string Store.obind].
  now rewrite Ht.
Qed.

(** A record that passes the checks is read back from what
    [JSON.stringify] writes for it. *)
Lemma FleetNodeSchema_written n :
  valid_node n = true -> Store.FleetNodeSchema (Store.node_to_json n) = Some n.
Proof.
  unfold valid_node. intros H.
  apply andb_true_iff in H as [H Hseen]. apply andb_true_iff in H as [H Hinst].
  apply andb_true_iff in H as [H Huser]. apply andb_true_iff in H as [H Hport].
  apply andb_true_iff in H as [H Hhost]. apply andb_true_iff in H as [Hid Hname].
  unfold Store.FleetNodeSchema, Store.node_to_json.
  destruct (node_members_lookup n)
    as (-> & -> & -> & -> & -> & -> & -> & -> & -> & -> & -> & -> & ->).
  cbn [Store.z_required Store.z_default Store.z_string Store.z_port Store.z_boolean].
  rewrite Hid, Hname, Hhost, Hport, Huser. cbn [Store.obind].
  rewrite z_array_strings. cbn [Store.obind].
  destruct n as [id name host port user trusted hostKey tags os arch installed
                 lastSeen serviceStatus].
  cbn [Store.id Store.name Store.host Store.port Store.user Store.trusted
       Store.hostKey Store.tags Store.os Store.arch Store.installed Store.lastSeen
       Store.serviceStatus] in *.
  destruct hostKey; cbn [option_map Store.z_optional Store.z_string Store.obind].
  all: destruct os as [o|];
    cbn [option_map Store.z_optional Store.obind];
    rewrite ?FleetOsSchema_string; cbn [Store.obind].
  all: destruct arch as [a|];
    cbn [option_map Store.z_optional Store.obind];
    rewrite ?FleetArchSchema_string; cbn [Store.obind].
  all: destruct installed as [i|];
    cbn [option_map Store.z_optional Store.obind];
    rewrite ?(InstalledSchema_written _ Hinst); cbn [Store.obind].
  all: destruct lastSeen as [t'|];
    cbn [option_map Store.z_optional Store.z_string Store.obind];
    rewrite ?Hseen; cbn [Store.obind].
  all: destruct serviceStatus as [st|];
    cbn [option_map Store.z_optional Store.obind];
    rewrite ?ServiceStatusSchema_string; cbn [Store.obind]; reflexivity.
Qed.

End SchemaFacts.

Section InventoryFacts.
Context `{RT : Runtime}.

Lemma z_array_valid items ns :
  Store.z_array Store.FleetNodeSchema items = Some ns ->
  Forall (fun n => valid_node n = true) ns.
Proof.
  revert ns. induction items as [|j items IH]; intros ns; cbn [Store.z_array].
  - intros H. inversion H. constructor.
  - destruct (Store.FleetNodeSchema j) as [n|] eqn:Hn; cbn [Store.obind]; [|discriminate].
    destruct (Store.z_array Store.FleetNodeSchema items) as [more|];
      cbn [Store.obind]; [|discriminate].
    intros H. inversion H; subst. constructor; [exact (FleetNodeSchema_valid j n Hn)|].
    now apply IH.
Qed.

Lemma z_array_written ns :
  Forall (fun n => valid_node n = true) ns ->
  Store.z_array Store.FleetNodeSchema (map Store.node_to_json ns) = Some ns.
Proof.
  induction 1 as [|n ns Hn _ IH]; [reflexivity|].
  cbn [map Store.z_array]. rewrite (FleetNodeSchema_written n Hn). cbn [Store.obind].
  rewrite IH. reflexivity.
Qed.

Lemma safeParse_valid v s :
  Store.FleetStoreSchema_safeParse v = Some s ->
  Store.schemaVersion s = 1%Z /\ Forall (fun n => valid_node n = true) (Store.nodes s).
Proof.
  unfold Store.FleetStoreSchema_safeParse. destruct v as [ | | | | |m]; try discriminate.
  destruct (Store.z_required _ (member (js "schemaVersion") m)) as [version|] eqn:Hv;
    cbn [Store.obind]; [|discriminate].
  destruct (Store.z_default _ [] (member (js "nodes") m)) as [ns|] eqn:Hns;
    cbn [Store.obind]; [|discriminate].
  intros H. inversion H; subst s; clear H. cbn [Store.schemaVersion Store.nodes]. split.
  - destruct (member (js "schemaVersion") m) as [j|]; [|discriminate].
    cbn [Store.z_required] in Hv.
    destruct j as [ | |[[|[p|p|]|p]| | ]| | | ]; try discriminate.
    now inversion Hv.
  - destruct (member (js "nodes") m) as [j|]; cbn [Store.z_default] in Hns.
    + destruct j as [ | | | |items| ]; try discriminate. exact (z_array_valid items ns Hns).
    + inversion Hns. constructor.
Qed.

Lemma inventory_of_valid f :
  Store.schemaVersion (inventory_of f) = 1%Z
  /\ Forall (fun n => valid_node n = true) (Store.nodes (inventory_of f)).
Proof.
  assert (Hempty : Store.schemaVersion Store.createEmptyFleetStore = 1%Z
                   /\ Forall (fun n => valid_node n = true)
                             (Store.nodes Store.createEmptyFleetStore))
    by (split; [reflexivity|constructor]).
  unfold inventory_of. destruct f as [| |[v|]]; try exact Hempty.
  destruct (Store.FleetStoreSchema_safeParse v) as [s|] eqn:Hs.
  - destruct v; try exact Hempty; exact (safeParse_valid _ s Hs).
  - now destruct v.
Qed.

(** An inventory of valid records is read back from the file written for
    it. *)
Lemma inventory_of_written ns :
  Forall (fun n => valid_node n = true) ns ->
  inventory_of (JsonText (Some (Store.store_to_json
                                  {| Store.schemaVersion := 1; Store.nodes := ns |})))
  = {| Store.schemaVersion := 1; Store.nodes := ns |}.
Proof.
  intros Hns. unfold inventory_of, Store.store_to_json.
  cbn [Store.schemaVersion Store.nodes].
  unfold Store.FleetStoreSchema_safeParse.
  assert (Hv : member (js "schemaVersion")
                 [(js "schemaVersion", JNum (Int 1));
                  (js "nodes", JArr (map Store.node_to_json ns))]
               = Some (JNum (Int 1))) by reflexivity.
  assert (Hn : member (js "nodes")
                 [(js "schemaVersion", JNum (Int 1));
                  (js "nodes", JArr (map Store.node_to_json ns))]
               = Some (JArr (map Store.node_to_json ns))) by reflexivity.
  rewrite Hv, Hn. cbn [Store.z_required Store.z_default Store.obind].
  now rewrite (z_array_written ns Hns).
Qed.

End InventoryFacts.

(** ** Inventory store: names *)

Ltac split_comparisons :=
  repeat match goal with
         | |- context [(?a <=? ?b)%N] => destruct (N.leb_spec a b); try lia
         | |- context [(?a <? ?b)%N] => destruct (N.ltb_spec a b); try lia
         | |- context [(?a =? ?b)%N] => destruct (N.eqb_spec a b); try lia
         end.

Lemma name_char_props c :
  Store.is_name_char c = true -> is_ws c = false /\ is_ascii c = true.
Proof.
  unfold Store.is_name_char, is_lower, is_upper, is_digit, is_ws, is_ascii.
  split_comparisons; cbn; intros; try discriminate; auto.
Qed.

Lemma name_char_variant c c' :
  lower_ascii c = lower_ascii c' ->
  Store.is_name_char c = true -> Store.is_name_char c' = true.
Proof.
  unfold lower_ascii, Store.is_name_char, is_lower, is_upper, is_digit.
  split_comparisons; cbn; intros; try discriminate; try reflexivity; try lia.
Qed.

Lemma regex_variant a b :
  case_variant a b ->
  Store.nodeNameRegex_test a = true ->
  Store.nodeNameRegex_test b = true /\ List.length b = List.length a.
Proof.
  unfold case_variant, Store.nodeNameRegex_test. intros Hmap Ha.
  apply andb_true_iff in Ha as [Hne Hall].
  assert (Hb : forallb Store.is_name_char b = true /\ List.length b = List.length a).
  { clear Hne. revert b Hmap.
    induction a as [|c a IH]; intros [|c' b] Hmap; try discriminate; [now split|].
    cbn [map] in Hmap. inversion Hmap as [[Hc Hrest]].
    cbn [forallb] in Hall. apply andb_true_iff in Hall as [Hc1 Hall].
    destruct (IH Hall b Hrest) as [Hb Hlen]. split.
    - cbn [forallb]. now rewrite (name_char_variant c c' Hc Hc1), Hb.
    - cbn [List.length]. now rewrite Hlen. }
  destruct Hb as [Hb Hlen]. split; [|exact Hlen].
  rewrite Hb, andb_true_r. destruct a; [discriminate|]. now destruct b.
Qed.

Lemma regex_token a :
  Store.nodeNameRegex_test a = true ->
  is_token a = true /\ forallb is_ascii a = true.
Proof.
  unfold Store.nodeNameRegex_test, is_token. intros Ha.
  apply andb_true_iff in Ha as [Hne Hall]. rewrite Hne. cbn [andb].
  clear Hne. induction a as [|c a IH]; [now split|].
  cbn [forallb] in Hall. apply andb_true_iff in Hall as [Hc Hall].
  destruct (IH Hall) as [Hws Hascii]. destruct (name_char_props c Hc) as [Hcw Hca].
  split.
  - rewrite no_ws_cons, Hcw, Hws. reflexivity.
  - cbn [forallb]. now rewrite Hca, Hascii.
Qed.

Lemma token_trim a : is_token a = true -> trim a = a.
Proof.
  intros Ha. destruct (is_token_first a Ha) as (c & r & Ec & Hc & _).
  destruct (is_token_last a Ha) as (b & z & Ez & Hz & _).
  rewrite Ec. apply (trim_fixed c r b z); auto. congruence.
Qed.

Section NameFacts.
Context `{RT : Runtime}.

Lemma normalize_name a :
  Store.nodeNameRegex_test a = true ->
  Store.normalizeNodeName a = map lower_ascii a.
Proof.
  intros Ha. destruct (regex_token a Ha) as [Htoken Hascii].
  unfold Store.normalizeNodeName, toLowerCase.
  now rewrite (token_trim a Htoken), Hascii.
Qed.

(** A name and its case variants have the same normal form. *)
Lemma normalize_variant a b :
  case_variant a b -> Store.nodeNameRegex_test a = true ->
  Store.normalizeNodeName b = Store.normalizeNodeName a.
Proof.
  intros Hvar Ha. destruct (regex_variant a b Hvar Ha) as [Hb _].
  now rewrite (normalize_name a Ha), (normalize_name b Hb).
Qed.

End NameFacts.

(** ** Inventory store: adding and finding *)

Section AddNodeFacts.
Context `{RT : Runtime}.

Lemma validateNodeName_eq name w :
  Store.validateNodeName name w
  = if negb (is_empty name || is_empty (trim name))
       && Store.nodeNameRegex_test name
       && negb (100 <? List.length name)%nat
    then (Return tt, w)
    else (fst (Store.validateNodeName name w), w).
Proof.
  unfold Store.validateNodeName.
  destruct (is_empty name || is_empty (trim name)); [reflexivity|].
  destruct (Store.nodeNameRegex_test name); [|reflexivity].
  destruct (100 <? List.length name)%nat; reflexivity.
Qed.

Lemma validateHost_eq host w :
  Store.validateHost host w
  = if negb (is_empty host || is_empty (trim host))
       && negb (startsWith (js "-") host)
    then (Return tt, w)
    else (fst (Store.validateHost host w), w).
Proof.
  unfold Store.validateHost.
  destruct (is_empty host || is_empty (trim host)); [reflexivity|].
  destruct (startsWith (js "-") host); reflexivity.
Qed.

Lemma validatePort_eq port w :
  Store.validatePort port w
  = if negb ((port <? 1)%Z || (65535 <? port)%Z)
    then (Return tt, w)
    else (fst (Store.validatePort port w), w).
Proof.
  unfold Store.validatePort, Store.Number_isInteger. cbn [negb orb].
  destruct ((port <? 1)%Z || (65535 <? port)%Z); reflexivity.
Qed.

Lemma check_throws (m : M unit) w : pure_check m -> fst (m w) <> Return tt ->
  exists e, m w = (Throw e, w).
Proof.
  intros Hm Hne. destruct (Hm w) as [E|[e E]]; [|now exists e].
  rewrite E in Hne. now elim Hne.
Qed.

Lemma ensured_uuids w :
  uuids (ensured w) (uuids_taken (ensured w)) = uuids w (uuids_taken w).
Proof. unfold ensured. now destruct (nodes_file w). Qed.

(** What [addNode] does with an input that passes its checks. *)
Lemma addNode_eq input w :
  accepts input = true ->
  Store.addNode input w
  = match find (Store.same_name (Store.normalizeNodeName (Store.add_name input)))
               (Store.nodes (inventory_of (nodes_file w))) with
    | Some _ =>
        (Throw (js "Node with name '" ++ Store.add_name input ++ js "' already exists"),
         ensured w)
    | None =>
        let node := new_node input (uuids w (uuids_taken w)) in
        (Return node,
         set_nodes_file
           (JsonText (Some (Store.store_to_json
              {| Store.schemaVersion := Store.schemaVersion (inventory_of (nodes_file w));
                 Store.nodes := Store.nodes (inventory_of (nodes_file w)) ++ [node] |})))
           (take_uuid (ensured w)))
    end.
Proof.
  unfold accepts. intros H.
  apply andb_true_iff in H as [H Huser]. apply andb_true_iff in H as [H Hport].
  apply andb_true_iff in H as [H Hdash]. apply andb_true_iff in H as [H Hhost].
  unfold Store.addNode.
  rewrite (bind_eq _ _ w tt w) by (rewrite validateNodeName_eq; now rewrite H).
  rewrite (bind_eq _ _ w tt w) by (rewrite validateHost_eq; now rewrite Hhost, Hdash).
  rewrite (bind_eq _ _ w tt w) by (rewrite validatePort_eq; now rewrite Hport).
  apply negb_true_iff in Huser. rewrite Huser.
  rewrite locked_read.
  destruct (find _ _); [reflexivity|].
  unfold bind, randomUUID, Store.writeJsonFile, write_nodes_file, ret. cbv zeta.
  unfold new_node. rewrite ensured_uuids. reflexivity.
Qed.

Lemma addNode_accepts input w node w1 :
  Store.addNode input w = (Return node, w1) -> accepts input = true.
Proof.
  unfold Store.addNode, accepts. intros H.
  apply bind_check in H as [Hname H]; [|apply validateNodeName_check].
  apply bind_check in H as [Hhost H]; [|apply validateHost_check].
  apply bind_check in H as [Hport H]; [|apply validatePort_check].
  rewrite validateNodeName_eq in Hname. rewrite validateHost_eq in Hhost.
  rewrite validatePort_eq in Hport.
  destruct (negb (is_empty (Store.add_name input)
                  || is_empty (trim (Store.add_name input)))
            && Store.nodeNameRegex_test (Store.add_name input)
            && negb (100 <? List.length (Store.add_name input))%nat) eqn:E1.
  2:{ exfalso. unfold Store.validateNodeName in Hname. apply andb_false_iff in E1.
      destruct (is_empty (Store.add_name input)
                || is_empty (trim (Store.add_name input))); [discriminate|].
      destruct (Store.nodeNameRegex_test (Store.add_name input)); [|discriminate].
      destruct (100 <? List.length (Store.add_name input))%nat; [discriminate|].
      destruct E1 as [E1|E1]; discriminate. }
  destruct (negb (is_empty (Store.add_host input)
                  || is_empty (trim (Store.add_host input)))
            && negb (startsWith (js "-") (Store.add_host input))) eqn:E2.
  2:{ exfalso. unfold Store.validateHost in Hhost. apply andb_false_iff in E2.
      destruct (is_empty (Store.add_host input)
                || is_empty (trim (Store.add_host input))); [discriminate|].
      destruct (startsWith (js "-") (Store.add_host input)); [discriminate|].
      destruct E2 as [E2|E2]; discriminate. }
  destruct (negb ((Store.add_port input <? 1)%Z
                  || (65535 <? Store.add_port input)%Z)) eqn:E3.
  2:{ exfalso. unfold Store.validatePort, Store.Number_isInteger in Hport.
      cbn [negb orb] in Hport. apply negb_false_iff in E3. rewrite E3 in Hport.
      discriminate. }
  destruct (is_empty (Store.add_user input)
            || is_empty (trim (Store.add_user input))); [discriminate|].
  apply andb_true_iff in E2 as [E2 E2']. now rewrite E2, E2'.
Qed.

Lemma find_app_none {A} (p : A -> bool) l x :
  find p l = None -> p x = true ->
  find p (l ++ [x]) = Some x /\ filter p (l ++ [x]) = [x].
Proof.
  intros Hnone Hx. induction l as [|y l IH]; cbn [app find filter].
  - now rewrite Hx.
  - cbn [find] in Hnone. destruct (p y); [discriminate|]. now apply IH.
Qed.

End AddNodeFacts.

(** X7.  Case-insensitive names on the records that the node schema accepts.
    When [addNode] returns a record that passes the checks of the node
    schema, [getNode] finds that record under
    every case variant of its name; a second [addNode] of the same input
    under a case variant of the name fails with the duplicate-name error
    and leaves the world as it is; and the inventory holds exactly one
    record of that name. *)
Theorem addNode_then_getNode `{RT : Runtime} (input : Store.AddNodeInput)
    (w w1 : world) (node : Store.FleetNode) (variant : jsstring)
    (Hadd : Store.addNode input w = (Return node, w1))
    (Hvalid : valid_node node = true)
    (Hvariant : case_variant (Store.add_name input) variant) :
  Store.getNode variant w1 = (Return (Some node), w1)
  /\ Store.addNode (renamed input variant) w1
     = (Throw (js "Node with name '" ++ variant ++ js "' already exists"), w1)
  /\ filter (Store.same_name (Store.normalizeNodeName variant))
            (Store.nodes (inventory_of (nodes_file w1)))
     = [node].
Proof.
  pose proof (addNode_accepts input w node w1 Hadd) as Hacc.
  rewrite (addNode_eq input w Hacc) in Hadd.
  destruct (find _ _) eqn:Hfind in Hadd; [discriminate|].
  cbv zeta in Hadd. injection Hadd as Hnode Hw1.
  destruct (inventory_of_valid (nodes_file w)) as [Hversion Hold].
  rewrite Hversion in Hw1.
  assert (Hname : Store.nodeNameRegex_test (Store.add_name input) = true).
  { unfold accepts in Hacc. repeat (apply andb_true_iff in Hacc as [Hacc ?]).
    assumption. }
  assert (Hlen : (100 <? List.length (Store.add_name input))%nat = false).
  { unfold accepts in Hacc. repeat (apply andb_true_iff in Hacc as [Hacc ?]).
    now apply negb_true_iff. }
  destruct (regex_variant _ _ Hvariant Hname) as [Hname' Hlen'].
  destruct (regex_token _ Hname) as [Htoken _].
  destruct (regex_token _ Hname') as [Htoken' _].
  assert (Hnorm : Store.normalizeNodeName variant
                  = Store.normalizeNodeName (Store.add_name input))
    by exact (normalize_variant _ _ Hvariant Hname).
  assert (Hsame : Store.same_name (Store.normalizeNodeName variant) node = true).
  { unfold Store.same_name. rewrite <- Hnode. cbn [new_node Store.name].
    rewrite (token_trim _ Htoken), Hnorm. apply str_eqb_refl. }
  assert (Hinv : inventory_of (nodes_file w1)
                 = {| Store.schemaVersion := 1;
                      Store.nodes := Store.nodes (inventory_of (nodes_file w)) ++ [node] |}).
  { rewrite <- Hw1. cbn [nodes_file set_nodes_file]. rewrite Hnode.
    apply inventory_of_written. apply Forall_app. split; [exact Hold|].
    constructor; [exact Hvalid|constructor]. }
  rewrite <- Hnorm in Hfind.
  destruct (find_app_none _ _ node Hfind Hsame) as [Hfound Hone].
  split; [|split].
  - rewrite getNode_eq, Hinv. cbn [Store.nodes]. now rewrite Hfound.
  - assert (Hacc' : accepts (renamed input variant) = true).
    { assert (H1 : negb (is_empty variant || is_empty (trim variant)) = true).
      { rewrite (token_trim _ Htoken'). apply is_token_nonempty in Htoken'.
        destruct variant; [congruence|reflexivity]. }
      assert (H3 : negb (100 <? List.length variant)%nat = true)
        by (rewrite Hlen'; now apply negb_true_iff).
      unfold accepts in *.
      cbn [renamed Store.add_name Store.add_host Store.add_port Store.add_user].
      rewrite H1, Hname', H3. cbn [andb].
      apply andb_true_iff in Hacc as [Hacc Huser].
      apply andb_true_iff in Hacc as [Hacc Hport].
      apply andb_true_iff in Hacc as [Hacc Hdash].
      apply andb_true_iff in Hacc as [Hacc Hhost].
      now rewrite Hhost, Hdash, Hport, Huser. }
    rewrite (addNode_eq _ w1 Hacc'). cbn [renamed Store.add_name].
    rewrite Hinv. cbn [Store.nodes]. rewrite Hfound.
    f_equal. unfold ensured. rewrite <- Hw1. reflexivity.
  - rewrite Hinv. cbn [Store.nodes]. exact Hone.
Qed.

Lemma addNode_then_getNode_witness :
  exists node w1,
    Store.addNode (cli_input (js "edge-3") (js "10.0.0.3")) two_node_world
    = (Return node, w1)
    /\ valid_node node = true
    /\ case_variant (js "edge-3") (js "Edge-3")
    /\ Store.getNode (js "Edge-3") w1 = (Return (Some node), w1)
    /\ Store.addNode (renamed (cli_input (js "edge-3") (js "10.0.0.3")) (js "Edge-3")) w1
       = (Throw (js "Node with name '" ++ js "Edge-3" ++ js "' already exists"), w1).
Proof.
  assert (Hadd : Store.addNode (cli_input (js "edge-3") (js "10.0.0.3")) two_node_world
                 = (Return (new_node (cli_input (js "edge-3") (js "10.0.0.3"))
                              (uuids two_node_world (uuids_taken two_node_world))),
                    after (Store.addNode (cli_input (js "edge-3") (js "10.0.0.3")))
                          two_node_world))
    by (vm_compute; reflexivity).
  eexists. eexists.
  destruct (addNode_then_getNode _ _ _ _ (js "Edge-3") Hadd) as (H1 & H2 & _);
    [reflexivity|reflexivity|].
  split; [exact Hadd|]. split; [reflexivity|]. split; [reflexivity|].
  split; [exact H1|exact H2].
Defined.

(** ** Diagnostics *)

(** A result of [sshExec] that carries an exit code did not time out. *)
Lemma sshExec_exit_code_not_timed_out opts w res w1 code :
  Transport.sshExec opts w = (Return res, w1) ->
  Transport.exitCode res = Some code ->
  Transport.timedOut res = false.
Proof.
  unfold Transport.sshExec.
  destruct (startsWith (js "-") (Transport.host opts)).
  - intros E _. now inversion E.
  - unfold bind, spawn_and_wait.
    destruct (children w (List.length (spawned w))); intros E Hcode;
      inversion E; subst; clear E; simpl in *; congruence.
Qed.

Lemma not_found_output_parsed :
  Diagnostics.match_after (js "VERSION:") not_found_output = Some (js "NOT_FOUND")
  /\ Diagnostics.match_service not_found_output = Some Store.Stopped
  /\ Diagnostics.match_after (js "STATUS_JSON:") not_found_output = Some (js "{}").
Proof. repeat split. Qed.

(** C8. When the transport call of the probe returns exit code 0 with the
    stdout of a machine without raven, and [JSON.parse] reads ["{}"] as the
    empty object, [runNodeDiagnostics] returns a record with [online]
    true, no version, the service not running with status ["stopped"], and
    no uptime. *)
Theorem runNodeDiagnostics_not_found `{RT : Runtime}
    (node : Store.FleetNode) (timeoutMs : Z) (path : jsstring)
    (w w1 : world) (res : Transport.SshExecResult)
    (Hjson : JSON_parse (js "{}") = Some (JObj []))
    (Hcall : probe_call node timeoutMs path w = (Return res, w1))
    (Hcode : Transport.exitCode res = Some 0%Z)
    (Hout : Transport.stdout res = not_found_output) :
  exists d w',
    Diagnostics.runNodeDiagnostics node timeoutMs path w = (Return d, w')
    /\ Diagnostics.online d = true
    /\ Diagnostics.version d = None
    /\ Diagnostics.serviceRunning d = false
    /\ Diagnostics.serviceStatus d = Store.Stopped
    /\ Diagnostics.uptime d = None
    /\ Diagnostics.error d = None.
Proof.
  pose proof (sshExec_exit_code_not_timed_out _ _ _ _ _ Hcall Hcode) as Htimed.
  unfold probe_call in Hcall.
  unfold Diagnostics.runNodeDiagnostics, bind at 1, Date_now at 1, try_catch.
  rewrite (bind_eq _ _ _ _ _ Hcall).
  unfold bind at 1, Date_now at 1. rewrite Htimed, Hcode, Hout.
  destruct not_found_output_parsed as (Hv & Hs & Hj).
  rewrite Hv, Hs, Hj. simpl Executor.exited_zero. simpl negb. cbv iota.
  rewrite (proj2 (str_eqb_eq _ _) eq_refl). simpl negb. cbv iota.
  unfold Diagnostics.parseUptime. rewrite Hjson.
  unfold bind, Date_now, ret. simpl. eexists; eexists. split; [reflexivity|].
  simpl. repeat split.
Qed.

Lemma runNodeDiagnostics_not_found_witness :
  exists res d w',
    probe_call (sample_node (js "edge-1")) 15000 (js "/k") not_found_world
    = (Return res, after (probe_call (sample_node (js "edge-1")) 15000 (js "/k"))
                         not_found_world)
    /\ Transport.exitCode res = Some 0%Z
    /\ Transport.stdout res = not_found_output
    /\ Diagnostics.runNodeDiagnostics (sample_node (js "edge-1")) 15000 (js "/k")
         not_found_world = (Return d, w')
    /\ Diagnostics.online d = true
    /\ Diagnostics.version d = None
    /\ Diagnostics.serviceStatus d = Store.Stopped.
Proof.
  exists {| Transport.stdout := not_found_output; Transport.stderr := [];
            Transport.exitCode := Some 0%Z; Transport.signal := None;
            Transport.timedOut := false |}.
  assert (Hcall : probe_call (sample_node (js "edge-1")) 15000 (js "/k") not_found_world
                  = (Return {| Transport.stdout := not_found_output;
                               Transport.stderr := [];
                               Transport.exitCode := Some 0%Z;
                               Transport.signal := None;
                               Transport.timedOut := false |},
                     after (probe_call (sample_node (js "edge-1")) 15000 (js "/k"))
                           not_found_world)) by reflexivity.
  assert (Hjson : JSON_parse (js "{}") = Some (JObj [])) by reflexivity.
  destruct (runNodeDiagnostics_not_found (sample_node (js "edge-1")) 15000 (js "/k")
              not_found_world _ _ Hjson Hcall eq_refl eq_refl)
    as (d & w' & Hrun & Honline & Hversion & _ & Hstatus & _).
  exists d, w'. repeat split; assumption || reflexivity.
Defined.

(** ** Known hosts: one entry, one line *)

Lemma takeWhile_dropWhile p s : HostKeys.takeWhile p s ++ dropWhile p s = s.
Proof.
  induction s as [|c s IH]; simpl; [reflexivity|].
  destruct (p c); simpl; [now rewrite IH|reflexivity].
Qed.

Lemma takeWhile_all p s : forallb p (HostKeys.takeWhile p s) = true.
Proof.
  induction s as [|c s IH]; simpl; [reflexivity|].
  destruct (p c) eqn:E; simpl; [now rewrite E|reflexivity].
Qed.

Lemma takeWhile_stop p a c r :
  forallb p a = true -> p c = false ->
  HostKeys.takeWhile p (a ++ c :: r) = a /\ dropWhile p (a ++ c :: r) = c :: r.
Proof.
  intros Ha Hc. induction a as [|x a IH]; simpl.
  - now rewrite Hc.
  - simpl in Ha. apply andb_true_iff in Ha as [Hx Ha]. rewrite Hx.
    destruct (IH Ha) as [-> ->]. now split.
Qed.

Lemma dropWhile_all p s : forallb p s = true -> dropWhile p s = [].
Proof.
  induction s as [|c s IH]; simpl; [reflexivity|].
  intros E. apply andb_true_iff in E as [-> E]. now apply IH.
Qed.

Lemma bracketMatch_spec entry h d :
  HostKeys.bracketMatch entry = Some (h, d) ->
  entry = 91%N :: h ++ 93%N :: 58%N :: d
  /\ h <> [] /\ forallb HostKeys.not_close_bracket h = true
  /\ d <> [] /\ forallb is_digit d = true.
Proof.
  unfold HostKeys.bracketMatch. destruct entry as [|open rest]; [discriminate|].
  pose proof (takeWhile_dropWhile HostKeys.not_close_bracket rest) as Hsplit.
  pose proof (takeWhile_all HostKeys.not_close_bracket rest) as Hall.
  destruct (dropWhile HostKeys.not_close_bracket rest) as [|close [|colon d']];
    try discriminate.
  destruct ((open =? 91)%N && (close =? 93)%N && (colon =? 58)%N
            && negb (is_empty (HostKeys.takeWhile HostKeys.not_close_bracket rest))
            && negb (is_empty d') && forallb is_digit d') eqn:E; [|discriminate].
  intros Hsome. inversion Hsome; subst h d; clear Hsome.
  repeat (apply andb_true_iff in E as [E ?]).
  apply N.eqb_eq in E. subst open.
  repeat match goal with H : (_ =? _)%N = true |- _ => apply N.eqb_eq in H end.
  subst close colon. rewrite Hsplit.
  repeat split; auto.
  - intros E. rewrite E in *. discriminate.
  - intros ->. discriminate.
Qed.

Lemma bracketMatch_build h d :
  h <> [] -> forallb HostKeys.not_close_bracket h = true ->
  d <> [] -> forallb is_digit d = true ->
  HostKeys.bracketMatch (91%N :: h ++ 93%N :: 58%N :: d) = Some (h, d).
Proof.
  intros Hh Hclose Hd Hdigits. unfold HostKeys.bracketMatch.
  destruct (takeWhile_stop HostKeys.not_close_bracket h 93%N (58%N :: d) Hclose eq_refl)
    as [-> ->].
  rewrite Hdigits. destruct h; [congruence|]. destruct d; [congruence|]. reflexivity.
Qed.

Lemma bracketMatch_without_bracket s :
  forallb HostKeys.not_close_bracket s = true -> HostKeys.bracketMatch s = None.
Proof.
  intros Hs. unfold HostKeys.bracketMatch. destruct s as [|open rest]; [reflexivity|].
  simpl in Hs. apply andb_true_iff in Hs as [_ Hs].
  now rewrite (dropWhile_all _ _ Hs).
Qed.

Lemma is_digit_not_ws c : is_digit c = true -> is_ws c = false.
Proof.
  unfold is_digit. intros E. apply andb_true_iff in E as [Hlo Hhi].
  apply N.leb_le in Hlo, Hhi. unfold is_ws.
  repeat match goal with
         | |- context [(?a <=? ?b)%N] =>
             destruct (N.leb_spec a b); try lia
         | |- context [(?a =? ?b)%N] =>
             destruct (N.eqb_spec a b); try lia
         end; try reflexivity.
Qed.

Lemma digits_no_ws d : forallb is_digit d = true -> no_ws d = true.
Proof.
  induction d as [|c d IH]; [reflexivity|]. cbn [forallb].
  intros E. apply andb_true_iff in E as [Hc Hd].
  rewrite no_ws_cons, (is_digit_not_ws c Hc). now apply IH.
Qed.

Lemma no_ws_has_newline s : no_ws s = true -> has_newline s = false.
Proof.
  induction s as [|c s IH]; [reflexivity|].
  rewrite no_ws_cons. intros E. apply andb_true_iff in E as [Hc Hs].
  unfold has_newline in *. cbn [existsb]. rewrite (IH Hs), orb_false_r.
  apply negb_true_iff in Hc.
  destruct (N.eqb_spec c 10); [subst; discriminate|reflexivity].
Qed.

(** What [parseHostEntry] reads from a token, with a port below [2^53],
    is rendered as a token that reads back as the same host and port. *)
Lemma parseHostEntry_canonical t host port :
  is_token t = true ->
  HostKeys.parseHostEntry t = (host, port) ->
  safe_port port ->
  is_token (HostKeys.formatHostEntry host port) = true
  /\ HostKeys.parseHostEntry (HostKeys.formatHostEntry host port) = (host, port).
Proof.
  intros Ht. unfold HostKeys.parseHostEntry at 1.
  destruct (HostKeys.bracketMatch t) as [[h d]|] eqn:Hmatch.
  - intros E Hsafe. inversion E; subst host port; clear E.
    destruct (bracketMatch_spec t h d Hmatch) as (-> & Hh & Hclose & Hd & Hdigits).
    assert (Hws : no_ws h = true).
    { apply is_token_no_ws in Ht. rewrite no_ws_cons, no_ws_app in Ht.
      apply andb_true_iff in Ht as [_ Ht]. now apply andb_true_iff in Ht as [Ht _]. }
    unfold HostKeys.formatHostEntry.
    destruct (Z.eqb_spec (parseInt d) 22) as [E22|N22].
    + split.
      * unfold is_token. rewrite Hws. now destruct h.
      * unfold HostKeys.parseHostEntry.
        rewrite (bracketMatch_without_bracket h Hclose). now rewrite E22.
    + destruct (show_spec (parseInt d) (conj (parseInt_nonneg d) (Z.gt_lt _ _ Hsafe)))
        as (Hne & Hdig & Hval).
      change (js "[" ++ h ++ js "]:" ++ show (parseInt d))
        with (91%N :: h ++ 93%N :: 58%N :: show (parseInt d)).
      split.
      * unfold is_token. cbn [is_empty negb andb].
        rewrite no_ws_cons, no_ws_app, Hws, !no_ws_cons.
        now rewrite (digits_no_ws _ Hdig).
      * unfold HostKeys.parseHostEntry.
        rewrite (bracketMatch_build h _ Hh Hclose Hne Hdig). now rewrite Hval.
  - intros E _. inversion E; subst host port; clear E.
    unfold HostKeys.formatHostEntry. simpl. split; [exact Ht|].
    unfold HostKeys.parseHostEntry. now rewrite Hmatch.
Qed.

Lemma nth_token parts i :
  Forall (fun p => no_ws p = true) parts ->
  is_empty (nth i parts []) = false ->
  is_token (nth i parts []) = true.
Proof.
  intros Hall Hne. unfold is_token. rewrite Hne. simpl.
  destruct (Nat.lt_ge_cases i (List.length parts)) as [Hlt|Hge].
  - rewrite Forall_forall in Hall. apply Hall. now apply nth_In.
  - rewrite nth_overflow in Hne by exact Hge. discriminate.
Qed.

(** The algorithm and the key of an entry that [parseLine] gives are
    tokens. *)
Lemma parseLine_tokens line e :
  HostKeys.parseLine line = Some e ->
  is_token (HostKeys.keyType e) = true /\ is_token (HostKeys.key e) = true.
Proof.
  unfold HostKeys.parseLine.
  destruct (is_empty (trim line) || startsWith (js "#") (trim line)); [discriminate|].
  destruct (List.length (split_ws (trim line)) <? 3)%nat; [discriminate|].
  pose proof (split_ws_from_no_ws [] false (trim line) eq_refl) as Hparts.
  fold (split_ws (trim line)) in Hparts.
  destruct (is_empty (nth 0 (split_ws (trim line)) [])) eqn:H0; [discriminate|].
  destruct (is_empty (nth 1 (split_ws (trim line)) [])) eqn:H1; [discriminate|].
  destruct (is_empty (nth 2 (split_ws (trim line)) [])) eqn:H2; [discriminate|].
  simpl.
  destruct (HostKeys.parseHostEntry (nth 0 (split_ws (trim line)) []))
    as [host port] eqn:Hparse.
  intros E. inversion E; subst e; clear E. simpl.
  split; auto using nth_token.
Qed.

Lemma parseKnownHosts_tokens s e :
  In e (HostKeys.parseKnownHosts s) ->
  is_token (HostKeys.keyType e) = true /\ is_token (HostKeys.key e) = true.
Proof.
  unfold HostKeys.parseKnownHosts. intros Hin. apply in_flat_map in Hin.
  destruct Hin as (line & _ & Hin).
  destruct (HostKeys.parseLine line) as [e'|] eqn:Hline; [|contradiction].
  destruct Hin as [->|[]]. exact (parseLine_tokens line e Hline).
Qed.

(** Every entry that [parseLine] gives with a port below [2^53] is
    canonical. *)
Lemma parseLine_canonical line e :
  HostKeys.parseLine line = Some e -> safe_port (HostKeys.port e) -> canonical e.
Proof.
  unfold HostKeys.parseLine.
  destruct (is_empty (trim line) || startsWith (js "#") (trim line)); [discriminate|].
  destruct (List.length (split_ws (trim line)) <? 3)%nat; [discriminate|].
  pose proof (split_ws_from_no_ws [] false (trim line) eq_refl) as Hparts.
  fold (split_ws (trim line)) in Hparts.
  destruct (is_empty (nth 0 (split_ws (trim line)) [])) eqn:H0; [discriminate|].
  destruct (is_empty (nth 1 (split_ws (trim line)) [])) eqn:H1; [discriminate|].
  destruct (is_empty (nth 2 (split_ws (trim line)) [])) eqn:H2; [discriminate|].
  simpl.
  destruct (HostKeys.parseHostEntry (nth 0 (split_ws (trim line)) []))
    as [host port] eqn:Hparse.
  intros E Hsafe. inversion E; subst e; clear E. cbn [HostKeys.port] in Hsafe.
  destruct (parseHostEntry_canonical _ host port (nth_token _ 0 Hparts H0) Hparse Hsafe)
    as [Htoken Hback].
  unfold canonical, rendered_host. simpl.
  repeat split; auto using nth_token.
Qed.

Lemma parseKnownHosts_canonical s e :
  In e (HostKeys.parseKnownHosts s) -> safe_port (HostKeys.port e) -> canonical e.
Proof.
  unfold HostKeys.parseKnownHosts. intros Hin. apply in_flat_map in Hin.
  destruct Hin as (line & _ & Hin).
  destruct (HostKeys.parseLine line) as [e'|] eqn:Hline; [|contradiction].
  destruct Hin as [->|[]]. exact (parseLine_canonical line e Hline).
Qed.

Lemma has_newline_app a b : has_newline (a ++ b) = has_newline a || has_newline b.
Proof. apply existsb_app. Qed.

Lemma canonical_no_newline e :
  canonical e -> has_newline (HostKeys.formatLine e) = false.
Proof.
  intros (Hkt & Hk & Hh & _). unfold HostKeys.formatLine. fold (rendered_host e).
  rewrite !has_newline_app.
  rewrite (no_ws_has_newline _ (is_token_no_ws _ Hh)).
  rewrite (no_ws_has_newline _ (is_token_no_ws _ Hkt)).
  rewrite (no_ws_has_newline _ (is_token_no_ws _ Hk)).
  reflexivity.
Qed.

Lemma formatLine_trim e :
  canonical e ->
  trim (HostKeys.formatLine e) = HostKeys.formatLine e
  /\ is_empty (HostKeys.formatLine e) = false
  /\ startsWith (js "#") (HostKeys.formatLine e) = hash_host e.
Proof.
  intros (Hkt & Hk & Hh & _). unfold HostKeys.formatLine, hash_host.
  fold (rendered_host e).
  destruct (is_token_first _ Hh) as (c & r & Ec & Hc & _).
  destruct (is_token_last _ Hk) as (a & z & Ez & Hz & _).
  rewrite Ec, Ez. cbn [app].
  split; [|split; reflexivity].
  apply (trim_fixed c _ (c :: r ++ js " " ++ HostKeys.keyType e ++ js " " ++ a) z);
    auto.
  cbn [app]. f_equal. now rewrite <- !app_assoc.
Qed.

(** A canonical entry whose line does not begin with ['#'] is read back
    from its line. *)
Lemma parseLine_formatLine e :
  canonical e -> hash_host e = false ->
  HostKeys.parseLine (HostKeys.formatLine e) = Some e.
Proof.
  intros Hcanon Hhash.
  destruct (formatLine_trim e Hcanon) as (Htrim & Hne & Hstart).
  destruct Hcanon as (Hkt & Hk & Hh & Hback).
  assert (Hsplit : split_ws (HostKeys.formatLine e)
                   = [rendered_host e; HostKeys.keyType e; HostKeys.key e])
    by exact (split_ws_three _ _ _ Hh Hkt Hk).
  unfold HostKeys.parseLine. rewrite Htrim, Hne, Hstart, Hhash, Hsplit.
  cbn [orb List.length Nat.ltb Nat.leb nth].
  unfold is_token in Hkt, Hk, Hh.
  apply andb_true_iff in Hkt as [Hkt _], Hk as [Hk _], Hh as [Hh _].
  apply negb_true_iff in Hkt, Hk, Hh. rewrite Hkt, Hk, Hh. cbn [orb].
  rewrite Hback. now destruct e.
Qed.

(** A canonical entry whose line begins with ['#'] is read back as a
    comment. *)
Lemma parseLine_hash e :
  canonical e -> hash_host e = true ->
  HostKeys.parseLine (HostKeys.formatLine e) = None.
Proof.
  intros Hcanon Hhash.
  destruct (formatLine_trim e Hcanon) as (Htrim & Hne & Hstart).
  unfold HostKeys.parseLine. now rewrite Htrim, Hne, Hstart, Hhash.
Qed.

Lemma line_entries_formatLine e :
  canonical e ->
  line_entries (HostKeys.formatLine e) = if hash_host e then [] else [e].
Proof.
  intros Hcanon. unfold line_entries. destruct (hash_host e) eqn:Hhash.
  - now rewrite parseLine_hash.
  - now rewrite parseLine_formatLine.
Qed.

(** What is read back from a file written from canonical entries: the
    entries whose line does not begin with ['#']. *)
Lemma parse_format_canonical es :
  Forall canonical es ->
  HostKeys.parseKnownHosts (HostKeys.formatKnownHosts es)
  = filter (fun e => negb (hash_host e)) es.
Proof.
  intros Hes. rewrite parse_format_lines.
  - induction Hes as [|e es He Hes IH]; [reflexivity|].
    cbn [flat_map filter]. rewrite IH, (line_entries_formatLine e He).
    now destruct (hash_host e).
  - eapply Forall_impl; [|exact Hes]. apply canonical_no_newline.
Qed.


Lemma canonical_representable e :
  canonical e -> hash_host e = false -> representable e.
Proof.
  intros Hcanon Hhash. unfold representable.
  rewrite parse_format_canonical by (constructor; [exact Hcanon|constructor]).
  cbn [filter]. now rewrite Hhash.
Qed.

(** ** Known hosts: the file *)

(** The ports of a computed list of entries are below [2^53]. *)
Ltac safe_ports_computed :=
  unfold safe_ports; vm_compute;
  repeat (apply Forall_cons; [vm_compute; reflexivity|]); apply Forall_nil.

Lemma split_char_from_app sep cur a b :
  split_char_from sep cur (a ++ sep :: b)
  = split_char_from sep cur a ++ split_char_from sep [] b.
Proof.
  revert cur. induction a as [|c a IH]; intros cur; simpl.
  - now rewrite N.eqb_refl.
  - destruct (c =? sep)%N; [now rewrite IH|apply IH].
Qed.








(** Outside the ports of the theorem: a bracket port from [10^21] on is
    written in exponent form, and the line that results reads as a bare
    host, brackets and exponent included, on port 22. *)
Lemma known_hosts_large_port :
  HostKeys.parseKnownHosts large_port_line
  = [{| HostKeys.host := js "h"; HostKeys.port := 1000000000000000000000;
        HostKeys.keyType := js "ssh-rsa"; HostKeys.key := js "AAAA" |}]
  /\ HostKeys.formatKnownHosts (HostKeys.parseKnownHosts large_port_line)
     = js "[h]:1e+21 ssh-rsa AAAA" ++ [10%N]
  /\ HostKeys.parseKnownHosts
       (HostKeys.formatKnownHosts (HostKeys.parseKnownHosts large_port_line))
     = [{| HostKeys.host := js "[h]:1e+21"; HostKeys.port := 22;
           HostKeys.keyType := js "ssh-rsa"; HostKeys.key := js "AAAA" |}].
Proof. repeat split; vm_compute; reflexivity. Qed.

(** ** Known hosts: pinning *)

Lemma loadKnownHosts_eq w :
  known_hosts_file w <> TextUnreadable ->
  HostKeys.loadKnownHosts w = (Return (pinned (known_hosts_file w)), w).
Proof.
  intros Hfile. unfold HostKeys.loadKnownHosts, bind, read_known_hosts_file, pinned.
  destruct (known_hosts_file w); [reflexivity|congruence|reflexivity].
Qed.


Lemma Forall_filter {A} (P : A -> Prop) (p : A -> bool) l :
  Forall P l -> Forall P (filter p l).
Proof.
  induction 1 as [|x l Hx _ IH]; [constructor|]. cbn [filter].
  destruct (p x); [constructor|]; auto.
Qed.

Lemma pinned_canonical f : safe_ports (pinned f) -> Forall canonical (pinned f).
Proof.
  intros Hsafe. unfold safe_ports in Hsafe. rewrite Forall_forall in Hsafe.
  destruct f as [| |content]; try constructor.
  apply Forall_forall. intros e He.
  exact (parseKnownHosts_canonical content e He (Hsafe e He)).
Qed.








Lemma Forall_filter_true {A} (p : A -> bool) l :
  Forall (fun x => p x = true) (filter p l).
Proof.
  apply Forall_forall. intros x Hx. now apply filter_In in Hx.
Qed.










(* ===================================================================== *)
(** * Part III: further properties of the fleet core                      *)
(* ===================================================================== *)

(** ** Inventory store: what the writers reject and what they keep *)

Ltac rejected_with_message :=
  eexists; split; [reflexivity|split; [cbn [In]; tauto|reflexivity]].

Lemma addNode_rejected `{RT : Runtime} input w :
  accepts input = false ->
  exists e, Store.addNode input w = (Throw e, w)
            /\ In e addNode_rejections
            /\ first_failure (addNode_checks input) = Some e.
Proof.
  intros Hrej. unfold accepts in Hrej.
  unfold Store.addNode, Store.validateNodeName, Store.validateHost,
    Store.validatePort, Store.Number_isInteger, bind, throw, ret.
  unfold addNode_rejections, first_failure, addNode_checks.
  destruct (is_empty (Store.add_name input)
            || is_empty (trim (Store.add_name input)));
    [rejected_with_message|].
  destruct (Store.nodeNameRegex_test (Store.add_name input));
    [|rejected_with_message].
  destruct (100 <? List.length (Store.add_name input))%nat;
    [rejected_with_message|].
  cbn [negb andb].
  destruct (is_empty (Store.add_host input)
            || is_empty (trim (Store.add_host input)));
    [rejected_with_message|].
  destruct (startsWith (js "-") (Store.add_host input));
    [rejected_with_message|].
  cbn [negb andb orb].
  destruct ((Store.add_port input <? 1)%Z || (65535 <? Store.add_port input)%Z);
    [rejected_with_message|].
  destruct (is_empty (Store.add_user input)
            || is_empty (trim (Store.add_user input)));
    [rejected_with_message|].
  discriminate Hrej.
Qed.

(** X1.  The checks of [addNode] come before any access to the inventory
    file: an input that fails one of them (name, host, port or user) makes
    [addNode] throw the message of the first check that it fails, in the
    order name blank, name pattern, name length, host blank, host with a
    leading dash, port, user; and the world is left as it was; in
    particular a missing inventory file is not created. *)
Theorem addNode_rejects_before_io `{RT : Runtime} (input : Store.AddNodeInput)
    (w : world) (Hrej : accepts input = false) :
  exists e, Store.addNode input w = (Throw e, w)
            /\ In e addNode_rejections
            /\ first_failure (addNode_checks input) = Some e.
Proof. exact (addNode_rejected input w Hrej). Qed.

Lemma addNode_rejects_before_io_witness :
  accepts spaced_name_input = false
  /\ Store.addNode spaced_name_input fresh_world
     = (Throw (js "Node name must contain only letters, numbers, hyphens, and underscores"),
        fresh_world).
Proof.
  split; [reflexivity|].
  destruct (addNode_rejects_before_io spaced_name_input fresh_world eq_refl)
    as (e & Hthrow & _ & Hfirst).
  injection Hfirst as <-. exact Hthrow.
Defined.

Section WrittenInventory.
Context `{RT : Runtime}.

Lemma InstalledSchema_installed_to_json i :
  Store.InstalledSchema (Store.installed_to_json i)
  = if is_datetime (Store.installedAt i) then Some i else None.
Proof.
  destruct i as [v t]. unfold Store.InstalledSchema, Store.installed_to_json.
  cbn [Store.version Store.installedAt].
  assert (Hv : member (js "version")
                 [(js "version", JStr v); (js "installedAt", JStr t)]
               = Some (JStr v)) by reflexivity.
  assert (Hi : member (js "installedAt")
                 [(js "version", JStr v); (js "installedAt", JStr t)]
               = Some (JStr t)) by reflexivity.
  rewrite Hv, Hi. cbn [Store.z_required Store.z_string Store.obind].
  now destruct (is_datetime t).
Qed.

(** What the node schema makes of the object written for a record: the
    record itself when it passes the checks, a failure otherwise. *)
Lemma FleetNodeSchema_node_to_json n :
  Store.FleetNodeSchema (Store.node_to_json n)
  = if valid_node n then Some n else None.
Proof.
  destruct (valid_node n) eqn:Hvalid; [now apply FleetNodeSchema_written|].
  destruct (Store.FleetNodeSchema (Store.node_to_json n)) as [n'|] eqn:Hparse;
    [|reflexivity].
  exfalso.
  unfold Store.FleetNodeSchema, Store.node_to_json in Hparse.
  destruct (node_members_lookup n)
    as (H1 & H2 & H3 & H4 & H5 & H6 & H7 & H8 & H9 & H10 & H11 & H12 & H13).
  rewrite H1, H2, H3, H4, H5, H6, H7, H8, H9, H10, H11, H12, H13 in Hparse.
  clear H1 H2 H3 H4 H5 H6 H7 H8 H9 H10 H11 H12 H13.
  cbn [Store.z_required Store.z_default Store.z_string Store.z_port Store.z_boolean]
    in Hparse.
  unfold valid_node in Hvalid.
  destruct (is_uuid (Store.id n)); cbn [Store.obind] in Hparse; [|discriminate].
  destruct (Store.min_length 1 (Store.name n) && Store.max_length 100 (Store.name n)
            && Store.nodeNameRegex_test (Store.name n));
    cbn [Store.obind] in Hparse; [|discriminate].
  destruct (Store.min_length 1 (Store.host n)
            && negb (startsWith (js "-") (Store.host n)));
    cbn [Store.obind] in Hparse; [|discriminate].
  destruct ((1 <=? Store.port n)%Z && (Store.port n <=? 65535)%Z);
    cbn [Store.obind] in Hparse; [|discriminate].
  destruct (Store.min_length 1 (Store.user n));
    cbn [Store.obind] in Hparse; [|discriminate].
  cbn [andb] in Hvalid.
  destruct (Store.z_optional (Store.z_string (fun _ => true))
              (option_map JStr (Store.hostKey n)));
    cbn [Store.obind] in Hparse; [|discriminate].
  rewrite z_array_strings in Hparse. cbn [Store.obind] in Hparse.
  destruct (Store.z_optional Store.FleetOsSchema _);
    cbn [Store.obind] in Hparse; [|discriminate].
  destruct (Store.z_optional Store.FleetArchSchema _);
    cbn [Store.obind] in Hparse; [|discriminate].
  destruct (Store.installed n) as [i|]; cbn [option_map Store.z_optional] in Hparse.
  - rewrite InstalledSchema_installed_to_json in Hparse.
    destruct (is_datetime (Store.installedAt i));
      cbn [Store.obind] in Hparse; [|discriminate].
    cbn [andb] in Hvalid.
    destruct (Store.lastSeen n) as [t|];
      cbn [option_map Store.z_optional Store.z_string] in Hparse; [|discriminate].
    rewrite Hvalid in Hparse. discriminate.
  - cbn [andb] in Hvalid.
    destruct (Store.lastSeen n) as [t|];
      cbn [option_map Store.z_optional Store.z_string Store.obind] in Hparse;
      [|discriminate].
    rewrite Hvalid in Hparse. discriminate.
Qed.

Lemma z_array_node_to_json ns :
  Store.z_array Store.FleetNodeSchema (map Store.node_to_json ns)
  = if forallb valid_node ns then Some ns else None.
Proof.
  induction ns as [|n ns IH]; [reflexivity|].
  cbn [map Store.z_array forallb]. rewrite FleetNodeSchema_node_to_json.
  destruct (valid_node n); cbn [Store.obind andb]; [|reflexivity].
  rewrite IH. now destruct (forallb valid_node ns).
Qed.

(** The inventory read from the file written for a store. *)
Lemma inventory_of_store_to_json s :
  inventory_of (JsonText (Some (Store.store_to_json s)))
  = if (Store.schemaVersion s =? 1)%Z && forallb valid_node (Store.nodes s)
    then s else Store.createEmptyFleetStore.
Proof.
  destruct s as [sv ns]. unfold inventory_of, Store.store_to_json.
  cbn [Store.schemaVersion Store.nodes].
  unfold Store.FleetStoreSchema_safeParse.
  assert (Hv : member (js "schemaVersion")
                 [(js "schemaVersion", JNum (Int sv));
                  (js "nodes", JArr (map Store.node_to_json ns))]
               = Some (JNum (Int sv))) by reflexivity.
  assert (Hn : member (js "nodes")
                 [(js "schemaVersion", JNum (Int sv));
                  (js "nodes", JArr (map Store.node_to_json ns))]
               = Some (JArr (map Store.node_to_json ns))) by reflexivity.
  rewrite Hv, Hn. cbn [Store.z_required Store.z_default].
  rewrite z_array_node_to_json.
  destruct sv as [|[p|p|]|p]; cbn [Store.obind Z.eqb Pos.eqb andb]; try reflexivity.
  now destruct (forallb valid_node ns).
Qed.

Lemma forallb_valid ns :
  Forall (fun n => valid_node n = true) ns -> forallb valid_node ns = true.
Proof. intros H. apply forallb_forall. now apply Forall_forall. Qed.

End WrittenInventory.

(** X2.  Round trip of the inventory file: [loadFleetStore] after
    [saveFleetStore] returns the store that was saved when its schema
    version is 1 and every record passes the checks of the node schema;
    otherwise, a single record that fails a check makes the whole file
    read as the empty inventory. *)
Theorem saveFleetStore_then_load `{RT : Runtime} (store : Store.FleetStore)
    (w : world) :
  exists w',
    Store.saveFleetStore store w = (Return tt, w')
    /\ Store.loadFleetStore w'
       = (Return (if (Store.schemaVersion store =? 1)%Z
                     && forallb valid_node (Store.nodes store)
                  then store else Store.createEmptyFleetStore), w').
Proof.
  eexists. split; [reflexivity|].
  rewrite loadFleetStore_eq. cbn [nodes_file set_nodes_file].
  now rewrite inventory_of_store_to_json.
Qed.

Section WriterFacts.
Context `{RT : Runtime}.

Lemma findIndex_split {A} (p : A -> bool) l i :
  Store.findIndex p l = Some i ->
  exists before a rest,
    l = before ++ a :: rest /\ List.length before = i /\ p a = true
    /\ find p before = None /\ find p l = Some a
    /\ Store.remove_nth l i = before ++ rest
    /\ nth_error l i = Some a
    /\ forall v, Store.set_nth l i v = before ++ v :: rest.
Proof.
  revert i. induction l as [|x l IH]; intros i; cbn [Store.findIndex]; [discriminate|].
  destruct (p x) eqn:Px.
  - intros E. injection E as <-. exists [], x, l. cbn. rewrite Px. repeat split.
  - destruct (Store.findIndex p l) as [k|]; [|discriminate].
    intros E. injection E as <-.
    destruct (IH k eq_refl) as (before & a & rest & -> & Hlen & Pa & Hb & Hf & Hr & Hn & Hs).
    exists (x :: before), a, rest. cbn [app List.length find Store.remove_nth nth_error].
    rewrite Px, Hlen, Hr. repeat split; auto.
    intros v. cbn [Store.set_nth]. now rewrite Hs.
Qed.

Lemma findIndex_None {A} (p : A -> bool) l :
  Store.findIndex p l = None <-> find p l = None.
Proof.
  rewrite findIndex_find. destruct (Store.findIndex p l) as [i|] eqn:E; [|tauto].
  destruct (findIndex_split p l i E) as (b & a & r & _ & _ & _ & _ & _ & _ & Hn & _).
  rewrite Hn. split; discriminate.
Qed.

(** What [removeNode] does. *)
Lemma removeNode_eq name w :
  Store.removeNode name w
  = match Store.findIndex (Store.same_name (Store.normalizeNodeName name))
                          (inventory w) with
    | None => (Return false, ensured w)
    | Some index =>
        (Return true,
         set_nodes_file
           (JsonText (Some (Store.store_to_json
              {| Store.schemaVersion := Store.schemaVersion (inventory_of (nodes_file w));
                 Store.nodes := Store.remove_nth (inventory w) index |})))
           (ensured w))
    end.
Proof.
  unfold Store.removeNode. rewrite locked_read. unfold inventory.
  destruct (Store.findIndex _ _); reflexivity.
Qed.

Lemma inventory_ensured w : inventory (ensured w) = inventory w.
Proof. unfold inventory. now rewrite inventory_of_ensured. Qed.

Lemma inventory_valid w : Forall (fun n => valid_node n = true) (inventory w).
Proof. exact (proj2 (inventory_of_valid (nodes_file w))). Qed.

(** The inventory read from a file that a writer has written. *)
Lemma inventory_written_any ns sv w' :
  nodes_file w'
  = JsonText (Some (Store.store_to_json
                      {| Store.schemaVersion := sv; Store.nodes := ns |})) ->
  sv = 1%Z ->
  inventory w' = if forallb valid_node ns then ns else [].
Proof.
  intros Hfile ->. unfold inventory. rewrite Hfile.
  rewrite inventory_of_store_to_json.
  cbn [Store.schemaVersion Store.nodes Z.eqb Pos.eqb andb].
  now destruct (forallb valid_node ns).
Qed.

Lemma inventory_written ns sv w' :
  nodes_file w'
  = JsonText (Some (Store.store_to_json
                      {| Store.schemaVersion := sv; Store.nodes := ns |})) ->
  sv = 1%Z ->
  Forall (fun n => valid_node n = true) ns ->
  inventory w' = ns.
Proof.
  intros Hfile Hsv Hns. rewrite (inventory_written_any ns sv w' Hfile Hsv).
  now rewrite (forallb_valid ns Hns).
Qed.

Lemma version_one w : Store.schemaVersion (inventory_of (nodes_file w)) = 1%Z.
Proof. exact (proj1 (inventory_of_valid (nodes_file w))). Qed.

Lemma Forall_app_drop {A} (P : A -> Prop) before a rest :
  Forall P (before ++ a :: rest) -> Forall P (before ++ rest).
Proof.
  intros H. apply Forall_app in H as [Hb Hr]. apply Forall_app. split; [exact Hb|].
  now inversion Hr.
Qed.

End WriterFacts.

(** X3.  [removeNode] removes the first record whose name matches up to
    case and returns true, keeping the other records in their order; when
    no record matches it returns false and the inventory reads as before.
    It spawns no process and leaves the known_hosts file alone. *)
Theorem removeNode_removes_first_match `{RT : Runtime} (name : jsstring) (w : world) :
  exists w',
    match find (Store.same_name (Store.normalizeNodeName name)) (inventory w) with
    | None =>
        Store.removeNode name w = (Return false, w') /\ inventory w' = inventory w
    | Some n =>
        Store.removeNode name w = (Return true, w')
        /\ exists before rest,
            inventory w = before ++ n :: rest
            /\ find (Store.same_name (Store.normalizeNodeName name)) before = None
            /\ inventory w' = before ++ rest
    end
    /\ spawned w' = spawned w
    /\ known_hosts_file w' = known_hosts_file w.
Proof.
  rewrite removeNode_eq.
  destruct (Store.findIndex (Store.same_name (Store.normalizeNodeName name))
                            (inventory w)) as [i|] eqn:Hi.
  - destruct (findIndex_split _ _ _ Hi)
      as (before & a & rest & Hl & _ & _ & Hb & Hf & Hr & _ & _).
    rewrite Hf. eexists. split; [split; [reflexivity|]|].
    + exists before, rest. split; [exact Hl|]. split; [exact Hb|].
      rewrite Hr. eapply inventory_written; [reflexivity|apply version_one|].
      apply (Forall_app_drop _ before a rest). rewrite <- Hl. apply inventory_valid.
    + unfold ensured. destruct (nodes_file w); split; reflexivity.
  - apply findIndex_None in Hi. rewrite Hi. eexists.
    split; [split; [reflexivity|apply inventory_ensured]|].
    unfold ensured. destruct (nodes_file w); split; reflexivity.
Qed.

Section AddRemove.
Context `{RT : Runtime}.

Lemma accepts_name input :
  accepts input = true -> Store.nodeNameRegex_test (Store.add_name input) = true.
Proof.
  unfold accepts. intros H. repeat (apply andb_true_iff in H as [H ?]). assumption.
Qed.

(** The record that [addNode] appends is compared under the name that was
    looked up. *)
Lemma new_node_key input uuid :
  accepts input = true ->
  key_of (new_node input uuid) = Store.normalizeNodeName (Store.add_name input).
Proof.
  intros Hacc. unfold key_of. cbn [new_node Store.name].
  destruct (regex_token _ (accepts_name input Hacc)) as [Htoken _].
  now rewrite (token_trim _ Htoken).
Qed.

(** What a successful [addNode] leaves behind. *)
Lemma addNode_appends input w node w1 :
  Store.addNode input w = (Return node, w1) ->
  accepts input = true
  /\ node = new_node input (uuids w (uuids_taken w))
  /\ find (Store.same_name (Store.normalizeNodeName (Store.add_name input)))
          (inventory w) = None
  /\ nodes_file w1
     = JsonText (Some (Store.store_to_json
                         {| Store.schemaVersion := 1;
                            Store.nodes := inventory w ++ [node] |}))
  /\ spawned w1 = spawned w
  /\ known_hosts_file w1 = known_hosts_file w.
Proof.
  intros Hadd. pose proof (addNode_accepts input w node w1 Hadd) as Hacc.
  rewrite (addNode_eq input w Hacc) in Hadd. fold (inventory w) in Hadd.
  destruct (find _ (inventory w)) eqn:Hfind; [discriminate|].
  cbv zeta in Hadd. injection Hadd as Hnode Hw1. rewrite version_one in Hw1.
  subst w1. cbn [nodes_file set_nodes_file spawned known_hosts_file take_uuid].
  rewrite Hnode. repeat split; auto.
  all: unfold ensured; now destruct (nodes_file w).
Qed.

Lemma find_none_forall {A} (p : A -> bool) l :
  find p l = None <-> Forall (fun x => p x = false) l.
Proof.
  induction l as [|x l IH]; cbn [find].
  - split; [constructor|reflexivity].
  - destruct (p x) eqn:Px.
    + split; [discriminate|]. intros H. inversion H; congruence.
    + rewrite IH. split; [now constructor|]. intros H. now inversion H.
Qed.

Lemma findIndex_app_last {A} (p : A -> bool) l x :
  find p l = None -> p x = true ->
  Store.findIndex p (l ++ [x]) = Some (List.length l)
  /\ Store.remove_nth (l ++ [x]) (List.length l) = l.
Proof.
  intros Hnone Hx. induction l as [|y l IH];
    cbn [app Store.findIndex Store.remove_nth List.length].
  - now rewrite Hx.
  - cbn [find] in Hnone. destruct (p y); [discriminate|].
    destruct (IH Hnone) as [-> ->]. split; reflexivity.
Qed.

End AddRemove.

(** X4.  [removeNode] undoes [addNode]: when [addNode] has returned a
    record that passes the checks of the node schema, [removeNode] under
    any case variant of the name returns true, and [listNodes] then
    returns the records that it returned before the node was added. *)
Theorem addNode_then_removeNode `{RT : Runtime} (input : Store.AddNodeInput)
    (w w1 : world) (node : Store.FleetNode) (variant : jsstring)
    (Hadd : Store.addNode input w = (Return node, w1))
    (Hvalid : valid_node node = true)
    (Hvariant : case_variant (Store.add_name input) variant) :
  exists nodes w2,
    Store.listNodes w = (Return nodes, w)
    /\ Store.listNodes w1 = (Return (nodes ++ [node]), w1)
    /\ Store.removeNode variant w1 = (Return true, w2)
    /\ Store.listNodes w2 = (Return nodes, w2).
Proof.
  destruct (addNode_appends input w node w1 Hadd)
    as (Hacc & Hnode & Hfind & Hfile & _ & _).
  assert (Hall : Forall (fun n => valid_node n = true) (inventory w ++ [node])).
  { apply Forall_app. split; [apply inventory_valid|]. now repeat constructor. }
  assert (Hinv1 : inventory w1 = inventory w ++ [node])
    by exact (inventory_written _ _ w1 Hfile eq_refl Hall).
  assert (Hnorm : Store.normalizeNodeName variant
                  = Store.normalizeNodeName (Store.add_name input))
    by exact (normalize_variant _ _ Hvariant (accepts_name input Hacc)).
  assert (Hsame : Store.same_name (Store.normalizeNodeName variant) node = true).
  { unfold Store.same_name. fold (key_of node). rewrite Hnode, Hnorm.
    rewrite (new_node_key input _ Hacc). apply str_eqb_refl. }
  rewrite <- Hnorm in Hfind.
  destruct (findIndex_app_last _ _ node Hfind Hsame) as [Hindex Hremoved].
  exists (inventory w). eexists.
  split; [apply listNodes_eq|]. split; [rewrite listNodes_eq; now fold (inventory w1); rewrite Hinv1|].
  rewrite removeNode_eq, Hinv1, Hindex, Hremoved.
  split; [reflexivity|].
  rewrite listNodes_eq. f_equal. f_equal.
  eapply inventory_written; [reflexivity|apply version_one|apply inventory_valid].
Qed.

Lemma addNode_then_removeNode_witness :
  exists node w1 nodes w2,
    Store.addNode (cli_input (js "edge-3") (js "10.0.0.3")) two_node_world
    = (Return node, w1)
    /\ Store.listNodes two_node_world = (Return nodes, two_node_world)
    /\ Store.listNodes w1 = (Return (nodes ++ [node]), w1)
    /\ Store.removeNode (js "EDGE-3") w1 = (Return true, w2)
    /\ Store.listNodes w2 = (Return nodes, w2).
Proof.
  assert (Hadd : Store.addNode (cli_input (js "edge-3") (js "10.0.0.3")) two_node_world
                 = (Return (new_node (cli_input (js "edge-3") (js "10.0.0.3"))
                              (uuids two_node_world (uuids_taken two_node_world))),
                    after (Store.addNode (cli_input (js "edge-3") (js "10.0.0.3")))
                          two_node_world))
    by (vm_compute; reflexivity).
  eexists. eexists.
  destruct (addNode_then_removeNode _ _ _ _ (js "EDGE-3") Hadd)
    as (nodes & w2 & H1 & H2 & H3 & H4); [reflexivity|reflexivity|].
  exists nodes, w2. repeat split; [exact Hadd|exact H1|exact H2|exact H3|exact H4].
Defined.

Section UpdateFacts.
Context `{RT : Runtime}.

Lemma updateNode_rejected name updates w :
  update_accepts updates = false ->
  exists e, Store.updateNode name updates w = (Throw e, w)
            /\ In e updateNode_rejections
            /\ first_failure (updateNode_checks updates) = Some e.
Proof.
  intros Hrej. unfold update_accepts in Hrej.
  unfold Store.updateNode, Store.validateHost, Store.validatePort,
    Store.Number_isInteger, bind, throw, ret, updateNode_rejections,
    first_failure, updateNode_checks.
  destruct (Store.upd_host updates) as [h|].
  - destruct (is_empty h || is_empty (trim h));
      [rejected_with_message|].
    destruct (startsWith (js "-") h);
      [rejected_with_message|].
    cbn [negb andb orb] in *.
    destruct (Store.upd_port updates) as [p|].
    + destruct ((p <? 1)%Z || (65535 <? p)%Z);
        [rejected_with_message|].
      cbn [negb andb] in *.
      destruct (Store.upd_user updates) as [u|]; [|discriminate].
      destruct (is_empty u || is_empty (trim u));
        [rejected_with_message|discriminate].
    + destruct (Store.upd_user updates) as [u|]; [|discriminate].
      destruct (is_empty u || is_empty (trim u));
        [rejected_with_message|discriminate].
  - cbn [negb andb orb] in *.
    destruct (Store.upd_port updates) as [p|].
    + destruct ((p <? 1)%Z || (65535 <? p)%Z);
        [rejected_with_message|].
      cbn [negb andb] in *.
      destruct (Store.upd_user updates) as [u|]; [|discriminate].
      destruct (is_empty u || is_empty (trim u));
        [rejected_with_message|discriminate].
    + destruct (Store.upd_user updates) as [u|]; [|discriminate].
      destruct (is_empty u || is_empty (trim u));
        [rejected_with_message|discriminate].
Qed.

(** What [updateNode] does with an update that passes its checks. *)
Lemma updateNode_eq name updates w :
  update_accepts updates = true ->
  Store.updateNode name updates w
  = match Store.findIndex (Store.same_name (Store.normalizeNodeName name))
                          (inventory w) with
    | None => (Return None, ensured w)
    | Some index =>
        match nth_error (inventory w) index with
        | None => (Return None, ensured w)
        | Some existing =>
            (Return (Some (Store.merge existing updates)),
             set_nodes_file
               (JsonText (Some (Store.store_to_json
                  {| Store.schemaVersion := 1;
                     Store.nodes := Store.set_nth (inventory w) index
                                      (Store.merge existing updates) |})))
               (ensured w))
        end
    end.
Proof.
  intros Hacc. unfold update_accepts in Hacc.
  apply andb_true_iff in Hacc as [Hacc Huser]. apply andb_true_iff in Hacc as [Hhost Hport].
  unfold Store.updateNode.
  rewrite (bind_eq _ _ w tt w).
  2:{ destruct (Store.upd_host updates) as [h|]; [|reflexivity].
      rewrite validateHost_eq. now rewrite Hhost. }
  rewrite (bind_eq _ _ w tt w).
  2:{ destruct (Store.upd_port updates) as [p|]; [|reflexivity].
      rewrite validatePort_eq. now rewrite Hport. }
  rewrite (bind_eq _ _ w tt w).
  2:{ destruct (Store.upd_user updates) as [u|]; [|reflexivity].
      apply negb_true_iff in Huser. now rewrite Huser. }
  rewrite updateNode_checked. cbv zeta. fold (inventory w). rewrite version_one.
  reflexivity.
Qed.

Lemma merge_key existing updates : key_of (Store.merge existing updates) = key_of existing.
Proof. reflexivity. Qed.

End UpdateFacts.

(** X5.  [updateNode] without effect: an update that fails a check makes
    it throw the message of the first check that it fails, in the order
    host blank, host with a leading dash, port, user (a field that the
    update leaves out is not checked), and leaves the world as it was; an
    update that passes the checks for a name that no record has returns
    null, and the inventory reads as before. *)
Theorem updateNode_without_effect `{RT : Runtime} (name : jsstring)
    (updates : Store.UpdateNodeInput) (w : world) :
  (update_accepts updates = false ->
   exists e, Store.updateNode name updates w = (Throw e, w)
             /\ In e updateNode_rejections
             /\ first_failure (updateNode_checks updates) = Some e)
  /\ (update_accepts updates = true ->
      Store.getNode name w = (Return None, w) ->
      exists w', Store.updateNode name updates w = (Return None, w')
                 /\ Store.listNodes w' = (Return (inventory w), w')
                 /\ spawned w' = spawned w
                 /\ known_hosts_file w' = known_hosts_file w).
Proof.
  split; [apply updateNode_rejected|].
  intros Hacc Hget. rewrite getNode_eq in Hget. injection Hget as Hfind.
  fold (inventory w) in Hfind. apply findIndex_None in Hfind.
  rewrite (updateNode_eq name updates w Hacc), Hfind.
  eexists. split; [reflexivity|]. rewrite listNodes_eq. fold (inventory (ensured w)).
  rewrite inventory_ensured. split; [reflexivity|].
  unfold ensured. destruct (nodes_file w); split; reflexivity.
Qed.

Lemma updateNode_without_effect_witness :
  Store.updateNode (js "edge-1")
    {| Store.upd_host := Some (js "-oProxyCommand=x");
       Store.upd_port := None; Store.upd_user := None;
       Store.upd_trusted := None; Store.upd_hostKey := None;
       Store.upd_tags := None; Store.upd_os := None;
       Store.upd_arch := None; Store.upd_installed := None;
       Store.upd_lastSeen := None; Store.upd_serviceStatus := None |}
    two_node_world
  = (Throw (js "Host cannot start with '-' (security)"), two_node_world)
  /\ exists w', Store.updateNode (js "edge-9") port_update two_node_world
                = (Return None, w')
                /\ Store.listNodes w' = (Return (inventory two_node_world), w').
Proof.
  split.
  - match goal with
    | |- Store.updateNode _ ?u _ = _ =>
        destruct (proj1 (updateNode_without_effect (js "edge-1") u two_node_world)
                    eq_refl) as (e & Hthrow & _ & Hfirst)
    end.
    injection Hfirst as <-. exact Hthrow.
  - destruct (proj2 (updateNode_without_effect (js "edge-9") port_update two_node_world))
      as (w' & H1 & H2 & _); [reflexivity|vm_compute; reflexivity|].
    exists w'. split; [exact H1|exact H2].
Defined.

Section UniqueNames.
Context `{RT : Runtime}.

Lemma unique_names_if (ns : list Store.FleetNode) :
  unique_names ns -> unique_names (if forallb valid_node ns then ns else []).
Proof. intros H. destruct (forallb valid_node ns); [exact H|constructor]. Qed.

Lemma unique_names_drop before a rest :
  unique_names (before ++ a :: rest) -> unique_names (before ++ rest).
Proof.
  unfold unique_names. rewrite !map_app. cbn [map]. apply NoDup_remove_1.
Qed.

Lemma unique_names_append ns node :
  unique_names ns ->
  find (Store.same_name (key_of node)) ns = None ->
  unique_names (ns ++ [node]).
Proof.
  unfold unique_names. intros Hns Hfind. rewrite map_app. cbn [map].
  apply NoDup_app_remove_l with (l := []). cbn [app].
  apply (NoDup_Add (a := key_of node) (l := map key_of ns)).
  - replace (map key_of ns ++ [key_of node]) with (map key_of ns ++ key_of node :: [])
      by reflexivity.
    rewrite <- (app_nil_r (map key_of ns)) at 1. apply Add_app.
  - split; [exact Hns|]. intros Hin. apply in_map_iff in Hin as (n & Hkey & Hn).
    apply find_none_forall in Hfind. rewrite Forall_forall in Hfind.
    specialize (Hfind n Hn). unfold Store.same_name in Hfind. fold (key_of n) in Hfind.
    rewrite Hkey, str_eqb_refl in Hfind. discriminate.
Qed.

End UniqueNames.

(** X6.  The three writers keep the names of the inventory unique up to
    case: when no two records of the inventory have the same name up to
    case, the same holds of the inventory read after [addNode],
    [removeNode] or [updateNode], whatever their arguments and whether
    they return or throw. *)
Theorem store_writers_keep_names_unique `{RT : Runtime} (w : world)
    (Hunique : unique_names (inventory w)) :
  (forall input, unique_names (inventory (after (Store.addNode input) w)))
  /\ (forall name, unique_names (inventory (after (Store.removeNode name) w)))
  /\ (forall name updates,
         unique_names (inventory (after (Store.updateNode name updates) w))).
Proof.
  split; [|split].
  - intros input. unfold after. destruct (accepts input) eqn:Hacc.
    + rewrite (addNode_eq input w Hacc). fold (inventory w).
      destruct (find _ (inventory w)) eqn:Hfind; cbn [snd].
      * now rewrite inventory_ensured.
      * cbv zeta. cbn [snd].
        erewrite inventory_written_any; [|reflexivity|apply version_one].
        apply unique_names_if. apply unique_names_append; [exact Hunique|].
        now rewrite (new_node_key input _ Hacc).
    + destruct (addNode_rejected input w Hacc) as (e & -> & _). exact Hunique.
  - intros name. unfold after. rewrite removeNode_eq.
    destruct (Store.findIndex _ (inventory w)) as [i|] eqn:Hi; cbn [snd].
    + destruct (findIndex_split _ _ _ Hi) as (before & a & rest & Hl & _ & _ & _ & _ & Hr & _).
      erewrite inventory_written_any; [|reflexivity|apply version_one].
      apply unique_names_if. rewrite Hr. apply (unique_names_drop before a rest).
      now rewrite <- Hl.
    + now rewrite inventory_ensured.
  - intros name updates. unfold after. destruct (update_accepts updates) eqn:Hacc.
    + rewrite (updateNode_eq name updates w Hacc).
      destruct (Store.findIndex _ (inventory w)) as [i|] eqn:Hi; cbn [snd].
      * destruct (findIndex_split _ _ _ Hi)
          as (before & a & rest & Hl & _ & _ & _ & _ & _ & Hn & Hs).
        rewrite Hn. cbn [snd].
        erewrite inventory_written_any; [|reflexivity|reflexivity].
        apply unique_names_if. rewrite Hs.
        unfold unique_names in *. rewrite Hl in Hunique.
        rewrite map_app in *. cbn [map] in *. now rewrite merge_key.
      * now rewrite inventory_ensured.
    + destruct (updateNode_rejected name updates w Hacc) as (e & -> & _). exact Hunique.
Qed.

Lemma store_writers_keep_names_unique_witness :
  unique_names (inventory two_node_world)
  /\ unique_names
       (inventory (after (Store.addNode (cli_input (js "Edge-1") (js "10.0.0.9")))
                         two_node_world)).
Proof.
  assert (H : unique_names (inventory two_node_world)).
  { unfold unique_names.
    replace (map key_of (inventory two_node_world)) with [js "edge-1"; js "edge-2"]
      by (vm_compute; reflexivity).
    constructor; [cbn [In]; intros [E|[]]; discriminate|].
    constructor; [intros []|constructor]. }
  split; [exact H|].
  apply (proj1 (store_writers_keep_names_unique two_node_world H)).
Defined.

(** ** Executor: dry runs and the commands of a step *)

Lemma call_onProgress_eq options step s w :
  Executor.call_onProgress options step s w
  = (Return tt,
     if Executor.onProgress options
     then record_progress (PlanBuilder.id step, Executor.status_name s) w
     else w).
Proof.
  unfold Executor.call_onProgress. now destruct (Executor.onProgress options).
Qed.

(** A dry run of the loop touches nothing but the progress callback. *)
Lemma run_steps_dry plan options timeoutMs startTime todo done_ w :
  exists w',
    Executor.run_steps plan options true timeoutMs startTime todo done_ w
    = (Return (inl (done_ ++ map (dry_result (PlanBuilder.nodeInfo plan)) todo)), w')
    /\ nodes_file w' = nodes_file w
    /\ known_hosts_file w' = known_hosts_file w
    /\ spawned w' = spawned w
    /\ clock w' = clock w
    /\ progress w'
       = progress w
         ++ (if Executor.onProgress options
             then flat_map (dry_progress (PlanBuilder.nodeInfo plan)) todo
             else []).
Proof.
  revert done_ w. induction todo as [|step rest IH]; intros done_ w.
  - exists w. cbn [Executor.run_steps map flat_map]. rewrite !app_nil_r.
    destruct (Executor.onProgress options); rewrite ?app_nil_r; repeat split.
  - cbn [Executor.run_steps map flat_map]. unfold dry_result at 1, dry_progress at 1.
    destruct (Executor.shouldSkip step (PlanBuilder.nodeInfo plan)).
    + rewrite (bind_eq _ _ _ _ _ (call_onProgress_eq options step PlanBuilder.Skipped w)).
      match goal with
      | |- context [Executor.run_steps _ _ _ _ _ rest ?d ?w0] =>
          destruct (IH d w0) as (w' & Hrun & Hn & Hk & Hs & Hc & Hp)
      end.
      exists w'. rewrite Hrun, <- app_assoc. split; [reflexivity|].
      destruct (Executor.onProgress options);
        cbn [nodes_file known_hosts_file spawned clock progress record_progress] in *;
        repeat split; try assumption.
      rewrite Hp, <- app_assoc. reflexivity.
    + rewrite (bind_eq _ _ _ _ _ (call_onProgress_eq options step PlanBuilder.StepRunning w)).
      match goal with
      | |- context [bind (Executor.call_onProgress _ _ _) _ ?w0] =>
          rewrite (bind_eq _ _ _ _ _
                     (call_onProgress_eq options step PlanBuilder.Success w0))
      end.
      match goal with
      | |- context [Executor.run_steps _ _ _ _ _ rest ?d ?w0] =>
          destruct (IH d w0) as (w' & Hrun & Hn & Hk & Hs & Hc & Hp)
      end.
      exists w'. rewrite Hrun, <- app_assoc. split; [reflexivity|].
      destruct (Executor.onProgress options);
        cbn [nodes_file known_hosts_file spawned clock progress record_progress] in *;
        repeat split; try assumption.
      rewrite Hp, <- !app_assoc. reflexivity.
Qed.

(** What a dry run of [executeBootstrapPlan] returns and leaves behind. *)
Lemma executeBootstrapPlan_dry `{RT : Runtime}
    (plan : PlanBuilder.BootstrapPlan) (options : Executor.ExecuteOptions)
    (w : world) (Hdry : effective_dryRun options = true) :
  exists total w',
    Executor.executeBootstrapPlan plan options w
    = (Return {| Executor.node := PlanBuilder.node plan;
                 Executor.success := true;
                 Executor.stepResults :=
                   map (dry_result (PlanBuilder.nodeInfo plan)) (PlanBuilder.steps plan);
                 Executor.installedVersion := Some (PlanBuilder.targetVersion plan);
                 Executor.totalDurationMs := total;
                 Executor.resultError := None |}, w')
    /\ spawned w' = spawned w
    /\ nodes_file w' = nodes_file w
    /\ known_hosts_file w' = known_hosts_file w
    /\ progress w'
       = progress w
         ++ (if Executor.onProgress options
             then flat_map (dry_progress (PlanBuilder.nodeInfo plan))
                           (PlanBuilder.steps plan)
             else []).
Proof.
  unfold effective_dryRun in Hdry. unfold Executor.executeBootstrapPlan.
  destruct (Executor.dryRun options) as [d|]; [|discriminate]. subst d.
  unfold bind at 1. unfold Date_now at 1.
  match goal with
  | |- context [Executor.run_steps plan options true ?t ?s ?todo []] =>
      destruct (run_steps_dry plan options t s todo [] w)
        as (w' & Hrun & Hn & Hk & Hs & Hc & Hp)
  end.
  eexists. exists w'. rewrite (bind_eq _ _ _ _ _ Hrun). cbn [app negb].
  unfold bind, Date_now, ret.
  repeat split; assumption.
Qed.

(** X8.  A dry run executes nothing: with [dryRun] set,
    [executeBootstrapPlan] spawns no process and leaves the inventory and
    the known_hosts file as they are; it returns success with the target
    version as installed version, one result per step in plan order
    (skipped where the step's skip rule holds, otherwise success with the
    output "[DRY RUN] Commands not executed"), and it reports each step
    to the progress callback as skipped, or as running and then
    success. *)
Theorem executeBootstrapPlan_dry_run `{RT : Runtime}
    (plan : PlanBuilder.BootstrapPlan) (options : Executor.ExecuteOptions)
    (w : world) (Hdry : effective_dryRun options = true) :
  exists total w',
    Executor.executeBootstrapPlan plan options w
    = (Return {| Executor.node := PlanBuilder.node plan;
                 Executor.success := true;
                 Executor.stepResults :=
                   map (dry_result (PlanBuilder.nodeInfo plan)) (PlanBuilder.steps plan);
                 Executor.installedVersion := Some (PlanBuilder.targetVersion plan);
                 Executor.totalDurationMs := total;
                 Executor.resultError := None |}, w')
    /\ spawned w' = spawned w
    /\ nodes_file w' = nodes_file w
    /\ known_hosts_file w' = known_hosts_file w
    /\ progress w'
       = progress w
         ++ (if Executor.onProgress options
             then flat_map (dry_progress (PlanBuilder.nodeInfo plan))
                           (PlanBuilder.steps plan)
             else []).
Proof. exact (executeBootstrapPlan_dry plan options w Hdry). Qed.

Lemma executeBootstrapPlan_dry_run_witness :
  effective_dryRun dry_run = true
  /\ exists r w',
      Executor.executeBootstrapPlan edge1_plan dry_run edge1_stuck_world
      = (Return r, w')
      /\ Executor.success r = true
      /\ map Executor.status (Executor.stepResults r)
         = [PlanBuilder.Skipped; PlanBuilder.Success; PlanBuilder.Success;
            PlanBuilder.Success; PlanBuilder.Success; PlanBuilder.Success]
      /\ spawned w' = []
      /\ nodes_file w' = nodes_file edge1_stuck_world.
Proof.
  split; [reflexivity|].
  destruct (executeBootstrapPlan_dry_run edge1_plan dry_run edge1_stuck_world eq_refl)
    as (total & w' & Hrun & Hs & Hn & _).
  eexists. exists w'. split; [exact Hrun|].
  split; [reflexivity|]. split; [reflexivity|]. split; [exact Hs|exact Hn].
Defined.

(** X9.  [executeStep] sends the commands of a step in their order, each
    in an ssh process of its own, and stops after the first command that
    does not exit with code 0 before the timeout: the commands after it
    are never sent.  The step succeeds exactly when every command was sent
    and exited with 0; its output is the concatenated output of the
    commands that ran.  (The host does not begin with ['-'].) *)
Theorem executeStep_stops_at_first_failure (node : Store.FleetNode)
    (step : PlanBuilder.BootstrapStep) (path : jsstring) (timeoutMs : Z) (w : world)
    (Hhost : startsWith (js "-") (Store.host node) = false) :
  exists sr w' calls rest,
    Executor.executeStep node step path timeoutMs w = (Return sr, w')
    /\ spawned w' = spawned w ++ calls
    /\ Forall (fun c => spawn_file c = js "/usr/bin/ssh") calls
    /\ PlanBuilder.commands step = map sent_command calls ++ rest
    /\ Executor.stdout sr
       = List.concat (map (fun i => child_stdout (next_child w i))
                     (seq 0 (List.length calls)))
    /\ (forall i, (S i < List.length calls)%nat -> child_ok (next_child w i) = true)
    /\ ((Executor.status sr = PlanBuilder.Success /\ rest = []
         /\ forall i, (i < List.length calls)%nat -> child_ok (next_child w i) = true)
        \/ (Executor.status sr = PlanBuilder.Failed
            /\ exists i, List.length calls = S i
                         /\ child_ok (next_child w i) = false))
    /\ nodes_file w' = nodes_file w.
Proof.
  unfold Executor.executeStep, bind at 1, Date_now at 1.
  destruct (run_commands_sends node step path timeoutMs (clock w)
              (PlanBuilder.commands step) [] [] w Hhost)
    as (sr & w' & calls & rest & H1 & H2 & H3 & H4 & H5 & H6 & H7 & H8 & _).
  exists sr, w', calls, rest. repeat (split; [assumption|]). assumption.
Qed.

Lemma executeStep_stops_at_first_failure_witness :
  startsWith (js "-") (Store.host (sample_node (js "edge-1"))) = false
  /\ exists sr w' calls rest,
      Executor.executeStep (sample_node (js "edge-1")) PlanBuilder.create_config_dir_step
        (js "/k") 1000 edge1_stuck_world = (Return sr, w')
      /\ spawned w' = spawned edge1_stuck_world ++ calls
      /\ PlanBuilder.commands PlanBuilder.create_config_dir_step
         = map sent_command calls ++ rest
      /\ List.length calls = 1%nat
      /\ rest = [js "chmod 700 ~/.openclaw"].
Proof.
  split; [reflexivity|].
  destruct (executeStep_stops_at_first_failure (sample_node (js "edge-1"))
              PlanBuilder.create_config_dir_step (js "/k") 1000 edge1_stuck_world
              eq_refl)
    as (sr & w' & calls & rest & Hrun & Hsp & _ & Hcmds & _ & Hbefore & _).
  exists sr, w', calls, rest. split; [exact Hrun|]. split; [exact Hsp|].
  split; [exact Hcmds|].
  assert (Hlen : List.length calls = 1%nat).
  { destruct calls as [|c1 [|c2 more]]; [| reflexivity |].
    - vm_compute in Hrun. injection Hrun as _ Hw.
      apply (f_equal spawned) in Hw. cbn [spawned] in Hw.
      rewrite Hsp in Hw. discriminate Hw.
    - specialize (Hbefore O). cbn [List.length] in Hbefore.
      assert (Hlt : (1 < S (S (List.length more)))%nat) by lia.
      specialize (Hbefore Hlt). discriminate Hbefore. }
  split; [exact Hlen|].
  destruct calls as [|c1 [|c2 more]]; try discriminate Hlen.
  cbn [map app PlanBuilder.commands PlanBuilder.create_config_dir_step] in Hcmds.
  now injection Hcmds as _ <-.
Defined.

(** ** Diagnostics: the probe of a node *)

(** What [runNodeDiagnostics] returns and leaves behind. *)
Lemma runNodeDiagnostics_effect `{RT : Runtime} (node : Store.FleetNode)
    (timeoutMs : Z) (path : jsstring) (w : world) :
  exists d w',
    Diagnostics.runNodeDiagnostics node timeoutMs path w = (Return d, w')
    /\ nodes_file w' = nodes_file w
    /\ (spawned w' = spawned w
        \/ exists call, spawned w' = spawned w ++ [call]
                        /\ spawn_file call = js "/usr/bin/ssh"
                        /\ sent_command call = Diagnostics.diagCommand)
    /\ Diagnostics.name d = Store.name node
    /\ Diagnostics.host d = Store.host node
    /\ Diagnostics.serviceRunning d
       = Diagnostics.is_running (Diagnostics.serviceStatus d)
    /\ (Diagnostics.online d = true ->
        Diagnostics.error d = None
        /\ Diagnostics.lastSeen d = Some (toISOString (clock w'))
        /\ Diagnostics.latencyMs d = Some (clock w' - clock w)%Z)
    /\ (Diagnostics.online d = false ->
        Diagnostics.error d <> None
        /\ Diagnostics.serviceStatus d = Store.StatusUnknown
        /\ Diagnostics.version d = None
        /\ Diagnostics.uptime d = None
        /\ Diagnostics.lastSeen d = Store.lastSeen node).
Proof.
  unfold Diagnostics.runNodeDiagnostics, bind at 1, Date_now at 1, try_catch.
  match goal with
  | |- context [Transport.sshExec ?o] => set (opts := o)
  end.
  assert (Hexec : exists r w1,
             Transport.sshExec opts w = (Return r, w1)
             /\ nodes_file w1 = nodes_file w
             /\ (spawned w1 = spawned w
                 \/ exists call, spawned w1 = spawned w ++ [call]
                                 /\ spawn_file call = js "/usr/bin/ssh"
                                 /\ sent_command call = Diagnostics.diagCommand)).
  { unfold Transport.sshExec. destruct (startsWith (js "-") (Transport.host opts)).
    - eexists. exists w. split; [reflexivity|]. repeat split. now left.
    - unfold bind, spawn_and_wait.
      destruct (children w (List.length (spawned w)));
        (eexists; eexists; split; [reflexivity|]; repeat split;
         right; eexists; repeat split). }
  destruct Hexec as (r & w1 & Hexec & Hn & Hs).
  rewrite (bind_eq _ _ _ _ _ Hexec). unfold bind at 1, Date_now at 1.
  destruct (Transport.timedOut r).
  { eexists. exists w1. split; [reflexivity|]. unfold Diagnostics.offline.
    cbn [Diagnostics.name Diagnostics.host Diagnostics.online Diagnostics.error
         Diagnostics.serviceRunning Diagnostics.serviceStatus Diagnostics.version
         Diagnostics.uptime Diagnostics.lastSeen Diagnostics.latencyMs
         Diagnostics.is_running].
    repeat split; auto; try discriminate. }
  destruct (negb (Executor.exited_zero (Transport.exitCode r))
            && negb (includes (js "DIAG_START") (Transport.stdout r))).
  { eexists. exists w1. split; [reflexivity|]. unfold Diagnostics.offline.
    cbn [Diagnostics.name Diagnostics.host Diagnostics.online Diagnostics.error
         Diagnostics.serviceRunning Diagnostics.serviceStatus Diagnostics.version
         Diagnostics.uptime Diagnostics.lastSeen Diagnostics.latencyMs
         Diagnostics.is_running].
    repeat split; auto; try discriminate. }
  unfold bind, Date_now, ret. eexists. exists w1. split; [reflexivity|].
  cbn [Diagnostics.name Diagnostics.host Diagnostics.online Diagnostics.error
       Diagnostics.serviceRunning Diagnostics.serviceStatus Diagnostics.version
       Diagnostics.uptime Diagnostics.lastSeen Diagnostics.latencyMs].
  repeat split; auto; try discriminate.
Qed.

(** X10.  [runNodeDiagnostics] is a read-only probe with a coherent
    result.  It always returns; it leaves the inventory as it is and
    spawns at most one process, an ssh process that runs the diagnostics
    script.  The result names the node
    and its host, and its service is reported running exactly when its
    service status is "running".  An online result has no error, the
    current time as last contact and the elapsed time as latency; an
    offline result has an error, service status "unknown", no version, no
    uptime, and the last contact that the node record had. *)
Theorem runNodeDiagnostics_probe `{RT : Runtime} (node : Store.FleetNode)
    (timeoutMs : Z) (path : jsstring) (w : world) :
  exists d w',
    Diagnostics.runNodeDiagnostics node timeoutMs path w = (Return d, w')
    /\ nodes_file w' = nodes_file w
    /\ (spawned w' = spawned w
        \/ exists call, spawned w' = spawned w ++ [call]
                        /\ spawn_file call = js "/usr/bin/ssh"
                        /\ sent_command call = Diagnostics.diagCommand)
    /\ Diagnostics.name d = Store.name node
    /\ Diagnostics.host d = Store.host node
    /\ Diagnostics.serviceRunning d
       = Diagnostics.is_running (Diagnostics.serviceStatus d)
    /\ (Diagnostics.online d = true ->
        Diagnostics.error d = None
        /\ Diagnostics.lastSeen d = Some (toISOString (clock w'))
        /\ Diagnostics.latencyMs d = Some (clock w' - clock w)%Z)
    /\ (Diagnostics.online d = false ->
        Diagnostics.error d <> None
        /\ Diagnostics.serviceStatus d = Store.StatusUnknown
        /\ Diagnostics.version d = None
        /\ Diagnostics.uptime d = None
        /\ Diagnostics.lastSeen d = Store.lastSeen node).
Proof. exact (runNodeDiagnostics_effect node timeoutMs path w). Qed.

(** X11.  A node that cannot be reached.  When the host of the record
    begins with ['-'], [runNodeDiagnostics] reports the node offline with
    the error "Host cannot start with '-' (security)" and spawns nothing;
    when the ssh process is still running at the timeout, it reports the
    node offline with the error "Connection timed out" and without a
    latency.  In both cases the inventory is left as it is. *)
Theorem runNodeDiagnostics_unreachable `{RT : Runtime} (node : Store.FleetNode)
    (timeoutMs : Z) (path : jsstring) (w : world) :
  (startsWith (js "-") (Store.host node) = true ->
   exists latency w',
     Diagnostics.runNodeDiagnostics node timeoutMs path w
     = (Return (Diagnostics.offline node (js "Host cannot start with '-' (security)")
                  (Some latency)), w')
     /\ spawned w' = spawned w
     /\ nodes_file w' = nodes_file w)
  /\ (startsWith (js "-") (Store.host node) = false ->
      forall out err,
        next_child w 0 = Hangs out err ->
        exists w',
          Diagnostics.runNodeDiagnostics node timeoutMs path w
          = (Return (Diagnostics.offline node (js "Connection timed out") None), w')
          /\ nodes_file w' = nodes_file w).
Proof.
  split.
  - intros Hdash. eexists. exists w. split; [|split; reflexivity].
    unfold Diagnostics.runNodeDiagnostics, bind at 1, Date_now at 1, try_catch.
    unfold Transport.sshExec. cbn [Transport.host]. rewrite Hdash.
    unfold bind, ret, Date_now.
    cbn [Transport.timedOut Transport.exitCode Transport.stdout Transport.stderr
         Executor.exited_zero Z.eqb negb includes startsWith andb orb].
    unfold Executor.or_else. cbn [is_empty js]. reflexivity.
  - intros Hhost out err Hchild. unfold next_child in Hchild.
    rewrite Nat.add_0_r in Hchild.
    unfold Diagnostics.runNodeDiagnostics, bind at 1, Date_now at 1, try_catch.
    unfold Transport.sshExec. cbn [Transport.host]. rewrite Hhost.
    unfold bind, spawn_and_wait. rewrite Hchild.
    cbn [Transport.timedOut ret Date_now]. eexists. split; reflexivity.
Qed.

Lemma runNodeDiagnostics_unreachable_witness :
  next_child edge1_stuck_world 0 = Hangs [] []
  /\ exists w',
      Diagnostics.runNodeDiagnostics (sample_node (js "edge-1")) 15000 (js "/k")
        edge1_stuck_world
      = (Return (Diagnostics.offline (sample_node (js "edge-1"))
                   (js "Connection timed out") None), w')
      /\ nodes_file w' = nodes_file edge1_stuck_world.
Proof.
  split; [reflexivity|].
  destruct (proj2 (runNodeDiagnostics_unreachable (sample_node (js "edge-1")) 15000
                     (js "/k") edge1_stuck_world) eq_refl [] [] eq_refl)
    as (w' & Hrun & Hfile).
  exists w'. split; [exact Hrun|exact Hfile].
Defined.

(** X12.  [formatUptimeMs] rounds down to its smaller unit.  For a whole
    number of milliseconds that is not negative (and below 2^53, so that
    the divisions of the doubles are those of the integers), the text is
    one of
    "<d>d <h>h", "<h>h <m>m", "<m>m <s>s" and "<s>s"; the larger unit is
    positive and the smaller one below 24, 60 and 60; and the uptime lies
    between the time that the text shows and that time plus one of the
    smaller unit. *)
Theorem formatUptimeMs_rounds_down (ms : Z) (Hms : (0 <= ms < 2 ^ 53)%Z) :
  exists major minor : Z,
    (0 <= minor)%Z
    /\ ((Diagnostics.formatUptimeMs (Int ms)
         = show major ++ js "d " ++ show minor ++ js "h"
         /\ (0 < major)%Z /\ (minor < 24)%Z
         /\ (major * 86400000 + minor * 3600000 <= ms
             < major * 86400000 + (minor + 1) * 3600000)%Z)
        \/ (Diagnostics.formatUptimeMs (Int ms)
            = show major ++ js "h " ++ show minor ++ js "m"
            /\ (0 < major < 24)%Z /\ (minor < 60)%Z
            /\ (major * 3600000 + minor * 60000 <= ms
                < major * 3600000 + (minor + 1) * 60000)%Z)
        \/ (Diagnostics.formatUptimeMs (Int ms)
            = show major ++ js "m " ++ show minor ++ js "s"
            /\ (0 < major < 60)%Z /\ (minor < 60)%Z
            /\ (major * 60000 + minor * 1000 <= ms
                < major * 60000 + (minor + 1) * 1000)%Z)
        \/ (Diagnostics.formatUptimeMs (Int ms) = show major ++ js "s"
            /\ minor = 0%Z /\ (0 <= major < 60)%Z
            /\ (major * 1000 <= ms < (major + 1) * 1000)%Z)).
Proof.
  unfold Diagnostics.formatUptimeMs, Diagnostics.formatUptimeMs_finite. cbv zeta.
  set (seconds := (ms / 1000)%Z).
  set (minutes := (seconds / 60)%Z).
  set (hours := (minutes / 60)%Z).
  set (days := (hours / 24)%Z).
  assert (Hs : (0 <= seconds)%Z) by (apply Z.div_pos; lia).
  assert (Hm : (0 <= minutes)%Z) by (apply Z.div_pos; lia).
  assert (Hh : (0 <= hours)%Z) by (apply Z.div_pos; lia).
  assert (Es : (ms = 1000 * seconds + ms mod 1000)%Z) by (apply Z.div_mod; lia).
  assert (Em : (seconds = 60 * minutes + seconds mod 60)%Z) by (apply Z.div_mod; lia).
  assert (Eh : (minutes = 60 * hours + minutes mod 60)%Z) by (apply Z.div_mod; lia).
  assert (Ed : (hours = 24 * days + hours mod 24)%Z) by (apply Z.div_mod; lia).
  pose proof (Z.mod_pos_bound ms 1000 ltac:(lia)) as Bs.
  pose proof (Z.mod_pos_bound seconds 60 ltac:(lia)) as Bm.
  pose proof (Z.mod_pos_bound minutes 60 ltac:(lia)) as Bh.
  pose proof (Z.mod_pos_bound hours 24 ltac:(lia)) as Bd.
  rewrite (Z.rem_mod_nonneg hours 24), (Z.rem_mod_nonneg minutes 60),
    (Z.rem_mod_nonneg seconds 60) by lia.
  generalize dependent (ms mod 1000)%Z. generalize dependent (seconds mod 60)%Z.
  generalize dependent (minutes mod 60)%Z. generalize dependent (hours mod 24)%Z.
  intros rh Ed Bd rm Eh Bh rs Em Bm rms Es Bs.
  destruct (Z.ltb_spec 0 days).
  { exists days, rh. split; [lia|]. left. split; [reflexivity|]. lia. }
  destruct (Z.ltb_spec 0 hours).
  { exists hours, rm. split; [lia|]. right. left. split; [reflexivity|]. lia. }
  destruct (Z.ltb_spec 0 minutes).
  { exists minutes, rs. split; [lia|]. right. right. left. split; [reflexivity|]. lia. }
  exists seconds, 0%Z. split; [lia|]. right. right. right. split; [reflexivity|]. lia.
Qed.

Lemma formatUptimeMs_rounds_down_witness :
  (0 <= 93784005 < 2 ^ 53)%Z
  /\ Diagnostics.formatUptimeMs (Int 93784005) = js "1d 2h"
  /\ exists major minor : Z,
      (0 <= minor)%Z
      /\ ((Diagnostics.formatUptimeMs (Int 93784005)
           = show major ++ js "d " ++ show minor ++ js "h"
           /\ (0 < major)%Z /\ (minor < 24)%Z
           /\ (major * 86400000 + minor * 3600000 <= 93784005
               < major * 86400000 + (minor + 1) * 3600000)%Z)
          \/ (Diagnostics.formatUptimeMs (Int 93784005)
              = show major ++ js "h " ++ show minor ++ js "m"
              /\ (0 < major < 24)%Z /\ (minor < 60)%Z
              /\ (major * 3600000 + minor * 60000 <= 93784005
                  < major * 3600000 + (minor + 1) * 60000)%Z)
          \/ (Diagnostics.formatUptimeMs (Int 93784005)
              = show major ++ js "m " ++ show minor ++ js "s"
              /\ (0 < major < 60)%Z /\ (minor < 60)%Z
              /\ (major * 60000 + minor * 1000 <= 93784005
                  < major * 60000 + (minor + 1) * 1000)%Z)
          \/ (Diagnostics.formatUptimeMs (Int 93784005) = show major ++ js "s"
              /\ minor = 0%Z /\ (0 <= major < 60)%Z
              /\ (major * 1000 <= 93784005 < (major + 1) * 1000)%Z)).
Proof.
  split; [lia|]. split; [reflexivity|].
  apply (formatUptimeMs_rounds_down 93784005). lia.
Defined.

(** ** Version texts *)

Lemma dropWhile_app_all p (a b : jsstring) :
  forallb p a = true -> dropWhile p (a ++ b) = dropWhile p b.
Proof.
  induction a as [|c a IH]; [reflexivity|]. cbn [forallb app dropWhile].
  intros H. apply andb_true_iff in H as [Hc Ha]. rewrite Hc. now apply IH.
Qed.

Lemma forallb_rev {A} (p : A -> bool) l : forallb p (rev l) = forallb p l.
Proof.
  induction l as [|x l IH]; [reflexivity|]. cbn [rev forallb].
  rewrite forallb_app, IH. cbn [forallb]. rewrite andb_true_r. apply andb_comm.
Qed.

(** [trim] strips the white space around a text that begins and ends
    with other characters. *)
Lemma trim_around before core after_ c r a z :
  blank before = true -> blank after_ = true ->
  core = c :: r -> core = a ++ [z] -> is_ws c = false -> is_ws z = false ->
  trim (before ++ core ++ after_) = core.
Proof.
  unfold blank. intros Hb Ha Hc Hz Hwc Hwz. unfold trim, trimStart, trimEnd.
  rewrite (dropWhile_app_all _ _ _ Hb).
  replace (dropWhile is_ws (core ++ after_)) with (core ++ after_)
    by (rewrite Hc; cbn [app dropWhile]; now rewrite Hwc).
  rewrite rev_app_distr. rewrite dropWhile_app_all by now rewrite forallb_rev.
  rewrite Hz at 1. rewrite rev_app_distr. cbn [rev app dropWhile]. rewrite Hwz.
  cbn [rev]. now rewrite rev_involutive, Hz.
Qed.

Lemma is_number_first d :
  is_number d = true -> exists c r, d = c :: r /\ is_digit c = true.
Proof.
  unfold is_number. destruct d as [|c r]; [discriminate|]. cbn [is_empty negb andb forallb].
  intros H. apply andb_true_iff in H as [Hc _]. now exists c, r.
Qed.

Lemma is_number_last d :
  is_number d = true -> exists a z, d = a ++ [z] /\ is_digit z = true.
Proof.
  unfold is_number. intros H. apply andb_true_iff in H as [Hne Hall].
  destruct (exists_last (l := d)) as (a & z & ->); [now destruct d|].
  exists a, z. split; [reflexivity|]. rewrite forallb_app in Hall.
  apply andb_true_iff in Hall as [_ Hz]. cbn [forallb] in Hz. now rewrite andb_true_r in Hz.
Qed.

Lemma is_number_digits d : is_number d = true -> forallb is_digit d = true.
Proof. unfold is_number. intros H. now apply andb_true_iff in H as [_ H]. Qed.

Lemma is_number_nonempty d : is_number d = true -> is_empty d = false.
Proof. unfold is_number. intros H. apply andb_true_iff in H as [H _]. now apply negb_true_iff. Qed.

Lemma takeWhile_all_app p (a : jsstring) :
  forallb p a = true -> HostKeys.takeWhile p a = a /\ dropWhile p a = [].
Proof.
  induction a as [|c a IH]; [now split|]. cbn [forallb HostKeys.takeWhile dropWhile].
  intros H. apply andb_true_iff in H as [Hc Ha]. rewrite Hc.
  destruct (IH Ha) as [-> ->]. now split.
Qed.

(** The first alternative of the version pattern on a text that is a
    semantic version. *)
Lemma match_semver_semver d1 d2 d3 :
  is_number d1 = true -> is_number d2 = true -> is_number d3 = true ->
  Diagnostics.match_semver (semver d1 d2 d3) = Some (semver d1 d2 d3).
Proof.
  intros H1 H2 H3. unfold Diagnostics.match_semver, semver.
  change (js ".") with [46%N]. cbn [app].
  destruct (takeWhile_stop is_digit d1 46%N (d2 ++ 46%N :: d3)
              (is_number_digits _ H1) eq_refl) as [-> ->].
  destruct (takeWhile_stop is_digit d2 46%N d3
              (is_number_digits _ H2) eq_refl) as [-> ->].
  destruct (takeWhile_all_app is_digit d3 (is_number_digits _ H3)) as [-> _].
  rewrite (is_number_nonempty _ H1), (is_number_nonempty _ H2),
    (is_number_nonempty _ H3).
  reflexivity.
Qed.

Lemma search_version_semver d1 d2 d3 :
  is_number d1 = true -> is_number d2 = true -> is_number d3 = true ->
  Diagnostics.search_version (semver d1 d2 d3) = Some (semver d1 d2 d3).
Proof.
  intros H1 H2 H3.
  destruct (semver d1 d2 d3) eqn:E;
    cbn [Diagnostics.search_version]; rewrite <- E;
    now rewrite (match_semver_semver d1 d2 d3 H1 H2 H3).
Qed.

Lemma semver_ends d1 d2 d3 :
  is_number d1 = true -> is_number d3 = true ->
  exists c r a z, semver d1 d2 d3 = c :: r /\ semver d1 d2 d3 = a ++ [z]
                  /\ is_digit c = true /\ is_digit z = true.
Proof.
  intros H1 H3. destruct (is_number_first d1 H1) as (c & r & -> & Hc).
  destruct (is_number_last d3 H3) as (a & z & -> & Hz). unfold semver.
  exists c, (r ++ js "." ++ d2 ++ js "." ++ a ++ [z]),
    ((c :: r) ++ js "." ++ d2 ++ js "." ++ a), z.
  repeat split; auto. now rewrite <- !app_assoc.
Qed.

(** A text that begins with a digit does not begin with the letter [v]. *)
Lemma parseNodeVersion_digit_first s c r :
  s = c :: r -> is_digit c = true ->
  match s with
  | 118%N :: rest =>
      match Diagnostics.match_semver rest with
      | Some m => Some m
      | None => Diagnostics.match_semver s
      end
  | _ => Diagnostics.match_semver s
  end = Diagnostics.match_semver s.
Proof.
  intros -> Hc. unfold is_digit in Hc. apply andb_true_iff in Hc as [D1 D2].
  apply N.leb_le in D1, D2.
  assert (Hcases : (c = 48 \/ c = 49 \/ c = 50 \/ c = 51 \/ c = 52 \/ c = 53
                    \/ c = 54 \/ c = 55 \/ c = 56 \/ c = 57)%N) by lia.
  repeat (destruct Hcases as [->|Hcases]; [reflexivity|]). now subst c.
Qed.

(** X13.  The version parsers read a semantic version as it stands.  For
    a text that consists of a semantic version (three non-empty runs of
    decimal digits joined by dots) with white space before and after it,
    [parseVersion] of the status command and [parseRavenVersion] of the
    preflight return that version, and [parseNodeVersion] returns it with
    or without a letter [v] in front of it. *)
Theorem version_parsers_read_semver (d1 d2 d3 before after_ : jsstring)
    (H1 : is_number d1 = true) (H2 : is_number d2 = true) (H3 : is_number d3 = true)
    (Hbefore : blank before = true) (Hafter : blank after_ = true) :
  Diagnostics.parseVersion (before ++ semver d1 d2 d3 ++ after_)
  = Some (semver d1 d2 d3)
  /\ Preflight.parseRavenVersion (before ++ semver d1 d2 d3 ++ after_)
     = Some (semver d1 d2 d3)
  /\ Preflight.parseNodeVersion (before ++ semver d1 d2 d3 ++ after_)
     = Some (semver d1 d2 d3)
  /\ Preflight.parseNodeVersion (before ++ (js "v" ++ semver d1 d2 d3) ++ after_)
     = Some (semver d1 d2 d3).
Proof.
  destruct (semver_ends d1 d2 d3 H1 H3) as (c & r & a & z & Hc & Hz & Dc & Dz).
  assert (Htrim : trim (before ++ semver d1 d2 d3 ++ after_) = semver d1 d2 d3).
  { apply (trim_around before _ after_ c r a z); auto using is_digit_not_ws. }
  assert (Htrimv : trim (before ++ (js "v" ++ semver d1 d2 d3) ++ after_)
                   = js "v" ++ semver d1 d2 d3).
  { apply (trim_around before _ after_ 118%N (semver d1 d2 d3) (js "v" ++ a) z);
      auto using is_digit_not_ws.
    rewrite Hz at 1. now rewrite <- app_assoc. }
  unfold Diagnostics.parseVersion, Preflight.parseRavenVersion,
    Preflight.parseNodeVersion.
  rewrite Htrim, Htrimv, (search_version_semver d1 d2 d3 H1 H2 H3).
  split; [reflexivity|]. split; [reflexivity|]. split.
  - rewrite (parseNodeVersion_digit_first _ c r Hc Dc).
    now apply match_semver_semver.
  - change (js "v" ++ semver d1 d2 d3) with (118%N :: semver d1 d2 d3).
    cbn iota. now rewrite match_semver_semver.
Qed.

Lemma version_parsers_read_semver_witness :
  is_number (js "20") = true /\ is_number (js "10") = true /\ is_number (js "0") = true
  /\ blank [] = true /\ blank [10%N] = true
  /\ Diagnostics.parseVersion (js "20.10.0" ++ [10%N]) = Some (js "20.10.0")
  /\ Preflight.parseNodeVersion (js "v20.10.0" ++ [10%N]) = Some (js "20.10.0").
Proof.
  do 5 (split; [reflexivity|]).
  destruct (version_parsers_read_semver (js "20") (js "10") (js "0") [] [10%N]
              eq_refl eq_refl eq_refl eq_refl eq_refl) as (H1 & _ & _ & H4).
  split; [exact H1|exact H4].
Defined.

(** ** Plan builder: the shape of a plan *)

(** X14.  The shape of a plan.  For a node whose operating system is
    unknown [buildBootstrapPlan] throws "Unsupported operating system:
    unknown".  For macOS and Linux it returns a plan for the given node
    and fact sheet, with the version ("latest" by default) and the force
    flag (false by default) of the options, and with six steps in the
    order install-node, install-raven, create-config-dir,
    install-service, start-service, verify-service, each with at least one
    command.  On every fact sheet the skip rule of a step holds only if
    the step is marked skippable, and with the force flag set it holds
    for no step but install-node. *)
Theorem buildBootstrapPlan_shape (node : Store.FleetNode)
    (info : PlanBuilder.NodeInfo) (options : PlanBuilder.PlanOptions) :
  match PlanBuilder.os info with
  | Store.OsUnknown =>
      PlanBuilder.buildBootstrapPlan node info options
      = Throw (js "Unsupported operating system: unknown")
  | _ =>
      exists plan,
        PlanBuilder.buildBootstrapPlan node info options = Return plan
        /\ PlanBuilder.node plan = node
        /\ PlanBuilder.nodeInfo plan = info
        /\ PlanBuilder.targetVersion plan = effective_version options
        /\ PlanBuilder.force plan = effective_force options
        /\ map PlanBuilder.id (PlanBuilder.steps plan) = plan_step_ids
        /\ Forall (fun s => PlanBuilder.commands s <> []) (PlanBuilder.steps plan)
        /\ Forall (fun s => forall info',
                       Executor.shouldSkip s info' = true ->
                       PlanBuilder.skippable s = true
                       /\ (effective_force options = true ->
                           PlanBuilder.id s = js "install-node"))
                  (PlanBuilder.steps plan)
  end.
Proof.
  unfold PlanBuilder.buildBootstrapPlan, effective_version, effective_force.
  destruct (PlanBuilder.os info); [| |reflexivity].
  - eexists. split; [reflexivity|]. cbn [PlanBuilder.node PlanBuilder.nodeInfo
      PlanBuilder.targetVersion PlanBuilder.force PlanBuilder.steps].
    repeat (split; [reflexivity|]).
    unfold PlanBuilder.buildMacOSSteps, PlanBuilder.install_raven_step,
      PlanBuilder.create_config_dir_step.
    split.
    + repeat constructor; cbn [PlanBuilder.commands]; discriminate.
    + repeat constructor;
        unfold Executor.shouldSkip; cbn [PlanBuilder.skipIf PlanBuilder.skippable
                                         PlanBuilder.id];
        try discriminate; try reflexivity;
        destruct (match PlanBuilder.opt_force options with
                  | Some f => f
                  | None => false
                  end); cbn [negb andb] in *; try discriminate; reflexivity.
  - eexists. split; [reflexivity|]. cbn [PlanBuilder.node PlanBuilder.nodeInfo
      PlanBuilder.targetVersion PlanBuilder.force PlanBuilder.steps].
    repeat (split; [reflexivity|]).
    unfold PlanBuilder.buildLinuxSteps, PlanBuilder.install_raven_step,
      PlanBuilder.create_config_dir_step.
    split.
    + repeat constructor; cbn [PlanBuilder.commands]; discriminate.
    + repeat constructor;
        unfold Executor.shouldSkip; cbn [PlanBuilder.skipIf PlanBuilder.skippable
                                         PlanBuilder.id];
        try discriminate; try reflexivity;
        destruct (match PlanBuilder.opt_force options with
                  | Some f => f
                  | None => false
                  end); cbn [negb andb] in *; try discriminate; reflexivity.
Qed.

(** ** Host keys: scanning, looking up, removing *)

Lemma dropWhile_head p (s : jsstring) c r : dropWhile p s = c :: r -> p c = false.
Proof.
  induction s as [|x s IH]; cbn [dropWhile]; [discriminate|].
  destruct (p x) eqn:Px; [exact IH|]. intros E. injection E as <- _. exact Px.
Qed.

Lemma dropWhile_app_stop p (a : jsstring) x b :
  p x = false -> dropWhile p (a ++ x :: b) = dropWhile p a ++ x :: b.
Proof.
  intros Px. induction a as [|y a IH]; cbn [app dropWhile]; [now rewrite Px|].
  destruct (p y); [exact IH|reflexivity].
Qed.

(** A trimmed text does not begin with white space. *)
Lemma trim_head s c r : trim s = c :: r -> is_ws c = false.
Proof.
  unfold trim, trimEnd, trimStart.
  destruct (dropWhile is_ws s) as [|x X] eqn:E; [discriminate|].
  pose proof (dropWhile_head _ _ _ _ E) as Hx. cbn [rev].
  rewrite (dropWhile_app_stop is_ws (rev X) x [] Hx), rev_app_distr. cbn [rev app].
  intros H. injection H as <- _. exact Hx.
Qed.

Lemma split_ws_from_first cur inws s :
  exists p, nth 0 (split_ws_from cur inws s) [] = cur ++ p.
Proof.
  revert cur inws. induction s as [|c s IH]; intros cur inws; cbn [split_ws_from].
  - exists []. cbn [nth]. now rewrite app_nil_r.
  - destruct (is_ws c).
    + destruct inws; [apply IH|]. exists []. cbn [nth]. now rewrite app_nil_r.
    + destruct (IH (cur ++ [c]) false) as (p & Hp). exists (c :: p).
      rewrite Hp, <- app_assoc. reflexivity.
Qed.

(** The first field of a trimmed line that is not empty is not empty. *)
Lemma first_field_nonempty line :
  is_empty (trim line) = false -> is_empty (nth 0 (split_ws (trim line)) []) = false.
Proof.
  destruct (trim line) as [|c r] eqn:E; [discriminate|]. intros _.
  pose proof (trim_head line c r E) as Hc.
  unfold split_ws. cbn [split_ws_from]. rewrite Hc. cbn [app].
  destruct (split_ws_from_first [c] false r) as (p & ->). reflexivity.
Qed.

(** [parseKeyscanOutput] reads a line as [parseKnownHosts] does, up to
    the host and the port. *)
Lemma parseKeyscanLine_parseLine h p line :
  HostKeys.parseKeyscanLine h p line = option_map (rehost h p) (HostKeys.parseLine line).
Proof.
  unfold HostKeys.parseKeyscanLine, HostKeys.parseLine.
  destruct (is_empty (trim line)) eqn:Hne; [reflexivity|]. cbn [orb].
  destruct (startsWith (js "#") (trim line)); [reflexivity|].
  destruct (List.length (split_ws (trim line)) <? 3)%nat; [reflexivity|].
  rewrite (first_field_nonempty line Hne). cbn [orb].
  destruct (is_empty (nth 1 (split_ws (trim line)) [])
            || is_empty (nth 2 (split_ws (trim line)) [])); [reflexivity|].
  now destruct (HostKeys.parseHostEntry (nth 0 (split_ws (trim line)) [])).
Qed.

Lemma parseKeyscanOutput_parseKnownHosts output h p :
  HostKeys.parseKeyscanOutput output h p
  = map (rehost h p) (HostKeys.parseKnownHosts output).
Proof.
  unfold HostKeys.parseKeyscanOutput, HostKeys.parseKnownHosts.
  induction (split_char 10%N output) as [|line lines IH]; [reflexivity|].
  cbn [flat_map]. rewrite map_app, IH, parseKeyscanLine_parseLine.
  now destruct (HostKeys.parseLine line).
Qed.

(** X15.  [parseKeyscanOutput] keeps the keys of a scan and replaces
    their host: it reads the same lines as [parseKnownHosts], gives the
    same algorithms and keys in the same order, and every entry carries
    the host and the port that were passed to it, whatever host the line
    names; algorithm and key are non-empty and without white space. *)
Theorem parseKeyscanOutput_keeps_keys (output host : jsstring) (port : Z) :
  map key_material (HostKeys.parseKeyscanOutput output host port)
  = map key_material (HostKeys.parseKnownHosts output)
  /\ Forall (fun e => HostKeys.host e = host /\ HostKeys.port e = port
                      /\ is_token (HostKeys.keyType e) = true
                      /\ is_token (HostKeys.key e) = true)
            (HostKeys.parseKeyscanOutput output host port).
Proof.
  rewrite parseKeyscanOutput_parseKnownHosts. split.
  - rewrite map_map. now apply map_ext.
  - apply Forall_forall. intros e Hin. apply in_map_iff in Hin as (e0 & <- & Hin).
    destruct (parseKnownHosts_tokens _ _ Hin) as (Hkt & Hk).
    now repeat split.
Qed.

Lemma getHostKey_eq h p w :
  known_hosts_file w <> TextUnreadable ->
  HostKeys.getHostKey h p w
  = (Return (preferred (keys_of h p (known_hosts_file w))), w).
Proof.
  intros Hfile. unfold HostKeys.getHostKey.
  rewrite (bind_eq _ _ _ _ _ (loadKnownHosts_eq w Hfile)).
  fold (keys_of h p (known_hosts_file w)). unfold preferred.
  destruct (keys_of h p (known_hosts_file w)) as [|e l]; [reflexivity|].
  cbn [List.length Nat.eqb].
  destruct (find HostKeys.is_ed25519 (e :: l)); [reflexivity|].
  destruct (find HostKeys.is_rsa (e :: l)); reflexivity.
Qed.

Lemma same_host_iff h p e :
  HostKeys.same_host h p e = true <-> HostKeys.host e = h /\ HostKeys.port e = p.
Proof.
  unfold HostKeys.same_host. rewrite andb_true_iff, str_eqb_eq, Z.eqb_eq. tauto.
Qed.

Lemma find_first {A} (q : A -> bool) l e :
  find q l = Some e ->
  exists before after,
    l = before ++ e :: after /\ q e = true /\ Forall (fun x => q x = false) before.
Proof.
  induction l as [|x l IH]; cbn [find]; [discriminate|].
  destruct (q x) eqn:Qx.
  - intros E. injection E as ->. exists [], l. repeat split; [exact Qx|constructor].
  - intros E. destruct (IH E) as (before & after & -> & Qe & Hb).
    exists (x :: before), after. repeat split; [exact Qe|now constructor].
Qed.

Lemma find_first_of_type (q : HostKeys.HostKeyEntry -> bool) t keys e :
  (forall x, q x = true <-> HostKeys.keyType x = t) ->
  find q keys = Some e -> first_of_type t keys e.
Proof.
  intros Hq Hf. destruct (find_first q keys e Hf) as (before & after & Hl & Qe & Hb).
  exists before, after. split; [exact Hl|]. split; [now apply Hq|].
  eapply Forall_impl; [|exact Hb]. intros x Hx Ht. apply Hq in Ht. congruence.
Qed.

(** X16.  The key that [getHostKey] returns for a host and port, when the
    known_hosts file can be read or is missing.  It returns null exactly
    when the file has no entry for that host and port; otherwise it
    returns one of those entries: the first ed25519 key among them, in the
    order of the file, if there is one, else the first RSA key if there is
    one, else the first entry.  The world is left as it is. *)
Theorem getHostKey_prefers (h : jsstring) (p : Z) (w : world)
    (Hfile : known_hosts_file w <> TextUnreadable) :
  exists r,
    HostKeys.getHostKey h p w = (Return r, w)
    /\ (r = None <-> keys_of h p (known_hosts_file w) = [])
    /\ forall e,
        r = Some e ->
        In e (pinned (known_hosts_file w))
        /\ HostKeys.host e = h /\ HostKeys.port e = p
        /\ (HostKeys.keyType e = js "ssh-ed25519" ->
            first_of_type (js "ssh-ed25519") (keys_of h p (known_hosts_file w)) e)
        /\ (HostKeys.keyType e <> js "ssh-ed25519" ->
            Forall (fun x => HostKeys.keyType x <> js "ssh-ed25519")
                   (keys_of h p (known_hosts_file w)))
        /\ (HostKeys.keyType e = js "ssh-rsa" ->
            first_of_type (js "ssh-rsa") (keys_of h p (known_hosts_file w)) e)
        /\ (HostKeys.keyType e <> js "ssh-ed25519" ->
            HostKeys.keyType e <> js "ssh-rsa" ->
            Forall (fun x => HostKeys.keyType x <> js "ssh-rsa")
                   (keys_of h p (known_hosts_file w))
            /\ nth_error (keys_of h p (known_hosts_file w)) 0 = Some e).
Proof.
  rewrite (getHostKey_eq h p w Hfile). eexists. split; [reflexivity|].
  set (keys := keys_of h p (known_hosts_file w)).
  assert (Hin : forall e, In e keys ->
                          In e (pinned (known_hosts_file w))
                          /\ HostKeys.host e = h /\ HostKeys.port e = p).
  { intros e He. apply filter_In in He as [He Hs]. apply same_host_iff in Hs. tauto. }
  assert (Hnone : forall (q : HostKeys.HostKeyEntry -> bool) t,
             (forall x, q x = true <-> HostKeys.keyType x = t) ->
             find q keys = None ->
             Forall (fun x => HostKeys.keyType x <> t) keys).
  { intros q t Hq Hf. apply Forall_forall. intros x Hx Ht.
    apply Hq in Ht. pose proof (find_none q keys Hf x Hx). congruence. }
  assert (Hed : forall x, HostKeys.is_ed25519 x = true
                          <-> HostKeys.keyType x = js "ssh-ed25519")
    by (intros x; apply str_eqb_eq).
  assert (Hrsa : forall x, HostKeys.is_rsa x = true
                           <-> HostKeys.keyType x = js "ssh-rsa")
    by (intros x; apply str_eqb_eq).
  unfold preferred. split.
  - destruct keys as [|k keys']; [tauto|]. split; [|discriminate].
    destruct (find HostKeys.is_ed25519 (k :: keys')); [discriminate|].
    destruct (find HostKeys.is_rsa (k :: keys')); discriminate.
  - intros e.
    destruct (find HostKeys.is_ed25519 keys) as [ed|] eqn:Fed.
    { intros E. injection E as ->.
      pose proof (find_first_of_type _ _ _ _ Hed Fed) as Hfirst.
      apply find_some in Fed as [He Ht].
      apply Hed in Ht. destruct (Hin e He) as (H1 & H2 & H3).
      split; [exact H1|]. split; [exact H2|]. split; [exact H3|].
      split; [intros _; exact Hfirst|]. split; [congruence|].
      split; [intros E; rewrite E in Ht; discriminate|congruence]. }
    destruct (find HostKeys.is_rsa keys) as [rsa|] eqn:Frsa.
    { intros E. injection E as ->.
      pose proof (find_first_of_type _ _ _ _ Hrsa Frsa) as Hfirst.
      apply find_some in Frsa as [He Ht].
      apply Hrsa in Ht. destruct (Hin e He) as (H1 & H2 & H3).
      split; [exact H1|]. split; [exact H2|]. split; [exact H3|].
      split; [intros E; rewrite E in Ht; discriminate|].
      split; [intros _; exact (Hnone _ _ Hed Fed)|].
      split; [intros _; exact Hfirst|congruence]. }
    intros E. destruct keys as [|k keys'] eqn:Ek; [discriminate|].
    cbn [nth_error] in E. injection E as ->.
    destruct (Hin e (or_introl eq_refl)) as (H1 & H2 & H3).
    split; [exact H1|]. split; [exact H2|]. split; [exact H3|].
    split.
    { intros Ht. apply Hed in Ht. cbn [find] in Fed. rewrite Ht in Fed. discriminate. }
    split; [intros _; exact (Hnone _ _ Hed Fed)|].
    split.
    { intros Ht. apply Hrsa in Ht. cbn [find] in Frsa. rewrite Ht in Frsa. discriminate. }
    intros _ _. split; [exact (Hnone _ _ Hrsa Frsa)|reflexivity].
Qed.

Lemma getHostKey_prefers_witness :
  known_hosts_file known_hosts_world <> TextUnreadable
  /\ HostKeys.getHostKey (js "fe80::1") 2222 known_hosts_world
     = (Return (Some sample_rsa_key), known_hosts_world)
  /\ exists r,
      HostKeys.getHostKey (js "fe80::1") 22 known_hosts_world
      = (Return r, known_hosts_world)
      /\ (r = None <-> keys_of (js "fe80::1") 22 (known_hosts_file known_hosts_world) = []).
Proof.
  split; [discriminate|]. split; [reflexivity|].
  destruct (getHostKey_prefers (js "fe80::1") 22 known_hosts_world) as (r & H1 & H2 & _);
    [discriminate|].
  exists r. split; [exact H1|exact H2].
Defined.

Lemma filter_length_all {A} (p : A -> bool) l :
  List.length (filter p l) = List.length l -> filter p l = l.
Proof.
  induction l as [|x l IH]; [reflexivity|]. cbn [filter].
  destruct (p x); cbn [List.length]; intros H.
  - f_equal. apply IH. lia.
  - pose proof (filter_length_le p l). lia.
Qed.

Lemma removeHostKey_eq h p w :
  known_hosts_file w <> TextUnreadable ->
  HostKeys.removeHostKey h p w
  = let entries := pinned (known_hosts_file w) in
    let filtered := filter (fun e => negb (HostKeys.same_host h p e)) entries in
    if (List.length filtered =? List.length entries)%nat
    then (Return false, w)
    else (Return true,
          set_known_hosts_file (Text (HostKeys.formatKnownHosts filtered)) w).
Proof.
  intros Hfile. unfold HostKeys.removeHostKey.
  rewrite (bind_eq _ _ _ _ _ (loadKnownHosts_eq w Hfile)). cbv zeta.
  destruct (_ =? _)%nat; reflexivity.
Qed.

Lemma filter_negb_none {A} (p : A -> bool) l :
  filter p (filter (fun x => negb (p x)) l) = [].
Proof.
  induction l as [|x l IH]; [reflexivity|]. cbn [filter].
  destruct (p x) eqn:Px; cbn [negb filter]; [exact IH|]. now rewrite Px.
Qed.

Lemma filter_sub {A} (p q : A -> bool) l : filter p l = [] -> filter p (filter q l) = [].
Proof.
  induction l as [|x l IH]; [reflexivity|]. cbn [filter].
  destruct (p x) eqn:Px; [discriminate|]. intros H.
  destruct (q x); cbn [filter]; rewrite ?Px; now apply IH.
Qed.

(** X17.  [removeHostKey] forgets a host, when the known_hosts file can
    be read or is missing and the ports of its entries are below [2^53]
    (a port is printed as a Number; from [1e+21] on it is written in
    exponent form and the line reads as another host).  It returns false
    and leaves the world as it is when the file has no entry for the host
    and port, and true when it has one; afterwards [getHostKey] returns
    null for that host and port.
    The file then holds no entry that it did not hold before, and it
    still holds every entry of another host or port whose line does not
    read as a comment. *)
Theorem removeHostKey_forgets_host (h : jsstring) (p : Z) (w : world)
    (Hfile : known_hosts_file w <> TextUnreadable)
    (Hsafe : safe_ports (pinned (known_hosts_file w))) :
  exists removed w',
    HostKeys.removeHostKey h p w = (Return removed, w')
    /\ (removed = false <-> keys_of h p (known_hosts_file w) = [])
    /\ (removed = false -> w' = w)
    /\ HostKeys.getHostKey h p w' = (Return None, w')
    /\ (forall e, In e (pinned (known_hosts_file w')) ->
                  In e (pinned (known_hosts_file w)))
    /\ (forall e, In e (pinned (known_hosts_file w)) ->
                  HostKeys.same_host h p e = false -> hash_host e = false ->
                  In e (pinned (known_hosts_file w')))
    /\ nodes_file w' = nodes_file w
    /\ spawned w' = spawned w.
Proof.
  rewrite (removeHostKey_eq h p w Hfile). cbv zeta.
  set (entries := pinned (known_hosts_file w)).
  set (filtered := filter (fun e => negb (HostKeys.same_host h p e)) entries).
  assert (Hkeys : keys_of h p (known_hosts_file w) = [] <-> filtered = entries).
  { unfold keys_of. fold entries. unfold filtered. clearbody entries.
    induction entries as [|x l IH]; [tauto|]. cbn [filter].
    destruct (HostKeys.same_host h p x); cbn [negb].
    - split; [discriminate|]. intros E.
      pose proof (filter_length_le (fun e => negb (HostKeys.same_host h p e)) l) as Hle.
      apply (f_equal (@List.length _)) in E. cbn [List.length] in E. lia.
    - rewrite IH. split; [now intros ->|]. intros E. now injection E. }
  destruct (Nat.eqb_spec (List.length filtered) (List.length entries)) as [Hlen|Hlen].
  - apply filter_length_all in Hlen. fold filtered in Hlen.
    exists false, w. split; [reflexivity|]. split; [tauto|]. split; [reflexivity|].
    split.
    { rewrite (getHostKey_eq h p w Hfile). now rewrite (proj2 Hkeys Hlen). }
    repeat split; auto.
  - eexists. eexists. split; [reflexivity|].
    assert (Hcanon : Forall canonical filtered)
      by (apply Forall_filter; apply pinned_canonical; exact Hsafe).
    assert (Hafter : pinned (known_hosts_file
                               (set_known_hosts_file
                                  (Text (HostKeys.formatKnownHosts filtered)) w))
                     = filter (fun e => negb (hash_host e)) filtered)
      by (cbn [known_hosts_file set_known_hosts_file pinned];
          apply parse_format_canonical; exact Hcanon).
    split.
    { split; [discriminate|]. intros E. apply Hkeys in E. congruence. }
    split; [discriminate|].
    split.
    { rewrite getHostKey_eq by discriminate. unfold keys_of. rewrite Hafter.
      rewrite filter_sub; [reflexivity|]. apply filter_negb_none. }
    rewrite Hafter. repeat split.
    + intros e He. apply filter_In in He as [He _]. now apply filter_In in He as [He _].
    + intros e He Hs Hh. apply filter_In. split; [|now rewrite Hh].
      apply filter_In. split; [exact He|now rewrite Hs].
Qed.

Lemma removeHostKey_forgets_host_witness :
  known_hosts_file known_hosts_world <> TextUnreadable
  /\ safe_ports (pinned (known_hosts_file known_hosts_world))
  /\ exists w',
      HostKeys.removeHostKey (js "fe80::1") 2222 known_hosts_world = (Return true, w')
      /\ HostKeys.getHostKey (js "fe80::1") 2222 w' = (Return None, w')
      /\ List.length (pinned (known_hosts_file w')) = 1%nat.
Proof.
  assert (Hsafe : safe_ports (pinned (known_hosts_file known_hosts_world)))
    by safe_ports_computed.
  split; [discriminate|]. split; [exact Hsafe|].
  destruct (removeHostKey_forgets_host (js "fe80::1") 2222 known_hosts_world)
    as (removed & w' & Hrun & _ & _ & Hget & _); [discriminate|exact Hsafe|].
  assert (Hcomputed :
            HostKeys.removeHostKey (js "fe80::1") 2222 known_hosts_world
            = (Return true,
               after (HostKeys.removeHostKey (js "fe80::1") 2222) known_hosts_world))
    by (vm_compute; reflexivity).
  rewrite Hcomputed in Hrun. injection Hrun as <- <-.
  eexists. split; [exact Hcomputed|]. split; [exact Hget|]. vm_compute. reflexivity.
Defined.





(** ** Preflight and bootstrap *)

(** A transport call: it returns, it leaves the files alone, and it spawns
    one process unless the host begins with ['-']. *)
Lemma sshExec_effect opts w :
  exists r w1,
    Transport.sshExec opts w = (Return r, w1)
    /\ nodes_file w1 = nodes_file w
    /\ known_hosts_file w1 = known_hosts_file w
    /\ progress w1 = progress w
    /\ children w1 = children w
    /\ if startsWith (js "-") (Transport.host opts)
       then w1 = w
            /\ r = {| Transport.stdout := [];
                      Transport.stderr := js "Host cannot start with '-' (security)";
                      Transport.exitCode := Some 1%Z; Transport.signal := None;
                      Transport.timedOut := false |}
       else exists call,
           spawned w1 = spawned w ++ [call]
           /\ spawn_file call = js "/usr/bin/ssh"
           /\ sent_command call = Transport.command opts
           /\ Transport.stdout r = child_stdout (next_child w 0)
           /\ Executor.exited_zero (Transport.exitCode r) = child_ok (next_child w 0).
Proof.
  unfold Transport.sshExec.
  destruct (startsWith (js "-") (Transport.host opts)) eqn:Hhost.
  - eexists. exists w. split; [reflexivity|]. repeat split.
  - unfold bind, spawn_and_wait, next_child. rewrite Nat.add_0_r.
    destruct (children w (List.length (spawned w)))
      as [out err code sig el|out err|out err m el];
      (eexists; eexists; split; [reflexivity|]; repeat split;
       eexists; repeat split);
      cbn [Transport.exitCode Executor.exited_zero child_ok];
      try reflexivity.
    all: try (destruct code as [[|p|p]|]; reflexivity).
Qed.

Section PreflightFacts.
Context `{RT : Runtime}.

Lemma runPreflightCommand_effect node command timeoutMs path w :
  exists r w1,
    Preflight.runPreflightCommand node command timeoutMs path w = (Return r, w1)
    /\ nodes_file w1 = nodes_file w
    /\ known_hosts_file w1 = known_hosts_file w
    /\ progress w1 = progress w
    /\ children w1 = children w
    /\ if startsWith (js "-") (Store.host node)
       then w1 = w /\ Executor.exited_zero (Transport.exitCode r) = false
            /\ Transport.stderr r = js "Host cannot start with '-' (security)"
       else exists call,
           spawned w1 = spawned w ++ [call]
           /\ spawn_file call = js "/usr/bin/ssh"
           /\ sent_command call = command
           /\ Transport.stdout r = child_stdout (next_child w 0)
           /\ Executor.exited_zero (Transport.exitCode r) = child_ok (next_child w 0).
Proof.
  unfold Preflight.runPreflightCommand.
  match goal with
  | |- context [Transport.sshExec ?o] =>
      destruct (sshExec_effect o w) as (r & w1 & Hexec & Hn & Hk & Hp & Hc & Hs)
  end.
  exists r, w1. cbn [Transport.host Transport.command] in Hs.
  repeat (split; [assumption|]).
  destruct (startsWith (js "-") (Store.host node)); [|exact Hs].
  destruct Hs as [-> ->]. repeat split.
Qed.

(** The service check: the two flags are coherent, and it sends at most
    two commands, none when the operating system is unknown. *)
Lemma checkService_effect node os timeoutMs path w :
  startsWith (js "-") (Store.host node) = false ->
  exists s w1 calls,
    Preflight.checkService node os timeoutMs path w = (Return s, w1)
    /\ nodes_file w1 = nodes_file w
    /\ known_hosts_file w1 = known_hosts_file w
    /\ progress w1 = progress w
    /\ spawned w1 = spawned w ++ calls
    /\ (List.length calls <= 2)%nat
    /\ Forall (fun c => In (sent_command c) preflight_probes) calls
    /\ (os = Store.OsUnknown -> calls = [])
    /\ (os = Store.Darwin ->
        fst s = includes (js "FOUND") (child_stdout (next_child w 0)))
    /\ (snd s = true -> fst s = true)
    /\ (fst s = true -> os <> Store.OsUnknown).
Proof.
  intros Hhost. unfold Preflight.checkService. destruct os.
  - match goal with
    | |- context [Preflight.runPreflightCommand node ?c timeoutMs path] =>
        destruct (runPreflightCommand_effect node c timeoutMs path w)
          as (r1 & w1 & Hrun1 & Hn1 & Hk1 & Hp1 & Hc1 & Hs1)
    end.
    rewrite Hhost in Hs1. destruct Hs1 as (call1 & Hsp1 & _ & Hsent1 & Hout1 & _).
    rewrite (bind_eq _ _ _ _ _ Hrun1). rewrite Hout1.
    destruct (includes (js "FOUND") (child_stdout (next_child w 0))).
    + match goal with
      | |- context [Preflight.runPreflightCommand node ?c timeoutMs path] =>
          destruct (runPreflightCommand_effect node c timeoutMs path w1)
            as (r2 & w2 & Hrun2 & Hn2 & Hk2 & Hp2 & Hc2 & Hs2)
      end.
      rewrite Hhost in Hs2. destruct Hs2 as (call2 & Hsp2 & _ & Hsent2 & _).
      rewrite (bind_eq _ _ _ _ _ Hrun2).
      eexists. exists w2, [call1; call2]. split; [reflexivity|].
      cbn [fst snd List.length].
      split; [congruence|]. split; [congruence|]. split; [congruence|].
      split; [rewrite Hsp2, Hsp1, <- app_assoc; reflexivity|].
      split; [lia|].
      split; [repeat constructor; rewrite ?Hsent1, ?Hsent2; cbn [In]; tauto|].
      repeat split; try congruence; try discriminate.
    + eexists. exists w1, [call1]. split; [reflexivity|].
      cbn [fst snd List.length].
      split; [congruence|]. split; [congruence|]. split; [congruence|].
      split; [exact Hsp1|]. split; [lia|].
      split; [repeat constructor; rewrite ?Hsent1; cbn [In]; tauto|].
      repeat split; try congruence; try discriminate.
  - match goal with
    | |- context [Preflight.runPreflightCommand node ?c timeoutMs path] =>
        destruct (runPreflightCommand_effect node c timeoutMs path w)
          as (r1 & w1 & Hrun1 & Hn1 & Hk1 & Hp1 & Hc1 & Hs1)
    end.
    rewrite Hhost in Hs1. destruct Hs1 as (call1 & Hsp1 & _ & Hsent1 & _).
    rewrite (bind_eq _ _ _ _ _ Hrun1).
    destruct (includes (js "enabled") (Transport.stdout r1)
              || includes (js "disabled") (Transport.stdout r1)).
    + match goal with
      | |- context [Preflight.runPreflightCommand node ?c timeoutMs path] =>
          destruct (runPreflightCommand_effect node c timeoutMs path w1)
            as (r2 & w2 & Hrun2 & Hn2 & Hk2 & Hp2 & Hc2 & Hs2)
      end.
      rewrite Hhost in Hs2. destruct Hs2 as (call2 & Hsp2 & _ & Hsent2 & _).
      rewrite (bind_eq _ _ _ _ _ Hrun2).
      eexists. exists w2, [call1; call2]. split; [reflexivity|].
      cbn [fst snd List.length].
      split; [congruence|]. split; [congruence|]. split; [congruence|].
      split; [rewrite Hsp2, Hsp1, <- app_assoc; reflexivity|].
      split; [lia|].
      split; [repeat constructor; rewrite ?Hsent1, ?Hsent2; cbn [In]; tauto|].
      repeat split; try congruence; try discriminate.
    + eexists. exists w1, [call1]. split; [reflexivity|].
      cbn [fst snd List.length].
      split; [congruence|]. split; [congruence|]. split; [congruence|].
      split; [exact Hsp1|]. split; [lia|].
      split; [repeat constructor; rewrite ?Hsent1; cbn [In]; tauto|].
      repeat split; try congruence; try discriminate.
  - eexists. exists w, []. split; [reflexivity|]. cbn [fst snd List.length].
    rewrite app_nil_r. repeat split; try congruence; try discriminate; try lia.
    constructor.
Qed.

End PreflightFacts.

Section GatherFacts.
Context `{RT : Runtime}.

(** What [gatherNodeInfo] does to the world and what it reports. *)
Lemma gatherNodeInfo_effect node options w :
  exists r w' calls,
    Preflight.gatherNodeInfo node options w = (Return r, w')
    /\ nodes_file w' = nodes_file w
    /\ known_hosts_file w' = known_hosts_file w
    /\ progress w' = progress w
    /\ spawned w' = spawned w ++ calls
    /\ Forall (fun c => In (sent_command c) preflight_probes) calls
    /\ match Preflight.nodeInfo r with
       | None =>
           Preflight.success r = false
           /\ Preflight.error r <> None
           /\ (List.length calls <= 1)%nat
           /\ (startsWith (js "-") (Store.host node) = true ->
               w' = w
               /\ Preflight.error r
                  = Some (js "Failed to gather system info: Host cannot start with '-' (security)"))
           /\ (startsWith (js "-") (Store.host node) = false ->
               child_ok (next_child w 0) = false ->
               exists call message,
                 calls = [call]
                 /\ Preflight.error r
                    = Some (js "Failed to gather system info: " ++ message))
       | Some info =>
           Preflight.success r = true
           /\ Preflight.error r = None
           /\ startsWith (js "-") (Store.host node) = false
           /\ (4 <= List.length calls <= 6)%nat
           /\ (PlanBuilder.os info = Store.OsUnknown -> List.length calls = 4%nat)
           /\ is_empty (PlanBuilder.homeDir info) = false
           /\ (PlanBuilder.serviceRunning info = true ->
               PlanBuilder.hasService info = true)
           /\ (PlanBuilder.hasService info = true ->
               PlanBuilder.os info <> Store.OsUnknown)
           /\ (PlanBuilder.nodeVersion info <> None -> PlanBuilder.hasNode info = true)
           /\ (PlanBuilder.ravenVersion info <> None -> PlanBuilder.hasRaven info = true)
           /\ (PlanBuilder.os info = Store.Darwin ->
               PlanBuilder.hasService info
               = includes (js "FOUND") (child_stdout (next_child w 4)))
       end.
Proof.
  unfold Preflight.gatherNodeInfo.
  set (t := match Preflight.timeoutMs options with Some t => t | None => 30000%Z end).
  set (path := Preflight.knownHostsPath options).
  match goal with
  | |- context [Preflight.runPreflightCommand node ?c t path] =>
      destruct (runPreflightCommand_effect node c t path w)
        as (r1 & w1 & Hrun1 & Hn1 & Hk1 & Hp1 & Hc1 & Hs1)
  end.
  rewrite (bind_eq _ _ _ _ _ Hrun1).
  destruct (startsWith (js "-") (Store.host node)) eqn:Hhost.
  { destruct Hs1 as (-> & Hzero & Herr). rewrite Hzero. cbn [negb].
    eexists. exists w, []. split; [reflexivity|]. rewrite app_nil_r.
    cbn [Preflight.failed Preflight.nodeInfo Preflight.success Preflight.error
         List.length].
    repeat split; auto; try discriminate; try lia.
    rewrite Herr. reflexivity. }
  destruct Hs1 as (call1 & Hsp1 & _ & Hsent1 & Hout1 & Hok1).
  assert (Hprobe1 : Forall (fun c => In (sent_command c) preflight_probes) [call1])
    by (repeat constructor; rewrite Hsent1; cbn [In]; tauto).
  destruct (Executor.exited_zero (Transport.exitCode r1)) eqn:Hzero; cbn [negb].
  2:{ eexists. exists w1, [call1]. split; [reflexivity|].
      cbn [Preflight.failed Preflight.nodeInfo Preflight.success Preflight.error
           List.length].
      repeat split; auto; try discriminate; try lia.
      intros _ _. eexists. eexists. split; reflexivity. }
  destruct (is_empty (trim (nth 2 (split_char 10%N (trim (Transport.stdout r1))) [])))
    eqn:Hhome.
  { eexists. exists w1, [call1]. split; [reflexivity|].
    cbn [Preflight.failed Preflight.nodeInfo Preflight.success Preflight.error
         List.length].
    repeat split; auto; try discriminate; try lia.
    intros _ Hbad. congruence. }
  match goal with
  | |- context [Preflight.runPreflightCommand node ?c t path] =>
      destruct (runPreflightCommand_effect node c t path w1)
        as (r2 & w2 & Hrun2 & Hn2 & Hk2 & Hp2 & Hc2 & Hs2)
  end.
  rewrite (bind_eq _ _ _ _ _ Hrun2). rewrite Hhost in Hs2.
  destruct Hs2 as (call2 & Hsp2 & _ & Hsent2 & _).
  match goal with
  | |- context [Preflight.runPreflightCommand node ?c t path] =>
      destruct (runPreflightCommand_effect node c t path w2)
        as (r3 & w3 & Hrun3 & Hn3 & Hk3 & Hp3 & Hc3 & Hs3)
  end.
  rewrite (bind_eq _ _ _ _ _ Hrun3). rewrite Hhost in Hs3.
  destruct Hs3 as (call3 & Hsp3 & _ & Hsent3 & _).
  match goal with
  | |- context [Preflight.runPreflightCommand node ?c t path] =>
      destruct (runPreflightCommand_effect node c t path w3)
        as (r4 & w4 & Hrun4 & Hn4 & Hk4 & Hp4 & Hc4 & Hs4)
  end.
  rewrite (bind_eq _ _ _ _ _ Hrun4). rewrite Hhost in Hs4.
  destruct Hs4 as (call4 & Hsp4 & _ & Hsent4 & _).
  match goal with
  | |- context [Preflight.checkService node ?os t path] =>
      destruct (checkService_effect node os t path w4 Hhost)
        as (s & w5 & calls5 & Hrun5 & Hn5 & Hk5 & Hp5 & Hsp5 & Hlen5 & Hprobes5
            & Hunknown & Hdarwin & Hrunning & Hservice)
  end.
  rewrite (bind_eq _ _ _ _ _ Hrun5).
  eexists. exists w5, ([call1; call2; call3; call4] ++ calls5).
  split; [reflexivity|].
  cbn [Preflight.nodeInfo Preflight.success Preflight.error
       PlanBuilder.os PlanBuilder.homeDir PlanBuilder.serviceRunning
       PlanBuilder.hasService PlanBuilder.nodeVersion PlanBuilder.hasNode
       PlanBuilder.ravenVersion PlanBuilder.hasRaven].
  assert (Hfour : spawned w4 = spawned w ++ [call1; call2; call3; call4])
    by (rewrite Hsp4, Hsp3, Hsp2, Hsp1, <- !app_assoc; reflexivity).
  split; [congruence|]. split; [congruence|]. split; [congruence|].
  split; [rewrite Hsp5, Hfour, <- app_assoc; reflexivity|].
  split.
  { apply Forall_app. split; [|exact Hprobes5].
    repeat constructor; rewrite ?Hsent1, ?Hsent2, ?Hsent3, ?Hsent4; cbn [In]; tauto. }
  rewrite length_app. cbn [List.length].
  split; [reflexivity|]. split; [reflexivity|]. split; [reflexivity|].
  split; [lia|].
  split; [intros Hos; rewrite (Hunknown Hos); reflexivity|].
  split; [exact Hhome|]. split; [exact Hrunning|]. split; [exact Hservice|].
  split; [destruct (Preflight.found r2); [reflexivity|intros H; now elim H]|].
  split; [destruct (Preflight.found r4); [reflexivity|intros H; now elim H]|].
  intros Hos. rewrite (Hdarwin Hos). f_equal. f_equal.
  unfold next_child. rewrite Hfour, length_app. cbn [List.length].
  rewrite Nat.add_0_r. congruence.
Qed.

End GatherFacts.

(** X19.  [gatherNodeInfo] makes a coherent fact sheet with a bounded
    number of probes.  It always returns and leaves the inventory as it
    is.  A failure carries an error and no fact
    sheet, after at most one remote command.  A success carries a fact
    sheet and no error, after four to six remote commands (four when the
    operating system is unknown); on the fact sheet the home directory is
    not empty, a running service is a configured service, a configured
    service implies a known operating system, and a Node.js or raven
    version is given only when Node.js or raven was found. *)
Theorem gatherNodeInfo_coherent `{RT : Runtime} (node : Store.FleetNode)
    (options : Preflight.PreflightOptions) (w : world) :
  exists r w' calls,
    Preflight.gatherNodeInfo node options w = (Return r, w')
    /\ nodes_file w' = nodes_file w
    /\ spawned w' = spawned w ++ calls
    /\ match Preflight.nodeInfo r with
       | None =>
           Preflight.success r = false /\ Preflight.error r <> None
           /\ (List.length calls <= 1)%nat
       | Some info =>
           Preflight.success r = true /\ Preflight.error r = None
           /\ (4 <= List.length calls <= 6)%nat
           /\ (PlanBuilder.os info = Store.OsUnknown -> List.length calls = 4%nat)
           /\ PlanBuilder.homeDir info <> []
           /\ (PlanBuilder.serviceRunning info = true ->
               PlanBuilder.hasService info = true)
           /\ (PlanBuilder.hasService info = true ->
               PlanBuilder.os info <> Store.OsUnknown)
           /\ (PlanBuilder.nodeVersion info <> None -> PlanBuilder.hasNode info = true)
           /\ (PlanBuilder.ravenVersion info <> None -> PlanBuilder.hasRaven info = true)
       end.
Proof.
  destruct (gatherNodeInfo_effect node options w)
    as (r & w' & calls & Hrun & Hn & _ & _ & Hsp & _ & Hres).
  exists r, w', calls. repeat (split; [assumption|]).
  destruct (Preflight.nodeInfo r) as [info|].
  - destruct Hres as (H1 & H2 & _ & H4 & H5 & H6 & H7 & H8 & H9 & H10 & _).
    repeat (split; [assumption|]). split; [|tauto].
    intros E. rewrite E in H6. discriminate.
  - destruct Hres as (H1 & H2 & H3 & _). tauto.
Qed.

Lemma gatherNodeInfo_result r message :
  Preflight.nodeInfo r = None -> Preflight.success r = false ->
  Preflight.error r = Some message -> r = Preflight.failed message.
Proof. destruct r as [s i e]. cbn. now intros -> -> ->. Qed.

(** X20.  The preflight stops at its first probe.  When the host of the
    record begins with ['-'], [gatherNodeInfo] fails with "Failed to
    gather system info: Host cannot start with '-' (security)" and no
    process is spawned.  When the first probe
    does not exit with code 0 before the timeout, it fails with "Failed to
    gather system info: " followed by a message, and no second command is
    sent to the node. *)
Theorem gatherNodeInfo_stops_at_first_probe `{RT : Runtime} (node : Store.FleetNode)
    (options : Preflight.PreflightOptions) (w : world) :
  (startsWith (js "-") (Store.host node) = true ->
   exists w',
     Preflight.gatherNodeInfo node options w
     = (Return (Preflight.failed
                  (js "Failed to gather system info: Host cannot start with '-' (security)")),
        w')
     /\ spawned w' = spawned w)
  /\ (startsWith (js "-") (Store.host node) = false ->
      child_ok (next_child w 0) = false ->
      exists message call w',
        Preflight.gatherNodeInfo node options w
        = (Return (Preflight.failed (js "Failed to gather system info: " ++ message)), w')
        /\ spawned w' = spawned w ++ [call]
        /\ sent_command call = js "uname -s && uname -m && echo $HOME").
Proof.
  destruct (gatherNodeInfo_effect node options w)
    as (r & w' & calls & Hrun & _ & _ & _ & Hsp & Hprobes & Hres).
  split.
  - intros Hdash. destruct (Preflight.nodeInfo r) as [info|] eqn:Hinfo.
    + destruct Hres as (_ & _ & Hhost & _). congruence.
    + destruct Hres as (Hfail & _ & _ & Hd & _). destruct (Hd Hdash) as [-> Herr].
      exists w. now rewrite Hrun, (gatherNodeInfo_result r _ Hinfo Hfail Herr).
  - intros Hhost Hbad. unfold Preflight.gatherNodeInfo.
    match goal with
    | |- context [Preflight.runPreflightCommand node ?c ?t ?path] =>
        destruct (runPreflightCommand_effect node c t path w)
          as (r1 & w1 & Hrun1 & _ & _ & _ & _ & Hs1)
    end.
    rewrite Hhost in Hs1. destruct Hs1 as (call1 & Hsp1 & _ & Hsent1 & _ & Hok1).
    rewrite (bind_eq _ _ _ _ _ Hrun1). rewrite Hok1, Hbad. cbn [negb].
    eexists. exists call1, w1. split; [reflexivity|]. split; assumption.
Qed.

Lemma gatherNodeInfo_stops_at_first_probe_witness :
  (exists w',
      Preflight.gatherNodeInfo dash_node default_preflight edge1_stuck_world
      = (Return (Preflight.failed
                   (js "Failed to gather system info: Host cannot start with '-' (security)")),
         w')
      /\ spawned w' = spawned edge1_stuck_world)
  /\ exists message call w',
      Preflight.gatherNodeInfo (sample_node (js "edge-1")) default_preflight
        edge1_stuck_world
      = (Return (Preflight.failed (js "Failed to gather system info: " ++ message)), w')
      /\ spawned w' = spawned edge1_stuck_world ++ [call].
Proof.
  split.
  - apply (proj1 (gatherNodeInfo_stops_at_first_probe dash_node default_preflight
                    edge1_stuck_world)). reflexivity.
  - destruct (proj2 (gatherNodeInfo_stops_at_first_probe (sample_node (js "edge-1"))
                       default_preflight edge1_stuck_world) eq_refl eq_refl)
      as (message & call & w' & Hrun & Hsp & _).
    exists message, call, w'. split; [exact Hrun|exact Hsp].
Defined.

(** A text that includes [a ++ b] includes [b]. *)
Lemma startsWith_app p s : startsWith p (p ++ s) = true.
Proof. induction p as [|c p IH]; [reflexivity|]. cbn. now rewrite N.eqb_refl. Qed.

Lemma startsWith_split p s : startsWith p s = true -> exists rest, s = p ++ rest.
Proof.
  revert s. induction p as [|c p IH]; intros s; [now exists s|].
  destruct s as [|x s]; cbn [startsWith]; [discriminate|].
  intros H. apply andb_true_iff in H as [Hc Hp]. apply N.eqb_eq in Hc. subst x.
  destruct (IH s Hp) as (rest & ->). now exists rest.
Qed.

Lemma includes_here p s : startsWith p s = true -> includes p s = true.
Proof. intros H. destruct s; cbn [includes]; now rewrite H. Qed.

Lemma includes_skip p a s : includes p s = true -> includes p (a ++ s) = true.
Proof.
  intros H. induction a as [|c a IH]; [exact H|].
  change (startsWith p (c :: a ++ s) || includes p (a ++ s) = true).
  rewrite IH. apply orb_true_r.
Qed.

Lemma includes_suffix a b s : includes (a ++ b) s = true -> includes b s = true.
Proof.
  induction s as [|c s IH]; intros H.
  - cbn [includes] in H. rewrite orb_false_r in H.
    apply startsWith_split in H as (rest & E).
    destruct a; destruct b; try discriminate E. reflexivity.
  - change (startsWith (a ++ b) (c :: s) || includes (a ++ b) s = true) in H.
    apply orb_true_iff in H as [H|H].
    + apply startsWith_split in H as (rest & E). rewrite E, <- app_assoc.
      apply includes_skip. apply includes_here. apply startsWith_app.
    + change (startsWith b (c :: s) || includes b s = true).
      rewrite (IH H). apply orb_true_r.
Qed.

(** X21.  What the preflight reports about the service on macOS.  On a
    fact sheet for macOS the service counts as configured exactly when the
    output of the launchctl probe (the fifth remote command) includes the
    text FOUND; so it counts as configured also when the probe prints
    NOT_FOUND, and the plan built from that fact sheet without the force
    flag skips the step install-service. *)
Theorem gatherNodeInfo_darwin_service `{RT : Runtime} (node : Store.FleetNode)
    (options : Preflight.PreflightOptions) (w w' : world)
    (r : Preflight.PreflightResult) (info : PlanBuilder.NodeInfo)
    (Hrun : Preflight.gatherNodeInfo node options w = (Return r, w'))
    (Hinfo : Preflight.nodeInfo r = Some info)
    (Hos : PlanBuilder.os info = Store.Darwin) :
  PlanBuilder.hasService info = includes (js "FOUND") (child_stdout (next_child w 4))
  /\ (includes (js "NOT_FOUND") (child_stdout (next_child w 4)) = true ->
      PlanBuilder.hasService info = true
      /\ forall version, exists plan step,
          PlanBuilder.buildBootstrapPlan node info
            {| PlanBuilder.opt_version := version;
               PlanBuilder.opt_force := Some false |} = Return plan
          /\ find_step (js "install-service") (PlanBuilder.steps plan) = Some step
          /\ Executor.shouldSkip step info = true).
Proof.
  destruct (gatherNodeInfo_effect node options w)
    as (r0 & w0 & calls & Hrun0 & _ & _ & _ & _ & _ & Hres).
  rewrite Hrun in Hrun0. injection Hrun0 as <- <-. rewrite Hinfo in Hres.
  destruct Hres as (_ & _ & _ & _ & _ & _ & _ & _ & _ & _ & Hdarwin).
  specialize (Hdarwin Hos). split; [exact Hdarwin|].
  intros Hnot.
  assert (Hservice : PlanBuilder.hasService info = true).
  { rewrite Hdarwin. apply (includes_suffix (js "NOT_") (js "FOUND")). exact Hnot. }
  split; [exact Hservice|]. intros version.
  unfold PlanBuilder.buildBootstrapPlan. rewrite Hos.
  eexists. eexists. split; [reflexivity|]. split; [reflexivity|].
  unfold Executor.shouldSkip. cbn [PlanBuilder.skipIf negb andb]. exact Hservice.
Qed.

Lemma gatherNodeInfo_darwin_service_witness :
  exists r w' info,
    Preflight.gatherNodeInfo (sample_node (js "edge-1")) default_preflight darwin_world
    = (Return r, w')
    /\ Preflight.nodeInfo r = Some info
    /\ PlanBuilder.os info = Store.Darwin
    /\ child_stdout (next_child darwin_world 4) = js "NOT_FOUND
"
    /\ PlanBuilder.hasService info = true
    /\ PlanBuilder.serviceRunning info = false.
Proof.
  assert (Hrun : exists info,
             Preflight.gatherNodeInfo (sample_node (js "edge-1")) default_preflight
               darwin_world
             = (Return {| Preflight.success := true; Preflight.nodeInfo := Some info;
                          Preflight.error := None |},
                after (Preflight.gatherNodeInfo (sample_node (js "edge-1"))
                         default_preflight) darwin_world)
             /\ PlanBuilder.os info = Store.Darwin
             /\ PlanBuilder.serviceRunning info = false)
    by (eexists; split; [vm_compute; reflexivity|split; reflexivity]).
  destruct Hrun as (info & Hrun & Hos & Hstopped).
  eexists. eexists. exists info. split; [exact Hrun|].
  split; [reflexivity|]. split; [exact Hos|]. split; [reflexivity|].
  split; [|exact Hstopped].
  apply (gatherNodeInfo_darwin_service _ _ _ _ _ info Hrun eq_refl Hos). reflexivity.
Defined.
(** ** Bootstrap: preflight, plan and run *)

(** The commands of a step, whatever the host: the step result is a
    success or a failure with a message, and every process spawned runs a
    command of the step. *)
Lemma run_commands_effect node step path timeoutMs startTime commands out err w :
  exists sr w' calls,
    Executor.run_commands node step path timeoutMs startTime commands out err w
    = (Return sr, w')
    /\ nodes_file w' = nodes_file w
    /\ spawned w' = spawned w ++ calls
    /\ Forall (fun c => In (sent_command c) commands) calls
    /\ (Executor.status sr = PlanBuilder.Success
        \/ (Executor.status sr = PlanBuilder.Failed /\ Executor.error sr <> None)).
Proof.
  revert out err w. induction commands as [|command rest IH]; intros out err w.
  - cbn [Executor.run_commands]. unfold bind, Date_now, ret.
    eexists. exists w, []. rewrite app_nil_r. repeat split; auto.
  - cbn [Executor.run_commands].
    match goal with
    | |- context [Transport.sshExec ?o] =>
        destruct (sshExec_effect o w) as (r & w1 & Hr & Hn & _ & _ & _ & Hs)
    end.
    rewrite (bind_eq _ _ _ _ _ Hr). cbn [Transport.host Transport.command] in Hs.
    assert (Hcalls : exists calls1, spawned w1 = spawned w ++ calls1
                                    /\ Forall (fun c => In (sent_command c)
                                                          (command :: rest)) calls1).
    { destruct (startsWith (js "-") (Store.host node)).
      - destruct Hs as [-> _]. exists []. now rewrite app_nil_r.
      - destruct Hs as (call & Hsp & _ & Hsent & _). exists [call].
        split; [exact Hsp|]. constructor; [|constructor]. left. now rewrite Hsent. }
    destruct Hcalls as (calls1 & Hsp1 & Hin1).
    destruct (negb (Executor.exited_zero (Transport.exitCode r))
              || Transport.timedOut r).
    + unfold bind, Date_now, ret. eexists. exists w1, calls1.
      split; [reflexivity|]. repeat split; auto. right. split; [reflexivity|].
      discriminate.
    + destruct (IH (out ++ Transport.stdout r) (err ++ Transport.stderr r) w1)
        as (sr & w2 & calls2 & Hrun & Hn2 & Hsp2 & Hin2 & Hstatus).
      exists sr, w2, (calls1 ++ calls2). rewrite Hrun. split; [reflexivity|].
      split; [congruence|]. split; [now rewrite Hsp2, Hsp1, app_assoc|].
      split; [|exact Hstatus]. apply Forall_app. split; [exact Hin1|].
      eapply Forall_impl; [|exact Hin2]. intros c Hc. now right.
Qed.

Lemma command_of_later step steps c : command_of steps c -> command_of (step :: steps) c.
Proof. intros (s & Hin & Hc). exists s. split; [now right|exact Hc]. Qed.

(** The loop of a real run: it returns, it leaves the inventory alone,
    every process it spawns runs a command of a step, and a result
    returned from inside the loop is a failure with a message. *)
Lemma run_steps_effect plan options timeoutMs startTime todo done_ w :
  exists looped w' calls,
    Executor.run_steps plan options false timeoutMs startTime todo done_ w
    = (Return looped, w')
    /\ nodes_file w' = nodes_file w
    /\ spawned w' = spawned w ++ calls
    /\ Forall (fun c => command_of todo (sent_command c)) calls
    /\ match looped with
       | inl results =>
           List.length results = (List.length done_ + List.length todo)%nat
       | inr r =>
           Executor.node r = PlanBuilder.node plan
           /\ Executor.success r = false
           /\ Executor.installedVersion r = None
           /\ Executor.resultError r <> None
       end.
Proof.
  revert done_ w. induction todo as [|step rest IH]; intros done_ w.
  - exists (inl done_), w, []. rewrite app_nil_r. cbn. repeat split; auto.
  - cbn [Executor.run_steps].
    destruct (Executor.shouldSkip step (PlanBuilder.nodeInfo plan)).
    + rewrite (bind_eq _ _ _ _ _ (call_onProgress_eq options step PlanBuilder.Skipped w)).
      match goal with
      | |- context [Executor.run_steps _ _ _ _ _ rest ?d ?w0] =>
          destruct (IH d w0) as (looped & w' & calls & Hrun & Hn & Hsp & Hin & Hl)
      end.
      exists looped, w', calls. split; [exact Hrun|].
      split; [now rewrite Hn; destruct (Executor.onProgress options)|].
      split; [now rewrite Hsp; destruct (Executor.onProgress options)|].
      split.
      { eapply Forall_impl; [|exact Hin]. intros c. apply command_of_later. }
      destruct looped as [results|r]; [|exact Hl].
      rewrite Hl, length_app. cbn [List.length]. lia.
    + rewrite (bind_eq _ _ _ _ _
                 (call_onProgress_eq options step PlanBuilder.StepRunning w)).
      set (w0 := if Executor.onProgress options
                 then record_progress (PlanBuilder.id step,
                                       Executor.status_name PlanBuilder.StepRunning) w
                 else w).
      assert (Hw0 : nodes_file w0 = nodes_file w /\ spawned w0 = spawned w)
        by (unfold w0; now destruct (Executor.onProgress options)).
      destruct Hw0 as [Hn0 Hsp0].
      destruct (run_commands_effect (PlanBuilder.node plan) step
                  (Executor.knownHostsPath options) timeoutMs (clock w0)
                  (PlanBuilder.commands step) [] [] w0)
        as (sr & w1 & calls1 & Hsr & Hn1 & Hsp1 & Hin1 & Hstatus).
      assert (Hstep : Executor.executeStep (PlanBuilder.node plan) step
                        (Executor.knownHostsPath options) timeoutMs w0
                      = (Return sr, w1)) by exact Hsr.
      rewrite (bind_eq _ _ _ _ _ Hstep).
      rewrite (bind_eq _ _ _ _ _
                 (call_onProgress_eq options step (Executor.status sr) w1)).
      set (w2 := if Executor.onProgress options
                 then record_progress (PlanBuilder.id step,
                                       Executor.status_name (Executor.status sr)) w1
                 else w1).
      assert (Hw2 : nodes_file w2 = nodes_file w1 /\ spawned w2 = spawned w1)
        by (unfold w2; now destruct (Executor.onProgress options)).
      destruct Hw2 as [Hn2 Hsp2].
      assert (Hhere : Forall (fun c => command_of (step :: rest) (sent_command c)) calls1).
      { eapply Forall_impl; [|exact Hin1]. intros c Hc. exists step.
        split; [now left|exact Hc]. }
      destruct Hstatus as [Hok|[Hfailed Herror]].
      * rewrite Hok. cbn [Executor.is_failed].
        destruct (IH (done_ ++ [sr]) w2)
          as (looped & w' & calls & Hrun & Hn & Hsp & Hin & Hl).
        exists looped, w', (calls1 ++ calls). split; [exact Hrun|].
        split; [congruence|].
        split; [now rewrite Hsp, Hsp2, Hsp1, Hsp0, app_assoc|].
        split.
        { apply Forall_app. split; [exact Hhere|].
          eapply Forall_impl; [|exact Hin]. intros c. apply command_of_later. }
        destruct looped as [results|r]; [|exact Hl].
        rewrite Hl, length_app. cbn [List.length]. lia.
      * rewrite Hfailed. cbn [Executor.is_failed]. unfold bind, Date_now, ret.
        eexists. exists w2, calls1. split; [reflexivity|].
        split; [congruence|]. split; [now rewrite Hsp2, Hsp1, Hsp0|].
        split; [exact Hhere|].
        cbn [Executor.node Executor.success Executor.installedVersion
             Executor.resultError]. repeat split. exact Herror.
Qed.

Section BootstrapFacts.
Context `{RT : Runtime}.

Lemma ensured_spawned w : spawned (ensured w) = spawned w.
Proof. unfold ensured. now destruct (nodes_file w). Qed.

(** [updateNode] spawns nothing. *)
Lemma updateNode_spawned name updates w :
  update_accepts updates = true ->
  spawned (snd (Store.updateNode name updates w)) = spawned w.
Proof.
  intros Hacc. rewrite (updateNode_eq name updates w Hacc).
  destruct (Store.findIndex _ _) as [index|]; [|apply ensured_spawned].
  destruct (nth_error _ index); cbn [snd]; [|apply ensured_spawned].
  cbn [spawned set_nodes_file]. apply ensured_spawned.
Qed.

(** A real run of a plan: it returns a result for the node of the plan;
    every process it spawns runs a command of a step of the plan; a
    failure has a message and no installed version and leaves the
    inventory alone; a success has one result per step, the target version
    as installed version and no message. *)
Lemma executeBootstrapPlan_real plan options w :
  effective_dryRun options = false ->
  exists r w' calls,
    Executor.executeBootstrapPlan plan options w = (Return r, w')
    /\ spawned w' = spawned w ++ calls
    /\ Forall (fun c => command_of (PlanBuilder.steps plan) (sent_command c)) calls
    /\ Executor.node r = PlanBuilder.node plan
    /\ (Executor.success r = false ->
        nodes_file w' = nodes_file w
        /\ Executor.resultError r <> None
        /\ Executor.installedVersion r = None)
    /\ (Executor.success r = true ->
        Executor.installedVersion r = Some (PlanBuilder.targetVersion plan)
        /\ Executor.resultError r = None
        /\ List.length (Executor.stepResults r)
           = List.length (PlanBuilder.steps plan)).
Proof.
  intros Hreal.
  destruct (run_steps_effect plan options (effective_timeout options) (clock w)
              (PlanBuilder.steps plan) [] w)
    as (looped & w1 & calls & Hrun & Hn & Hsp & Hin & Hl).
  destruct looped as [results|r].
  - destruct (executeBootstrapPlan_success plan options w results w1 Hreal Hrun)
      as (updated & w2 & Hupdate & Hplan).
    rewrite Hplan. eexists. exists w2, calls. split; [reflexivity|].
    assert (Hsp2 : spawned w2 = spawned w1).
    { rewrite <- (updateNode_spawned (Store.name (PlanBuilder.node plan))
                    (executor_update plan (toISOString (clock w1))) w1 eq_refl).
      now rewrite Hupdate. }
    split; [now rewrite Hsp2|]. split; [exact Hin|].
    cbn [Executor.node Executor.success Executor.installedVersion
         Executor.resultError Executor.stepResults].
    split; [reflexivity|]. split; [discriminate|]. intros _.
    split; [reflexivity|]. split; [reflexivity|exact Hl].
  - destruct Hl as (Hnode & Hfail & Hversion & Herror).
    exists r, w1, calls. split.
    { unfold Executor.executeBootstrapPlan. unfold bind at 1, Date_now at 1.
      unfold effective_dryRun in Hreal. rewrite Hreal.
      fold (effective_timeout options). now rewrite (bind_eq _ _ _ _ _ Hrun). }
    split; [exact Hsp|]. split; [exact Hin|]. split; [exact Hnode|].
    split; [auto|]. rewrite Hfail. discriminate.
Qed.

(** The plan that [bootstrap] builds for a known operating system has six
    steps. *)
Lemma buildBootstrapPlan_six node info options :
  PlanBuilder.os info <> Store.OsUnknown ->
  exists plan,
    PlanBuilder.buildBootstrapPlan node info options = Return plan
    /\ PlanBuilder.node plan = node
    /\ PlanBuilder.nodeInfo plan = info
    /\ PlanBuilder.targetVersion plan = effective_version options
    /\ map PlanBuilder.id (PlanBuilder.steps plan) = plan_step_ids.
Proof.
  intros Hos. unfold PlanBuilder.buildBootstrapPlan.
  destruct (PlanBuilder.os info); [| |congruence];
    (eexists; split; [reflexivity|]; repeat split).
Qed.

Lemma dry_results info steps :
  Forall dry_outcome (map (dry_result info) steps)
  /\ result_ids (map (dry_result info) steps) = map PlanBuilder.id steps.
Proof.
  split.
  - apply Forall_forall. intros sr Hin. apply in_map_iff in Hin as (step & <- & _).
    unfold dry_outcome, dry_result. cbn [Executor.status Executor.stdout].
    destruct (Executor.shouldSkip step info); [now left|now right].
  - unfold result_ids. rewrite map_map. reflexivity.
Qed.

(** What [bootstrap] returns and leaves behind. *)
Lemma bootstrap_effect options w :
  exists r w' calls,
    Bootstrap.bootstrap options w = (Return r, w')
    /\ spawned w' = spawned w ++ calls
    /\ Executor.node r = Bootstrap.node options
    /\ (Executor.success r = false ->
        nodes_file w' = nodes_file w
        /\ Executor.resultError r <> None
        /\ Executor.installedVersion r = None)
    /\ (Executor.success r = true ->
        Executor.installedVersion r = Some (bootstrap_version options)
        /\ Executor.resultError r = None
        /\ List.length (Executor.stepResults r) = 6%nat
        /\ startsWith (js "-") (Store.host (Bootstrap.node options)) = false)
    /\ (startsWith (js "-") (Store.host (Bootstrap.node options)) = true ->
        calls = []
        /\ Executor.success r = false
        /\ Executor.stepResults r = []
        /\ Executor.resultError r
           = Some (js "Failed to gather system info: Host cannot start with '-' (security)"))
    /\ (bootstrap_dryRun options = true ->
        nodes_file w' = nodes_file w
        /\ Forall (fun c => In (sent_command c) preflight_probes) calls
        /\ (List.length calls <= 6)%nat
        /\ (Executor.success r = true ->
            Forall dry_outcome (Executor.stepResults r)
            /\ result_ids (Executor.stepResults r) = plan_step_ids)).
Proof.
  unfold Bootstrap.bootstrap. unfold bind at 1, Date_now at 1.
  destruct (gatherNodeInfo_effect (Bootstrap.node options) (bootstrap_preflight options) w)
    as (p & w1 & calls & Hrun & Hn & _ & _ & Hsp & Hprobes & Hres).
  unfold bootstrap_preflight in Hrun. rewrite (bind_eq _ _ _ _ _ Hrun).
  destruct (Preflight.nodeInfo p) as [info|] eqn:Hinfo.
  - destruct Hres as (Hsuccess & _ & Hhost & Hlen & _).
    rewrite Hsuccess.
    assert (Hknown : PlanBuilder.os info = Store.OsUnknown
                     \/ PlanBuilder.os info <> Store.OsUnknown)
      by (destruct (PlanBuilder.os info); [right|right|left]; congruence).
    destruct Hknown as [Hunknown|Hknown].
    + rewrite Hunknown. unfold Bootstrap.stopped, bind, Date_now, ret.
      eexists. exists w1, calls. split; [reflexivity|].
      cbn [Executor.node Executor.success Executor.installedVersion
           Executor.resultError Executor.stepResults].
      split; [exact Hsp|]. split; [reflexivity|].
      split; [intros _; split; [exact Hn|split; [discriminate|reflexivity]]|].
      split; [discriminate|]. split; [congruence|].
      intros _. split; [exact Hn|]. split; [exact Hprobes|].
      split; [lia|discriminate].
    + match goal with
      | |- context [PlanBuilder.buildBootstrapPlan ?n ?i ?o] =>
          destruct (buildBootstrapPlan_six n i o Hknown)
            as (plan & Hplan & Hpn & Hpi & Hpv & Hids)
      end.
      assert (Hsix : List.length (PlanBuilder.steps plan) = 6%nat)
        by (rewrite <- (length_map PlanBuilder.id), Hids; reflexivity).
      assert (Hversion : PlanBuilder.targetVersion plan = bootstrap_version options)
        by (rewrite Hpv; reflexivity).
      match goal with
      | |- context [Executor.executeBootstrapPlan _ ?o] => set (eopts := o)
      end.
      assert (Hgo : forall (A : Type) (stop go : A),
                 match PlanBuilder.os info with
                 | Store.OsUnknown => stop
                 | _ => go
                 end = go)
        by (intros A stop go; destruct (PlanBuilder.os info); congruence).
      rewrite Hgo. unfold bind at 1, Bootstrap.settle. rewrite Hplan.
      destruct (bootstrap_dryRun options) eqn:Hdry.
      * destruct (executeBootstrapPlan_dry plan eopts w1 Hdry)
          as (total & w2 & Hexec & Hs2 & Hn2 & _).
        rewrite Hexec. eexists. exists w2, calls. split; [reflexivity|].
        cbn [Executor.node Executor.success Executor.installedVersion
             Executor.resultError Executor.stepResults].
        split; [now rewrite Hs2|]. split; [exact Hpn|].
        split; [discriminate|].
        split.
        { intros _. rewrite Hversion, length_map. auto. }
        split; [congruence|].
        intros _. split; [congruence|]. split; [exact Hprobes|].
        split; [lia|]. intros _.
        destruct (dry_results (PlanBuilder.nodeInfo plan) (PlanBuilder.steps plan))
          as [Hall Hresult_ids].
        split; [exact Hall|]. now rewrite Hresult_ids.
      * destruct (executeBootstrapPlan_real plan eopts w1 Hdry)
          as (r & w2 & calls2 & Hexec & Hsp2 & _ & Hnode & Hfail & Hsucc).
        rewrite Hexec. exists r, w2, (calls ++ calls2). split; [reflexivity|].
        split; [now rewrite Hsp2, Hsp, app_assoc|].
        split; [congruence|].
        split.
        { intros Hr. destruct (Hfail Hr) as (Hn2 & He & Hv).
          split; [congruence|]. split; assumption. }
        split.
        { intros Hr. destruct (Hsucc Hr) as (Hv & He & Hl).
          split; [congruence|]. split; [exact He|]. split; [congruence|exact Hhost]. }
        split; [congruence|discriminate].
  - destruct Hres as (Hfailure & Herror & Hlen & Hdash & _).
    rewrite Hfailure. unfold Bootstrap.stopped, bind, Date_now, ret.
    eexists. exists w1, calls. split; [reflexivity|].
    cbn [Executor.node Executor.success Executor.installedVersion
         Executor.resultError Executor.stepResults].
    split; [exact Hsp|]. split; [reflexivity|].
    split; [intros _; split; [exact Hn|split; [discriminate|reflexivity]]|].
    split; [discriminate|].
    split.
    { intros Hhost. destruct (Hdash Hhost) as [Hw Hmessage].
      split.
      - subst w1. rewrite <- (app_nil_r (spawned w)) in Hsp at 1.
        apply app_inv_head in Hsp. now symmetry.
      - split; [reflexivity|]. split; [reflexivity|]. now rewrite Hmessage. }
    intros _. split; [exact Hn|]. split; [exact Hprobes|].
    split; [lia|discriminate].
Qed.

End BootstrapFacts.

(** X22.  [bootstrap] always reports.  It returns a result for the node
    it was given and never throws (an unknown operating system is
    answered before a plan is built).  A failure has an error message and
    no installed version, and the inventory is left as it was; a success
    has the requested version (or "latest") as installed version, no
    error and six step results, and is reached only for a host that does
    not begin with ['-'].  For a host that begins with ['-'] no process is
    spawned and the result is a failure without step results, with the
    error "Failed to gather system info: Host cannot start with '-'
    (security)". *)
Theorem bootstrap_reports `{RT : Runtime} (options : Bootstrap.BootstrapOptions)
    (w : world) :
  exists r w' calls,
    Bootstrap.bootstrap options w = (Return r, w')
    /\ spawned w' = spawned w ++ calls
    /\ Executor.node r = Bootstrap.node options
    /\ (Executor.success r = false ->
        nodes_file w' = nodes_file w
        /\ Executor.resultError r <> None
        /\ Executor.installedVersion r = None)
    /\ (Executor.success r = true ->
        Executor.installedVersion r = Some (bootstrap_version options)
        /\ Executor.resultError r = None
        /\ List.length (Executor.stepResults r) = 6%nat
        /\ startsWith (js "-") (Store.host (Bootstrap.node options)) = false)
    /\ (startsWith (js "-") (Store.host (Bootstrap.node options)) = true ->
        calls = []
        /\ Executor.success r = false
        /\ Executor.stepResults r = []
        /\ Executor.resultError r
           = Some (js "Failed to gather system info: Host cannot start with '-' (security)")).
Proof.
  destruct (bootstrap_effect options w)
    as (r & w' & calls & Hrun & Hsp & Hnode & Hfail & Hsucc & Hdash & _).
  exists r, w', calls. repeat (split; [assumption|]). assumption.
Qed.

(** X23.  A dry-run bootstrap only looks.  With [dryRun] set, every
    remote command that [bootstrap] sends is one of the eight probes of
    the preflight, at most six are sent, and the inventory is left as it
    was.  When it succeeds, the step results are those of the six steps of
    the plan in plan order, each of them skipped or a success with the
    output "[DRY RUN] Commands not executed". *)
Theorem bootstrap_dry_run_only_probes `{RT : Runtime}
    (options : Bootstrap.BootstrapOptions) (w : world)
    (Hdry : bootstrap_dryRun options = true) :
  exists r w' calls,
    Bootstrap.bootstrap options w = (Return r, w')
    /\ nodes_file w' = nodes_file w
    /\ spawned w' = spawned w ++ calls
    /\ Forall (fun c => In (sent_command c) preflight_probes) calls
    /\ (List.length calls <= 6)%nat
    /\ (Executor.success r = true ->
        Forall dry_outcome (Executor.stepResults r)
        /\ result_ids (Executor.stepResults r) = plan_step_ids).
Proof.
  destruct (bootstrap_effect options w)
    as (r & w' & calls & Hrun & Hsp & _ & _ & _ & _ & Hlook).
  destruct (Hlook Hdry) as (Hn & Hprobes & Hlen & Hresults).
  exists r, w', calls. repeat (split; [assumption|]). assumption.
Qed.

Lemma bootstrap_dry_run_only_probes_witness :
  bootstrap_dryRun (bootstrap_of (sample_node (js "edge-1")) true) = true
  /\ exists r w' calls,
      Bootstrap.bootstrap (bootstrap_of (sample_node (js "edge-1")) true) darwin_world
      = (Return r, w')
      /\ Executor.success r = true
      /\ nodes_file w' = nodes_file darwin_world
      /\ spawned w' = spawned darwin_world ++ calls
      /\ List.length calls = 6%nat
      /\ result_ids (Executor.stepResults r) = plan_step_ids.
Proof.
  split; [reflexivity|].
  destruct (bootstrap_dry_run_only_probes (bootstrap_of (sample_node (js "edge-1")) true)
              darwin_world eq_refl)
    as (r & w' & calls & Hrun & Hn & Hsp & _ & _ & Hresults).
  assert (Hsuccess : Executor.success r = true).
  { assert (Hr : fst (Bootstrap.bootstrap (bootstrap_of (sample_node (js "edge-1")) true)
                        darwin_world) = Return r) by now rewrite Hrun.
    vm_compute in Hr. inversion Hr; subst r; reflexivity. }
  assert (Hsix : List.length calls = 6%nat).
  { assert (Hw : List.length (spawned (snd (Bootstrap.bootstrap
                    (bootstrap_of (sample_node (js "edge-1")) true) darwin_world)))
                 = 6%nat) by (vm_compute; reflexivity).
    rewrite Hrun in Hw. cbn [snd] in Hw. rewrite Hsp, length_app in Hw.
    exact Hw. }
  exists r, w', calls. split; [exact Hrun|]. split; [exact Hsuccess|].
  split; [exact Hn|]. split; [exact Hsp|]. split; [exact Hsix|].
  exact (proj2 (Hresults Hsuccess)).
Defined.
(** ** Commands: add, rm, ping and status *)

Lemma dropWhile_In p (s : jsstring) c : In c (dropWhile p s) -> In c s.
Proof.
  induction s as [|x s IH]; cbn [dropWhile]; [tauto|].
  destruct (p x); [|tauto]. intros H. right. now apply IH.
Qed.

Lemma trim_In s c : In c (trim s) -> In c s.
Proof.
  unfold trim, trimEnd, trimStart. intros H. apply in_rev in H.
  apply dropWhile_In in H. apply in_rev in H. now apply dropWhile_In in H.
Qed.

(** A trimmed text is its own trim. *)
Lemma trim_trim s : trim (trim s) = trim s.
Proof.
  destruct (trim s) as [|c r] eqn:E; [reflexivity|].
  pose proof (trim_head s c r E) as Hc.
  unfold trim, trimEnd in E.
  destruct (dropWhile is_ws (rev (trimStart s))) as [|z v] eqn:Ev; [discriminate|].
  pose proof (dropWhile_head _ _ _ _ Ev) as Hz. cbn [rev] in E.
  exact (trim_fixed c r (rev v) z (eq_sym E) Hc Hz).
Qed.

(** No piece of [s.split(sep)] holds the separator. *)
Lemma split_char_from_pieces sep cur s :
  ~ In sep cur -> Forall (fun piece => ~ In sep piece) (split_char_from sep cur s).
Proof.
  revert cur. induction s as [|c s IH]; intros cur Hcur; cbn [split_char_from].
  - constructor; [exact Hcur|constructor].
  - destruct (N.eqb_spec c sep) as [->|Hc].
    + constructor; [exact Hcur|]. apply IH. intros [].
    + apply IH. intros H. apply in_app_or in H as [H|[H|[]]]; [now apply Hcur|].
      now apply Hc.
Qed.

(** X24.  The tags that [fleetAddCommand] reads from its [--tags] option:
    every tag is not empty, has no white space at its ends and holds no
    comma; without the option, or with an empty one, there are no
    tags. *)
Theorem parseTags_trimmed (tags : option jsstring) :
  Forall (fun t => t <> [] /\ trim t = t /\ ~ In 44%N t) (AddCommand.parseTags tags)
  /\ (tags = None \/ tags = Some [] -> AddCommand.parseTags tags = []).
Proof.
  split.
  - unfold AddCommand.parseTags. destruct tags as [s|]; [|constructor].
    destruct (is_empty s); [constructor|].
    apply Forall_forall. intros t Ht. apply filter_In in Ht as [Ht Hne].
    apply in_map_iff in Ht as (piece & <- & Hpiece).
    split; [now destruct (trim piece)|]. split; [apply trim_trim|].
    intros Hcomma. apply trim_In in Hcomma.
    pose proof (split_char_from_pieces 44%N [] s (fun H => H)) as Hall.
    rewrite Forall_forall in Hall. exact (Hall piece Hpiece Hcomma).
  - intros [->| ->]; reflexivity.
Qed.

Section CommandFacts.
Context `{RT : Runtime}.

Lemma read_port_guard text :
  negb (Cli.Number_isFinite (Cli.Number_parseInt text))
  || Cli.less_than (Cli.Number_parseInt text) 1
  || Cli.greater_than (Cli.Number_parseInt text) 65535
  = match read_port text with Some _ => false | None => true end
  /\ forall p, read_port text = Some p ->
               Cli.Number_parseInt text = Some p /\ (1 <= p <= 65535)%Z.
Proof.
  unfold read_port. destruct (Cli.Number_parseInt text) as [p|]; [|split; [reflexivity|discriminate]].
  unfold Cli.Number_isFinite, Cli.less_than, Cli.greater_than.
  assert (Hbig : (65535 < 2 ^ 1024 - 2 ^ 970)%Z) by (vm_compute; reflexivity).
  generalize dependent (2 ^ 1024 - 2 ^ 970)%Z. intros big Hbig.
  destruct (Z.ltb_spec p 1), (Z.ltb_spec 65535 p), (Z.leb_spec 1 p),
    (Z.leb_spec p 65535), (Z.ltb_spec (Z.abs p) big);
    cbn [negb orb andb]; try lia; (split; [reflexivity|]); try discriminate.
  intros q E. injection E as <-. split; [reflexivity|lia].
Qed.

(** The input that [fleetAddCommand] hands to [addNode]. *)
Lemma fleetAddCommand_eq name opts p s :
  read_port (AddCommand.port opts) = Some p ->
  AddCommand.fleetAddCommand name opts s
  = match Store.addNode
            {| Store.add_name := name; Store.add_host := AddCommand.host opts;
               Store.add_port := p; Store.add_user := AddCommand.user opts;
               Store.add_trusted := Some false; Store.add_hostKey := None;
               Store.add_tags := Some (AddCommand.parseTags (AddCommand.tags opts));
               Store.add_os := None; Store.add_arch := None;
               Store.add_installed := None; Store.add_lastSeen := None;
               Store.add_serviceStatus := None |} (Cli.world_of s) with
    | (Return node, w') => (Return tt, session_in w' (Cli.calls s ++ add_report opts node))
    | (Throw e, w') =>
        (Return tt,
         session_in w' (Cli.calls s ++ [Cli.Error (js "Failed to add node: " ++ e);
                                        Cli.Exit 1]))
    end.
Proof.
  intros Hport. destruct (read_port_guard (AddCommand.port opts)) as [Hguard Hread].
  destruct (Hread p Hport) as [Hparse _].
  unfold AddCommand.fleetAddCommand. rewrite Hguard, Hport, Hparse.
  unfold Cli.ctry, Cli.cbind at 1, Cli.await.
  destruct (Store.addNode _ (Cli.world_of s)) as [[node|e] w'].
  - unfold add_report. destruct (AddCommand.json opts).
    + reflexivity.
    + unfold Cli.cbind, Cli.log, Cli.call, Cli.cret, session_in.
      cbn [Cli.world_of Cli.calls].
      destruct (AddCommand.parseTags (AddCommand.tags opts)) as [|t ts].
      * reflexivity.
      * cbn [List.length Nat.ltb Nat.leb Cli.world_of Cli.calls].
        now rewrite <- app_assoc.
  - unfold Cli.cbind, Cli.error, Cli.exit, Cli.call, session_in.
    cbn [Cli.world_of Cli.calls]. now rewrite <- app_assoc.
Qed.

End CommandFacts.

(** X25.  [fleetAddCommand] adds one untrusted node or reports one error.
    It never throws.  Either it makes the two calls [error(message)] and
    [exit(1)] and leaves the inventory as it was (for a port option that
    [Number.parseInt] does not read as an integer between 1 and 65535, the
    message is "Invalid port number" and nothing else happens); or it
    writes the inventory with one record appended and prints a report
    without error or exit: the record has the trimmed name, host and user
    of the command line, the port read from the option, [trusted = false]
    and the tags of the [--tags] option. *)
Theorem fleetAddCommand_outcome `{RT : Runtime} (name : jsstring)
    (opts : AddCommand.FleetAddOptions) (s : Cli.session) :
  exists s',
    AddCommand.fleetAddCommand name opts s = (Return tt, s')
    /\ ((exists message,
           Cli.calls s' = Cli.calls s ++ [Cli.Error message; Cli.Exit 1]
           /\ inventory (Cli.world_of s') = inventory (Cli.world_of s)
           /\ (read_port (AddCommand.port opts) = None ->
               message = js "Invalid port number"
               /\ Cli.world_of s' = Cli.world_of s))
        \/ (exists node p,
             read_port (AddCommand.port opts) = Some p
             /\ Cli.calls s' = Cli.calls s ++ add_report opts node
             /\ nodes_file (Cli.world_of s')
                = inventory_file (inventory (Cli.world_of s) ++ [node])
             /\ Store.name node = trim name
             /\ Store.host node = trim (AddCommand.host opts)
             /\ Store.user node = trim (AddCommand.user opts)
             /\ Store.port node = p
             /\ Store.trusted node = false
             /\ Store.tags node = AddCommand.parseTags (AddCommand.tags opts))).
Proof.
  destruct (read_port (AddCommand.port opts)) as [p|] eqn:Hport.
  - rewrite (fleetAddCommand_eq name opts p s Hport).
    match goal with
    | |- context [Store.addNode ?i ?w] =>
        set (input := i); destruct (Store.addNode input w) as [[node|e] w'] eqn:Hadd
    end.
    + eexists. split; [reflexivity|]. right. exists node, p.
      destruct (addNode_appends input (Cli.world_of s) node w' Hadd)
        as (_ & Hnode & _ & Hfile & _).
      cbn [session_in Cli.world_of Cli.calls].
      split; [reflexivity|]. split; [reflexivity|]. split; [exact Hfile|].
      rewrite Hnode. repeat split.
    + eexists. split; [reflexivity|]. left. eexists.
      cbn [session_in Cli.world_of Cli.calls].
      split; [reflexivity|]. split; [|discriminate].
      destruct (accepts input) eqn:Hacc.
      * rewrite (addNode_eq input (Cli.world_of s) Hacc) in Hadd.
        destruct (find _ _); [|discriminate].
        injection Hadd as _ <-. apply inventory_ensured.
      * destruct (addNode_rejected input (Cli.world_of s) Hacc) as (e' & Hrej & _).
        rewrite Hrej in Hadd. now injection Hadd as _ <-.
  - destruct (read_port_guard (AddCommand.port opts)) as [Hguard _].
    unfold AddCommand.fleetAddCommand. rewrite Hguard, Hport.
    eexists. split; [reflexivity|]. left. eexists.
    cbn [Cli.world_of Cli.calls]. rewrite <- app_assoc.
    split; [reflexivity|]. split; [reflexivity|]. intros _. split; reflexivity.
Qed.

(** X26.  [fleetRmCommand] removes a node only under [--force].  It
    never throws.  For a name that no record bears (up to case) it reports
    "Node not found: <name>" and exits with 1; for a node that exists, and
    without [--force], it reports "Use --force to confirm removal of node
    '<name>'" and exits with 1: in both cases the world is left as it
    was.  With [--force] the first record of that name is removed, the
    other records keep their order, and the command prints one line (or
    one JSON document) without error or exit. *)
Theorem fleetRmCommand_outcome `{RT : Runtime} (name : jsstring)
    (opts : RmCommand.FleetRmOptions) (s : Cli.session) :
  exists s',
    RmCommand.fleetRmCommand name opts s = (Return tt, s')
    /\ match find (Store.same_name (Store.normalizeNodeName name))
                  (inventory (Cli.world_of s)) with
       | None =>
           s' = session_in (Cli.world_of s)
                  (Cli.calls s ++ [Cli.Error (js "Node not found: " ++ name);
                                   Cli.Exit 1])
       | Some node =>
           if RmCommand.force opts then
             Cli.calls s'
             = Cli.calls s
               ++ [if RmCommand.json opts
                   then Cli.LogJson (JObj [(js "removed", JStr name);
                                           (js "success", JBool true)])
                   else Cli.Log (js "Removed node: " ++ name)]
             /\ exists before rest,
                 inventory (Cli.world_of s) = before ++ node :: rest
                 /\ find (Store.same_name (Store.normalizeNodeName name)) before = None
                 /\ inventory (Cli.world_of s') = before ++ rest
           else
             s' = session_in (Cli.world_of s)
                    (Cli.calls s
                     ++ [Cli.Error (js "Use --force to confirm removal of node '"
                                    ++ name ++ js "'");
                         Cli.Exit 1])
       end.
Proof.
  unfold RmCommand.fleetRmCommand, Cli.ctry, Cli.cbind at 1, Cli.await at 1.
  rewrite getNode_eq. fold (inventory (Cli.world_of s)).
  destruct (find _ (inventory (Cli.world_of s))) as [node|] eqn:Hfind.
  - destruct (RmCommand.force opts); cbn [negb].
    + unfold Cli.cbind at 1, Cli.await. cbn [Cli.world_of Cli.calls].
      rewrite removeNode_eq.
      destruct (Store.findIndex (Store.same_name (Store.normalizeNodeName name))
                                (inventory (Cli.world_of s))) as [i|] eqn:Hi.
      * destruct (findIndex_split _ _ _ Hi)
          as (before & a & rest & Hl & _ & _ & Hb & Hf & Hr & _ & _).
        assert (a = node) by congruence. subst a. cbn [negb].
        assert (Hinv : forall w',
                   nodes_file w'
                   = JsonText (Some (Store.store_to_json
                        {| Store.schemaVersion :=
                             Store.schemaVersion
                               (inventory_of (nodes_file (Cli.world_of s)));
                           Store.nodes :=
                             Store.remove_nth (inventory (Cli.world_of s)) i |})) ->
                   inventory w' = before ++ rest).
        { intros w' Hfile. rewrite Hr in Hfile.
          eapply inventory_written; [exact Hfile|apply version_one|].
          apply (Forall_app_drop _ before node rest). rewrite <- Hl.
          apply inventory_valid. }
        destruct (RmCommand.json opts);
          (eexists; split; [reflexivity|]; cbn [Cli.world_of Cli.calls];
           split; [reflexivity|]; exists before, rest;
           split; [exact Hl|]; split; [exact Hb|]; now apply Hinv).
      * apply findIndex_None in Hi. congruence.
    + eexists. split; [reflexivity|]. unfold session_in.
      cbn [Cli.world_of Cli.calls]. now rewrite <- app_assoc.
  - eexists. split; [reflexivity|]. unfold session_in.
    cbn [Cli.world_of Cli.calls]. now rewrite <- app_assoc.
Qed.

Lemma read_timeout_guard text :
  negb (Cli.Number_isFinite (Cli.Number_parseInt text))
  || Cli.less_than (Cli.Number_parseInt text) 1000
  = match read_timeout text with Some _ => false | None => true end
  /\ forall t, read_timeout text = Some t ->
               Cli.Number_parseInt text = Some t /\ (1000 <= t)%Z.
Proof.
  unfold read_timeout.
  destruct (Cli.Number_parseInt text) as [t|]; [|split; [reflexivity|discriminate]].
  unfold Cli.less_than.
  destruct (Cli.Number_isFinite (Some t)), (Z.ltb_spec t 1000), (Z.leb_spec 1000 t);
    cbn [negb orb andb]; try lia; (split; [reflexivity|]); try discriminate.
  intros q E. injection E as <-. split; [reflexivity|lia].
Qed.

(** A key scan: it returns, it leaves the files alone, and it spawns at
    most one process, an ssh-keyscan. *)
Lemma sshKeyscan_effect host port timeoutMs w :
  exists r w1 calls,
    Transport.sshKeyscan host port timeoutMs w = (Return r, w1)
    /\ nodes_file w1 = nodes_file w
    /\ known_hosts_file w1 = known_hosts_file w
    /\ spawned w1 = spawned w ++ calls
    /\ Forall (fun c => spawn_file c = js "/usr/bin/ssh-keyscan") calls
    /\ (List.length calls <= 1)%nat.
Proof.
  unfold Transport.sshKeyscan. destruct (startsWith (js "-") host).
  - eexists. exists w, []. rewrite app_nil_r. repeat split; auto.
  - unfold bind, spawn_and_wait.
    destruct (children w (List.length (spawned w)));
      (eexists; eexists; eexists; split; [reflexivity|];
       cbn [nodes_file known_hosts_file spawned record_spawn];
       repeat split; [repeat constructor|cbn; lia]).
Qed.

(** X27.  [fleetPingCommand] refuses a host whose key has changed.  For
    a timeout of at least 1000 and a known_hosts file that can be read or
    is missing: when the node has a pinned key, the key scan succeeds and
    none of the scanned keys is the pinned key (same algorithm and same
    key), then without [--trust-host-key-change] the command reports "Host key
    changed for <host>:<port>! Use --trust-host-key-change to accept the
    new key." and exits with 1.  It runs no ssh command on the node: the
    only process spawned is the ssh-keyscan; the known_hosts file and the
    inventory are left as they were. *)
Theorem fleetPingCommand_refuses_changed_key `{RT : Runtime} (name : jsstring)
    (opts : PingCommand.FleetPingOptions) (path : jsstring) (s : Cli.session)
    (t : Z) (node : Store.FleetNode) (pinnedKey : HostKeys.HostKeyEntry)
    (scan : Transport.KeyscanResult) (w1 : world)
    (Htimeout : read_timeout (PingCommand.timeout opts) = Some t)
    (Hnode : find (Store.same_name (Store.normalizeNodeName name))
                  (inventory (Cli.world_of s)) = Some node)
    (Hfile : known_hosts_file (Cli.world_of s) <> TextUnreadable)
    (Hpinned : preferred (keys_of (Store.host node) (Store.port node)
                            (known_hosts_file (Cli.world_of s))) = Some pinnedKey)
    (Hscan : Transport.sshKeyscan (Store.host node) (Store.port node) t
               (Cli.world_of s) = (Return scan, w1))
    (Hscanned : PingCommand.scan_failed scan = false)
    (Hchanged : find (PingCommand.same_key pinnedKey)
                     (HostKeys.parseKeyscanOutput (Transport.output scan)
                        (Store.host node) (Store.port node)) = None)
    (Htrust : PingCommand.trustHostKeyChange opts = false) :
  PingCommand.fleetPingCommand name opts path s
  = (Return tt,
     session_in w1
       (Cli.calls s
        ++ [ping_error (PingCommand.json opts) name
              (js "Host key changed for " ++ Store.host node ++ js ":"
               ++ show (Store.port node)
               ++ js "! Use --trust-host-key-change to accept the new key.");
            Cli.Exit 1]))
  /\ known_hosts_file w1 = known_hosts_file (Cli.world_of s)
  /\ nodes_file w1 = nodes_file (Cli.world_of s)
  /\ exists calls,
      spawned w1 = spawned (Cli.world_of s) ++ calls
      /\ Forall (fun c => spawn_file c = js "/usr/bin/ssh-keyscan") calls.
Proof.
  destruct (sshKeyscan_effect (Store.host node) (Store.port node) t (Cli.world_of s))
    as (r0 & w0 & calls & Hrun & Hn & Hk & Hsp & Hall & _).
  rewrite Hscan in Hrun. injection Hrun as <- <-.
  split; [|split; [exact Hk|split; [exact Hn|exists calls; split; assumption]]].
  destruct (read_timeout_guard (PingCommand.timeout opts)) as [Hguard Hread].
  destruct (Hread t Htimeout) as [Hparse _].
  unfold PingCommand.fleetPingCommand. rewrite Hguard, Htimeout, Hparse.
  unfold Cli.ctry, Cli.cbind at 1, Cli.await at 1.
  rewrite getNode_eq. fold (inventory (Cli.world_of s)). rewrite Hnode.
  unfold Cli.cbind at 1, PingCommand.checkHostKey, Cli.cbind at 1, Cli.await at 1.
  cbn [Cli.world_of Cli.calls].
  rewrite (getHostKey_eq _ _ _ Hfile), Hpinned.
  unfold Cli.cbind at 1, Cli.await at 1. cbn [Cli.world_of Cli.calls].
  rewrite Hscan, Hscanned, Hchanged, Htrust. cbn [negb].
  unfold ping_error, PingCommand.outputError, session_in.
  destruct (PingCommand.json opts);
    unfold Cli.cbind, Cli.log_json, Cli.error, Cli.exit, Cli.call, Cli.cret;
    cbn [Cli.world_of Cli.calls]; now rewrite <- app_assoc.
Qed.

Lemma fleetPingCommand_refuses_changed_key_witness :
  exists w1 message,
    PingCommand.fleetPingCommand (js "edge-1") (ping_options false) (js "/k")
      (session_in rekeyed_world [])
    = (Return tt,
       session_in w1 [Cli.Error (js "edge-1: " ++ message); Cli.Exit 1])
    /\ known_hosts_file w1 = known_hosts_file rekeyed_world
    /\ List.length (spawned w1) = 1%nat.
Proof.
  eexists. eexists.
  destruct (fleetPingCommand_refuses_changed_key (js "edge-1") (ping_options false)
              (js "/k") (session_in rekeyed_world []) 10000
              (sample_node (js "edge-1"))
              {| HostKeys.host := js "192.168.1.100"; HostKeys.port := 22;
                 HostKeys.keyType := js "ssh-ed25519"; HostKeys.key := js "AAAAC3Nz" |}
              {| Transport.output := js "192.168.1.100 ssh-ed25519 AAAAC3Zz
";
                 Transport.scanExitCode := Some 0%Z; Transport.error := None |}
              (after (Transport.sshKeyscan (js "192.168.1.100") 22 10000) rekeyed_world)
              ltac:(vm_compute; reflexivity) ltac:(vm_compute; reflexivity)
              ltac:(discriminate) ltac:(vm_compute; reflexivity)
              ltac:(vm_compute; reflexivity) ltac:(vm_compute; reflexivity)
              ltac:(vm_compute; reflexivity) eq_refl)
    as (Hrun & Hk & _ & _).
  split; [exact Hrun|]. split; [exact Hk|reflexivity].
Defined.

Section StatusFacts.
Context `{RT : Runtime}.

(** The loop of [fleetStatusCommand] in JSON mode: one result per node,
    in the order of the nodes, no call to the runtime, and at most one
    process per node. *)
Lemma checkNodes_json opts timeoutMs path nodes results s :
  StatusCommand.json opts = true ->
  exists diags s' spawns,
    StatusCommand.checkNodes opts timeoutMs path nodes results s
    = (Return (results ++ diags), s')
    /\ Cli.calls s' = Cli.calls s
    /\ map Diagnostics.name diags = map Store.name nodes
    /\ map Diagnostics.host diags = map Store.host nodes
    /\ spawned (Cli.world_of s') = spawned (Cli.world_of s) ++ spawns
    /\ (List.length spawns <= List.length nodes)%nat.
Proof.
  intros Hjson. revert results s.
  induction nodes as [|node rest IH]; intros results s.
  - exists [], s, []. rewrite !app_nil_r. cbn. repeat split; auto.
  - cbn [StatusCommand.checkNodes]. rewrite Hjson. cbn [negb].
    unfold Cli.cbind at 1, Cli.cret at 1.
    unfold Cli.cbind at 1, Cli.await at 1.
    destruct (runNodeDiagnostics_effect node timeoutMs path (Cli.world_of s))
      as (d & w1 & Hrun & _ & Hsp1 & Hname & Hhost & _).
    rewrite Hrun.
    assert (Hupdate : exists s1,
               (if Diagnostics.online d
                then Cli.cbind (Cli.await (Store.updateNode (Store.name node)
                                             (StatusCommand.seen_update d)))
                               (fun _ => Cli.cret tt)
                else Cli.cret tt)
                 {| Cli.world_of := w1; Cli.calls := Cli.calls s |}
               = (Return tt, s1)
               /\ Cli.calls s1 = Cli.calls s
               /\ spawned (Cli.world_of s1) = spawned w1).
    { destruct (Diagnostics.online d).
      - destruct (updateNode_returns (Store.name node) (StatusCommand.seen_update d) w1
                    eq_refl eq_refl eq_refl) as (u & w2 & Hu).
        pose proof (updateNode_spawned (Store.name node) (StatusCommand.seen_update d)
                      w1 eq_refl) as Hsp2.
        rewrite Hu in Hsp2. cbn [snd] in Hsp2.
        unfold Cli.cbind, Cli.await, Cli.cret. cbn [Cli.world_of Cli.calls].
        rewrite Hu. eexists. split; [reflexivity|]. split; [reflexivity|exact Hsp2].
      - eexists. split; [reflexivity|]. split; reflexivity. }
    destruct Hupdate as (s1 & Hupdate & Hcalls1 & Hsp2).
    unfold Cli.cbind at 1. rewrite Hupdate.
    destruct (IH (results ++ [d]) s1)
      as (diags & s' & spawns & Hloop & Hcalls & Hnames & Hhosts & Hsp & Hlen).
    rewrite Hloop, <- app_assoc.
    assert (Hone : exists first, spawned w1 = spawned (Cli.world_of s) ++ first
                                 /\ (List.length first <= 1)%nat).
    { destruct Hsp1 as [Hsame|(call & Hcall & _)].
      - exists []. rewrite app_nil_r. split; [exact Hsame|cbn; lia].
      - exists [call]. split; [exact Hcall|cbn; lia]. }
    destruct Hone as (first & Hfirst & Hlen1).
    exists (d :: diags), s', (first ++ spawns). split; [reflexivity|].
    split; [congruence|]. cbn [map]. split; [now rewrite Hname, Hnames|].
    split; [now rewrite Hhost, Hhosts|].
    split; [now rewrite Hsp, Hsp2, Hfirst, app_assoc|].
    rewrite length_app. cbn [List.length]. lia.
Qed.

End StatusFacts.

(** X28.  In JSON mode [fleetStatusCommand] prints one document.  With
    [--json] and a timeout of at least 1000, the command never throws and
    makes one call of [log] with a JSON document: for a name that no node
    bears, the document [{error: "Node not found: <name>"}], followed by
    [exit(1)], and the world is left as it was; otherwise the document
    [{nodes: [...]}] with one entry per node checked, in the order of the
    inventory and with the name and the host of the node, without error or
    exit, after at most one process per node. *)
Theorem fleetStatusCommand_json `{RT : Runtime} (name : option jsstring)
    (opts : StatusCommand.FleetStatusOptions) (path : jsstring) (s : Cli.session)
    (t : Z)
    (Hjson : StatusCommand.json opts = true)
    (Htimeout : read_timeout (StatusCommand.timeout opts) = Some t) :
  exists s',
    StatusCommand.fleetStatusCommand name opts path s = (Return tt, s')
    /\ match status_selection name (inventory (Cli.world_of s)) with
       | None =>
           s' = session_in (Cli.world_of s)
                  (Cli.calls s
                   ++ [Cli.LogJson
                         (JObj [(js "error",
                                 JStr (js "Node not found: " ++ name_text name))]);
                       Cli.Exit 1])
       | Some nodes =>
           exists results spawns,
             Cli.calls s'
             = Cli.calls s
               ++ [Cli.LogJson
                     (JObj [(js "nodes",
                             JArr (map StatusCommand.diagnostics_to_json results))])]
             /\ map Diagnostics.name results = map Store.name nodes
             /\ map Diagnostics.host results = map Store.host nodes
             /\ spawned (Cli.world_of s') = spawned (Cli.world_of s) ++ spawns
             /\ (List.length spawns <= List.length nodes)%nat
       end.
Proof.
  destruct (read_timeout_guard (StatusCommand.timeout opts)) as [Hguard Hread].
  destruct (Hread t Htimeout) as [Hparse _].
  unfold StatusCommand.fleetStatusCommand. rewrite Hguard, Htimeout, Hparse.
  assert (Hchecked : forall nodes s0,
             Cli.world_of s0 = Cli.world_of s -> Cli.calls s0 = Cli.calls s ->
             exists s',
               (if (List.length nodes =? 0)%nat
                then Cli.log_json (JObj [(js "nodes", JArr [])])
                else
                  Cli.cbind (StatusCommand.checkNodes opts t path nodes [])
                    (fun results =>
                       Cli.log_json
                         (JObj [(js "nodes",
                                 JArr (map StatusCommand.diagnostics_to_json results))])))
                 s0
               = (Return tt, s')
               /\ exists results spawns,
                   Cli.calls s'
                   = Cli.calls s
                     ++ [Cli.LogJson
                           (JObj [(js "nodes",
                                   JArr (map StatusCommand.diagnostics_to_json
                                             results))])]
                   /\ map Diagnostics.name results = map Store.name nodes
                   /\ map Diagnostics.host results = map Store.host nodes
                   /\ spawned (Cli.world_of s') = spawned (Cli.world_of s) ++ spawns
                   /\ (List.length spawns <= List.length nodes)%nat).
  { intros nodes s0 Hw Hc. destruct nodes as [|node rest].
    - cbn [List.length Nat.eqb]. eexists. split; [reflexivity|].
      exists [], []. cbn [Cli.calls Cli.world_of map List.length].
      rewrite Hc, Hw, app_nil_r. repeat split; auto.
    - cbn [List.length Nat.eqb].
      destruct (checkNodes_json opts t path (node :: rest) [] s0 Hjson)
        as (diags & s1 & spawns & Hloop & Hcalls & Hnames & Hhosts & Hsp & Hlen).
      unfold Cli.cbind. rewrite Hloop. cbn [app].
      eexists. split; [reflexivity|]. exists diags, spawns.
      cbn [Cli.calls Cli.world_of]. rewrite Hcalls, Hc, <- Hw.
      repeat split; assumption. }
  unfold Cli.ctry, Cli.cbind at 1.
  unfold status_selection.
  destruct name as [[|c n]|].
  - unfold Cli.cbind at 1, Cli.await at 1. rewrite listNodes_eq.
    fold (inventory (Cli.world_of s)). unfold Cli.cret at 1. rewrite Hjson.
    destruct (Hchecked (inventory (Cli.world_of s))
                {| Cli.world_of := Cli.world_of s; Cli.calls := Cli.calls s |}
                eq_refl eq_refl) as (s' & Hrun & Hres).
    rewrite Hrun. exists s'. split; [reflexivity|exact Hres].
  - unfold Cli.cbind at 1, Cli.await at 1. rewrite getNode_eq.
    fold (inventory (Cli.world_of s)).
    destruct (find _ (inventory (Cli.world_of s))) as [node|].
    + unfold Cli.cret at 1. rewrite Hjson.
      destruct (Hchecked [node]
                  {| Cli.world_of := Cli.world_of s; Cli.calls := Cli.calls s |}
                  eq_refl eq_refl) as (s' & Hrun & Hres).
      rewrite Hrun. exists s'. split; [reflexivity|exact Hres].
    + rewrite Hjson. eexists. split; [reflexivity|].
      unfold session_in, name_text. cbn [Cli.world_of Cli.calls].
      now rewrite <- app_assoc.
  - unfold Cli.cbind at 1, Cli.await at 1. rewrite listNodes_eq.
    fold (inventory (Cli.world_of s)). unfold Cli.cret at 1. rewrite Hjson.
    destruct (Hchecked (inventory (Cli.world_of s))
                {| Cli.world_of := Cli.world_of s; Cli.calls := Cli.calls s |}
                eq_refl eq_refl) as (s' & Hrun & Hres).
    rewrite Hrun. exists s'. split; [reflexivity|exact Hres].
Qed.

Lemma fleetStatusCommand_json_witness :
  exists s' results,
    StatusCommand.fleetStatusCommand None (status_options true) (js "/k")
      (session_in two_node_world []) = (Return tt, s')
    /\ Cli.calls s'
       = [Cli.LogJson
            (JObj [(js "nodes", JArr (map StatusCommand.diagnostics_to_json results))])]
    /\ map Diagnostics.name results = [js "edge-1"; js "edge-2"].
Proof.
  destruct (fleetStatusCommand_json None (status_options true) (js "/k")
              (session_in two_node_world []) 10000 eq_refl
              ltac:(vm_compute; reflexivity))
    as (s' & Hrun & Hres).
  assert (Hnodes : status_selection None (inventory (Cli.world_of
                                                       (session_in two_node_world [])))
                   = Some [sample_node (js "edge-1"); sample_node (js "edge-2")])
    by (vm_compute; reflexivity).
  rewrite Hnodes in Hres. destruct Hres as (results & spawns & Hcalls & Hnames & _).
  exists s', results. split; [exact Hrun|]. split; [exact Hcalls|exact Hnames].
Defined.
